(** * Antigravity proxy: protocol translator, tool-name cache and signature cache

    A shallow embedding of the translator functions of the gateway
    (tool-name sanitising, model-name mapping, finish-reason mapping, the two
    bounded caches, session-id derivation, the Gemini inbound converter and
    the OpenAI outbound converters) together with the properties the
    specification states about them.

    Conventions of the embedding.
    - A JavaScript string is a [string]: one [ascii] per UTF-16 code unit,
      which covers the code units below 256; [toLowerCase], [trim] and the
      regular expressions are modelled on these.
    - [Date.now()], [crypto.randomUUID()], [crypto.randomBytes] and the
      SHA-256 digest are inputs of the functions that call them.
    - A JavaScript [Map] whose insertion order is observable is an
      association list in insertion order; one whose order is not observed
      is a [gmap].
    - Upstream payloads are typed after the native format of the
      specification (section 4.2); a field that may be absent is an
      [option]. *)

From Stdlib Require Import Ascii ZArith QArith Lia.
From Stdlib Require String.
From stdpp Require Import base option list gmap strings.

Local Open Scope Z_scope.

(** ** JavaScript string primitives *)

Module JS.

(** Values a dynamically typed argument can take; only the tag and, for a
    string, its contents are observed by the code modelled here.  [Object]
    stands for a value of any other type ([typeof] is not ['string']). *)
Inductive value :=
| Undefined
| Null
| Bool (b : bool)
| Number (n : Z)
| Str (s : string)
| Object.

Definition code (c : ascii) : N := N_of_ascii c.

Definition in_range (lo hi c : ascii) : bool :=
  (code lo <=? code c)%N && (code c <=? code hi)%N.

(** The class [\d]. *)
Definition is_digit (c : ascii) : bool := in_range "0" "9" c.

(** The class [[a-zA-Z0-9_-]]. *)
Definition is_word_or_hyphen (c : ascii) : bool :=
  in_range "a" "z" c || in_range "A" "Z" c || in_range "0" "9" c
  || Ascii.eqb c "_" || Ascii.eqb c "-".

Fixpoint map (f : ascii -> ascii) (s : string) : string :=
  match s with
  | EmptyString => EmptyString
  | String c s' => String (f c) (map f s')
  end.

Fixpoint forallb (f : ascii -> bool) (s : string) : bool :=
  match s with
  | EmptyString => true
  | String c s' => f c && forallb f s'
  end.

(** [s.slice(0, n)] *)
Fixpoint slice0 (n : nat) (s : string) : string :=
  match n, s with
  | S n', String c s' => String c (slice0 n' s')
  | _, _ => EmptyString
  end.

(** [s.slice(n)] *)
Fixpoint slice_from (n : nat) (s : string) : string :=
  match n, s with
  | S n', String _ s' => slice_from n' s'
  | _, _ => s
  end.

(** [s.startsWith(p)] *)
Fixpoint startsWith (p s : string) : bool :=
  match p, s with
  | EmptyString, _ => true
  | String a p', String b s' => Ascii.eqb a b && startsWith p' s'
  | String _ _, EmptyString => false
  end.

(** [s.includes(p)] *)
Fixpoint includes (p s : string) : bool :=
  startsWith p s ||
  match s with
  | EmptyString => false
  | String _ s' => includes p s'
  end.

(** [String.prototype.toLowerCase] on code units below 256: [A-Z] and
    the Latin-1 capitals U+00C0..U+00DE other than U+00D7 move up by 32. *)
Definition lower_char (c : ascii) : ascii :=
  let n := code c in
  if ((65 <=? n) && (n <=? 90))%N
     || ((192 <=? n) && (n <=? 222) && negb (n =? 215))%N
  then ascii_of_N (n + 32)
  else c.

Definition toLowerCase (s : string) : string := map lower_char s.

(** White space removed by [String.prototype.trim], below 256. *)
Definition is_space (c : ascii) : bool :=
  let n := code c in
  ((9 <=? n) && (n <=? 13) || (n =? 32) || (n =? 160))%N.

Fixpoint trimStart (s : string) : string :=
  match s with
  | String c s' => if is_space c then trimStart s' else s
  | EmptyString => EmptyString
  end.

Fixpoint trimEnd (s : string) : string :=
  match s with
  | EmptyString => EmptyString
  | String c s' =>
      if is_space c && forallb is_space s' then EmptyString
      else String c (trimEnd s')
  end.

Definition trim (s : string) : string := trimEnd (trimStart s).

(** [a === b] on strings. *)
Definition eq (a b : string) : bool := String.eqb a b.

(** [a || b] on strings: the empty string is falsy. *)
Definition or_str (a b : string) : string :=
  match a with EmptyString => b | _ => a end.

(** Truthiness of an optional string: absent and empty are falsy. *)
Definition truthy (o : option string) : bool :=
  match o with
  | Some (String _ _) => true
  | _ => false
  end.

End JS.

(** ** constants.js: model-name mapping and model families *)

Module Constants.

Definition MIN_SIGNATURE_LENGTH : nat := 50.
Definition GEMINI_MAX_OUTPUT_TOKENS : Z := 16384.
Definition GEMINI_SIGNATURE_CACHE_TTL_MS : Z := 2 * 60 * 60 * 1000.

(** Pattern and replacement, in the order [Object.entries] walks them. *)
Definition MODEL_REDIRECTS : list (string * string) :=
  [("haiku", "gemini-2.5-flash-lite")].

(** The subject from this offset on is a hyphen and eight digits and
    nothing more: [/-\d{8}$/] anchored here. *)
Definition date_suffix_here (s : string) : bool :=
  match s with
  | String c d =>
      Ascii.eqb c "-" && (String.length d =? 8)%nat && JS.forallb JS.is_digit d
  | EmptyString => false
  end.

(** [MODEL_DATE_SUFFIX_REGEX.test(s)]: the first offset where the pattern
    matches, scanning from the left. *)
Fixpoint test_date_suffix (s : string) : bool :=
  date_suffix_here s ||
  match s with
  | EmptyString => false
  | String _ s' => test_date_suffix s'
  end.

(** [s.replace(MODEL_DATE_SUFFIX_REGEX, '')] *)
Fixpoint replace_date_suffix (s : string) : string :=
  if date_suffix_here s then EmptyString
  else match s with
       | EmptyString => EmptyString
       | String c s' => String c (replace_date_suffix s')
       end.

(** The loop over the redirect table: the first pattern contained in
    [lower] decides. *)
Fixpoint find_redirect (lower : string) (table : list (string * string))
  : option string :=
  match table with
  | [] => None
  | (pattern, replacement) :: rest =>
      if JS.includes pattern lower then Some replacement
      else find_redirect lower rest
  end.

Definition mapModelName (modelName : string) : string :=
  match modelName with
  | EmptyString => modelName
  | _ =>
      let lower := JS.toLowerCase modelName in
      match find_redirect lower MODEL_REDIRECTS with
      | Some replacement => replacement
      | None =>
          if test_date_suffix modelName then replace_date_suffix modelName
          else modelName
      end
  end.

Inductive family := claude | gemini | unknown.

Definition getModelFamily (modelName : string) : family :=
  let lower := JS.toLowerCase modelName in
  if JS.includes "claude" lower then claude
  else if JS.includes "gemini" lower then gemini
  else unknown.

Fixpoint leading_digits (s : string) : string :=
  match s with
  | String c s' => if JS.is_digit c then String c (leading_digits s') else EmptyString
  | EmptyString => EmptyString
  end.

(** [parseInt(digits, 10)] on a run of decimal digits. *)
Fixpoint parseInt_digits (acc : N) (s : string) : N :=
  match s with
  | EmptyString => acc
  | String c s' => parseInt_digits (10 * acc + (JS.code c - 48))%N s'
  end.

(** Group 1 of the leftmost match of [/gemini-(\d+)/]. *)
Fixpoint match_gemini_version (s : string) : option string :=
  let here :=
    if JS.startsWith "gemini-" s then
      match leading_digits (JS.slice_from 7 s) with
      | EmptyString => None
      | d => Some d
      end
    else None in
  match here, s with
  | Some d, _ => Some d
  | None, String _ s' => match_gemini_version s'
  | None, EmptyString => None
  end.

Definition isThinkingModel (modelName : string) : bool :=
  let lower := JS.toLowerCase modelName in
  if JS.includes "claude" lower && JS.includes "thinking" lower then true
  else if JS.includes "gemini" lower then
    if JS.includes "thinking" lower then true
    else match match_gemini_version lower with
         | Some d => (3 <=? parseInt_digits 0 d)%N
         | None => false
         end
  else false.

End Constants.

(** ** format/openai/response-converter.js: [mapFinishReason] *)

Module FinishReason.

(** The argument is [candidate.finishReason]; [None] is [undefined]. *)
Definition mapFinishReason (googleReason : option string) : string :=
  match googleReason with
  | Some "STOP" => "stop"
  | Some "MAX_TOKENS" => "length"
  | Some "TOOL_USE" | Some "FUNCTION_CALL" => "tool_calls"
  | Some "SAFETY" => "content_filter"
  | _ => "stop"
  end.

End FinishReason.

(** ** utils/tool-name-cache.js *)

Module ToolNameCache.

Record entry := Entry { originalName : string; ts : Z }.

(** The module-level [Map], in insertion order: [pruneSize] deletes from
    the front, so the order is observable. *)
Definition store := list (string * entry).

Definition MAX_ENTRIES : nat := 512.
Definition ENTRY_TTL_MS : Z := 30 * 60 * 1000.
Definition CLEANUP_INTERVAL_MS : Z := 10 * 60 * 1000.

(** [Map.prototype.get] *)
Fixpoint map_get (key : string) (m : store) : option entry :=
  match m with
  | [] => None
  | (k, e) :: m' => if JS.eq k key then Some e else map_get key m'
  end.

(** [Map.prototype.set]: a key already present keeps its position and
    takes the new value, a new key goes to the end. *)
Fixpoint map_set (key : string) (v : entry) (m : store) : store :=
  match m with
  | [] => [(key, v)]
  | (k, e) :: m' =>
      if JS.eq k key then (k, v) :: m' else (k, e) :: map_set key v m'
  end.

(** [Map.prototype.delete] *)
Fixpoint map_delete (key : string) (m : store) : store :=
  match m with
  | [] => []
  | (k, e) :: m' =>
      if JS.eq k key then m' else (k, e) :: map_delete key m'
  end.

(** An absent session id, model or name arrives as the empty string,
    which is what [x || ''] makes of it. *)
Definition makeKey (sessionId model safeName : string) : string :=
  sessionId +:+ "::" +:+ model +:+ "::" +:+ safeName.

(** Deletes keys in iteration order until [removeCount] are gone. *)
Definition pruneSize (targetSize : nat) (m : store) : store :=
  if (length m <=? targetSize)%nat then m
  else drop (length m - targetSize) m.

Definition expired (now : Z) (e : entry) : bool := ENTRY_TTL_MS <? now - ts e.

Definition pruneExpired (now : Z) (m : store) : store :=
  List.filter (fun ke => negb (expired now (snd ke))) m.

Definition setToolNameMapping (now : Z)
    (sessionId model safeName originalName : string) (m : store) : store :=
  match safeName, originalName with
  | EmptyString, _ | _, EmptyString => m
  | _, _ =>
      if JS.eq safeName originalName then m
      else
        let key := makeKey sessionId model safeName in
        pruneSize MAX_ENTRIES
          (map_set key {| originalName := originalName; ts := now |} m)
  end.

(** Returns the name found ([None] is [null]) and the map, from which an
    expired entry has been deleted. *)
Definition getOriginalToolName (now : Z)
    (sessionId model safeName : string) (m : store) : option string * store :=
  match safeName with
  | EmptyString => (None, m)
  | _ =>
      let key := makeKey sessionId model safeName in
      match map_get key m with
      | None => (None, m)
      | Some e =>
          if expired now e then (None, map_delete key m)
          else (match originalName e with
                | EmptyString => None
                | n => Some n
                end, m)
      end
  end.

Definition clearToolNameMappings (m : store) : store := [].

Definition getCacheSize (m : store) : nat := length m.

(** The states the module can be in: those the exported functions and
    the periodic sweep produce from the empty map. *)
Inductive reachable : store -> Prop :=
| reach_empty : reachable []
| reach_set now s mo safe orig m :
    reachable m -> reachable (setToolNameMapping now s mo safe orig m)
| reach_get now s mo safe m :
    reachable m -> reachable (snd (getOriginalToolName now s mo safe m))
| reach_sweep now m :
    reachable m -> reachable (pruneExpired now m)
| reach_clear m :
    reachable m -> reachable (clearToolNameMappings m).

End ToolNameCache.

(** ** format/signature-cache.js *)

Module SignatureCache.

Record entry := Entry { signature : string; timestamp : Z }.

Definition CLEANUP_INTERVAL_MS : Z := 5 * 60 * 1000.

Definition cacheSignature (now : Z) (toolUseId signature : string)
    (cache : gmap string entry) : gmap string entry :=
  match toolUseId, signature with
  | EmptyString, _ | _, EmptyString => cache
  | _, _ => <[toolUseId := {| signature := signature; timestamp := now |}]> cache
  end.

Definition expired (now : Z) (e : entry) : bool :=
  Constants.GEMINI_SIGNATURE_CACHE_TTL_MS <? now - timestamp e.

Definition getCachedSignature (now : Z) (toolUseId : string)
    (cache : gmap string entry) : option string * gmap string entry :=
  match toolUseId with
  | EmptyString => (None, cache)
  | _ =>
      match cache !! toolUseId with
      | None => (None, cache)
      | Some e =>
          if expired now e then (None, delete toolUseId cache)
          else (Some (signature e), cache)
      end
  end.

Definition cleanupCache (now : Z) (cache : gmap string entry)
  : gmap string entry :=
  filter (fun ke => expired now (snd ke) = false) cache.

Definition getCacheSize (cache : gmap string entry) : nat := size cache.

End SignatureCache.

(** The two module-level caches, threaded through the converters. *)
Record caches := Caches {
  toolNameMap : ToolNameCache.store;
  signatureCache : gmap string SignatureCache.entry
}.

(** ** JSON trees, for the values the translator passes through *)

Module Json.

#[warnings="-register-all"]
Inductive json :=
| JNull
| JBool (b : bool)
| JNum (q : Q)
| JStr (s : string)
| JArr (items : list json)
| JObj (fields : list (string * json)).

(** The properties of an object, in insertion order. *)
Definition object := list (string * json).

(** [o[key]]; [None] is [undefined]. *)
Fixpoint get (key : string) (o : object) : option json :=
  match o with
  | [] => None
  | (k, v) :: o' => if JS.eq k key then Some v else get key o'
  end.

(** [o[key] = v] *)
Fixpoint set (key : string) (v : json) (o : object) : object :=
  match o with
  | [] => [(key, v)]
  | (k, w) :: o' =>
      if JS.eq k key then (k, v) :: o' else (k, w) :: set key v o'
  end.

End Json.

(** ** utils/tool-converter.js *)

Module ToolConverter.

(** [name.replace(/[^a-zA-Z0-9_-]/g, '_')] *)
Definition replace_unsafe (name : string) : string :=
  JS.map (fun c => if JS.is_word_or_hyphen c then c else "_"%char) name.

Definition is_underscore (c : ascii) : bool := Ascii.eqb c "_".

(** The alternative [^_+]: only at offset 0, the longest run of
    underscores. *)
Fixpoint strip_leading_run (s : string) : string :=
  match s with
  | String c s' => if is_underscore c then strip_leading_run s' else s
  | EmptyString => EmptyString
  end.

(** The alternative [_+$], tried at every later offset: it matches where
    the rest of the subject is a non-empty run of underscores. *)
Fixpoint strip_trailing_run (s : string) : string :=
  match s with
  | EmptyString => EmptyString
  | String c s' =>
      if is_underscore c && JS.forallb is_underscore s' then EmptyString
      else String c (strip_trailing_run s')
  end.

(** [cleaned.replace(/^_+|_+$/g, '')] *)
Definition replace_edge_underscores (s : string) : string :=
  strip_trailing_run (strip_leading_run s).

Definition sanitizeToolName (name : JS.value) : string :=
  match name with
  | JS.Str (String _ _ as name) =>
      let cleaned := replace_unsafe name in
      let cleaned := replace_edge_underscores cleaned in
      let cleaned := match cleaned with EmptyString => "tool" | _ => cleaned end in
      if (128 <? String.length cleaned)%nat then JS.slice0 128 cleaned
      else cleaned
  | _ => "tool"
  end.

(** *** Tool declarations *)

Definition Schema := Json.object.

Record FunctionDeclaration := {
  name : string;
  description : string;
  parameters : Schema
}.

(** A declaration as it arrives; an absent field is [None]. *)
Record Declaration := {
  d_name : option string;
  d_description : option string;
  d_parameters : option Schema
}.

(** A Gemini tool object; the converter branches on which fields it has. *)
Record GeminiTool := {
  functionDeclarations : option (list Declaration);
  t_name : option string;
  t_description : option string;
  t_parameters : option Schema;
  t_input_schema : option Schema
}.

Inductive AntigravityTool :=
| Declarations (functionDeclarations : list FunctionDeclaration)
| AsIs (tool : GeminiTool).

Definition value_of (name : option string) : JS.value :=
  match name with
  | Some s => JS.Str s
  | None => JS.Undefined
  end.

Section Tools.

(** format/schema-sanitizer.js is outside this development: its two
    helpers are taken as given.  [None] is a falsy result. *)
Variable sanitizeSchema : Schema -> option Schema.
Variable cleanSchemaForGemini : Schema -> Schema.
Variable now : Z.

Definition convertSingleTool (name description : option string)
    (parameters : option Schema) (sessionId modelName : string)
    (m : ToolNameCache.store) : FunctionDeclaration * ToolNameCache.store :=
  let originalName := name in
  let safeName := sanitizeToolName (value_of originalName) in
  let m :=
    match sessionId, modelName with
    | String _ _, String _ _ =>
        if match originalName with
           | Some n => JS.eq safeName n
           | None => false
           end then m
        else ToolNameCache.setToolNameMapping now sessionId modelName
               safeName (default "" originalName) m
    | _, _ => m
    end in
  let rawParams := default [] parameters in
  let cleanedParams := default [] (sanitizeSchema rawParams) in
  let cleanedParams :=
    match Constants.getModelFamily modelName with
    | Constants.gemini => cleanSchemaForGemini cleanedParams
    | _ => cleanedParams
    end in
  let cleanedParams :=
    match Json.get "type" cleanedParams with
    | None => Json.set "type" (Json.JStr "object") cleanedParams
    | Some _ => cleanedParams
    end in
  let cleanedParams :=
    match Json.get "type" cleanedParams, Json.get "properties" cleanedParams with
    | Some (Json.JStr "object"), None =>
        Json.set "properties" (Json.JObj []) cleanedParams
    | _, _ => cleanedParams
    end in
  ({| name := safeName;
      description := default "" description;
      parameters := cleanedParams |}, m).

(** [declarations.map(fd => convertSingleTool(...))], left to right. *)
Fixpoint convert_declarations (fds : list Declaration)
    (sessionId modelName : string) (m : ToolNameCache.store)
  : list FunctionDeclaration * ToolNameCache.store :=
  match fds with
  | [] => ([], m)
  | fd :: rest =>
      let '(d, m) :=
        convertSingleTool (d_name fd) (d_description fd) (d_parameters fd)
          sessionId modelName m in
      let '(ds, m) := convert_declarations rest sessionId modelName m in
      (d :: ds, m)
  end.

Definition convert_gemini_tool (tool : GeminiTool)
    (sessionId modelName : string) (m : ToolNameCache.store)
  : AntigravityTool * ToolNameCache.store :=
  match functionDeclarations tool with
  | Some fds =>
      let '(ds, m) := convert_declarations fds sessionId modelName m in
      (Declarations ds, m)
  | None =>
      if JS.truthy (t_name tool) then
        let '(d, m) :=
          convertSingleTool (t_name tool) (t_description tool)
            (match t_parameters tool with
             | Some p => Some p
             | None => t_input_schema tool
             end) sessionId modelName m in
        (Declarations [d], m)
      else (AsIs tool, m)
  end.

Fixpoint convert_gemini_tools (tools : list GeminiTool)
    (sessionId modelName : string) (m : ToolNameCache.store)
  : list AntigravityTool * ToolNameCache.store :=
  match tools with
  | [] => ([], m)
  | tool :: rest =>
      let '(t, m) := convert_gemini_tool tool sessionId modelName m in
      let '(ts, m) := convert_gemini_tools rest sessionId modelName m in
      (t :: ts, m)
  end.

(** [None] is a missing ([undefined] or [null]) tools value. *)
Definition convertGeminiToolsToAntigravity (geminiTools : option (list GeminiTool))
    (sessionId modelName : string) (m : ToolNameCache.store)
  : list AntigravityTool * ToolNameCache.store :=
  match geminiTools with
  | None | Some [] => ([], m)
  | Some tools => convert_gemini_tools tools sessionId modelName m
  end.

End Tools.

End ToolConverter.

(** ** The native (upstream) response shape *)

Module Native.

(** [args] is kept as the text [JSON.stringify] gives for it. *)
Record FunctionCall := {
  fc_id : option string;
  fc_name : string;
  fc_args : option string
}.

Record FunctionResponse := {
  fr_id : option string;
  fr_name : string;
  fr_response : string
}.

(** One object with optional fields, as the converters see it: they
    branch on which fields are present.  [thought] is [part.thought === true]. *)
Record Part := {
  thought : bool;
  text : option string;
  thoughtSignature : option string;
  functionCall : option FunctionCall;
  functionResponse : option FunctionResponse
}.

Record Content := {
  role : option string;
  parts : option (list Part)
}.

Record Candidate := {
  content : option Content;
  finishReason : option string
}.

Record UsageMetadata := {
  promptTokenCount : option Z;
  candidatesTokenCount : option Z;
  cachedContentTokenCount : option Z
}.

Record GoogleResponse := {
  candidates : option (list Candidate);
  usageMetadata : option UsageMetadata;
  modelVersion : option string
}.

(** What [JSON.parse] gives for one SSE payload: the object read as a
    response itself, and its [response] field when it is an envelope. *)
Record SSEData := {
  response : option GoogleResponse;
  bare : GoogleResponse
}.

Definition empty_content : Content := {| role := None; parts := None |}.
Definition empty_candidate : Candidate :=
  {| content := None; finishReason := None |}.
Definition empty_usage : UsageMetadata :=
  {| promptTokenCount := None; candidatesTokenCount := None;
     cachedContentTokenCount := None |}.

(** [candidates?.[0] || {}] and [(candidates || [])[0] || {}] *)
Definition first_candidate (r : GoogleResponse) : Candidate :=
  match candidates r with
  | Some (c :: _) => c
  | _ => empty_candidate
  end.

(** [(candidate.content || {}).parts || []] *)
Definition candidate_parts (c : Candidate) : list Part :=
  match content c with
  | Some ct => default [] (parts ct)
  | None => []
  end.

(** [data.response || data] *)
Definition innerResponse (d : SSEData) : GoogleResponse :=
  default (bare d) (response d).

(** [n || fallback] on an optional number: absent and zero are falsy. *)
Definition or_num (n : option Z) (fallback : Z) : Z :=
  match n with
  | Some 0 | None => fallback
  | Some v => v
  end.

Definition JSON_stringify_args (fc : FunctionCall) : string :=
  default "{}" (fc_args fc).

End Native.

(** ** The OpenAI chat-completion shapes *)

Module OpenAI.

Record ToolCall := {
  tc_index : option nat;
  tc_id : string;
  tc_type : string;
  tc_name : string;
  tc_arguments : string;
  tc_thoughtSignature : option string
}.

(** [content] is [None] for [null]; the other two optional fields are
    [None] when the property is not set. *)
Record Message := {
  role : string;
  content : option string;
  reasoning_content : option string;
  tool_calls : option (list ToolCall)
}.

Record Usage := {
  prompt_tokens : Z;
  completion_tokens : Z;
  total_tokens : Z;
  prompt_tokens_details : option Z
}.

Record Choice := {
  index : nat;
  message : Message;
  finish_reason : string
}.

Record ChatCompletion := {
  id : string;
  object : string;
  created : Z;
  model : string;
  choices : list Choice;
  usage : Usage
}.

(** The [delta] objects the stream converter builds. *)
Inductive Delta :=
| DeltaRole (role content : string)
| DeltaReasoning (reasoning_content : string)
| DeltaContent (content : string)
| DeltaToolCalls (tool_calls : list ToolCall)
| DeltaEmpty.

Record ChunkChoice := {
  cc_index : nat;
  cc_delta : Delta;
  cc_finish_reason : option string
}.

Record StreamChunk := {
  sc_id : string;
  sc_object : string;
  sc_created : Z;
  sc_model : string;
  sc_choices : list ChunkChoice;
  sc_usage : option Usage
}.

End OpenAI.

(** ** format/openai/response-converter.js and routes/openai.js *)

Module OpenAIResponse.
Import Native OpenAI FinishReason.

Section Converter.

(** [crypto.createHash('sha256').update(s).digest('hex')] *)
Variable sha256_hex : string -> string.
(** [Date.now()], read as constant over one call. *)
Variable now : Z.
(** [crypto.randomBytes(12).toString('hex')] *)
Variable random_hex : string.

Variables originalModel sessionId : string.

(** [funcCall.id], or the id derived from name and arguments. *)
Definition toolId_of (funcCall : FunctionCall) : string :=
  match fc_id funcCall with
  | Some (String _ _ as i) => i
  | _ =>
      let hashInput :=
        fc_name funcCall +:+ ":" +:+ JSON_stringify_args funcCall in
      "call_" +:+ JS.slice0 24 (sha256_hex hashInput)
  end.

(** [signature && signature.length >= MIN_SIGNATURE_LENGTH] *)
Definition cacheable (signature : option string) : bool :=
  match signature with
  | Some (String _ _ as s) =>
      (Constants.MIN_SIGNATURE_LENGTH <=? String.length s)%nat
  | _ => false
  end.

(** [signature ? { thoughtSignature: signature } : {}] *)
Definition spread_signature (signature : option string) : option string :=
  if JS.truthy signature then signature else None.

(** [getOriginalToolName(...) || funcCall.name], with the map the
    lookup leaves behind. *)
Definition restore_name (name : string) (m : ToolNameCache.store)
  : string * ToolNameCache.store :=
  let '(found, m') :=
    ToolNameCache.getOriginalToolName now sessionId originalModel name m in
  (default name found, m').

(** The accumulators of the loop over the parts. *)
Record acc := {
  messageContent : string;
  reasoningContent : string;
  toolCalls : list ToolCall;
  toolCallIndex : nat;
  acc_caches : caches
}.

Definition convert_part (st : acc) (part : Part) : acc :=
  if thought part then
    {| messageContent := messageContent st;
       reasoningContent := reasoningContent st +:+ default "" (text part);
       toolCalls := toolCalls st;
       toolCallIndex := toolCallIndex st;
       acc_caches := acc_caches st |}
  else
    match functionCall part with
    | Some funcCall =>
        let toolId := toolId_of funcCall in
        let '(originalName, names) :=
          restore_name (fc_name funcCall) (toolNameMap (acc_caches st)) in
        let signature := thoughtSignature part in
        let sigs :=
          if cacheable signature
          then SignatureCache.cacheSignature now toolId
                 (default "" signature) (signatureCache (acc_caches st))
          else signatureCache (acc_caches st) in
        {| messageContent := messageContent st;
           reasoningContent := reasoningContent st;
           toolCalls := toolCalls st ++
             [{| tc_index := None; tc_id := toolId; tc_type := "function";
                 tc_name := originalName;
                 tc_arguments := JSON_stringify_args funcCall;
                 tc_thoughtSignature := spread_signature signature |}];
           toolCallIndex := S (toolCallIndex st);
           acc_caches := {| toolNameMap := names; signatureCache := sigs |} |}
    | None =>
        match text part with
        | Some t =>
            {| messageContent := messageContent st +:+ t;
               reasoningContent := reasoningContent st;
               toolCalls := toolCalls st;
               toolCallIndex := toolCallIndex st;
               acc_caches := acc_caches st |}
        | None => st
        end
    end.

Definition convert_parts (c : caches) (ps : list Part) : acc :=
  foldl convert_part
    {| messageContent := ""; reasoningContent := ""; toolCalls := [];
       toolCallIndex := 0; acc_caches := c |} ps.

(** [s || null] and "set the property if [s] is truthy" *)
Definition nonempty (s : string) : option string :=
  match s with EmptyString => None | _ => Some s end.

Definition convertGoogleToOpenAI (googleResponse : GoogleResponse)
    (c : caches) : ChatCompletion * caches :=
  let candidate := first_candidate googleResponse in
  let parts := candidate_parts candidate in
  let usage := default empty_usage (usageMetadata googleResponse) in
  let st := convert_parts c parts in
  let finishReason := mapFinishReason (finishReason candidate) in
  let message :=
    {| role := "assistant";
       content := nonempty (messageContent st);
       reasoning_content := nonempty (reasoningContent st);
       tool_calls :=
         match toolCalls st with [] => None | tcs => Some tcs end |} in
  ({| id := "chatcmpl-" +:+ random_hex;
      object := "chat.completion";
      created := now / 1000;
      model := originalModel;
      choices := [{| index := 0; message := message;
                     finish_reason := finishReason |}];
      usage :=
        {| prompt_tokens := or_num (promptTokenCount usage) 0;
           completion_tokens := or_num (candidatesTokenCount usage) 0;
           total_tokens := or_num (promptTokenCount usage) 0
                           + or_num (candidatesTokenCount usage) 0;
           prompt_tokens_details :=
             match cachedContentTokenCount usage with
             | Some 0 | None => None
             | Some n => Some n
             end |} |},
   acc_caches st).

End Converter.

(** *** Reading the upstream body *)

Definition newline : ascii := "010"%char.

(** [s.split('\n')]: never empty, one more piece than there are line
    feeds. *)
Fixpoint split_newline (s : string) : list string :=
  match s with
  | EmptyString => [EmptyString]
  | String c s' =>
      match split_newline s' with
      | l :: ls =>
          if Ascii.eqb c newline then EmptyString :: l :: ls
          else String c l :: ls
      | [] => [String c EmptyString]
      end
  end.

(** One turn of the reader loop: [buffer += chunk], [lines =
    buffer.split('\n')], [buffer = lines.pop() || '']; gives the lines
    to handle and the new buffer. *)
Definition read_lines (buffer chunk : string) : list string * string :=
  let lines := split_newline (buffer +:+ chunk) in
  (removelast lines, List.last lines EmptyString).

(** The guards at the head of the loop over the lines: the JSON text of
    a [data:] line, if the line has one. *)
Definition data_payload (line : string) : option string :=
  if JS.startsWith "data:" line then
    match JS.trim (JS.slice_from 5 line) with
    | EmptyString => None
    | jsonText => Some jsonText
    end
  else None.

Section SSE.

Variable sha256_hex : string -> string.
Variable now : Z.
Variable random_hex : string.
(** [JSON.parse]; [None] when it throws. *)
Variable JSON_parse : string -> option SSEData.

(** **** routes/openai.js: [accumulateSSEResponse] *)

Record accum := {
  finalParts : list Part;
  acc_usageMetadata : UsageMetadata;
  acc_finishReason : string;
  accumulatedThinkingText : string;
  accumulatedThinkingSignature : string;
  accumulatedText : string
}.

Definition flushThinking (st : accum) : accum :=
  match accumulatedThinkingText st with
  | EmptyString => st
  | thinking =>
      {| finalParts := finalParts st ++
           [{| thought := true; text := Some thinking;
               thoughtSignature := Some (accumulatedThinkingSignature st);
               functionCall := None; functionResponse := None |}];
         acc_usageMetadata := acc_usageMetadata st;
         acc_finishReason := acc_finishReason st;
         accumulatedThinkingText := "";
         accumulatedThinkingSignature := "";
         accumulatedText := accumulatedText st |}
  end.

Definition flushText (st : accum) : accum :=
  match accumulatedText st with
  | EmptyString => st
  | t =>
      {| finalParts := finalParts st ++
           [{| thought := false; text := Some t; thoughtSignature := None;
               functionCall := None; functionResponse := None |}];
         acc_usageMetadata := acc_usageMetadata st;
         acc_finishReason := acc_finishReason st;
         accumulatedThinkingText := accumulatedThinkingText st;
         accumulatedThinkingSignature := accumulatedThinkingSignature st;
         accumulatedText := "" |}
  end.

Definition accumulate_part (st : accum) (part : Part) : accum :=
  if thought part then
    let st := flushText st in
    {| finalParts := finalParts st;
       acc_usageMetadata := acc_usageMetadata st;
       acc_finishReason := acc_finishReason st;
       accumulatedThinkingText :=
         accumulatedThinkingText st +:+ default "" (text part);
       accumulatedThinkingSignature :=
         if JS.truthy (thoughtSignature part)
         then default "" (thoughtSignature part)
         else accumulatedThinkingSignature st;
       accumulatedText := accumulatedText st |}
  else
    match functionCall part with
    | Some _ =>
        let st := flushText (flushThinking st) in
        {| finalParts := finalParts st ++ [part];
           acc_usageMetadata := acc_usageMetadata st;
           acc_finishReason := acc_finishReason st;
           accumulatedThinkingText := accumulatedThinkingText st;
           accumulatedThinkingSignature := accumulatedThinkingSignature st;
           accumulatedText := accumulatedText st |}
    | None =>
        match text part with
        | None | Some EmptyString => st
        | Some t =>
            let st := flushThinking st in
            {| finalParts := finalParts st;
               acc_usageMetadata := acc_usageMetadata st;
               acc_finishReason := acc_finishReason st;
               accumulatedThinkingText := accumulatedThinkingText st;
               accumulatedThinkingSignature :=
                 accumulatedThinkingSignature st;
               accumulatedText := accumulatedText st +:+ t |}
        end
    end.

(** The body of the [try] block for one parsed payload. *)
Definition accumulate_data (st : accum) (data : SSEData) : accum :=
  let inner := innerResponse data in
  let firstCandidate := first_candidate inner in
  let st :=
    {| finalParts := finalParts st;
       acc_usageMetadata :=
         default (acc_usageMetadata st) (usageMetadata inner);
       acc_finishReason :=
         if JS.truthy (finishReason firstCandidate)
         then default "" (finishReason firstCandidate)
         else acc_finishReason st;
       accumulatedThinkingText := accumulatedThinkingText st;
       accumulatedThinkingSignature := accumulatedThinkingSignature st;
       accumulatedText := accumulatedText st |} in
  foldl accumulate_part st (candidate_parts firstCandidate).

Definition accumulate_line (st : accum) (line : string) : accum :=
  match data_payload line with
  | None => st
  | Some jsonText =>
      match JSON_parse jsonText with
      | Some data => accumulate_data st data
      | None => st
      end
  end.

(** The [while (true)] loop over the reads: the state and the buffer. *)
Definition accumulate_read (sb : accum * string) (chunk : string)
  : accum * string :=
  let '(lines, buffer) := read_lines (snd sb) chunk in
  (foldl accumulate_line (fst sb) lines, buffer).

Definition accum_init : accum :=
  {| finalParts := []; acc_usageMetadata := empty_usage;
     acc_finishReason := "STOP"; accumulatedThinkingText := "";
     accumulatedThinkingSignature := ""; accumulatedText := "" |}.

(** [body] is the sequence of decoded reads of [response.body]. *)
Definition accumulateSSEResponse (body : list string) : GoogleResponse :=
  let st := fst (foldl accumulate_read (accum_init, "") body) in
  let st := flushText (flushThinking st) in
  {| candidates :=
       Some [{| Native.content :=
                  Some {| Native.role := None;
                          parts := Some (finalParts st) |};
                finishReason := Some (acc_finishReason st) |}];
     usageMetadata := Some (acc_usageMetadata st);
     modelVersion := None |}.

(** The non-streaming route for a thinking model. *)
Definition chat_completion_thinking (originalModel sessionId : string)
    (body : list string) (c : caches) : ChatCompletion * caches :=
  convertGoogleToOpenAI sha256_hex now random_hex originalModel sessionId
    (accumulateSSEResponse body) c.

(** **** [createStreamChunk] and [streamGoogleToOpenAI] *)

Definition createStreamChunk (id model : string) (delta : Delta)
    (finishReason : option string) (usage : option Usage) : StreamChunk :=
  {| sc_id := id;
     sc_object := "chat.completion.chunk";
     sc_created := now / 1000;
     sc_model := model;
     sc_choices := [{| cc_index := 0; cc_delta := delta;
                       cc_finish_reason := finishReason |}];
     sc_usage := usage |}.

Inductive blockType := thinking | text_block | tool_use.

(** The local variables of the generator, the caches, and the chunks
    yielded so far, oldest first. *)
Record stream_state := {
  hasEmittedStart : bool;
  currentBlockType : option blockType;
  currentThinkingSignature : string;
  st_finishReason : string;
  inputTokens : Z;
  outputTokens : Z;
  cacheReadTokens : Z;
  pendingToolCalls : list ToolCall;
  st_caches : caches;
  yielded : list StreamChunk
}.

Variables originalModel sessionId : string.

Definition completionId : string := "chatcmpl-" +:+ random_hex.

Definition yield (st : stream_state) (delta : Delta) : list StreamChunk :=
  yielded st ++ [createStreamChunk completionId originalModel delta None None].

Definition stream_part (st : stream_state) (part : Part) : stream_state :=
  if thought part then
    let t := default "" (text part) in
    {| hasEmittedStart := hasEmittedStart st;
       currentBlockType := Some thinking;
       currentThinkingSignature :=
         if JS.truthy (thoughtSignature part)
         then default "" (thoughtSignature part)
         else currentThinkingSignature st;
       st_finishReason := st_finishReason st;
       inputTokens := inputTokens st;
       outputTokens := outputTokens st;
       cacheReadTokens := cacheReadTokens st;
       pendingToolCalls := pendingToolCalls st;
       st_caches := st_caches st;
       yielded :=
         match t with
         | EmptyString => yielded st
         | _ => yield st (DeltaReasoning t)
         end |}
  else
    match text part, functionCall part with
    | Some (String _ _ as t), _ =>
        {| hasEmittedStart := hasEmittedStart st;
           currentBlockType := Some text_block;
           currentThinkingSignature := currentThinkingSignature st;
           st_finishReason := st_finishReason st;
           inputTokens := inputTokens st;
           outputTokens := outputTokens st;
           cacheReadTokens := cacheReadTokens st;
           pendingToolCalls := pendingToolCalls st;
           st_caches := st_caches st;
           yielded := yield st (DeltaContent t) |}
    | _, Some funcCall =>
        let toolId := toolId_of sha256_hex funcCall in
        let '(originalName, names) :=
          restore_name now originalModel sessionId (fc_name funcCall)
            (toolNameMap (st_caches st)) in
        let signature := thoughtSignature part in
        let sigs :=
          if cacheable signature
          then SignatureCache.cacheSignature now toolId
                 (default "" signature) (signatureCache (st_caches st))
          else signatureCache (st_caches st) in
        {| hasEmittedStart := hasEmittedStart st;
           currentBlockType := Some tool_use;
           currentThinkingSignature := currentThinkingSignature st;
           st_finishReason := "tool_calls";
           inputTokens := inputTokens st;
           outputTokens := outputTokens st;
           cacheReadTokens := cacheReadTokens st;
           pendingToolCalls := pendingToolCalls st ++
             [{| tc_index := Some (length (pendingToolCalls st));
                 tc_id := toolId; tc_type := "function";
                 tc_name := originalName;
                 tc_arguments := JSON_stringify_args funcCall;
                 tc_thoughtSignature := spread_signature signature |}];
           st_caches := {| toolNameMap := names; signatureCache := sigs |};
           yielded := yielded st |}
    | _, None => st
    end.

(** The body of the [try] block for one parsed payload. *)
Definition stream_data (st : stream_state) (data : SSEData) : stream_state :=
  let inner := innerResponse data in
  let usage := usageMetadata inner in
  let firstCandidate := first_candidate inner in
  let parts := candidate_parts firstCandidate in
  let start := negb (hasEmittedStart st) && negb (length parts =? 0)%nat in
  let st :=
    {| hasEmittedStart := hasEmittedStart st || start;
       currentBlockType := currentBlockType st;
       currentThinkingSignature := currentThinkingSignature st;
       st_finishReason := st_finishReason st;
       inputTokens :=
         match usage with
         | Some u => or_num (promptTokenCount u) (inputTokens st)
         | None => inputTokens st
         end;
       outputTokens :=
         match usage with
         | Some u => or_num (candidatesTokenCount u) (outputTokens st)
         | None => outputTokens st
         end;
       cacheReadTokens :=
         match usage with
         | Some u => or_num (cachedContentTokenCount u) (cacheReadTokens st)
         | None => cacheReadTokens st
         end;
       pendingToolCalls := pendingToolCalls st;
       st_caches := st_caches st;
       yielded :=
         if start then yield st (DeltaRole "assistant" "") else yielded st |} in
  let st := foldl stream_part st parts in
  if JS.truthy (finishReason firstCandidate) then
    {| hasEmittedStart := hasEmittedStart st;
       currentBlockType := currentBlockType st;
       currentThinkingSignature := currentThinkingSignature st;
       st_finishReason := mapFinishReason (finishReason firstCandidate);
       inputTokens := inputTokens st;
       outputTokens := outputTokens st;
       cacheReadTokens := cacheReadTokens st;
       pendingToolCalls := pendingToolCalls st;
       st_caches := st_caches st;
       yielded := yielded st |}
  else st.

Definition stream_line (st : stream_state) (line : string) : stream_state :=
  match data_payload line with
  | None => st
  | Some jsonText =>
      match JSON_parse jsonText with
      | Some data => stream_data st data
      | None => st
      end
  end.

Definition stream_read (sb : stream_state * string) (chunk : string)
  : stream_state * string :=
  let '(lines, buffer) := read_lines (snd sb) chunk in
  (foldl stream_line (fst sb) lines, buffer).

Definition stream_init (c : caches) : stream_state :=
  {| hasEmittedStart := false; currentBlockType := None;
     currentThinkingSignature := ""; st_finishReason := "stop";
     inputTokens := 0; outputTokens := 0; cacheReadTokens := 0;
     pendingToolCalls := []; st_caches := c; yielded := [] |}.

(** The chunks the generator yields over the whole body, in order, and
    the caches it leaves. *)
Definition streamGoogleToOpenAI (body : list string) (c : caches)
  : list StreamChunk * caches :=
  let st := fst (foldl stream_read (stream_init c, "") body) in
  let out :=
    match pendingToolCalls st with
    | [] => yielded st
    | calls => yield st (DeltaToolCalls calls)
    end in
  (out ++
     [createStreamChunk completionId originalModel DeltaEmpty
        (Some (st_finishReason st))
        (Some {| prompt_tokens := inputTokens st;
                 completion_tokens := outputTokens st;
                 total_tokens := inputTokens st + outputTokens st;
                 prompt_tokens_details :=
                   if 0 <? cacheReadTokens st
                   then Some (cacheReadTokens st) else None |})],
   st_caches st).

End SSE.

End OpenAIResponse.

(** ** Session-id derivation *)

Module OpenAIRequest.

Record ContentBlock := {
  type : string;
  text : option string
}.

(** [message.content]: a string, an array of blocks, or neither. *)
Inductive MessageContent :=
| ContentString (s : string)
| ContentArray (blocks : list ContentBlock)
| ContentOther.

(** The fields of a chat message that [deriveSessionId] reads. *)
Record Message := {
  role : string;
  content : MessageContent
}.

(** [parts.join(sep)] *)
Fixpoint join (sep : string) (parts : list string) : string :=
  match parts with
  | [] => ""
  | [p] => p
  | p :: rest => p +:+ sep +:+ join sep rest
  end.

Definition newline : string := String "010"%char EmptyString.

(** [block.type === 'text' && block.text] *)
Definition is_text_block (block : ContentBlock) : bool :=
  JS.eq (type block) "text" && JS.truthy (text block).

Section Derive.

Variable sha256_hex : string -> string.
(** The value [crypto.randomUUID()] returns in this call. *)
Variable randomUUID : string.

(** format/openai/request-converter.js *)
Fixpoint deriveSessionId (messages : list Message) : string :=
  match messages with
  | [] => randomUUID
  | msg :: rest =>
      if JS.eq (role msg) "user" then
        let content :=
          match content msg with
          | ContentString s => s
          | ContentArray blocks =>
              join newline
                (List.map (fun block => default "" (text block))
                   (List.filter is_text_block blocks))
          | ContentOther => ""
          end in
        match content with
        | EmptyString => deriveSessionId rest
        | _ => JS.slice0 32 (sha256_hex content)
        end
      else deriveSessionId rest
  end.

End Derive.

End OpenAIRequest.

(** ** format/gemini: request and response converters *)

Module Gemini.
Import Native.

(** *** format/gemini/request-converter.js *)

Record FunctionCallingConfig := {
  mode : option string;
  allowedFunctionNames : option (list string)
}.

Record ToolConfig := {
  functionCallingConfig : option FunctionCallingConfig
}.

(** [generationConfig] as it arrives: both spellings of each key. *)
Record GenerationConfigIn := {
  maxOutputTokens_in : option Q;
  max_tokens_in : option Q;
  temperature_in : option Q;
  topP_in : option Q;
  top_p_in : option Q;
  topK_in : option Q;
  top_k_in : option Q;
  stopSequences_in : option (list string);
  thinkingBudget_in : option Q;
  thinking_budget_in : option Q
}.

Inductive ThinkingConfig :=
| SnakeCase (include_thoughts : bool) (thinking_budget : Q)
| CamelCase (includeThoughts : bool) (thinkingBudget : Q).

Record GenerationConfig := {
  maxOutputTokens : Q;
  temperature : Q;
  topP : Q;
  topK : Q;
  stopSequences : option (list string);
  thinkingConfig : option ThinkingConfig
}.

Inductive SystemInstruction :=
| InstructionText (s : string)
| InstructionObject (role : option string) (parts : option (list Part)).

(** The request body of [generateContent]; [others] are the properties
    the converter does not look at. *)
Record GeminiRequest := {
  contents : option (list Content);
  generationConfig : option GenerationConfigIn;
  safetySettings : option Json.json;
  tools : option (list ToolConverter.GeminiTool);
  toolConfig : option ToolConfig;
  systemInstruction : option SystemInstruction;
  others : Json.object
}.

(** The [request] object after conversion. *)
Record Request := {
  r_contents : option (list Content);
  r_sessionId : string;
  r_generationConfig : GenerationConfig;
  r_tools : option (list ToolConverter.AntigravityTool);
  r_toolConfig : option ToolConfig;
  r_systemInstruction : option SystemInstruction;
  r_others : Json.object
}.

Record RequestBody := {
  project : string;
  requestId : string;
  request : Request;
  model : string;
  userAgent : string
}.

Module DEFAULTS.
Definition maxOutputTokens : Q := inject_Z 32000.
Definition temperature : Q := inject_Z 1.
Definition topP : Q := inject_Z 1.
Definition topK : Q := inject_Z 50.
Definition thinkingBudget : Q := inject_Z 16000.
End DEFAULTS.

(** [a || b] on optional numbers: absent and zero are falsy. *)
Definition or_number (a : option Q) (b : Q) : Q :=
  match a with
  | Some q => if Qeq_bool q (inject_Z 0) then b else q
  | None => b
  end.

Definition set_call_id (id : string) (part : Part) : Part :=
  match functionCall part with
  | Some fc =>
      {| thought := thought part; text := text part;
         thoughtSignature := thoughtSignature part;
         functionCall := Some {| fc_id := Some id; fc_name := fc_name fc;
                                 fc_args := fc_args fc |};
         functionResponse := functionResponse part |}
  | None => part
  end.

Definition set_response_id (id : string) (part : Part) : Part :=
  match functionResponse part with
  | Some fr =>
      {| thought := thought part; text := text part;
         thoughtSignature := thoughtSignature part;
         functionCall := functionCall part;
         functionResponse :=
           Some {| fr_id := Some id; fr_name := fr_name fr;
                   fr_response := fr_response fr |} |}
  | None => part
  end.

Definition set_signature (signature : string) (part : Part) : Part :=
  {| thought := thought part; text := text part;
     thoughtSignature := Some signature;
     functionCall := functionCall part;
     functionResponse := functionResponse part |}.

Definition has_role (r : string) (content : Content) : bool :=
  match role content with
  | Some r' => JS.eq r' r
  | None => false
  end.

Definition createThoughtPart (t : string) : Part :=
  {| thought := true; text := Some (JS.or_str t " ");
     thoughtSignature := None; functionCall := None;
     functionResponse := None |}.

Section Converter.

Variable sha256_hex : string -> string.
Variable now : Z.
(** The values of the two [crypto.randomUUID()] calls: the session-id
    fallback and the request id. *)
Variable session_uuid : string.
Variable request_uuid : string.
(** [generateFunctionCallId()]: the id produced at its [k]-th call. *)
Variable generateFunctionCallId : nat -> string.
Variable sanitizeSchema : ToolConverter.Schema -> option ToolConverter.Schema.
Variable cleanSchemaForGemini : ToolConverter.Schema -> ToolConverter.Schema.

(** **** [processFunctionCallIds] *)

(** First pass over one part of a model turn: [k] ids generated so
    far, [ids] collected so far. *)
Definition collect_call_id (st : nat * list string) (part : Part)
  : nat * list string * Part :=
  let '(k, ids) := st in
  match functionCall part with
  | Some fc =>
      match fc_id fc with
      | Some (String _ _ as id) => (k, ids ++ [id], part)
      | _ =>
          let id := generateFunctionCallId k in
          (S k, ids ++ [id], set_call_id id part)
      end
  | None => (k, ids, part)
  end.

Fixpoint collect_call_ids_parts (st : nat * list string) (ps : list Part)
  : nat * list string * list Part :=
  match ps with
  | [] => (st, [])
  | p :: rest =>
      let '(st, p') := collect_call_id st p in
      let '(st, rest') := collect_call_ids_parts st rest in
      (st, p' :: rest')
  end.

Fixpoint collect_call_ids (st : nat * list string) (cs : list Content)
  : nat * list string * list Content :=
  match cs with
  | [] => (st, [])
  | c :: rest =>
      let '(st, c') :=
        match has_role "model" c, parts c with
        | true, Some ps =>
            let '(st, ps') := collect_call_ids_parts st ps in
            (st, {| role := role c; parts := Some ps' |})
        | _, _ => (st, c)
        end in
      let '(st, rest') := collect_call_ids st rest in
      (st, c' :: rest')
  end.

(** Second pass over one part of a user turn. *)
Definition assign_response_id (ids : list string) (responseIndex : nat)
    (part : Part) : nat * Part :=
  match functionResponse part with
  | Some fr =>
      if JS.truthy (fr_id fr) then (responseIndex, part)
      else match ids !! responseIndex with
           | Some id => (S responseIndex, set_response_id id part)
           | None => (responseIndex, part)
           end
  | None => (responseIndex, part)
  end.

Fixpoint assign_response_ids_parts (ids : list string) (responseIndex : nat)
    (ps : list Part) : nat * list Part :=
  match ps with
  | [] => (responseIndex, [])
  | p :: rest =>
      let '(i, p') := assign_response_id ids responseIndex p in
      let '(i, rest') := assign_response_ids_parts ids i rest in
      (i, p' :: rest')
  end.

Fixpoint assign_response_ids (ids : list string) (responseIndex : nat)
    (cs : list Content) : list Content :=
  match cs with
  | [] => []
  | c :: rest =>
      match has_role "user" c, parts c with
      | true, Some ps =>
          let '(i, ps') := assign_response_ids_parts ids responseIndex ps in
          {| role := role c; parts := Some ps' |}
          :: assign_response_ids ids i rest
      | _, _ => c :: assign_response_ids ids responseIndex rest
      end
  end.

Definition processFunctionCallIds (cs : list Content) : list Content :=
  let '(_, functionCallIds, cs) := collect_call_ids (0%nat, []) cs in
  assign_response_ids functionCallIds 0 cs.

(** **** [processModelThoughts] *)

Definition is_Some_b {A} (o : option A) : bool :=
  match o with Some _ => true | None => false end.

Definition has_signature (part : Part) : bool :=
  JS.truthy (thoughtSignature part).

(** The first loop: the last thought without a signature, and the
    last signature on a part that is not a thought. *)
Definition scan_thoughts (ps : list Part)
  : option nat * option (nat * string) :=
  foldl (fun found ip =>
           let '(i, part) := ip in
           (if thought part && negb (has_signature part)
            then Some i else fst found,
            if has_signature part && negb (thought part)
            then Some (i, default "" (thoughtSignature part))
            else snd found))
    (None, None) (imap pair ps).

Definition merge_thought (ps : list Part) : list Part :=
  match scan_thoughts ps with
  | (Some thoughtIndex, Some (signatureIndex, signatureValue)) =>
      delete signatureIndex
        (alter (set_signature signatureValue) thoughtIndex ps)
  | (None, _) => createThoughtPart " " :: ps
  | (Some _, None) => ps
  end.

(** Parts that hold nothing but a signature, by increasing index. *)
Definition standalone_signatures (ps : list Part) : list (nat * string) :=
  omap (fun ip =>
          let '(i, part) := ip in
          if has_signature part && negb (thought part)
             && negb (is_Some_b (functionCall part))
             && negb (JS.truthy (text part))
          then Some (i, default "" (thoughtSignature part))
          else None)
    (imap pair ps).

(** The loop that gives each unsigned function call a signature: the
    next standalone one, or else the cached one. *)
Fixpoint assign_signatures (standalone : list (nat * string))
    (sigIndex : nat) (sigs : gmap string SignatureCache.entry)
    (ps : list Part)
  : nat * gmap string SignatureCache.entry * list Part :=
  match ps with
  | [] => (sigIndex, sigs, [])
  | part :: rest =>
      let '(sigIndex, sigs, part) :=
        match functionCall part with
        | Some fc =>
            if has_signature part then (sigIndex, sigs, part)
            else
              match standalone !! sigIndex with
              | Some (_, signature) =>
                  (S sigIndex, sigs, set_signature signature part)
              | None =>
                  let '(cachedSig, sigs) :=
                    SignatureCache.getCachedSignature now
                      (default "" (fc_id fc)) sigs in
                  (sigIndex, sigs,
                   if JS.truthy cachedSig
                   then set_signature (default "" cachedSig) part
                   else part)
              end
        | None => (sigIndex, sigs, part)
        end in
      let '(sigIndex, sigs, rest) :=
        assign_signatures standalone sigIndex sigs rest in
      (sigIndex, sigs, part :: rest)
  end.

(** The last loop: the standalone parts that were used are spliced
    out, highest index first. *)
Definition remove_used (standalone : list (nat * string)) (sigIndex : nat)
    (ps : list Part) : list Part :=
  foldr (fun used ps => delete (fst used) ps) ps (take sigIndex standalone).

Definition processModelThoughts (content : Content)
    (sigs : gmap string SignatureCache.entry)
  : Content * gmap string SignatureCache.entry :=
  match parts content with
  | Some ps =>
      let ps := merge_thought ps in
      let standalone := standalone_signatures ps in
      let '(sigIndex, sigs, ps) := assign_signatures standalone 0 sigs ps in
      ({| role := role content;
          parts := Some (remove_used standalone sigIndex ps) |}, sigs)
  | None => (content, sigs)
  end.

Fixpoint process_thoughts (cs : list Content)
    (sigs : gmap string SignatureCache.entry)
  : list Content * gmap string SignatureCache.entry :=
  match cs with
  | [] => ([], sigs)
  | c :: rest =>
      let '(c, sigs) :=
        match has_role "model" c, parts c with
        | true, Some _ => processModelThoughts c sigs
        | _, _ => (c, sigs)
        end in
      let '(rest, sigs) := process_thoughts rest sigs in
      (c :: rest, sigs)
  end.

(** **** [deriveSessionId] *)

Fixpoint first_text (ps : list Part) : option string :=
  match ps with
  | [] => None
  | part :: rest =>
      match text part with
      | Some (String _ _ as t) => Some t
      | _ => first_text rest
      end
  end.

Fixpoint deriveSessionId (cs : list Content) : string :=
  match cs with
  | [] => session_uuid
  | c :: rest =>
      match has_role "user" c, parts c with
      | true, Some ps =>
          match first_text ps with
          | Some t => JS.slice0 32 (sha256_hex t)
          | None => deriveSessionId rest
          end
      | _, _ => deriveSessionId rest
      end
  end.

(** **** [normalizeGenerationConfig] *)

Definition first_some (a b : option Q) : option Q :=
  match a with Some _ => a | None => b end.

Definition normalizeGenerationConfig (config : GenerationConfigIn)
    (enableThinking : bool) (modelName : string) : GenerationConfig :=
  let modelFamily := Constants.getModelFamily modelName in
  let isGemini :=
    match modelFamily with Constants.gemini => true | _ => false end in
  let maxTokens :=
    or_number (maxOutputTokens_in config)
      (or_number (max_tokens_in config) DEFAULTS.maxOutputTokens) in
  let cap := inject_Z Constants.GEMINI_MAX_OUTPUT_TOKENS in
  {| maxOutputTokens :=
       if isGemini && negb (Qle_bool maxTokens cap) then cap else maxTokens;
     temperature := default DEFAULTS.temperature (temperature_in config);
     topP := default DEFAULTS.topP
               (first_some (topP_in config) (top_p_in config));
     topK := default DEFAULTS.topK
               (first_some (topK_in config) (top_k_in config));
     stopSequences := stopSequences_in config;
     thinkingConfig :=
       if enableThinking then
         let thinkingBudget :=
           or_number (thinkingBudget_in config)
             (or_number (thinking_budget_in config) DEFAULTS.thinkingBudget) in
         match modelFamily with
         | Constants.claude => Some (SnakeCase true thinkingBudget)
         | Constants.gemini => Some (CamelCase true thinkingBudget)
         | Constants.unknown => None
         end
       else None |}.

Definition empty_config : GenerationConfigIn :=
  {| maxOutputTokens_in := None; max_tokens_in := None;
     temperature_in := None; topP_in := None; top_p_in := None;
     topK_in := None; top_k_in := None; stopSequences_in := None;
     thinkingBudget_in := None; thinking_budget_in := None |}.

(** **** [convertGeminiToGoogle] *)

Definition VALIDATED : ToolConfig :=
  {| functionCallingConfig :=
       Some {| mode := Some "VALIDATED"; allowedFunctionNames := None |} |}.

(** The deep clone of the input is the input itself: the embedding
    has no sharing to break. *)
Definition convertGeminiToGoogle (geminiRequest : GeminiRequest)
    (modelName projectId : string) (c : caches) : RequestBody * caches :=
  let actualModelName := Constants.mapModelName modelName in
  let enableThinking := Constants.isThinkingModel actualModelName in
  let '(contents, sigs) :=
    match contents geminiRequest with
    | Some cs =>
        let cs := processFunctionCallIds cs in
        if enableThinking then
          let '(cs, sigs) := process_thoughts cs (signatureCache c) in
          (Some cs, sigs)
        else (Some cs, signatureCache c)
    | None => (None, signatureCache c)
    end in
  let sessionId := deriveSessionId (default [] contents) in
  let generationConfig :=
    normalizeGenerationConfig
      (default empty_config (generationConfig geminiRequest))
      enableThinking actualModelName in
  let '(tools, names) :=
    match tools geminiRequest with
    | Some ts =>
        let '(ts, names) :=
          ToolConverter.convertGeminiToolsToAntigravity sanitizeSchema
            cleanSchemaForGemini now (Some ts) sessionId actualModelName
            (toolNameMap c) in
        (Some ts, names)
    | None => (None, toolNameMap c)
    end in
  let toolConfig :=
    match tools, toolConfig geminiRequest with
    | Some (_ :: _), None => Some VALIDATED
    | _, given => given
    end in
  let systemInstruction :=
    match systemInstruction geminiRequest with
    | Some (InstructionText (String _ _ as s)) =>
        Some (InstructionObject None
                (Some [{| thought := false; text := Some s;
                          thoughtSignature := None; functionCall := None;
                          functionResponse := None |}]))
    | Some (InstructionObject _ (Some ps)) =>
        Some (InstructionObject None (Some ps))
    | given => given
    end in
  ({| project := projectId;
      requestId := "agent-" +:+ request_uuid;
      request :=
        {| r_contents := contents;
           r_sessionId := sessionId;
           r_generationConfig := generationConfig;
           r_tools := tools;
           r_toolConfig := toolConfig;
           r_systemInstruction := systemInstruction;
           r_others := others geminiRequest |};
      model := actualModelName;
      userAgent := "antigravity" |},
   {| toolNameMap := names; signatureCache := sigs |}).

End Converter.

(** *** format/gemini/response-converter.js *)

Section Response.

Variable now : Z.
Variables sessionId modelName : string.

(** The callback of [parts.map] in [processParts]. *)
Definition process_part (c : caches) (part : Part) : Part * caches :=
  match functionCall part with
  | Some funcCall =>
      let '(originalName, names) :=
        ToolNameCache.getOriginalToolName now sessionId modelName
          (fc_name funcCall) (toolNameMap c) in
      let funcCall :=
        match originalName with
        | Some n => {| fc_id := fc_id funcCall; fc_name := n;
                       fc_args := fc_args funcCall |}
        | None => funcCall
        end in
      let signature := thoughtSignature part in
      let sigs :=
        if OpenAIResponse.cacheable signature && JS.truthy (fc_id funcCall)
        then SignatureCache.cacheSignature now (default "" (fc_id funcCall))
               (default "" signature) (signatureCache c)
        else signatureCache c in
      ({| thought := thought part; text := text part;
          thoughtSignature := thoughtSignature part;
          functionCall := Some funcCall;
          functionResponse := functionResponse part |},
       {| toolNameMap := names; signatureCache := sigs |})
  | None => (part, c)
  end.

Fixpoint process_part_list (ps : list Part) (c : caches)
  : list Part * caches :=
  match ps with
  | [] => ([], c)
  | part :: rest =>
      let '(part, c) := process_part c part in
      let '(rest, c) := process_part_list rest c in
      (part :: rest, c)
  end.

(** [None] is a [parts] value that is missing or not an array. *)
Definition processParts (ps : option (list Part)) (c : caches)
  : option (list Part) * caches :=
  match ps with
  | Some ps =>
      let '(ps, c) := process_part_list ps c in (Some ps, c)
  | None => (None, c)
  end.

Definition process_candidate (c : caches) (candidate : Candidate)
  : Candidate * caches :=
  match content candidate with
  | Some ct =>
      match parts ct with
      | Some ps =>
          let '(ps, c) := processParts (Some ps) c in
          ({| content := Some {| role := role ct; parts := ps |};
              finishReason := finishReason candidate |}, c)
      | None => (candidate, c)
      end
  | None => (candidate, c)
  end.

Fixpoint process_candidates (cs : list Candidate) (c : caches)
  : list Candidate * caches :=
  match cs with
  | [] => ([], c)
  | candidate :: rest =>
      let '(candidate, c) := process_candidate c candidate in
      let '(rest, c) := process_candidates rest c in
      (candidate :: rest, c)
  end.

Definition convertGoogleToGemini (googleResponse : GoogleResponse)
    (c : caches) : GoogleResponse * caches :=
  let '(cands, c) :=
    match candidates googleResponse with
    | Some cs =>
        let '(cs, c) := process_candidates cs c in (Some cs, c)
    | None => (None, c)
    end in
  ({| candidates := cands;
      usageMetadata := usageMetadata googleResponse;
      modelVersion :=
        if JS.truthy (modelVersion googleResponse)
        then modelVersion googleResponse else Some modelName |}, c).

End Response.

End Gemini.

(** * Further parts of the gateway

    The streaming converter of the Gemini route, the rest of the OpenAI
    request converter, the web-search interception and the login rate
    limit, embedded with the conventions set out at the top. *)

(** ** format/gemini/response-converter.js: [streamGoogleToGemini] and
       [formatSSEEvent] *)

Module GeminiStream.
Import Native.

Section Stream.

Variable now : Z.
(** [JSON.parse]; [None] when it throws. *)
Variable JSON_parse : string -> option SSEData.
Variables modelName sessionId : string.

(** The body of the [try] block for one parsed payload: the responses
    yielded so far, oldest first, and the caches. *)
Definition stream_data (st : list GoogleResponse * caches) (data : SSEData)
  : list GoogleResponse * caches :=
  let response := innerResponse data in
  let '(cands, c) :=
    match candidates response with
    | Some cs =>
        let '(cs, c) :=
          Gemini.process_candidates now sessionId modelName cs (snd st) in
        (Some cs, c)
    | None => (None, snd st)
    end in
  (fst st ++
     [{| candidates := cands;
         usageMetadata := usageMetadata response;
         modelVersion := modelVersion response |}],
   c).

Definition stream_line (st : list GoogleResponse * caches) (line : string)
  : list GoogleResponse * caches :=
  match OpenAIResponse.data_payload line with
  | None => st
  | Some jsonText =>
      match JSON_parse jsonText with
      | Some data => stream_data st data
      | None => st
      end
  end.

Definition stream_read (sb : list GoogleResponse * caches * string)
    (chunk : string) : list GoogleResponse * caches * string :=
  let '(lines, buffer) := OpenAIResponse.read_lines (snd sb) chunk in
  (foldl stream_line (fst sb) lines, buffer).

(** The responses the generator yields over the whole body, in order,
    and the caches it leaves. *)
Definition streamGoogleToGemini (body : list string) (c : caches)
  : list GoogleResponse * caches :=
  fst (foldl stream_read (([], c), "") body).

End Stream.

(** [jsonText] is [JSON.stringify(data)]. *)
Definition formatSSEEvent (jsonText : string) : string :=
  "data: " +:+ jsonText
  +:+ String OpenAIResponse.newline (String OpenAIResponse.newline "").

End GeminiStream.

(** ** format/openai/request-converter.js, with the OpenAI tools of
       utils/tool-converter.js *)

Module OpenAIConvert.

(** *** The chat-completion request, as far as the converter reads it

    A message content is a string, an array of items or absent; a
    property that may be absent is an [option]. *)

Record Item := {
  i_type : string;
  i_text : option string;
  (** [item.image_url?.url] *)
  i_url : option string
}.

Inductive Content :=
| ContentString (s : string)
| ContentArray (items : list Item)
| ContentNull.

Record ToolCall := {
  tc_id : option string;
  (** [toolCall.function.name] and [toolCall.function.arguments] *)
  tc_name : option string;
  tc_arguments : option string;
  tc_thoughtSignature : option string
}.

Record Message := {
  role : string;
  content : Content;
  tool_calls : option (list ToolCall);
  reasoning_content : option string;
  tool_call_id : option string
}.

(** [tool.function], if the tool has one. *)
Record Tool := {
  function : option ToolConverter.Declaration
}.

Inductive Stop :=
| StopString (s : string)
| StopArray (sequences : list string).

(** The parameters of [generateGenerationConfig]. *)
Record Parameters := {
  max_tokens : option Q;
  temperature : option Q;
  top_p : option Q;
  top_k : option Q;
  stop : option Stop;
  thinking_budget : option Q;
  reasoning_effort : option string
}.

(** The properties [convertOpenAIToGoogle] takes out of the request. *)
Record ChatRequest := {
  r_model : option string;
  r_messages : list Message;
  r_max_tokens : option Q;
  r_temperature : option Q;
  r_top_p : option Q;
  r_stop : option Stop;
  r_tools : option (list Tool);
  r_reasoning_effort : option string
}.

(** *** The native request it builds *)

(** The parts the converter makes, by the object literal that makes
    them. *)
Inductive Part :=
| TextPart (text : string)
| ThoughtPart (text : string)
| FunctionCallPart (id : option string) (name : string)
    (args : option string) (thoughtSignature : option string)
| FunctionResponsePart (id : option string) (name : string) (output : Content)
| InlineDataPart (mimeType data : string).

Record Turn := {
  t_role : string;
  t_parts : list Part
}.

(** A thinking budget: a number, or what the effort table gives for a
    name it inherits from [Object.prototype], which is not a number. *)
Inductive Budget :=
| BudgetNumber (q : Q)
| BudgetInherited (name : string).

Inductive ThinkingConfig :=
| SnakeCase (include_thoughts : bool) (thinking_budget : Budget)
| CamelCase (includeThoughts : bool) (thinkingBudget : Budget).

Record GenerationConfig := {
  maxOutputTokens : Q;
  g_temperature : Q;
  topP : Q;
  topK : Q;
  thinkingConfig : option ThinkingConfig;
  stopSequences : option (list string)
}.

(** [systemInstruction] holds the text of [{ parts: [{ text }] }]. *)
Record Request := {
  contents : list Turn;
  generationConfig : GenerationConfig;
  systemInstruction : option string;
  tools : option (list ToolConverter.AntigravityTool);
  toolConfig : option Gemini.ToolConfig;
  sessionId : string
}.

Record RequestBody := {
  project : string;
  requestId : string;
  request : Request;
  model : option string;
  userAgent : string
}.

Module DEFAULTS.
Definition max_tokens : Q := inject_Z 32000.
Definition temperature : Q := inject_Z 1.
Definition top_p : Q := inject_Z 1.
Definition top_k : Q := inject_Z 50.
Definition thinking_budget : Q := inject_Z 16000.
End DEFAULTS.

(** The names every object literal inherits from [Object.prototype]. *)
Definition Object_prototype_names : list string :=
  ["constructor"; "__defineGetter__"; "__defineSetter__"; "hasOwnProperty";
   "__lookupGetter__"; "__lookupSetter__"; "isPrototypeOf";
   "propertyIsEnumerable"; "toString"; "valueOf"; "__proto__";
   "toLocaleString"].

(** [REASONING_EFFORT_MAP[effort]]; [None] is [undefined]. *)
Definition REASONING_EFFORT_MAP (effort : string) : option Budget :=
  if JS.eq effort "low" then Some (BudgetNumber (inject_Z 8000))
  else if JS.eq effort "medium" then Some (BudgetNumber (inject_Z 16000))
  else if JS.eq effort "high" then Some (BudgetNumber (inject_Z 32000))
  else if existsb (JS.eq effort) Object_prototype_names
       then Some (BudgetInherited effort)
  else None.

(** What [deriveSessionId] reads of a message. *)
Definition session_block (item : Item) : OpenAIRequest.ContentBlock :=
  {| OpenAIRequest.type := i_type item; OpenAIRequest.text := i_text item |}.

Definition session_message (message : Message) : OpenAIRequest.Message :=
  {| OpenAIRequest.role := role message;
     OpenAIRequest.content :=
       match content message with
       | ContentString s => OpenAIRequest.ContentString s
       | ContentArray items => OpenAIRequest.ContentArray (session_block <$> items)
       | ContentNull => OpenAIRequest.ContentOther
       end |}.

(** [a === b] on ids that may be [undefined]. *)
Definition id_eq (a b : option string) : bool :=
  match a, b with
  | Some x, Some y => JS.eq x y
  | None, None => true
  | _, _ => false
  end.

Definition is_function_response (part : Part) : bool :=
  match part with FunctionResponsePart _ _ _ => true | _ => false end.

(** The loop over the parts of one model turn in
    [findFunctionNameById]. *)
Fixpoint find_call_name (toolCallId : option string) (parts : list Part)
  : option string :=
  match parts with
  | [] => None
  | FunctionCallPart id name _ _ :: rest =>
      if id_eq id toolCallId then Some name else find_call_name toolCallId rest
  | _ :: rest => find_call_name toolCallId rest
  end.

(** The outer loop, over the turns from the last to the first;
    [reversed] is the list of turns, last first. *)
Fixpoint find_name_from_last (toolCallId : option string)
    (reversed : list Turn) : string :=
  match reversed with
  | [] => ""
  | turn :: earlier =>
      if JS.eq (t_role turn) "model" then
        match find_call_name toolCallId (t_parts turn) with
        | Some name => name
        | None => find_name_from_last toolCallId earlier
        end
      else find_name_from_last toolCallId earlier
  end.

Definition findFunctionNameById (toolCallId : option string)
    (antigravityMessages : list Turn) : string :=
  find_name_from_last toolCallId (reverse antigravityMessages).

(** [lastMessage.parts.push(...more)] *)
Definition push_to_last (more : list Part) (antigravityMessages : list Turn)
  : list Turn :=
  alter (fun turn => {| t_role := t_role turn; t_parts := t_parts turn ++ more |})
    (pred (length antigravityMessages)) antigravityMessages.

Definition pushUserMessage (extracted : string * list Part)
    (antigravityMessages : list Turn) : list Turn :=
  antigravityMessages ++
  [{| t_role := "user"; t_parts := TextPart (fst extracted) :: snd extracted |}].

Definition pushFunctionResponse (toolCallId : option string)
    (functionName : string) (resultContent : Content)
    (antigravityMessages : list Turn) : list Turn :=
  let functionResponse :=
    FunctionResponsePart toolCallId functionName resultContent in
  match last antigravityMessages with
  | Some lastMessage =>
      if JS.eq (t_role lastMessage) "user"
         && existsb is_function_response (t_parts lastMessage)
      then push_to_last [functionResponse] antigravityMessages
      else antigravityMessages ++
           [{| t_role := "user"; t_parts := [functionResponse] |}]
  | None => [{| t_role := "user"; t_parts := [functionResponse] |}]
  end.

Definition pushModelMessage (parts toolCalls : list Part) (hasContent : bool)
    (antigravityMessages : list Turn) : list Turn :=
  let hasToolCalls := negb (length toolCalls =? 0)%nat in
  let fresh := {| t_role := "model"; t_parts := parts ++ toolCalls |} in
  match last antigravityMessages with
  | Some lastMessage =>
      if JS.eq (t_role lastMessage) "model" && hasToolCalls && negb hasContent
      then push_to_last toolCalls antigravityMessages
      else antigravityMessages ++ [fresh]
  | None => [fresh]
  end.

Definition handleToolCall (message : Message) (antigravityMessages : list Turn)
  : list Turn :=
  let functionName :=
    findFunctionNameById (tool_call_id message) antigravityMessages in
  pushFunctionResponse (tool_call_id message) functionName (content message)
    antigravityMessages.

(** [{ text: text || ' ', thought: true }] *)
Definition createThoughtPart (text : string) : Part :=
  ThoughtPart (JS.or_str text " ").

(** [content.filter(item => item.type === 'text').map(item => item.text)
    .join('')]; [join] takes an absent text as empty. *)
Definition joined_text_items (items : list Item) : string :=
  foldr String.append ""
    ((fun item => default "" (i_text item)) <$>
       List.filter (fun item => JS.eq (i_type item) "text") items).

(** The texts [extractSystemInstruction] collects: those of the system
    messages the conversation starts with. *)
Fixpoint system_texts (messages : list Message) : list string :=
  match messages with
  | [] => []
  | message :: rest =>
      if JS.eq (role message) "system" then
        let content :=
          match content message with
          | ContentString s => s
          | ContentArray items => joined_text_items items
          | ContentNull => ""
          end in
        match JS.trim content with
        | EmptyString => system_texts rest
        | trimmed => trimmed :: system_texts rest
        end
      else []
  end.

Definition blank_line : string :=
  String OpenAIResponse.newline (String OpenAIResponse.newline "").

Definition extractSystemInstruction (messages : list Message) : string :=
  OpenAIRequest.join blank_line (system_texts messages).

(** The loop in [convertOpenAIToGoogle] that skips the system messages
    at the head; [None] when it ends without reaching its [break]. *)
Fixpoint after_system (messages : list Message) : option (list Message) :=
  match messages with
  | [] => None
  | message :: rest =>
      if JS.eq (role message) "system" then after_system rest
      else Some (message :: rest)
  end.

Definition filteredMessages (messages : list Message) : list Message :=
  default messages (after_system messages).

Definition generateGenerationConfig (parameters : Parameters)
    (enableThinking : bool) (modelName : string) : GenerationConfig :=
  let modelFamily := Constants.getModelFamily modelName in
  let isGemini :=
    match modelFamily with Constants.gemini => true | _ => false end in
  let maxTokens := Gemini.or_number (max_tokens parameters) DEFAULTS.max_tokens in
  let cap := inject_Z Constants.GEMINI_MAX_OUTPUT_TOKENS in
  {| maxOutputTokens :=
       if isGemini && negb (Qle_bool maxTokens cap) then cap else maxTokens;
     g_temperature := default DEFAULTS.temperature (temperature parameters);
     topP := default DEFAULTS.top_p (top_p parameters);
     topK := default DEFAULTS.top_k (top_k parameters);
     thinkingConfig :=
       if enableThinking then
         let thinkingBudget :=
           match thinking_budget parameters with
           | Some q => BudgetNumber q
           | None =>
               if JS.truthy (reasoning_effort parameters) then
                 default (BudgetNumber DEFAULTS.thinking_budget)
                   (REASONING_EFFORT_MAP (default "" (reasoning_effort parameters)))
               else BudgetNumber DEFAULTS.thinking_budget
           end in
         match modelFamily with
         | Constants.claude => Some (SnakeCase true thinkingBudget)
         | Constants.gemini => Some (CamelCase true thinkingBudget)
         | Constants.unknown => None
         end
       else None;
     stopSequences :=
       match stop parameters with
       | Some (StopString (String _ _ as s)) => Some [s]
       | Some (StopString EmptyString) => None
       | Some (StopArray sequences) => Some sequences
       | None => None
       end |}.

Section Converter.

Variable sha256_hex : string -> string.
Variable now : Z.
(** The values of the two [crypto.randomUUID()] calls: the session-id
    fallback and the request id. *)
Variable session_uuid : string.
Variable request_uuid : string.
(** [JSON.parse] on the arguments of a tool call, as the text
    [JSON.stringify] gives back for the result; [None] when it throws. *)
Variable JSON_parse_args : string -> option string.
(** Groups 1 and 2 of [/^data:image\/(\w+);base64,(.+)$/]. *)
Variable match_data_url : string -> option (string * string).
Variable sanitizeSchema : ToolConverter.Schema -> option ToolConverter.Schema.
Variable cleanSchemaForGemini : ToolConverter.Schema -> ToolConverter.Schema.

Definition extract_item (result : string * list Part) (item : Item)
  : string * list Part :=
  if JS.eq (i_type item) "text" then
    (fst result +:+ default "undefined" (i_text item), snd result)
  else if JS.eq (i_type item) "image_url" then
    match match_data_url (default "" (i_url item)) with
    | Some (subtype, data) =>
        (fst result, snd result ++ [InlineDataPart ("image/" +:+ subtype) data])
    | None => result
    end
  else result.

Definition extractImagesFromContent (content : Content) : string * list Part :=
  match content with
  | ContentString s => (s, [])
  | ContentArray items => foldl extract_item ("", []) items
  | ContentNull => ("", [])
  end.

(** [createFunctionCallPart]; [None] when [JSON.parse] throws. *)
Definition createFunctionCallPart (id : option string) (name : string)
    (args : option string) (signature : option string) : option Part :=
  match args with
  | Some text =>
      parsed ← JSON_parse_args text;
      Some (FunctionCallPart id name (Some parsed)
              (if JS.truthy signature then signature else None))
  | None =>
      Some (FunctionCallPart id name None
              (if JS.truthy signature then signature else None))
  end.

(** The callback of [message.tool_calls.map]. *)
Definition convert_tool_call (enableThinking : bool)
    (modelName sessionId : string) (toolCall : ToolCall) (c : caches)
  : option Part * caches :=
  let safeName :=
    ToolConverter.sanitizeToolName (ToolConverter.value_of (tc_name toolCall)) in
  let names :=
    if match tc_name toolCall with
       | Some n => JS.eq safeName n
       | None => false
       end then toolNameMap c
    else ToolNameCache.setToolNameMapping now sessionId modelName safeName
           (default "" (tc_name toolCall)) (toolNameMap c) in
  let '(cachedSig, sigs) :=
    SignatureCache.getCachedSignature now (default "" (tc_id toolCall))
      (signatureCache c) in
  let signature :=
    if enableThinking then
      if JS.truthy (tc_thoughtSignature toolCall)
      then tc_thoughtSignature toolCall
      else if JS.truthy cachedSig then cachedSig else None
    else None in
  (createFunctionCallPart (tc_id toolCall) safeName (tc_arguments toolCall)
     signature,
   {| toolNameMap := names; signatureCache := sigs |}).

(** The [map] as a whole: it stops at the first call that throws. *)
Fixpoint convert_tool_calls (enableThinking : bool)
    (modelName sessionId : string) (toolCalls : list ToolCall) (c : caches)
  : option (list Part) * caches :=
  match toolCalls with
  | [] => (Some [], c)
  | toolCall :: rest =>
      match convert_tool_call enableThinking modelName sessionId toolCall c with
      | (Some part, c) =>
          match convert_tool_calls enableThinking modelName sessionId rest c with
          | (Some parts, c) => (Some (part :: parts), c)
          | (None, c) => (None, c)
          end
      | (None, c) => (None, c)
      end
  end.

(** [None] when the conversion throws: on a content that is an array,
    which has no [trim], or in [JSON.parse]. *)
Definition handleAssistantMessage (message : Message)
    (antigravityMessages : list Turn) (enableThinking : bool)
    (modelName sessionId : string) (c : caches)
  : option (list Turn) * caches :=
  let hasToolCalls :=
    match tool_calls message with
    | Some (_ :: _) => true
    | _ => false
    end in
  match content message with
  | ContentArray _ => (None, c)
  | given =>
      let hasContent :=
        match given with
        | ContentString s =>
            match JS.trim s with EmptyString => false | _ => true end
        | _ => false
        end in
      let '(toolCalls, c) :=
        if hasToolCalls
        then convert_tool_calls enableThinking modelName sessionId
               (default [] (tool_calls message)) c
        else (Some [], c) in
      match toolCalls with
      | None => (None, c)
      | Some toolCalls =>
          let reasoningText :=
            match reasoning_content message with
            | Some (String _ _ as text) => text
            | _ => " "
            end in
          let parts :=
            (if enableThinking then [createThoughtPart reasoningText] else [])
            ++ match given with
               | ContentString s =>
                   if hasContent then [TextPart (JS.trimEnd s)] else []
               | _ => []
               end in
          (Some (pushModelMessage parts toolCalls hasContent
                   antigravityMessages), c)
      end
  end.

(** One turn of the loop of [openaiMessagesToAntigravity]. *)
Definition convert_message (enableThinking : bool)
    (modelName sessionId : string)
    (st : option (list Turn) * caches) (message : Message)
  : option (list Turn) * caches :=
  match st with
  | (None, c) => (None, c)
  | (Some antigravityMessages, c) =>
      if JS.eq (role message) "user" || JS.eq (role message) "system" then
        (Some (pushUserMessage (extractImagesFromContent (content message))
                 antigravityMessages), c)
      else if JS.eq (role message) "assistant" then
        handleAssistantMessage message antigravityMessages enableThinking
          modelName sessionId c
      else if JS.eq (role message) "tool" then
        (Some (handleToolCall message antigravityMessages), c)
      else (Some antigravityMessages, c)
  end.

Definition openaiMessagesToAntigravity (openaiMessages : list Message)
    (enableThinking : bool) (modelName sessionId : string) (c : caches)
  : option (list Turn) * caches :=
  foldl (convert_message enableThinking modelName sessionId) (Some [], c)
    openaiMessages.

(** utils/tool-converter.js: [convertOpenAIToolsToAntigravity] *)
Fixpoint convert_openai_tools (openaiTools : list Tool)
    (sessionId modelName : string) (m : ToolNameCache.store)
  : list ToolConverter.AntigravityTool * ToolNameCache.store :=
  match openaiTools with
  | [] => ([], m)
  | tool :: rest =>
      let func :=
        default {| ToolConverter.d_name := None;
                   ToolConverter.d_description := None;
                   ToolConverter.d_parameters := None |} (function tool) in
      let '(declaration, m) :=
        ToolConverter.convertSingleTool sanitizeSchema cleanSchemaForGemini now
          (ToolConverter.d_name func) (ToolConverter.d_description func)
          (ToolConverter.d_parameters func) sessionId modelName m in
      let '(converted, m) := convert_openai_tools rest sessionId modelName m in
      (ToolConverter.Declarations [declaration] :: converted, m)
  end.

Definition convertOpenAIToolsToAntigravity (openaiTools : option (list Tool))
    (sessionId modelName : string) (m : ToolNameCache.store)
  : list ToolConverter.AntigravityTool * ToolNameCache.store :=
  convert_openai_tools (default [] openaiTools) sessionId modelName m.

(** [None] when the conversion of the messages throws.  An absent model
    name is mapped to itself, and is read as the empty string by all that
    is given it. *)
Definition convertOpenAIToGoogle (openaiRequest : ChatRequest)
    (projectId : string) (c : caches) : option RequestBody * caches :=
  let messages := r_messages openaiRequest in
  let actualModelName :=
    Constants.mapModelName (default "" (r_model openaiRequest)) in
  let enableThinking := Constants.isThinkingModel actualModelName in
  let sessionId :=
    OpenAIRequest.deriveSessionId sha256_hex session_uuid
      (session_message <$> messages) in
  let systemInstruction := extractSystemInstruction messages in
  match openaiMessagesToAntigravity (filteredMessages messages) enableThinking
          actualModelName sessionId c with
  | (None, c) => (None, c)
  | (Some contents, c) =>
      let '(convertedTools, names) :=
        convertOpenAIToolsToAntigravity (r_tools openaiRequest) sessionId
          actualModelName (toolNameMap c) in
      let generationConfig :=
        generateGenerationConfig
          {| max_tokens := r_max_tokens openaiRequest;
             temperature := r_temperature openaiRequest;
             top_p := r_top_p openaiRequest;
             top_k := None;
             stop := r_stop openaiRequest;
             thinking_budget := None;
             reasoning_effort := r_reasoning_effort openaiRequest |}
          enableThinking actualModelName in
      let hasTools := negb (length convertedTools =? 0)%nat in
      (Some
         {| project := projectId;
            requestId := "agent-" +:+ request_uuid;
            request :=
              {| contents := contents;
                 generationConfig := generationConfig;
                 systemInstruction :=
                   match systemInstruction with
                   | EmptyString => None
                   | text => Some text
                   end;
                 tools := if hasTools then Some convertedTools else None;
                 toolConfig := if hasTools then Some Gemini.VALIDATED else None;
                 sessionId := sessionId |};
            model :=
              match r_model openaiRequest with
              | Some _ => Some actualModelName
              | None => None
              end;
            userAgent := "antigravity" |},
       {| toolNameMap := names; signatureCache := signatureCache c |})
  end.

End Converter.

End OpenAIConvert.

(** ** The admin panel: auth/jwt.js and the login of routes/admin.js *)

Module Admin.

(** *** auth/jwt.js: the credentials *)

Record Credentials := {
  adminUsername : string;
  adminPassword : string
}.

Definition validateCredentials (credentials : Credentials)
    (username password : string) : bool :=
  JS.eq username (adminUsername credentials)
  && JS.eq password (adminPassword credentials).

Definition updateCredentials (username password : option string)
    (credentials : Credentials) : Credentials :=
  {| adminUsername :=
       if JS.truthy username then default "" username
       else adminUsername credentials;
     adminPassword :=
       if JS.truthy password then default "" password
       else adminPassword credentials |}.

(** *** routes/admin.js: login rate limiting *)

(** An entry of [loginAttempts]; [blockedUntil] is absent until the
    client is blocked for the first time. *)
Record Attempt := {
  count : Z;
  lastAttempt : Z;
  blockedUntil : option Z
}.

Definition MAX_LOGIN_ATTEMPTS : Z := 5.
Definition BLOCK_DURATION : Z := 5 * 60 * 1000.
Definition ATTEMPT_WINDOW : Z := 15 * 60 * 1000.

(** What the login reads of a request: four places where the address
    of the client may stand, and the two fields of the body. *)
Record LoginRequest := {
  x_forwarded_for : option string;
  x_real_ip : option string;
  remoteAddress : option string;
  ip : option string;
  username : option string;
  password : option string
}.

(** [s.split(',')[0]] *)
Fixpoint before_comma (s : string) : string :=
  match s with
  | EmptyString => EmptyString
  | String c s' =>
      if Ascii.eqb c "," then EmptyString else String c (before_comma s')
  end.

Definition getClientIP (req : LoginRequest) : string :=
  let forwarded :=
    (fun header => JS.trim (before_comma header)) <$> x_forwarded_for req in
  if JS.truthy forwarded then default "" forwarded
  else if JS.truthy (x_real_ip req) then default "" (x_real_ip req)
  else if JS.truthy (remoteAddress req) then default "" (remoteAddress req)
  else if JS.truthy (ip req) then default "" (ip req)
  else "unknown".

(** The result of [checkLoginRateLimit]: allowed, or not allowed for
    the given number of seconds. *)
Inductive RateCheck :=
| Allowed
| Refused (remainingSeconds : Z).

(** [Math.ceil(milliseconds / 1000)] *)
Definition ceil_seconds (milliseconds : Z) : Z := - ((- milliseconds) / 1000).

Definition checkLoginRateLimit (now : Z) (client : string)
    (loginAttempts : gmap string Attempt) : RateCheck * gmap string Attempt :=
  match loginAttempts !! client with
  | None => (Allowed, loginAttempts)
  | Some attempt =>
      if match blockedUntil attempt with
         | Some till => negb (till =? 0) && (now <? till)
         | None => false
         end
      then (Refused (ceil_seconds (default 0 (blockedUntil attempt) - now)),
            loginAttempts)
      else if ATTEMPT_WINDOW <? now - lastAttempt attempt
      then (Allowed, delete client loginAttempts)
      else (Allowed, loginAttempts)
  end.

Definition recordLoginAttempt (now : Z) (client : string) (success : bool)
    (loginAttempts : gmap string Attempt) : gmap string Attempt :=
  if success then delete client loginAttempts
  else
    let attempt :=
      default {| count := 0; lastAttempt := now; blockedUntil := None |}
        (loginAttempts !! client) in
    let counted := count attempt + 1 in
    <[client :=
        {| count := counted;
           lastAttempt := now;
           blockedUntil :=
             if MAX_LOGIN_ATTEMPTS <=? counted then Some (now + BLOCK_DURATION)
             else blockedUntil attempt |}]> loginAttempts.

(** The answers of the login: status 429, 400, 200 and 401.  The text
    of the first, which spells out the seconds, is left out. *)
Inductive Response :=
| TooManyAttempts (retryAfter : Z)
| BadRequest (message : string)
| LoggedIn (token : string)
| InvalidCredentials (message : string).

Definition status (response : Response) : Z :=
  match response with
  | TooManyAttempts _ => 429
  | BadRequest _ => 400
  | LoggedIn _ => 200
  | InvalidCredentials _ => 401
  end.

Section Login.

(** [generateToken({ username, role: 'admin' })], which signs the name
    and the time. *)
Variable generateToken : string -> string.
Variable credentials : Credentials.

(** The handler of [POST /login]; [now] is the time when it checks the
    rate limit and [later] the time when it records the attempt. *)
Definition login (now later : Z) (req : LoginRequest)
    (loginAttempts : gmap string Attempt) : Response * gmap string Attempt :=
  let clientIP := getClientIP req in
  match checkLoginRateLimit now clientIP loginAttempts with
  | (Refused remainingSeconds, loginAttempts) =>
      (TooManyAttempts remainingSeconds, loginAttempts)
  | (Allowed, loginAttempts) =>
      match username req, password req with
      | Some (String _ _ as name), Some (String _ _ as word) =>
          if (100 <? String.length name)%nat || (100 <? String.length word)%nat
          then (BadRequest "Input too long", loginAttempts)
          else if validateCredentials credentials name word
          then (LoggedIn (generateToken name),
                recordLoginAttempt later clientIP true loginAttempts)
          else (InvalidCredentials "Invalid username or password",
                recordLoginAttempt later clientIP false loginAttempts)
      | _, _ => (BadRequest "Username and password required", loginAttempts)
      end
  end.

End Login.

End Admin.

(** * Vocabulary of the specification

    The definitions below are not taken from the source: they word what
    the specification says, and fix the concrete inputs used further down. *)

(** ** Strings as lists of code units *)

Module Chars.

Abbreviation chars := String.list_ascii_of_string.
Abbreviation of_chars := String.string_of_list_ascii.

End Chars.

(** ** Tool-name sanitising, as specified *)

Module SanitizeSpec.
Import Chars.

(** The characters of [[A-Za-z0-9_-]], listed. *)
Definition alphabet : list ascii :=
  chars "ABCDEFGHIJKLMNOPQRSTUVWXYZabcdefghijklmnopqrstuvwxyz0123456789_-".

Definition allowed (c : ascii) : Prop := c ∈ alphabet.

Fixpoint drop_underscores (l : list ascii) : list ascii :=
  match l with
  | c :: l' => if decide (c = "_"%char) then drop_underscores l' else l
  | [] => []
  end.

(** The reference definition, step by step as the specification words
    it: replace, trim at both ends, default to [tool], cap at 128. *)
Definition replace_step (l : list ascii) : list ascii :=
  (fun c => if decide (allowed c) then c else "_"%char) <$> l.

Definition trim_step (l : list ascii) : list ascii :=
  reverse (drop_underscores (reverse (drop_underscores l))).

Definition default_step (l : list ascii) : list ascii :=
  match l with [] => chars "tool" | _ => l end.

Definition cap_step (l : list ascii) : list ascii := take 128 l.

Definition sanitize_reference (n : string) : string :=
  of_chars (cap_step (default_step (trim_step (replace_step (chars n))))).

End SanitizeSpec.

(** ** Model-name mapping, as specified *)

Module ModelNameSpec.
Import Chars.

Definition digits : list ascii := chars "0123456789".

(** [YYYYMMDD]: exactly eight decimal digits. *)
Definition date (d : string) : Prop :=
  String.length d = 8%nat /\ Forall (fun c => c ∈ digits) (chars d).

(** [name] is [stem] followed by a hyphen and a date. *)
Definition date_suffixed (name stem : string) : Prop :=
  exists d, date d /\ name = stem +:+ "-" +:+ d.

Definition capital (b : ascii) : ascii := ascii_of_N (JS.code b - 32).

(** [a] is the lower-case letter [b] or its capital. *)
Definition same_letter (a b : ascii) : Prop := a = b \/ a = capital b.

(** [name] contains the lower-case word [word], ignoring case. *)
Definition mentions (word name : string) : Prop :=
  exists l w r,
    name = l +:+ w +:+ r /\ Forall2 same_letter (chars w) (chars word).

Definition flash_lite : string := "gemini-2.5-flash-lite".

End ModelNameSpec.

(** ** Keys and states of the tool-name cache *)

Module ToolNameSpec.
Import Chars ToolNameCache.

(** A session id without the separator character. *)
Definition colon_free (s : string) : Prop := ":"%char ∉ chars s.

Definition letter (k : nat) : ascii := ascii_of_nat (97 + k).

Definition tool (i : nat) : string :=
  "t." +:+ String (letter (i / 26)) (String (letter (i mod 26)) "").

Definition register (m : store) (i : nat) : store :=
  setToolNameMapping 0 "old" "m"
    (ToolConverter.sanitizeToolName (JS.Str (tool i))) (tool i) m.

(** Session ["old"] registers 512 tools [t.aa], [t.ab], ... one after the
    other: a full cache, oldest entry first. *)
Definition full_cache : store := foldl register [] (seq 0 512).

End ToolNameSpec.

(** ** Which signatures the outbound converters cache *)

Module SignatureSpec.
Import Native.

(** A signature counts from 50 characters on. *)
Definition long_enough (signature : string) : Prop :=
  (Constants.MIN_SIGNATURE_LENGTH <= String.length signature)%nat.

(** The write the OpenAI converter owes for one part: a function-call
    part (one not flagged as a thought) with a long enough signature is
    stored under its tool-call id. *)
Definition openai_write (sha256_hex : string -> string) (part : Part)
  : option (string * string) :=
  match thought part, functionCall part, thoughtSignature part with
  | false, Some funcCall, Some signature =>
      if decide (long_enough signature)
      then Some (OpenAIResponse.toolId_of sha256_hex funcCall, signature)
      else None
  | _, _, _ => None
  end.

(** The write the Gemini converter owes for one part: as above, and the
    call must bring an id of its own. *)
Definition gemini_write (part : Part) : option (string * string) :=
  match functionCall part, thoughtSignature part with
  | Some funcCall, Some signature =>
      match fc_id funcCall with
      | Some (String _ _ as id) =>
          if decide (long_enough signature) then Some (id, signature) else None
      | _ => None
      end
  | _, _ => None
  end.

(** The cache after the given writes, made at time [now] in this order. *)
Definition store_all (now : Z) (writes : list (string * string))
    (cache : gmap string SignatureCache.entry) : gmap string SignatureCache.entry :=
  foldl (fun cache w =>
           <[fst w := {| SignatureCache.signature := snd w;
                         SignatureCache.timestamp := now |}]> cache)
    cache writes.

(** The parts of every candidate, in order. *)
Definition all_parts (r : GoogleResponse) : list Part :=
  c ← default [] (candidates r); candidate_parts c.

End SignatureSpec.

(** ** The first user text of a request *)

Module SessionSpec.



Definition line_feed : string := String (Ascii.ascii_of_nat 10) EmptyString.

(** The text a block contributes: that of a text block, if not empty. *)
Definition block_text (block : OpenAIRequest.ContentBlock) : option string :=
  if decide (OpenAIRequest.type block = "text") then
    match OpenAIRequest.text block with
    | Some (String _ _ as t) => Some t
    | _ => None
    end
  else None.

(** The text of a chat message: the string it is, or its text blocks
    one per line. *)
Definition message_text (msg : OpenAIRequest.Message) : string :=
  match OpenAIRequest.content msg with
  | OpenAIRequest.ContentString s => s
  | OpenAIRequest.ContentArray blocks =>
      String.concat line_feed (omap block_text blocks)
  | OpenAIRequest.ContentOther => ""
  end.










End SessionSpec.

(** ** What an upstream SSE body carries *)

Module SSESpec.
Import Native.

(** The lines of a text that end in a line feed, and what follows the
    last line feed. *)
Fixpoint lines_and_rest (text : string) : list string * string :=
  match text with
  | EmptyString => ([], EmptyString)
  | String c t =>
      let '(lines, rest) := lines_and_rest t in
      if Ascii.eqb c OpenAIResponse.newline then (EmptyString :: lines, rest)
      else match lines with
           | [] => ([], String c rest)
           | l :: ls => (String c l :: ls, rest)
           end
  end.

(** The body as one text: the reads one after the other. *)
Definition body_text (body : list string) : string :=
  foldr String.append EmptyString body.

(** The lines of the body: those a line feed terminates. *)
Definition body_lines (body : list string) : list string :=
  fst (lines_and_rest (body_text body)).

(** The responses its [data:] lines carry: the payloads that parse,
    each taken out of its envelope. *)
Definition payloads (JSON_parse : string -> option SSEData)
    (body : list string) : list GoogleResponse :=
  innerResponse <$>
    omap (fun line => OpenAIResponse.data_payload line ≫= JSON_parse)
      (body_lines body).

(** The parts they carry, in order: those of each first candidate. *)
Definition carried_parts (JSON_parse : string -> option SSEData)
    (body : list string) : list Part :=
  r ← payloads JSON_parse body; candidate_parts (first_candidate r).

(** The finish reasons they report, in order. *)
Definition reported_finish_reasons (JSON_parse : string -> option SSEData)
    (body : list string) : list string :=
  omap (fun r =>
          match finishReason (first_candidate r) with
          | Some (String _ _ as reason) => Some reason
          | _ => None
          end)
    (payloads JSON_parse body).

(** A thought part with the given text. *)
Definition thought_part (t : string) (part : Part) : Prop :=
  thought part = true /\ text part = Some t.

(** A plain text part with the given text: neither a thought nor a
    function call. *)
Definition plain_text_part (t : string) (part : Part) : Prop :=
  thought part = false /\ functionCall part = None /\ text part = Some t.

(** The reader loop over any line handler: the state and the buffer
    after one more read. *)
Definition read {S : Type} (handle : S -> string -> S)
    (sb : S * string) (chunk : string) : S * string :=
  let '(lines, buffer) := OpenAIResponse.read_lines (snd sb) chunk in
  (foldl handle (fst sb) lines, buffer).

End SSESpec.

(** ** The tool configuration of a converted request *)

Module ToolConfigSpec.
Import Gemini.

(** [toolConfig.functionCallingConfig.mode] of the converted request. *)
Definition mode_of (body : RequestBody) : option string :=
  tc ← r_toolConfig (request body);
  fcc ← functionCallingConfig tc;
  mode fcc.

Definition search_tool : ToolConverter.GeminiTool :=
  {| ToolConverter.functionDeclarations :=
       Some [{| ToolConverter.d_name := Some "web.search";
                ToolConverter.d_description := Some "search the web";
                ToolConverter.d_parameters := None |}];
     ToolConverter.t_name := None; ToolConverter.t_description := None;
     ToolConverter.t_parameters := None; ToolConverter.t_input_schema := None |}.

Definition hello : Native.Content :=
  {| Native.role := Some "user";
     Native.parts :=
       Some [{| Native.thought := false; Native.text := Some "hi";
                Native.thoughtSignature := None; Native.functionCall := None;
                Native.functionResponse := None |}] |}.

Definition request_with (given : option ToolConfig) : GeminiRequest :=
  {| contents := Some [hello]; generationConfig := None;
     safetySettings := None; tools := Some [search_tool];
     toolConfig := given; systemInstruction := None; others := [] |}.

Definition AUTO : ToolConfig :=
  {| functionCallingConfig :=
       Some {| mode := Some "AUTO"; allowedFunctionNames := None |} |}.

(** A stand-in for the digest and the helpers that are inputs of the
    converter. *)
Definition convert (r : GeminiRequest) : RequestBody :=
  fst (convertGeminiToGoogle (fun s => s) 0 "uuid-1" "uuid-2"
         (fun k => "call_x") (fun s => Some s) (fun s => s)
         r "gemini-2.5-pro" "project"
         {| toolNameMap := []; signatureCache := ∅ |}).

End ToolConfigSpec.

(** ** Chunks of the OpenAI stream *)

Module StreamSpec.
Import Native OpenAI OpenAIResponse.

(** [choices[0].finish_reason] of a chunk. *)
Definition chunk_finish_reason (chunk : StreamChunk) : option string :=
  choice ← head (sc_choices chunk); cc_finish_reason choice.

Definition intermediate (chunk : StreamChunk) : Prop :=
  chunk_finish_reason chunk = None.

(** The invariant of the generator: nothing yielded before the end
    carries a finish reason. *)
Definition all_intermediate (st : stream_state) : Prop :=
  Forall intermediate (yielded st).

End StreamSpec.

(** ** The accumulators of [accumulateSSEResponse] *)

Module AccumulateSpec.
Import Native OpenAIResponse.

(** The accumulators with other values for the two variables that the
    loop over the parts never touches. *)
Definition with_meta (usage : UsageMetadata) (reason : string) (st : accum)
  : accum :=
  {| finalParts := finalParts st;
     acc_usageMetadata := usage;
     acc_finishReason := reason;
     accumulatedThinkingText := accumulatedThinkingText st;
     accumulatedThinkingSignature := accumulatedThinkingSignature st;
     accumulatedText := accumulatedText st |}.

(** The finish reason after some payloads: the last one reported, or
    the one held before. *)
Definition reason_after (held : string) (rs : list GoogleResponse) : string :=
  default held
    (last (omap (fun r =>
                   match finishReason (first_candidate r) with
                   | Some (String _ _ as reason) => Some reason
                   | _ => None
                   end) rs)).

Definition usage_after (held : UsageMetadata) (rs : list GoogleResponse)
  : UsageMetadata :=
  default held (last (omap usageMetadata rs)).

End AccumulateSpec.

(** ** A thinking-model exchange *)

Module ThinkingExample.
Import Native.

Definition nl : string := String OpenAIResponse.newline "".

Definition thought_ok : Part :=
  {| thought := true; text := Some "ok "; thoughtSignature := None;
     functionCall := None; functionResponse := None |}.

Definition text_hello : Part :=
  {| thought := false; text := Some "hello"; thoughtSignature := None;
     functionCall := None; functionResponse := None |}.

Definition carrying (part : Part) (reason : option string) : GoogleResponse :=
  {| candidates :=
       Some [{| content := Some {| role := Some "model"; parts := Some [part] |};
                finishReason := reason |}];
     usageMetadata := None; modelVersion := None |}.

Definition nothing : GoogleResponse :=
  {| candidates := None; usageMetadata := None; modelVersion := None |}.

(** A parser that knows two payloads, each in the [response] envelope. *)
Definition parse (jsonText : string) : option SSEData :=
  if JS.eq jsonText "{thought}" then
    Some {| response := Some (carrying thought_ok None); bare := nothing |}
  else if JS.eq jsonText "{text}" then
    Some {| response := Some (carrying text_hello (Some "STOP"));
            bare := nothing |}
  else None.

(** Two events, the second cut in the middle of its field name. *)
Definition body : list string :=
  ["data: {thought}" +:+ nl +:+ nl +:+ "da"; "ta: {text}" +:+ nl; nl].

Definition respond : OpenAI.ChatCompletion :=
  fst (OpenAIResponse.chat_completion_thinking (fun s => s) 0 "00" parse
         "gemini-2.5-pro-thinking" "session" body
         {| toolNameMap := []; signatureCache := ∅ |}).

End ThinkingExample.
(** * Vocabulary of the further properties

    As above, these definitions are not taken from the source: they word
    the statements of the last part of the development. *)

(** ** States of the two caches *)

Module CacheSpec.
Import ToolNameCache.

(** The keys of the tool-name map, oldest first. *)
Definition keys (m : store) : list string := fst <$> m.

(** An entry that a sweep at [now] keeps. *)
Definition fresh (now : Z) (e : entry) : Prop := now - ts e <= ENTRY_TTL_MS.

(** The key and entry that a call of [setToolNameMapping] writes. *)
Definition written (now : Z) (sessionId model safeName originalName : string)
  : string * entry :=
  (makeKey sessionId model safeName,
   {| originalName := originalName; ts := now |}).

End CacheSpec.

(** ** What goes upstream *)

Module UpstreamSpec.
Import Chars.

(** A function name the upstream accepts: one to 128 characters of
    [[A-Za-z0-9_-]]. *)
Definition safe_name (r : string) : Prop :=
  r <> "" /\ (String.length r <= 128)%nat /\
  Forall SanitizeSpec.allowed (chars r).

(** The names a converted tools array declares, in order. *)
Definition declared_names (tools : list ToolConverter.AntigravityTool)
  : list string :=
  tool ← tools;
  match tool with
  | ToolConverter.Declarations ds => ToolConverter.name <$> ds
  | ToolConverter.AsIs _ => []
  end.

(** The output-token limit a Gemini request asks for: the first of
    [maxOutputTokens] and [max_tokens] that is set and not zero, or the
    default of 32000. *)
Definition requested_max_tokens (config : Gemini.GenerationConfigIn) : Q :=
  Gemini.or_number (Gemini.maxOutputTokens_in config)
    (Gemini.or_number (Gemini.max_tokens_in config)
       Gemini.DEFAULTS.maxOutputTokens).

End UpstreamSpec.

(** ** Function calls and responses of a conversation *)

Module CallIdSpec.
Import Native.

(** The parts of the turns with the given role, in order. *)
Definition turn_parts (r : string) (contents : list Content) : list Part :=
  c ← contents; if Gemini.has_role r c then default [] (parts c) else [].

(** The function calls of the model turns and the function responses of
    the user turns. *)
Definition calls (contents : list Content) : list FunctionCall :=
  omap functionCall (turn_parts "model" contents).

Definition responses (contents : list Content) : list FunctionResponse :=
  omap functionResponse (turn_parts "user" contents).

(** Filling in the ids that are missing, in order, from a supply
    numbered from [k]: an id that is given is kept, a missing one takes
    the next id of the supply, if there is one left. *)
Fixpoint fill (supply : nat -> option string) (k : nat)
    (given : list (option string)) : list (option string) :=
  match given with
  | [] => []
  | id :: rest =>
      if JS.truthy id then id :: fill supply k rest
      else match supply k with
           | Some i => Some i :: fill supply (S k) rest
           | None => id :: fill supply k rest
           end
  end.

(** The number of the next id of the supply after that. *)
Fixpoint fill_next (supply : nat -> option string) (k : nat)
    (given : list (option string)) : nat :=
  match given with
  | [] => k
  | id :: rest =>
      if JS.truthy id then fill_next supply k rest
      else match supply k with
           | Some i => fill_next supply (S k) rest
           | None => fill_next supply k rest
           end
  end.

(** A conversation with the ids of its calls and responses left out. *)
Definition part_without_ids (part : Part) : Part :=
  {| thought := thought part; text := text part;
     thoughtSignature := thoughtSignature part;
     functionCall :=
       (fun fc => {| fc_id := None; fc_name := fc_name fc;
                     fc_args := fc_args fc |}) <$> functionCall part;
     functionResponse :=
       (fun fr => {| fr_id := None; fr_name := fr_name fr;
                     fr_response := fr_response fr |}) <$> functionResponse part |}.

Definition content_without_ids (c : Content) : Content :=
  {| role := role c;
     parts := match parts c with
              | Some ps => Some (part_without_ids <$> ps)
              | None => None
              end |}.

Definition without_ids (contents : list Content) : list Content :=
  content_without_ids <$> contents.

End CallIdSpec.

(** ** A conversation with a tool round *)

Module ToolRoundExample.
Import Native.

Definition call (id : option string) (name : string) : Part :=
  {| thought := false; text := None; thoughtSignature := None;
     functionCall := Some {| fc_id := id; fc_name := name; fc_args := None |};
     functionResponse := None |}.

Definition result (id : option string) (name : string) : Part :=
  {| thought := false; text := None; thoughtSignature := None;
     functionCall := None;
     functionResponse :=
       Some {| fr_id := id; fr_name := name; fr_response := "{}" |} |}.

(** The model calls two functions, the first without an id; the user
    turn answers both without ids. *)
Definition conversation : list Content :=
  [{| role := Some "model";
      parts := Some [call None "search"; call (Some "call_7") "fetch"] |};
   {| role := Some "user";
      parts := Some [result None "search"; result None "fetch"] |}].

(** A generator of ids: [call_a], [call_b], ... *)
Definition generate (k : nat) : string :=
  "call_" +:+ String (ascii_of_nat (97 + k)) "".

End ToolRoundExample.

(** ** A stream taken as one response *)

Module MergeSpec.
Import Native OpenAIResponse.

(** The one response that carries what the whole stream carried: every
    part in order, the last finish reason and the last usage reported. *)
Definition merged (JSON_parse : string -> option SSEData) (body : list string)
  : GoogleResponse :=
  {| candidates :=
       Some [{| content :=
                  Some {| role := None;
                          parts := Some (SSESpec.carried_parts JSON_parse body) |};
                finishReason :=
                  Some (AccumulateSpec.reason_after "STOP"
                          (SSESpec.payloads JSON_parse body)) |}];
     usageMetadata :=
       Some (AccumulateSpec.usage_after empty_usage
               (SSESpec.payloads JSON_parse body));
     modelVersion := None |}.

(** The accumulators of [convertGoogleToOpenAI] with more reasoning text
    or more message text. *)
Definition add_reasoning (t : string) (a : acc) : acc :=
  {| messageContent := messageContent a;
     reasoningContent := reasoningContent a +:+ t;
     toolCalls := toolCalls a;
     toolCallIndex := toolCallIndex a;
     acc_caches := acc_caches a |}.

Definition add_text (t : string) (a : acc) : acc :=
  {| messageContent := messageContent a +:+ t;
     reasoningContent := reasoningContent a;
     toolCalls := toolCalls a;
     toolCallIndex := toolCallIndex a;
     acc_caches := acc_caches a |}.

(** What [convertGoogleToOpenAI] has read once the parts flushed so far
    and the two pending texts are counted. *)
Definition pending (step : acc -> Part -> acc) (init : acc) (st : accum) : acc :=
  add_text (accumulatedText st)
    (add_reasoning (accumulatedThinkingText st)
       (foldl step init (finalParts st))).

End MergeSpec.

(** ** What the OpenAI stream delivers *)

Module StreamContentSpec.
Import Native OpenAI OpenAIResponse.

(** The delta a part is streamed as, if it is streamed at once: a
    thought with text as reasoning, any other part with text as
    content. *)
Definition part_delta (part : Part) : option Delta :=
  if thought part then
    match default "" (text part) with
    | EmptyString => None
    | t => Some (DeltaReasoning t)
    end
  else
    match text part with
    | Some (String _ _ as t) => Some (DeltaContent t)
    | _ => None
    end.

(** The parts the stream converter holds back as tool calls: function
    calls that are neither thoughts nor carry text. *)
Definition is_streamed_call (part : Part) : bool :=
  negb (thought part) && negb (JS.truthy (text part)) &&
  match functionCall part with Some _ => true | None => false end.

(** The parts [convertGoogleToOpenAI] turns into tool calls. *)
Definition is_call (part : Part) : bool :=
  negb (thought part) &&
  match functionCall part with Some _ => true | None => false end.

Definition set_index (i : nat) (call : ToolCall) : ToolCall :=
  {| tc_index := Some i; tc_id := tc_id call; tc_type := tc_type call;
     tc_name := tc_name call; tc_arguments := tc_arguments call;
     tc_thoughtSignature := tc_thoughtSignature call |}.

(** Tool calls numbered from 0 in the order they stand in. *)
Definition with_index (calls : list ToolCall) : list ToolCall :=
  imap set_index calls.

(** The accumulators [convertGoogleToOpenAI] starts from. *)
Definition convert_init (c : caches) : acc :=
  {| messageContent := ""; reasoningContent := ""; toolCalls := [];
     toolCallIndex := 0; acc_caches := c |}.

(** [choices[0].delta] of a chunk. *)
Definition chunk_delta (chunk : StreamChunk) : option Delta :=
  cc_delta <$> head (sc_choices chunk).

(** The texts a sequence of chunks delivers, joined: those of the
    content deltas and those of the reasoning deltas. *)
Definition content_of (chunks : list StreamChunk) : string :=
  foldr String.append ""
    (omap (fun chunk => match chunk_delta chunk with
                        | Some (DeltaContent t) => Some t
                        | _ => None
                        end) chunks).

Definition reasoning_of (chunks : list StreamChunk) : string :=
  foldr String.append ""
    (omap (fun chunk => match chunk_delta chunk with
                        | Some (DeltaReasoning t) => Some t
                        | _ => None
                        end) chunks).

(** The tool calls a sequence of chunks delivers. *)
Definition calls_of (chunks : list StreamChunk) : list ToolCall :=
  chunk ← chunks;
  match chunk_delta chunk with
  | Some (DeltaToolCalls calls) => calls
  | _ => []
  end.

(** The stream converter and [convertGoogleToOpenAI] hold the same tool
    calls and the same caches. *)
Definition same_calls (st : stream_state) (a : acc) : Prop :=
  pendingToolCalls st = with_index (toolCalls a) /\
  st_caches st = acc_caches a.

(** The chunks streamed for the given parts: the chunk that announces
    the role, if there is any part, and their deltas. *)
Definition streamed (chunk_with : Delta -> StreamChunk) (ps : list Part)
  : list StreamChunk :=
  match ps with
  | [] => []
  | _ =>
      chunk_with (DeltaRole "assistant" "") ::
      omap (fun part => chunk_with <$> part_delta part) ps
  end.

(** The parts of the first candidate of a payload. *)
Definition data_parts (data : SSEData) : list Part :=
  candidate_parts (first_candidate (innerResponse data)).

(** The invariant of the generator: what it has yielded and holds back
    is what the parts read so far call for. *)
Definition follows (chunk_with : Delta -> StreamChunk)
    (convert : acc -> Part -> acc) (c : caches)
    (st : stream_state) (sofar : list Part) : Prop :=
  yielded st = streamed chunk_with sofar /\
  hasEmittedStart st = match sofar with [] => false | _ => true end /\
  same_calls st
    (foldl convert (convert_init c) (List.filter is_streamed_call sofar)).

(** The finish reason the generator holds after one more payload: a
    function call held back makes it [tool_calls], a finish reason
    reported by the payload overrides that. *)
Definition finish_after (held : string) (r : GoogleResponse) : string :=
  if JS.truthy (finishReason (first_candidate r))
  then FinishReason.mapFinishReason (finishReason (first_candidate r))
  else if existsb is_streamed_call (candidate_parts (first_candidate r))
       then "tool_calls" else held.

(** [choices[0].finish_reason] of the last chunk. *)
Definition final_finish_reason (chunks : list StreamChunk) : option string :=
  last chunks ≫= StreamSpec.chunk_finish_reason.

(** The text a part adds to the content and to the reasoning of the
    stream. *)
Definition part_content (part : Part) : option string :=
  match part_delta part with
  | Some (DeltaContent t) => Some t
  | _ => None
  end.

Definition part_reasoning (part : Part) : option string :=
  match part_delta part with
  | Some (DeltaReasoning t) => Some t
  | _ => None
  end.

(** Two states of [convertGoogleToOpenAI] with the same tool calls and
    caches. *)
Definition same_tools (a b : acc) : Prop :=
  toolCalls a = toolCalls b /\ acc_caches a = acc_caches b.

(** A tool call a client can answer: it has an id and the type
    [function]. *)
Definition answerable (call : ToolCall) : Prop :=
  tc_id call <> "" /\ tc_type call = "function".

(** The id a tool call is handed out under: the id the function call
    came with, or [call_] and the first 24 characters of the digest of
    its name, a colon and its arguments. *)
Definition call_id (sha256_hex : string -> string) (call : FunctionCall)
  : string :=
  match fc_id call with
  | Some (String _ _ as id) => id
  | _ =>
      "call_" +:+
      String.substring 0 24
        (sha256_hex (fc_name call +:+ ":" +:+ default "{}" (fc_args call)))
  end.

(** The ids under which the function calls among the parts are handed
    out, in order. *)
Definition call_ids (sha256_hex : string -> string) (parts : list Part)
  : list string :=
  call_id sha256_hex <$> omap functionCall parts.

(** A part that is a function call does not carry text as well. *)
Definition call_without_text (part : Part) : Prop :=
  is_call part = true -> JS.truthy (text part) = false.

End StreamContentSpec.

(** ** A stream with a tool call *)

Module ToolStreamExample.
Import Native.

Definition nl : string := String OpenAIResponse.newline "".

Definition call_part : Part :=
  {| thought := false; text := None; thoughtSignature := None;
     functionCall :=
       Some {| fc_id := None; fc_name := "my_tool";
               fc_args := Some "{}" |};
     functionResponse := None |}.

Definition text_part : Part :=
  {| thought := false; text := Some "Looking it up."; thoughtSignature := None;
     functionCall := None; functionResponse := None |}.

Definition carrying (ps : list Part) (reason : option string) : GoogleResponse :=
  {| candidates :=
       Some [{| content := Some {| role := Some "model"; parts := Some ps |};
                finishReason := reason |}];
     usageMetadata := None; modelVersion := None |}.

(** A parser that knows two payloads. *)
Definition parse (jsonText : string) : option SSEData :=
  if JS.eq jsonText "{text}" then
    Some {| response := Some (carrying [text_part] None);
            bare := ThinkingExample.nothing |}
  else if JS.eq jsonText "{call}" then
    Some {| response := Some (carrying [call_part] (Some "STOP"));
            bare := ThinkingExample.nothing |}
  else None.

Definition body : list string :=
  ["data: {text}" +:+ nl; "data: {call}" +:+ nl].

(** The client called the tool [my.tool!]; the mapping is in the
    cache. *)
Definition registered : caches :=
  {| toolNameMap :=
       ToolNameCache.setToolNameMapping 0 "session" "gemini-3-pro"
         "my_tool" "my.tool!" [];
     signatureCache := ∅ |}.

End ToolStreamExample.

(** ** Responses in the Gemini format *)

Module GeminiResponseSpec.
Import Native.

(** A response with the names of its function calls left out. *)
Definition part_without_name (part : Part) : Part :=
  {| thought := thought part; text := text part;
     thoughtSignature := thoughtSignature part;
     functionCall :=
       (fun fc => {| fc_id := fc_id fc; fc_name := "";
                     fc_args := fc_args fc |}) <$> functionCall part;
     functionResponse := functionResponse part |}.

Definition content_without_names (ct : Content) : Content :=
  {| role := role ct;
     parts := match parts ct with
              | Some ps => Some (part_without_name <$> ps)
              | None => None
              end |}.

Definition candidate_without_names (cand : Candidate) : Candidate :=
  {| content := content_without_names <$> content cand;
     finishReason := finishReason cand |}.

Definition without_names (r : GoogleResponse) : GoogleResponse :=
  {| candidates :=
       match candidates r with
       | Some cs => Some (candidate_without_names <$> cs)
       | None => None
       end;
     usageMetadata := usageMetadata r;
     modelVersion := modelVersion r |}.

(** A text that one SSE event can carry as it stands: not empty, no
    line feed, no white space at either end.  What [JSON.stringify]
    returns for an object is such a text. *)
Definition event_text (jsonText : string) : Prop :=
  jsonText <> "" /\
  JS.includes (String OpenAIResponse.newline "") jsonText = false /\
  JS.trim jsonText = jsonText.

End GeminiResponseSpec.

(** ** Conversations in the OpenAI format *)

Module ChatSpec.
Import OpenAIConvert.

(** The tool calls that the assistant messages of a conversation hold,
    in order. *)
Definition requested_calls (messages : list Message) : list ToolCall :=
  message ← messages;
  if JS.eq (role message) "assistant" then default [] (tool_calls message)
  else [].

(** The name under which a tool call goes upstream. *)
Definition upstream_name (toolCall : ToolCall) : string :=
  ToolConverter.sanitizeToolName (ToolConverter.value_of (tc_name toolCall)).

(** Id, name and arguments of the function calls in the turns of a
    native request, in order; id, name and output of its function
    responses. *)
Definition call_of (part : Part)
  : option (option string * string * option string) :=
  match part with
  | FunctionCallPart id name args _ => Some (id, name, args)
  | _ => None
  end.

Definition response_of (part : Part)
  : option (option string * string * Content) :=
  match part with
  | FunctionResponsePart id name output => Some (id, name, output)
  | _ => None
  end.

Definition calls (turns : list Turn)
  : list (option string * string * option string) :=
  omap call_of (turns ≫= t_parts).

Definition responses (turns : list Turn)
  : list (option string * string * Content) :=
  omap response_of (turns ≫= t_parts).

(** The upstream name of the call with the given id among the calls
    made so far; empty when there is none. *)
Definition name_of_call (id : option string) (made : list ToolCall) : string :=
  match List.find (fun toolCall => id_eq (tc_id toolCall) id) made with
  | Some toolCall => upstream_name toolCall
  | None => ""
  end.

(** One function response for each tool message, which takes its id
    and its content from the message and its name from the call that
    the message answers. *)
Fixpoint answers (made : list ToolCall) (messages : list Message)
  : list (option string * string * Content) :=
  match messages with
  | [] => []
  | message :: rest =>
      if JS.eq (role message) "tool" then
        (tool_call_id message, name_of_call (tool_call_id message) made,
         content message) :: answers made rest
      else if JS.eq (role message) "assistant" then
        answers (made ++ default [] (tool_calls message)) rest
      else answers made rest
  end.

Definition is_thought (part : Part) : bool :=
  match part with ThoughtPart _ => true | _ => false end.

(** A turn that opens with a thought, whose text is not empty. *)
Definition opens_with_thought (turn : Turn) : Prop :=
  exists text rest, text <> "" /\ t_parts turn = ThoughtPart text :: rest.

(** A schema that names its type, and its properties when the type is
    [object]. *)
Definition typed_schema (schema : ToolConverter.Schema) : Prop :=
  is_Some (Json.get "type" schema) /\
  (Json.get "type" schema = Some (Json.JStr "object") ->
   is_Some (Json.get "properties" schema)).

(** What the request declares for a tool of the client: one function,
    under the sanitised name, with a typed schema. *)
Definition declares (tool : Tool) (declared : ToolConverter.AntigravityTool)
  : Prop :=
  exists declaration,
    declared = ToolConverter.Declarations [declaration] /\
    ToolConverter.name declaration =
      ToolConverter.sanitizeToolName
        (ToolConverter.value_of (function tool ≫= ToolConverter.d_name)) /\
    UpstreamSpec.safe_name (ToolConverter.name declaration) /\
    typed_schema (ToolConverter.parameters declaration).

(** The thinking budget for a reasoning effort: 8000 for [low], 32000
    for [high], 16000 for [medium] and for every other text but the
    names that an object inherits, for which the effort table gives what
    is inherited. *)
Definition effort_budget (effort : option string) : Budget :=
  match effort with
  | Some name =>
      if JS.eq name "low" then BudgetNumber (inject_Z 8000)
      else if JS.eq name "high" then BudgetNumber (inject_Z 32000)
      else if existsb (JS.eq name) Object_prototype_names
           then BudgetInherited name
      else BudgetNumber (inject_Z 16000)
  | None => BudgetNumber (inject_Z 16000)
  end.

(** The output-token limit a chat request asks for. *)
Definition requested_max_tokens (openaiRequest : ChatRequest) : Q :=
  Gemini.or_number (r_max_tokens openaiRequest) (inject_Z 32000).

(** The turns of a request for a model that thinks, or does not. *)
Definition well_formed_turn (thinking : bool) (turn : Turn) : Prop :=
  (t_role turn = "user" \/ t_role turn = "model") /\
  if thinking then t_role turn = "model" -> opens_with_thought turn
  else forallb (fun part => negb (is_thought part)) (t_parts turn) = true.

Definition budget_of (config : ThinkingConfig) : Budget :=
  match config with
  | SnakeCase _ budget => budget
  | CamelCase _ budget => budget
  end.

(** The text of a system message, and the instruction that a list of
    system messages amounts to: their texts without the white space
    around them, the empty ones left out, a blank line between them. *)
Definition message_text (message : Message) : string :=
  match content message with
  | ContentString s => s
  | ContentArray items => joined_text_items items
  | ContentNull => ""
  end.

Definition instruction (systems : list Message) : string :=
  OpenAIRequest.join blank_line
    (List.filter (fun text => negb (JS.eq text ""))
       ((fun message => JS.trim (message_text message)) <$> systems)).

Definition with_messages (openaiRequest : ChatRequest)
    (messages : list Message) : ChatRequest :=
  {| r_model := r_model openaiRequest;
     r_messages := messages;
     r_max_tokens := r_max_tokens openaiRequest;
     r_temperature := r_temperature openaiRequest;
     r_top_p := r_top_p openaiRequest;
     r_stop := r_stop openaiRequest;
     r_tools := r_tools openaiRequest;
     r_reasoning_effort := r_reasoning_effort openaiRequest |}.

(** A request body with the given system instruction, or with none
    when the text is empty. *)
Definition with_system (text : string) (body : RequestBody) : RequestBody :=
  {| project := project body;
     requestId := requestId body;
     request :=
       {| contents := contents (request body);
          generationConfig := generationConfig (request body);
          systemInstruction :=
            match text with
            | EmptyString => None
            | _ => Some text
            end;
          tools := tools (request body);
          toolConfig := toolConfig (request body);
          sessionId := sessionId (request body) |};
     model := model body;
     userAgent := userAgent body |}.

(** The user turn that a message is sent as. *)
Definition user_turn (match_data_url : string -> option (string * string))
    (message : Message) : Turn :=
  let extracted := extractImagesFromContent match_data_url (content message) in
  {| t_role := "user"; t_parts := TextPart (fst extracted) :: snd extracted |}.

End ChatSpec.

(** A conversation with one round of tool use: the assistant called
    [get.weather], the client answers. *)
Module ChatExample.
Import OpenAIConvert.

Definition plain (r : string) (text : string) : Message :=
  {| role := r; content := ContentString text; tool_calls := None;
     reasoning_content := None; tool_call_id := None |}.

Definition call : ToolCall :=
  {| tc_id := Some "call_1"; tc_name := Some "get.weather";
     tc_arguments := Some "{}"; tc_thoughtSignature := None |}.

Definition messages : list Message :=
  [plain "system" "Be brief."; plain "user" "Weather in Paris?";
   {| role := "assistant"; content := ContentNull; tool_calls := Some [call];
      reasoning_content := None; tool_call_id := None |};
   {| role := "tool"; content := ContentString "sunny"; tool_calls := None;
      reasoning_content := None; tool_call_id := Some "call_1" |}].

Definition weather_tool : Tool :=
  {| function :=
       Some {| ToolConverter.d_name := Some "get.weather";
               ToolConverter.d_description := None;
               ToolConverter.d_parameters := None |} |}.

Definition chat (modelName : string) : ChatRequest :=
  {| r_model := Some modelName; r_messages := messages;
     r_max_tokens := Some (inject_Z 100000); r_temperature := None;
     r_top_p := None; r_stop := None; r_tools := Some [weather_tool];
     r_reasoning_effort := Some "high" |}.

Definition fresh : caches := {| toolNameMap := []; signatureCache := ∅ |}.

(** The conversion with the functions it takes as given set to simple
    ones. *)
Definition converted (modelName : string) : option RequestBody * caches :=
  convertOpenAIToGoogle (fun text => text) 0 "session" "request" Some
    (fun _ => None) Some (fun schema => schema) (chat modelName) "project"
    fresh.

End ChatExample.

(** ** Logins to the admin panel *)

Module LoginSpec.
Import Admin.

(** One login: the request and the two times at which the handler
    reads the clock. *)
Record Try := {
  at_check : Z;
  at_record : Z;
  sent : LoginRequest
}.

(** A request that reaches the check of the credentials and fails it,
    and one that passes it. *)
Definition checked (credentials : Credentials) (req : LoginRequest)
  : option bool :=
  match username req, password req with
  | Some (String _ _ as name), Some (String _ _ as word) =>
      if (String.length name <=? 100)%nat && (String.length word <=? 100)%nat
      then Some (validateCredentials credentials name word)
      else None
  | _, _ => None
  end.

(** The state after a series of logins. *)
Definition after (generateToken : string -> string)
    (credentials : Credentials) (tries : list Try)
    (loginAttempts : gmap string Attempt) : gmap string Attempt :=
  foldl (fun attempts try =>
           snd (login generateToken credentials (at_check try) (at_record try)
                  (sent try) attempts))
    loginAttempts tries.

(** Each login is checked no more than fifteen minutes after the one
    before it was recorded. *)
Fixpoint spaced (last : option Z) (tries : list Try) : Prop :=
  match tries with
  | [] => True
  | try :: rest =>
      match last with
      | Some recorded => at_check try - recorded <= ATTEMPT_WINDOW
      | None => True
      end /\ spaced (Some (at_record try)) rest
  end.

(** A failed login of the client, at a time that is not negative. *)
Definition failure (credentials : Credentials) (client : string) (try : Try)
  : Prop :=
  getClientIP (sent try) = client /\
  checked credentials (sent try) = Some false /\
  0 <= at_record try.

End LoginSpec.

Module LoginExample.
Import Admin LoginSpec.

Definition credentials : Credentials :=
  {| adminUsername := "admin"; adminPassword := "secret" |}.

Definition guess (word : string) : LoginRequest :=
  {| x_forwarded_for := Some "10.0.0.7, 192.168.1.1"; x_real_ip := None;
     remoteAddress := None; ip := None;
     username := Some "admin"; password := Some word |}.

(** Five wrong guesses, one a second. *)
Definition guesses : list Try :=
  (fun k => {| at_check := 1000 * k; at_record := 1000 * k + 1;
               sent := guess "guess" |}) <$> [1; 2; 3; 4; 5].

End LoginExample.

(** ** A tool call through the routes *)

(** The client declares the tool [my.tool!]; the upstream calls it
    under the name it was declared with, [my_tool].  The two
    non-streaming routes, with the functions they take as given set to
    simple ones: the request is converted, then the answer, with the
    model name and the session id as the handlers pass them. *)
Module RouteExample.

Definition declaration : ToolConverter.Declaration :=
  {| ToolConverter.d_name := Some "my.tool!";
     ToolConverter.d_description := None;
     ToolConverter.d_parameters := None |}.

Definition upstream : Native.GoogleResponse :=
  ToolStreamExample.carrying [ToolStreamExample.call_part] (Some "STOP").

Definition chat (modelName : string) : OpenAIConvert.ChatRequest :=
  {| OpenAIConvert.r_model := Some modelName;
     OpenAIConvert.r_messages := [ChatExample.plain "user" "hi"];
     OpenAIConvert.r_max_tokens := None;
     OpenAIConvert.r_temperature := None;
     OpenAIConvert.r_top_p := None;
     OpenAIConvert.r_stop := None;
     OpenAIConvert.r_tools :=
       Some [{| OpenAIConvert.function := Some declaration |}];
     OpenAIConvert.r_reasoning_effort := None |}.

(** routes/openai.js: the names of the tool calls in the answer. *)
Definition openai_route (modelName : string) : option (list string) :=
  match OpenAIConvert.convertOpenAIToGoogle (fun text => text) 0 "uuid"
          "request" Some (fun _ => None) Some (fun schema => schema)
          (chat modelName) "project" ChatExample.fresh with
  | (Some payload, c) =>
      let sessionId :=
        OpenAIConvert.sessionId (OpenAIConvert.request payload) in
      let answer :=
        fst (OpenAIResponse.convertGoogleToOpenAI (fun text => text) 5 "hex"
               modelName sessionId upstream c) in
      Some (choice ← OpenAI.choices answer;
            OpenAI.tc_name <$>
              default [] (OpenAI.tool_calls (OpenAI.message choice)))
  | (None, _) => None
  end.

Definition generate_request : Gemini.GeminiRequest :=
  {| Gemini.contents :=
       Some [{| Native.role := Some "user";
                Native.parts := Some [ToolStreamExample.text_part] |}];
     Gemini.generationConfig := None;
     Gemini.safetySettings := None;
     Gemini.tools :=
       Some [{| ToolConverter.functionDeclarations := Some [declaration];
                ToolConverter.t_name := None;
                ToolConverter.t_description := None;
                ToolConverter.t_parameters := None;
                ToolConverter.t_input_schema := None |}];
     Gemini.toolConfig := None;
     Gemini.systemInstruction := None;
     Gemini.others := [] |}.

(** routes/gemini.js: the names of the function calls in the answer. *)
Definition gemini_route (modelName : string) : list string :=
  let '(payload, c) :=
    Gemini.convertGeminiToGoogle (fun text => text) 0 "uuid" "request"
      (fun _ => "id") Some (fun schema => schema) generate_request modelName
      "project" ChatExample.fresh in
  let sessionId := Gemini.r_sessionId (Gemini.request payload) in
  let answer :=
    fst (Gemini.convertGoogleToGemini 5 sessionId modelName upstream c) in
  Native.fc_name <$> omap Native.functionCall (SignatureSpec.all_parts answer).

End RouteExample.

(** ** A stream whose second payload carries a function call, a part of
       the usage data and no finish reason *)

Module UsageExample.
Import Native.

Definition reporting (part : Part) (usage : UsageMetadata) : GoogleResponse :=
  {| candidates :=
       Some [{| content :=
                  Some {| role := Some "model"; parts := Some [part] |};
                finishReason := None |}];
     usageMetadata := Some usage;
     modelVersion := None |}.

Definition parse (jsonText : string) : option SSEData :=
  if JS.eq jsonText "{text}" then
    Some {| response :=
              Some (reporting ToolStreamExample.text_part
                      {| promptTokenCount := Some 10;
                         candidatesTokenCount := Some 5;
                         cachedContentTokenCount := None |});
            bare := ThinkingExample.nothing |}
  else if JS.eq jsonText "{call}" then
    Some {| response :=
              Some (reporting ToolStreamExample.call_part
                      {| promptTokenCount := None;
                         candidatesTokenCount := Some 7;
                         cachedContentTokenCount := None |});
            bare := ThinkingExample.nothing |}
  else None.

Definition fresh : caches := {| toolNameMap := []; signatureCache := ∅ |}.

(** What the non-streaming route for a thinking model answers, and the
    last chunk of the stream. *)
Definition answered : OpenAI.ChatCompletion :=
  fst (OpenAIResponse.chat_completion_thinking (fun text => text) 0 "hex"
         parse "gemini-3-pro" "session" ToolStreamExample.body fresh).

Definition streamed : list OpenAI.StreamChunk :=
  fst (OpenAIResponse.streamGoogleToOpenAI (fun text => text) 0 "hex" parse
         "gemini-3-pro" "session" ToolStreamExample.body fresh).

End UsageExample.

(** * Properties *)

(** ** Worked examples *)

Module Examples.

Example sanitize_replaces_and_trims :
  ToolConverter.sanitizeToolName (JS.Str "my.tool!") = "my_tool".
Proof. reflexivity. Qed.

Example sanitize_keeps_inner_underscores :
  ToolConverter.sanitizeToolName (JS.Str "__a b__c_") = "a_b__c".
Proof. reflexivity. Qed.

Example sanitize_nothing_left :
  ToolConverter.sanitizeToolName (JS.Str "!?!") = "tool".
Proof. reflexivity. Qed.

Example sanitize_undefined :
  ToolConverter.sanitizeToolName JS.Undefined = "tool".
Proof. reflexivity. Qed.

Example mapModelName_dated :
  Constants.mapModelName "claude-sonnet-4-5-20250929" = "claude-sonnet-4-5".
Proof. reflexivity. Qed.

Example mapModelName_nine_digits :
  Constants.mapModelName "model-123456789" = "model-123456789".
Proof. reflexivity. Qed.

Example isThinkingModel_by_name_or_version :
  Constants.isThinkingModel "gemini-2.5-pro-thinking" = true /\
  Constants.isThinkingModel "gemini-3-pro" = true /\
  Constants.isThinkingModel "gemini-2.5-pro" = false /\
  Constants.isThinkingModel "claude-opus-4-5-thinking" = true.
Proof. repeat split. Qed.

Example mapFinishReason_default :
  FinishReason.mapFinishReason None = "stop" /\
  FinishReason.mapFinishReason (Some "RECITATION") = "stop".
Proof. split; reflexivity. Qed.

(** One read that ends inside a line: the line waits in the buffer. *)
Example read_lines_keeps_the_rest :
  OpenAIResponse.read_lines "da"
    ("ta: {}" +:+ ThinkingExample.nl +:+ "data: {")
  = (["data: {}"], "data: {").
Proof. reflexivity. Qed.

(** Text after the last line feed of the body is never handled. *)
Example unterminated_line_is_not_read :
  SSESpec.body_lines ["data: {thought}" +:+ ThinkingExample.nl; "data: {text}"]
  = ["data: {thought}"].
Proof. reflexivity. Qed.

(** The body of the thinking exchange, streamed: the role chunk, the
    reasoning delta, the content delta and the final chunk. *)
Example stream_of_thinking_exchange :
  (fun chunk => OpenAI.cc_delta <$> OpenAI.sc_choices chunk) <$>
    fst (OpenAIResponse.streamGoogleToOpenAI (fun s => s) 0 "00"
           ThinkingExample.parse "gemini-2.5-pro-thinking" "session"
           ThinkingExample.body {| toolNameMap := []; signatureCache := ∅ |})
  = [[OpenAI.DeltaRole "assistant" ""]; [OpenAI.DeltaReasoning "ok "];
     [OpenAI.DeltaContent "hello"]; [OpenAI.DeltaEmpty]].
Proof. reflexivity. Qed.

End Examples.

(** ** Strings as lists of code units *)

Module StringFacts.
Import Chars.

Lemma chars_inj s t : chars s = chars t -> s = t.
Proof.
  intros H. rewrite <- (String.string_of_list_ascii_of_string s),
    <- (String.string_of_list_ascii_of_string t). by rewrite H.
Qed.

Lemma app_cons c s t : String c s +:+ t = String c (s +:+ t).
Proof. reflexivity. Qed.

Lemma app_nil_l s : "" +:+ s = s.
Proof. reflexivity. Qed.

Lemma chars_app s t : chars (s +:+ t) = chars s ++ chars t.
Proof.
  induction s as [|c s IH]; [done|].
  rewrite app_cons. simpl. by rewrite IH.
Qed.

Lemma chars_length s : length (chars s) = String.length s.
Proof. induction s as [|c s IH]; simpl; [done | by rewrite IH]. Qed.

Lemma chars_map f s : chars (JS.map f s) = f <$> chars s.
Proof. induction s as [|c s IH]; simpl; [done | by rewrite IH]. Qed.

Lemma slice0_substring n s : JS.slice0 n s = String.substring 0 n s.
Proof.
  revert s.
  induction n as [|n IH]; intros [|c s]; cbn [JS.slice0 String.substring];
    try done.
  by rewrite IH.
Qed.

Lemma chars_slice0 n s : chars (JS.slice0 n s) = take n (chars s).
Proof.
  revert s. induction n as [|n IH]; intros [|c s]; simpl; try done.
  by rewrite IH.
Qed.

Lemma chars_slice_from n s : chars (JS.slice_from n s) = drop n (chars s).
Proof.
  revert s. induction n as [|n IH]; intros [|c s]; simpl; try done.
Qed.

Lemma forallb_chars f s : JS.forallb f s = forallb f (chars s).
Proof. induction s as [|c s IH]; simpl; [done | by rewrite IH]. Qed.

Lemma chars_nil s : chars s = [] <-> s = "".
Proof. destruct s; simpl; split; congruence. Qed.

Lemma app_nil_r s : s +:+ "" = s.
Proof.
  induction s as [|c s IH]; [done|]. by rewrite app_cons, IH.
Qed.

Lemma app_assoc s t u : (s +:+ t) +:+ u = s +:+ t +:+ u.
Proof.
  induction s as [|c s IH]; [done|]. by rewrite !app_cons, IH.
Qed.

Lemma ascii_eqb_decide (a b : ascii) : Ascii.eqb a b = bool_decide (a = b).
Proof.
  destruct (Ascii.eqb_spec a b) as [->|Hne].
  - by rewrite bool_decide_eq_true_2.
  - by rewrite bool_decide_eq_false_2.
Qed.

Lemma eq_decide (a b : string) : JS.eq a b = bool_decide (a = b).
Proof.
  unfold JS.eq. destruct (String.eqb_spec a b) as [->|Hne].
  - by rewrite bool_decide_eq_true_2.
  - by rewrite bool_decide_eq_false_2.
Qed.

Lemma eq_refl_true a : JS.eq a a = true.
Proof. apply String.eqb_refl. Qed.

Lemma eq_false a b : a <> b -> JS.eq a b = false.
Proof. intros. by apply String.eqb_neq. Qed.

End StringFacts.

(** ** Tool-name sanitising *)

Module SanitizeFacts.
Import Chars StringFacts ToolConverter SanitizeSpec.

Lemma is_word_or_hyphen_allowed c :
  JS.is_word_or_hyphen c = bool_decide (allowed c).
Proof.
  destruct c as [[] [] [] [] [] [] [] []]; vm_compute; reflexivity.
Qed.

Lemma allowed_underscore : allowed "_".
Proof. unfold allowed. vm_compute. set_solver. Qed.

Lemma is_underscore_decide c :
  is_underscore c = bool_decide (c = "_"%char).
Proof. apply ascii_eqb_decide. Qed.

Lemma chars_replace_unsafe s : chars (replace_unsafe s) = replace_step (chars s).
Proof.
  unfold replace_unsafe, replace_step. rewrite chars_map.
  apply list_fmap_ext. intros _ c _. simpl.
  rewrite is_word_or_hyphen_allowed. by case_bool_decide; case_decide.
Qed.

Lemma chars_strip_leading_run s :
  chars (strip_leading_run s) = drop_underscores (chars s).
Proof.
  induction s as [|c s IH]; simpl; [done|].
  rewrite is_underscore_decide. by case_bool_decide; case_decide.
Qed.

Lemma drop_underscores_all l :
  forallb is_underscore l = true -> drop_underscores l = [].
Proof.
  induction l as [|c l IH]; simpl; [done|].
  rewrite is_underscore_decide. intros [Hc Hl]%andb_prop.
  apply bool_decide_eq_true_1 in Hc. case_decide; [auto | done].
Qed.

Lemma drop_underscores_snoc l c :
  drop_underscores (l ++ [c]) =
  if forallb is_underscore l then drop_underscores [c]
  else drop_underscores l ++ [c].
Proof.
  induction l as [|d l IH]; [done|].
  cbn [app drop_underscores forallb]. rewrite is_underscore_decide.
  case_decide as Hd.
  - rewrite bool_decide_eq_true_2 by done. apply IH.
  - by rewrite bool_decide_eq_false_2 by done.
Qed.

Lemma forallb_reverse {A} (f : A -> bool) l :
  forallb f (reverse l) = forallb f l.
Proof.
  induction l as [|x l IH]; [done|].
  rewrite reverse_cons, forallb_app, IH. simpl. rewrite andb_true_r.
  apply andb_comm.
Qed.

(** Trimming at the right end, read from the left: the rest is dropped
    where it is nothing but underscores. *)
Lemma trim_right_cons c l :
  reverse (drop_underscores (reverse (c :: l))) =
  if is_underscore c && forallb is_underscore l then []
  else c :: reverse (drop_underscores (reverse l)).
Proof.
  rewrite reverse_cons, drop_underscores_snoc, forallb_reverse.
  destruct (forallb is_underscore l) eqn:Hall.
  - rewrite andb_true_r, (drop_underscores_all (reverse l))
      by (by rewrite forallb_reverse).
    simpl. rewrite is_underscore_decide.
    by case_decide; case_bool_decide.
  - rewrite andb_false_r. by rewrite reverse_snoc.
Qed.

Lemma chars_strip_trailing_run s :
  chars (strip_trailing_run s) =
  reverse (drop_underscores (reverse (chars s))).
Proof.
  induction s as [|c s IH]; [done|].
  cbn [strip_trailing_run String.list_ascii_of_string].
  rewrite trim_right_cons, forallb_chars.
  destruct (is_underscore c && forallb is_underscore (chars s)); [done|].
  simpl. by rewrite IH.
Qed.

Lemma chars_replace_edge_underscores s :
  chars (replace_edge_underscores s) = trim_step (chars s).
Proof.
  unfold replace_edge_underscores, trim_step.
  by rewrite chars_strip_trailing_run, chars_strip_leading_run.
Qed.

(** The code on a string, in terms of the four steps. *)
Lemma sanitizeToolName_chars n :
  chars (sanitizeToolName (JS.Str n)) =
  cap_step (default_step (trim_step (replace_step (chars n)))).
Proof.
  destruct n as [|c n]; [done|].
  unfold sanitizeToolName.
  set (cleaned := replace_edge_underscores (replace_unsafe (String c n))).
  assert (Hc : chars cleaned = trim_step (replace_step (chars (String c n)))).
  { unfold cleaned.
    by rewrite chars_replace_edge_underscores, chars_replace_unsafe. }
  rewrite <- Hc. clear Hc. unfold cap_step.
  set (named := match cleaned with "" => "tool" | _ => cleaned end).
  assert (Hn : chars named = default_step (chars cleaned)).
  { unfold named. by destruct cleaned. }
  rewrite <- Hn. clear Hn.
  destruct (128 <? String.length named)%nat eqn:Hlen.
  - apply chars_slice0.
  - apply Nat.ltb_ge in Hlen. rewrite take_ge; [done|].
    by rewrite chars_length.
Qed.

End SanitizeFacts.

(** [C5] For every tool name [n], [sanitizeToolName] computes what the
    reference definition does: every character outside [[A-Za-z0-9_-]]
    replaced by an underscore, leading and trailing underscores trimmed,
    ["tool"] substituted for an empty result, and the result cut to at
    most 128 characters. *)
Theorem sanitizeToolName_refines_reference (n : string) :
  ToolConverter.sanitizeToolName (JS.Str n) = SanitizeSpec.sanitize_reference n.
Proof.
  apply StringFacts.chars_inj. unfold SanitizeSpec.sanitize_reference.
  rewrite String.list_ascii_of_string_of_list_ascii.
  apply SanitizeFacts.sanitizeToolName_chars.
Qed.

Module SanitizeSafety.
Import Chars StringFacts SanitizeSpec SanitizeFacts.

Lemma Forall_drop_underscores (P : ascii -> Prop) l :
  Forall P l -> Forall P (drop_underscores l).
Proof.
  induction 1 as [|c l Hc Hl IH]; simpl; [done|].
  case_decide; [done | by constructor].
Qed.

Lemma Forall_replace_step l : Forall allowed (replace_step l).
Proof.
  unfold replace_step. apply Forall_fmap, Forall_true. intros c. simpl.
  case_decide; [done | apply allowed_underscore].
Qed.

Lemma Forall_trim_step (P : ascii -> Prop) l :
  Forall P l -> Forall P (trim_step l).
Proof.
  intros H. unfold trim_step.
  by apply Forall_reverse, Forall_drop_underscores, Forall_reverse,
    Forall_drop_underscores.
Qed.

Lemma Forall_default_step l :
  Forall allowed l -> Forall allowed (default_step l).
Proof.
  destruct l; [|done]. intros _. unfold default_step, allowed, alphabet.
  simpl. repeat constructor; set_solver.
Qed.

Lemma default_step_nonempty l : default_step l <> [].
Proof. by destruct l. Qed.

Lemma pipeline_safe l :
  let r := cap_step (default_step (trim_step (replace_step l))) in
  r <> [] /\ (length r <= 128)%nat /\ Forall allowed r.
Proof.
  intros r. subst r. unfold cap_step. split; [|split].
  - pose proof (default_step_nonempty (trim_step (replace_step l))) as Hne.
    by destruct (default_step (trim_step (replace_step l))).
  - rewrite length_take. lia.
  - apply Forall_take, Forall_default_step, Forall_trim_step,
      Forall_replace_step.
Qed.

Lemma sanitizeToolName_nonempty n :
  ToolConverter.sanitizeToolName (JS.Str n) <> "".
Proof.
  pose proof (pipeline_safe (chars n)) as (Hne & _).
  rewrite <- sanitizeToolName_chars in Hne.
  intros Heq. apply Hne. by rewrite Heq.
Qed.

End SanitizeSafety.

(** [C9] Whatever value it is given (a string, [null], [undefined], or a
    value of another type), [sanitizeToolName] returns a string that is not
    empty, is at most 128 characters long and consists of characters of
    [[A-Za-z0-9_-]] only.  The function is total: it never throws. *)
Theorem sanitizeToolName_safe (v : JS.value) :
  let r := ToolConverter.sanitizeToolName v in
  r <> "" /\
  (String.length r <= 128)%nat /\
  Forall SanitizeSpec.allowed (String.list_ascii_of_string r).
Proof.
  assert (Htool : let r := "tool" in
            r <> "" /\ (String.length r <= 128)%nat /\
            Forall SanitizeSpec.allowed (String.list_ascii_of_string r)).
  { split; [done|]. split; [simpl; lia|].
    apply (SanitizeSafety.Forall_default_step []). constructor. }
  destruct v as [| |b|z|s|]; try exact Htool.
  intros r. subst r.
  pose proof (SanitizeSafety.pipeline_safe (String.list_ascii_of_string s))
    as (Hne & Hlen & Hall).
  rewrite <- SanitizeFacts.sanitizeToolName_chars in Hne, Hlen, Hall.
  split; [|split]; [| |done].
  - intros Heq. apply Hne. by rewrite Heq.
  - by rewrite <- StringFacts.chars_length.
Qed.

(** ** Finish reasons *)

(** [C8] The OpenAI finish-reason mapping sends [STOP] to [stop],
    [MAX_TOKENS] to [length], [TOOL_USE] and [FUNCTION_CALL] to
    [tool_calls], and [SAFETY] to [content_filter]. *)
Theorem mapFinishReason_table :
  FinishReason.mapFinishReason (Some "STOP") = "stop" /\
  FinishReason.mapFinishReason (Some "MAX_TOKENS") = "length" /\
  FinishReason.mapFinishReason (Some "TOOL_USE") = "tool_calls" /\
  FinishReason.mapFinishReason (Some "FUNCTION_CALL") = "tool_calls" /\
  FinishReason.mapFinishReason (Some "SAFETY") = "content_filter".
Proof. repeat split. Qed.

(** ** Prefixes and substrings *)

Module Substring.
Import Chars StringFacts.

Lemma startsWith_spec p s :
  JS.startsWith p s = true <-> exists r, s = p +:+ r.
Proof.
  revert s. induction p as [|a p IH]; intros s; simpl.
  - split; [intros _; by exists s | done].
  - destruct s as [|b s].
    + split; [done | intros [r Hr]; by rewrite app_cons in Hr].
    + rewrite andb_true_iff, IH, ascii_eqb_decide, bool_decide_eq_true.
      split.
      * intros [-> [r ->]]. by exists r.
      * intros [r Hr]. rewrite app_cons in Hr. simplify_eq. eauto.
Qed.

Lemma includes_spec p s :
  JS.includes p s = true <-> exists l r, s = l +:+ p +:+ r.
Proof.
  induction s as [|c s IH]; cbn [JS.includes];
    rewrite orb_true_iff, startsWith_spec.
  - split.
    + intros [[r Hr]|?]; [|done]. by exists "", r.
    + intros (l & r & Hlr). left. destruct l; [by exists r | done].
  - rewrite IH. split.
    + intros [[r Hr]|(l & r & ->)].
      * by exists "", r.
      * by exists (String c l), r.
    + intros (l & r & Hlr). destruct l as [|d l].
      * left. by exists r.
      * right. rewrite app_cons in Hlr. simplify_eq. by exists l, r.
Qed.

Lemma toLowerCase_app s t :
  JS.toLowerCase (s +:+ t) = JS.toLowerCase s +:+ JS.toLowerCase t.
Proof.
  unfold JS.toLowerCase. induction s as [|c s IH]; [done|].
  rewrite app_cons. simpl. by rewrite IH, app_cons.
Qed.

(** A split of the lowered string comes from a split of the string. *)
Lemma toLowerCase_app_inv s u v :
  JS.toLowerCase s = u +:+ v ->
  exists s1 s2, s = s1 +:+ s2 /\ JS.toLowerCase s1 = u /\ JS.toLowerCase s2 = v.
Proof.
  revert u. induction s as [|c s IH]; intros u H.
  - exists "", "". destruct u; [|done]. by destruct v.
  - destruct u as [|a u].
    + exists "", (String c s). by rewrite app_nil_l in H.
    + rewrite app_cons in H. unfold JS.toLowerCase in H. simpl in H.
      injection H as Ha Hs. fold (JS.toLowerCase s) in Hs.
      destruct (IH _ Hs) as (s1 & s2 & -> & H1 & H2).
      exists (String c s1), s2. split; [done|]. split; [|done].
      unfold JS.toLowerCase in *. simpl. by rewrite Ha, H1.
Qed.

End Substring.

(** ** Model-name mapping *)

Module ModelNameFacts.
Import Chars StringFacts Substring Constants ModelNameSpec.

Lemma is_digit_spec c : JS.is_digit c = bool_decide (c ∈ digits).
Proof. destruct c as [[] [] [] [] [] [] [] []]; vm_compute; reflexivity. Qed.

Lemma lower_char_same_bool a b :
  b ∈ chars "haiku" ->
  bool_decide (JS.lower_char a = b) =
  bool_decide (a = b) || bool_decide (a = capital b).
Proof.
  intros Hb. simpl in Hb.
  repeat (apply elem_of_cons in Hb as [->|Hb]);
    [ | | | | | by apply elem_of_nil in Hb ];
    destruct a as [[] [] [] [] [] [] [] []]; vm_compute; reflexivity.
Qed.

Lemma lower_char_same a b :
  b ∈ chars "haiku" -> JS.lower_char a = b <-> same_letter a b.
Proof.
  intros Hb. unfold same_letter.
  rewrite <- (bool_decide_eq_true (JS.lower_char a = b)),
    lower_char_same_bool, orb_true_iff, !bool_decide_eq_true by done.
  done.
Qed.

Lemma toLowerCase_same w word :
  Forall (fun b => b ∈ chars "haiku") (chars word) ->
  JS.toLowerCase w = word <-> Forall2 same_letter (chars w) (chars word).
Proof.
  revert w. induction word as [|b word IH]; intros w Hword.
  - destruct w; simpl; split; try done. by inversion 1.
  - simpl in Hword. apply Forall_cons in Hword as [Hb Hword].
    destruct w as [|a w]; simpl.
    + split; [done | by inversion 1].
    + unfold JS.toLowerCase in *. simpl. split.
      * intros [= Ha Hw]. constructor; [by apply lower_char_same|].
        by apply IH.
      * intros [Ha Hw]%Forall2_cons. f_equal.
        -- by apply lower_char_same.
        -- by apply IH.
Qed.

Lemma mentions_haiku_spec name :
  mentions "haiku" name <-> JS.includes "haiku" (JS.toLowerCase name) = true.
Proof.
  assert (Hword : Forall (fun b => b ∈ chars "haiku") (chars "haiku")).
  { simpl. repeat constructor; set_solver. }
  rewrite includes_spec. split.
  - intros (l & w & r & -> & Hw). apply toLowerCase_same in Hw; [|done].
    exists (JS.toLowerCase l), (JS.toLowerCase r).
    by rewrite !toLowerCase_app, Hw.
  - intros (l' & r' & H).
    apply toLowerCase_app_inv in H as (l & s2 & -> & _ & H).
    apply toLowerCase_app_inv in H as (w & r & -> & Hw & _).
    exists l, w, r. split; [done|]. by apply toLowerCase_same.
Qed.

Lemma date_forallb d :
  JS.forallb JS.is_digit d = true <-> Forall (fun c => c ∈ digits) (chars d).
Proof.
  induction d as [|c d IH]; simpl.
  - split; [constructor | done].
  - rewrite andb_true_iff, Forall_cons, IH, is_digit_spec,
      bool_decide_eq_true. done.
Qed.

Lemma date_suffix_here_spec s :
  date_suffix_here s = true <-> exists d, date d /\ s = "-" +:+ d.
Proof.
  unfold date_suffix_here, date. destruct s as [|c d].
  - split; [done | by intros (d & _ & ?)].
  - rewrite !andb_true_iff, ascii_eqb_decide, bool_decide_eq_true,
      Nat.eqb_eq, date_forallb.
    split.
    + intros [[-> Hlen] Hd]. by exists d.
    + intros (d' & [Hlen Hd] & H). rewrite app_cons, app_nil_l in H.
      by simplify_eq.
Qed.

(** The pattern can only match nine characters before the end. *)
Lemma date_suffix_here_cons c stem d :
  String.length d = 8%nat ->
  date_suffix_here (String c (stem +:+ "-" +:+ d)) = false.
Proof.
  intros Hlen. unfold date_suffix_here.
  replace (String.length (stem +:+ "-" +:+ d) =? 8)%nat with false.
  { by rewrite andb_false_r. }
  symmetry. apply Nat.eqb_neq.
  rewrite <- chars_length, !chars_app, !length_app, !chars_length, Hlen.
  simpl. lia.
Qed.

Lemma test_date_suffix_spec name :
  test_date_suffix name = true <-> exists stem, date_suffixed name stem.
Proof.
  unfold date_suffixed. induction name as [|c name IH];
    cbn [test_date_suffix]; rewrite orb_true_iff, date_suffix_here_spec.
  - split; [intros [(d & _ & ?)|?]; done|].
    intros (stem & d & _ & H). by destruct stem.
  - rewrite IH. split.
    + intros [(d & Hd & ->)|(stem & d & Hd & ->)].
      * by exists "", d.
      * by exists (String c stem), d.
    + intros (stem & d & Hd & H). destruct stem as [|a stem].
      * left. by exists d.
      * right. rewrite app_cons in H. simplify_eq. by exists stem, d.
Qed.

Lemma replace_date_suffix_spec name stem :
  date_suffixed name stem -> replace_date_suffix name = stem.
Proof.
  intros (d & [Hlen Hd] & ->). induction stem as [|c stem IH].
  - assert (H : date_suffix_here ("" +:+ "-" +:+ d) = true).
    { apply date_suffix_here_spec. by exists d. }
    rewrite app_nil_l in *. unfold replace_date_suffix.
    rewrite app_cons in *. by rewrite H.
  - rewrite app_cons. cbn [replace_date_suffix].
    by rewrite date_suffix_here_cons, IH.
Qed.

Lemma find_redirect_haiku lower :
  find_redirect lower MODEL_REDIRECTS =
  if JS.includes "haiku" lower then Some flash_lite else None.
Proof. reflexivity. Qed.

Lemma mapModelName_haiku name :
  mentions "haiku" name -> mapModelName name = flash_lite.
Proof.
  intros H. pose proof H as Hb. apply mentions_haiku_spec in Hb.
  unfold mapModelName. rewrite find_redirect_haiku, Hb.
  destruct name; [|done].
  destruct H as (l & w & r & Hname & Hw).
  destruct l; [|done]. destruct w; [|done]. by inversion Hw.
Qed.

Lemma mapModelName_plain name :
  ~ mentions "haiku" name ->
  mapModelName name =
  if test_date_suffix name then replace_date_suffix name else name.
Proof.
  intros H. rewrite mentions_haiku_spec in H. apply not_true_is_false in H.
  unfold mapModelName. rewrite find_redirect_haiku, H. by destruct name.
Qed.

(** A tail that shares no character with the pattern adds no match. *)
Lemma startsWith_app_foreign p u v :
  Forall (fun c => c ∉ chars p) (chars v) ->
  JS.startsWith p (u +:+ v) = JS.startsWith p u.
Proof.
  revert u. induction p as [|a p IH]; intros u Hv; [done|].
  destruct u as [|b u].
  - rewrite app_nil_l. destruct v as [|c v]; [done|]. simpl.
    simpl in Hv. apply Forall_cons in Hv as [Hc _].
    rewrite ascii_eqb_decide, bool_decide_eq_false_2; [done|].
    intros ->. apply Hc. left.
  - rewrite app_cons. simpl. f_equal. apply IH.
    eapply Forall_impl; [exact Hv|]. simpl. intros c Hc Hin.
    apply Hc. by right.
Qed.

Lemma includes_foreign p v :
  p <> "" -> Forall (fun c => c ∉ chars p) (chars v) ->
  JS.includes p v = false.
Proof.
  intros Hp. induction v as [|c v IH]; intros Hv.
  - by destruct p.
  - cbn [JS.includes]. simpl in Hv. apply Forall_cons in Hv as [Hc Hv].
    rewrite IH, orb_false_r by done.
    destruct p as [|a p]; [done|]. simpl.
    rewrite ascii_eqb_decide, bool_decide_eq_false_2; [done|].
    intros ->. apply Hc. left.
Qed.

Lemma includes_app_foreign p u v :
  p <> "" -> Forall (fun c => c ∉ chars p) (chars v) ->
  JS.includes p (u +:+ v) = JS.includes p u.
Proof.
  intros Hp Hv. induction u as [|b u IH].
  - rewrite app_nil_l, includes_foreign by done. by destruct p.
  - rewrite app_cons. cbn [JS.includes].
    by rewrite <- app_cons, startsWith_app_foreign, IH.
Qed.

Lemma lower_digit_foreign c :
  c ∈ digits -> JS.lower_char c ∉ chars "haiku".
Proof.
  unfold digits. simpl. intros Hc.
  repeat (apply elem_of_cons in Hc as [->|Hc]);
    [ .. | by apply elem_of_nil in Hc ];
    apply (bool_decide_unpack _); vm_compute; exact I.
Qed.

(** Digits and hyphens are no letters: a mention of the word lies in
    the stem. *)
Lemma includes_haiku_stem stem d :
  date d ->
  JS.includes "haiku" (JS.toLowerCase (stem +:+ "-" +:+ d)) =
  JS.includes "haiku" (JS.toLowerCase stem).
Proof.
  intros [_ Hd]. rewrite toLowerCase_app.
  apply includes_app_foreign; [done|].
  rewrite toLowerCase_app, chars_app. apply Forall_app. split.
  - apply (bool_decide_unpack _). vm_compute. exact I.
  - unfold JS.toLowerCase. rewrite chars_map. apply Forall_fmap.
    eapply Forall_impl; [exact Hd|]. apply lower_digit_foreign.
Qed.

Lemma mentions_haiku_stem name stem :
  date_suffixed name stem ->
  mentions "haiku" name <-> mentions "haiku" stem.
Proof.
  intros (d & Hd & ->).
  by rewrite !mentions_haiku_spec, includes_haiku_stem.
Qed.

End ModelNameFacts.

(** [C4] Model-name mapping strips a date suffix before the name is used
    and redirects haiku models.  For every name: if it contains "haiku" in
    any letter case, the result is exactly [gemini-2.5-flash-lite]; and if
    it is a stem followed by a hyphen and exactly eight digits, the result
    is what the mapping makes of the stem with the date gone, that is the
    stem itself unless the stem contains "haiku". *)
Theorem mapModelName_strips_and_redirects (name : string) :
  (ModelNameSpec.mentions "haiku" name ->
   Constants.mapModelName name = "gemini-2.5-flash-lite") /\
  (forall stem,
     ModelNameSpec.date_suffixed name stem ->
     (~ ModelNameSpec.mentions "haiku" stem ->
      Constants.mapModelName name = stem) /\
     (ModelNameSpec.mentions "haiku" stem ->
      Constants.mapModelName name = "gemini-2.5-flash-lite")).
Proof.
  split; [apply ModelNameFacts.mapModelName_haiku|].
  intros stem Hstem. split; intros H.
  - rewrite ModelNameFacts.mapModelName_plain.
    + assert (Ht : Constants.test_date_suffix name = true).
      { apply ModelNameFacts.test_date_suffix_spec. by exists stem. }
      rewrite Ht. by apply ModelNameFacts.replace_date_suffix_spec.
    + by rewrite ModelNameFacts.mentions_haiku_stem.
  - apply ModelNameFacts.mapModelName_haiku.
    by rewrite ModelNameFacts.mentions_haiku_stem.
Qed.

Lemma mapModelName_strips_and_redirects_witness :
  Constants.mapModelName "Claude-3-HAIKU" = "gemini-2.5-flash-lite" /\
  Constants.mapModelName "claude-sonnet-4-5-20250929" = "claude-sonnet-4-5" /\
  Constants.mapModelName "claude-3-haiku-20240307" = "gemini-2.5-flash-lite".
Proof.
  assert (Hdate : forall d, String.length d = 8%nat ->
            JS.forallb JS.is_digit d = true -> ModelNameSpec.date d).
  { intros d Hlen Hd. split; [done|]. by apply ModelNameFacts.date_forallb. }
  split; [|split].
  - apply (proj1 (mapModelName_strips_and_redirects "Claude-3-HAIKU")).
    apply ModelNameFacts.mentions_haiku_spec. reflexivity.
  - apply (proj2 (mapModelName_strips_and_redirects "claude-sonnet-4-5-20250929")
             "claude-sonnet-4-5").
    + exists "20250929". split; [by apply Hdate | reflexivity].
    + rewrite ModelNameFacts.mentions_haiku_spec. vm_compute. discriminate.
  - apply (proj2 (mapModelName_strips_and_redirects "claude-3-haiku-20240307")
             "claude-3-haiku").
    + exists "20240307". split; [by apply Hdate | reflexivity].
    + apply ModelNameFacts.mentions_haiku_spec. reflexivity.
Defined.

(** ** The tool-name cache *)

Module ToolNameFacts.
Import Chars StringFacts ToolNameCache ToolNameSpec.

Lemma map_get_set_eq key v m : map_get key (map_set key v m) = Some v.
Proof.
  induction m as [|[k e] m IH]; simpl.
  - by rewrite eq_refl_true.
  - destruct (JS.eq k key) eqn:Hk; simpl; by rewrite Hk.
Qed.

Lemma map_get_set_ne key key' v m :
  key <> key' -> map_get key' (map_set key v m) = map_get key' m.
Proof.
  intros Hne. induction m as [|[k e] m IH]; simpl.
  - by rewrite eq_false.
  - destruct (JS.eq k key) eqn:Hk; simpl.
    + rewrite eq_decide in Hk. apply bool_decide_eq_true_1 in Hk. subst k.
      by rewrite !eq_false.
    + by rewrite IH.
Qed.

(** A key that is present is overwritten where it stands. *)
Lemma length_map_set_present key v m :
  is_Some (map_get key m) -> length (map_set key v m) = length m.
Proof.
  induction m as [|[k e] m IH]; simpl.
  - by intros [? ?].
  - destruct (JS.eq k key); simpl; [done|].
    intros Hs. by rewrite IH.
Qed.

(** A new key goes to the end. *)
Lemma map_set_absent key v m :
  map_get key m = None -> map_set key v m = m ++ [(key, v)].
Proof.
  induction m as [|[k e] m IH]; simpl; [done|].
  destruct (JS.eq k key); [done|]. intros Hs. by rewrite IH.
Qed.

Lemma map_get_app key m1 m2 :
  map_get key (m1 ++ m2) =
  match map_get key m1 with Some e => Some e | None => map_get key m2 end.
Proof.
  induction m1 as [|[k e] m1 IH]; simpl; [done|]. by destruct (JS.eq k key).
Qed.

Lemma map_get_drop_absent key n m :
  map_get key m = None -> map_get key (drop n m) = None.
Proof.
  revert n. induction m as [|[k e] m IH]; intros [|n]; simpl; try done.
  destruct (JS.eq k key); [done | apply IH].
Qed.

Lemma pruneSize_fits target m :
  (length m <= target)%nat -> pruneSize target m = m.
Proof.
  intros H. unfold pruneSize. by rewrite (proj2 (Nat.leb_le _ _) H).
Qed.

Lemma length_pruneSize target m :
  (length (pruneSize target m) <= target)%nat.
Proof.
  unfold pruneSize. destruct (length m <=? target)%nat eqn:H.
  - by apply Nat.leb_le.
  - apply Nat.leb_gt in H. rewrite length_drop. lia.
Qed.

(** The entry just written survives the pruning that follows it. *)
Lemma map_get_prune_set key v m :
  (length m <= MAX_ENTRIES)%nat ->
  map_get key (pruneSize MAX_ENTRIES (map_set key v m)) = Some v.
Proof.
  intros Hlen. destruct (map_get key m) as [e|] eqn:Hget.
  - rewrite pruneSize_fits, map_get_set_eq; [done|].
    by rewrite length_map_set_present.
  - rewrite map_set_absent by done. unfold pruneSize.
    destruct (length (m ++ [(key, v)]) <=? MAX_ENTRIES)%nat.
    + rewrite map_get_app, Hget. simpl. by rewrite eq_refl_true.
    + rewrite length_app. simpl.
      rewrite drop_app_le by (unfold MAX_ENTRIES; lia).
      rewrite map_get_app, map_get_drop_absent by done.
      simpl. by rewrite eq_refl_true.
Qed.

Lemma length_map_delete key m :
  (length (map_delete key m) <= length m)%nat.
Proof.
  induction m as [|[k e] m IH]; simpl; [done|].
  destruct (JS.eq k key); simpl; lia.
Qed.

Lemma length_setToolNameMapping now s mo safe orig m :
  (length m <= MAX_ENTRIES)%nat ->
  (length (setToolNameMapping now s mo safe orig m) <= MAX_ENTRIES)%nat.
Proof.
  intros H. unfold setToolNameMapping.
  destruct safe; [done|]. destruct orig; [done|].
  destruct (JS.eq _ _); [done | apply length_pruneSize].
Qed.

Lemma length_getOriginalToolName now s mo safe m :
  (length (snd (getOriginalToolName now s mo safe m)) <= length m)%nat.
Proof.
  unfold getOriginalToolName. destruct safe; [done|].
  destruct (map_get _ m) as [e|]; [|done].
  destruct (expired now e); simpl; [apply length_map_delete | done].
Qed.

(** The bound of 512 entries holds in every state of the module. *)
Lemma reachable_bounded m : reachable m -> (length m <= MAX_ENTRIES)%nat.
Proof.
  induction 1 as [|now s mo safe orig m _ IH|now s mo safe m _ IH
                  |now m _ IH|m _ IH].
  - unfold MAX_ENTRIES. simpl. lia.
  - by apply length_setToolNameMapping.
  - etrans; [apply length_getOriginalToolName | done].
  - unfold pruneExpired. etrans; [apply List.filter_length_le | done].
  - unfold MAX_ENTRIES. simpl. lia.
Qed.

(** Up to the first colon two equal strings agree. *)
Lemma colon_free_prefix_inj s1 s2 t1 t2 :
  colon_free s1 -> colon_free s2 ->
  s1 +:+ String ":" t1 = s2 +:+ String ":" t2 -> s1 = s2 /\ t1 = t2.
Proof.
  unfold colon_free. revert s2.
  induction s1 as [|c s1 IH]; intros [|d s2] H1 H2 Heq;
    rewrite ?app_nil_l, ?app_cons in Heq; simpl in *.
  - by simplify_eq.
  - simplify_eq. exfalso. apply H2. left.
  - simplify_eq. exfalso. apply H1. left.
  - simplify_eq. destruct (IH s2) as [-> ->]; try done.
    + intros Hin. apply H1. by right.
    + intros Hin. apply H2. by right.
Qed.

Lemma app_inv_tail s1 s2 t : s1 +:+ t = s2 +:+ t -> s1 = s2.
Proof.
  intros H. apply chars_inj. apply (f_equal chars) in H.
  rewrite !chars_app in H. by apply (inj (fun l => l ++ chars t)) in H.
Qed.

(** Session ids without a colon keep the keys of different (session,
    model) pairs apart. *)
Lemma makeKey_inj s1 mo1 s2 mo2 safe :
  colon_free s1 -> colon_free s2 ->
  makeKey s1 mo1 safe = makeKey s2 mo2 safe -> s1 = s2 /\ mo1 = mo2.
Proof.
  intros H1 H2 Heq. unfold makeKey in Heq.
  apply colon_free_prefix_inj in Heq as [-> Heq]; [|done..].
  split; [done|]. injection Heq as Heq. by apply app_inv_tail in Heq.
Qed.

End ToolNameFacts.

Module ToolNameRoundTrip.
Import ToolNameCache ToolNameSpec ToolNameFacts.

Lemma lookup_after_set now now' s mo safe orig m :
  (length m <= MAX_ENTRIES)%nat ->
  safe <> "" -> orig <> "" -> safe <> orig ->
  now' - now <= ENTRY_TTL_MS ->
  fst (getOriginalToolName now' s mo safe
         (setToolNameMapping now s mo safe orig m)) = Some orig.
Proof.
  intros Hlen Hsafe Horig Hne Httl.
  unfold setToolNameMapping, getOriginalToolName.
  destruct safe as [|a safe]; [done|]. destruct orig as [|b orig]; [done|].
  rewrite StringFacts.eq_false by done.
  rewrite map_get_prune_set by done.
  unfold expired. simpl ts.
  by rewrite (proj2 (Z.ltb_ge _ _) Httl).
Qed.

Lemma set_is_noop now s mo safe orig m :
  orig = "" \/ safe = orig -> setToolNameMapping now s mo safe orig m = m.
Proof.
  unfold setToolNameMapping. intros [->| ->].
  - by destruct safe.
  - destruct orig; [done|]. by rewrite StringFacts.eq_refl_true.
Qed.

(** A write that evicts nothing changes the lookup of no other key. *)
Lemma lookup_other_key now now' s1 mo1 safe1 orig s2 mo2 safe2 m :
  (length m <= MAX_ENTRIES)%nat ->
  makeKey s1 mo1 safe1 <> makeKey s2 mo2 safe2 ->
  (length m < MAX_ENTRIES)%nat \/ is_Some (map_get (makeKey s1 mo1 safe1) m) ->
  fst (getOriginalToolName now' s2 mo2 safe2
         (setToolNameMapping now s1 mo1 safe1 orig m)) =
  fst (getOriginalToolName now' s2 mo2 safe2 m).
Proof.
  intros Hlen Hkey Hroom. unfold setToolNameMapping.
  destruct safe1 as [|a safe1]; [done|]. destruct orig as [|b orig]; [done|].
  destruct (JS.eq _ _); [done|]. cbv zeta.
  set (key := makeKey s1 mo1 (String a safe1)) in *.
  set (e := {| originalName := String b orig; ts := now |}).
  assert (Hfit : pruneSize MAX_ENTRIES (map_set key e m) = map_set key e m).
  { apply pruneSize_fits. destruct (map_get key m) as [e'|] eqn:Hget.
    - by rewrite length_map_set_present.
    - destruct Hroom as [Hlt|[? ?]]; [|done].
      rewrite map_set_absent, length_app by done. simpl. lia. }
  rewrite Hfit. unfold getOriginalToolName.
  destruct safe2 as [|a2 safe2]; [reflexivity|].
  rewrite map_get_set_ne by done.
  destruct (map_get (makeKey s2 mo2 _) m) as [e2|]; [|reflexivity].
  by destruct (expired now' e2).
Qed.

Lemma reachable_registered l m :
  reachable m -> reachable (foldl register m l).
Proof.
  revert m. induction l as [|i l IH]; intros m Hm; [done|].
  simpl. apply IH. by constructor.
Qed.

Lemma reachable_full_cache : reachable full_cache.
Proof. apply reachable_registered. constructor. Qed.

End ToolNameRoundTrip.

(** [C2], as amended.  In every state the cache can be in, for every
    session id [s], model [mo] and original tool name [n]:
    when [n] is not empty and differs from its sanitised form, looking the
    sanitised name up right after storing the mapping, and no later than
    the 30-minute TTL, returns [n]; when [n] is empty or already equal to
    its sanitised form, storing is a no-op.  And when the session ids
    contain no colon, storing under [(s, mo)] leaves the lookup of the same
    safe name under any other pair [(s2, mo2)] unchanged, provided the
    write evicts nothing (the cache holds fewer than 512 entries, or the
    key was already there). *)
Theorem tool_name_round_trip
    (m : ToolNameCache.store) (now now' : Z) (s mo n : string) :
  let safe := ToolConverter.sanitizeToolName (JS.Str n) in
  ToolNameCache.reachable m ->
  (n <> "" -> safe <> n -> now' - now <= ToolNameCache.ENTRY_TTL_MS ->
   fst (ToolNameCache.getOriginalToolName now' s mo safe
          (ToolNameCache.setToolNameMapping now s mo safe n m)) = Some n) /\
  (n = "" \/ safe = n ->
   ToolNameCache.setToolNameMapping now s mo safe n m = m) /\
  (forall s2 mo2,
     ToolNameSpec.colon_free s -> ToolNameSpec.colon_free s2 ->
     (s, mo) <> (s2, mo2) ->
     (length m < ToolNameCache.MAX_ENTRIES)%nat \/
     is_Some (ToolNameCache.map_get (ToolNameCache.makeKey s mo safe) m) ->
     fst (ToolNameCache.getOriginalToolName now' s2 mo2 safe
            (ToolNameCache.setToolNameMapping now s mo safe n m)) =
     fst (ToolNameCache.getOriginalToolName now' s2 mo2 safe m)).
Proof.
  intros safe Hreach.
  pose proof (ToolNameFacts.reachable_bounded m Hreach) as Hlen.
  split; [|split].
  - intros Hn Hne Httl. apply ToolNameRoundTrip.lookup_after_set; try done.
    apply SanitizeSafety.sanitizeToolName_nonempty.
  - apply ToolNameRoundTrip.set_is_noop.
  - intros s2 mo2 Hs Hs2 Hpair Hroom.
    apply ToolNameRoundTrip.lookup_other_key; try done.
    intros Hkey. apply ToolNameFacts.makeKey_inj in Hkey as [-> ->]; done.
Qed.

Lemma tool_name_round_trip_witness :
  fst (ToolNameCache.getOriginalToolName 5 "abc" "gemini-3-pro" "my_tool"
         (ToolNameCache.setToolNameMapping 0 "abc" "gemini-3-pro" "my_tool"
            "my.tool!" [])) = Some "my.tool!" /\
  fst (ToolNameCache.getOriginalToolName 5 "abd" "gemini-3-pro" "my_tool"
         (ToolNameCache.setToolNameMapping 0 "abc" "gemini-3-pro" "my_tool"
            "my.tool!" [])) =
  fst (ToolNameCache.getOriginalToolName 5 "abd" "gemini-3-pro" "my_tool" []).
Proof.
  pose proof (tool_name_round_trip [] 0 5 "abc" "gemini-3-pro" "my.tool!"
                ToolNameCache.reach_empty) as (Hget & _ & Hother).
  split.
  - apply Hget; [discriminate | vm_compute; discriminate | vm_compute; discriminate].
  - apply Hother.
    + apply (bool_decide_unpack _). vm_compute. exact I.
    + apply (bool_decide_unpack _). vm_compute. exact I.
    + discriminate.
    + left. vm_compute. lia.
Defined.

(** [C2] as stated fails on the code: a name that is already safe is not
    stored, so the lookup gives [null] and not the name; two (session,
    model) pairs whose ids contain the separator share a key; and writing
    into a full cache evicts the oldest entry, which may belong to another
    session. *)
Lemma tool_name_round_trip_counterexample :
  (let n := "search" in
   let safe := ToolConverter.sanitizeToolName (JS.Str n) in
   fst (ToolNameCache.getOriginalToolName 1 "s" "m" safe
          (ToolNameCache.setToolNameMapping 0 "s" "m" safe n [])) <> Some n) /\
  (let before : ToolNameCache.store := [] in
   let after :=
     ToolNameCache.setToolNameMapping 0 "a" "b::c" "my_tool" "my.tool!" before in
   ("a", "b::c") <> ("a::b", "c") /\
   fst (ToolNameCache.getOriginalToolName 1 "a::b" "c" "my_tool" after) <>
   fst (ToolNameCache.getOriginalToolName 1 "a::b" "c" "my_tool" before)) /\
  (let before := ToolNameSpec.full_cache in
   let after :=
     ToolNameCache.setToolNameMapping 0 "new" "m" "my_tool" "my.tool!" before in
   ToolNameCache.reachable before /\
   fst (ToolNameCache.getOriginalToolName 1 "old" "m" "t_aa" after) <>
   fst (ToolNameCache.getOriginalToolName 1 "old" "m" "t_aa" before)).
Proof.
  split; [|split].
  - vm_compute. discriminate.
  - vm_compute. split; discriminate.
  - split; [apply ToolNameRoundTrip.reachable_full_cache|].
    vm_compute. discriminate.
Qed.

(** ** Signature caching on the way out *)

Module SignatureFacts.
Import Native SignatureSpec.

Lemma store_all_app now w1 w2 cache :
  store_all now (w1 ++ w2) cache = store_all now w2 (store_all now w1 cache).
Proof. apply foldl_app. Qed.

Lemma long_enough_nonempty signature : long_enough signature -> signature <> "".
Proof. intros H ->. unfold long_enough, Constants.MIN_SIGNATURE_LENGTH in H. simpl in H. lia. Qed.

Lemma cacheable_spec signature :
  OpenAIResponse.cacheable (Some signature) = bool_decide (long_enough signature).
Proof.
  unfold OpenAIResponse.cacheable, long_enough. destruct signature as [|a s].
  - rewrite bool_decide_eq_false_2; [done|].
    unfold Constants.MIN_SIGNATURE_LENGTH. simpl. lia.
  - destruct (Nat.leb_spec Constants.MIN_SIGNATURE_LENGTH (String.length (String a s))).
    + by rewrite bool_decide_eq_true_2.
    + rewrite bool_decide_eq_false_2; [done | lia].
Qed.

Lemma toolId_of_nonempty sha256_hex funcCall :
  OpenAIResponse.toolId_of sha256_hex funcCall <> "".
Proof.
  unfold OpenAIResponse.toolId_of.
  destruct (fc_id funcCall) as [[|a i]|]; done.
Qed.

Lemma cacheSignature_insert now id signature cache :
  id <> "" -> signature <> "" ->
  SignatureCache.cacheSignature now id signature cache =
  <[id := {| SignatureCache.signature := signature;
             SignatureCache.timestamp := now |}]> cache.
Proof. intros Hid Hsig. by destruct id, signature. Qed.

(** What a lookup finds after a run of writes was there before or is
    one of the writes. *)
Lemma store_all_lookup now writes cache id e :
  store_all now writes cache !! id = Some e ->
  cache !! id = Some e \/
  (id, SignatureCache.signature e) ∈ writes /\ SignatureCache.timestamp e = now.
Proof.
  revert cache. induction writes as [|[id' sig'] writes IH]; intros cache H.
  - by left.
  - simpl in H. apply IH in H as [H|[H Ht]].
    + destruct (decide (id' = id)) as [->|Hne].
      * rewrite lookup_insert_eq in H. simplify_eq. right. split; [|done].
        simpl. left.
      * rewrite lookup_insert_ne in H by done. by left.
    + right. split; [by right | done].
Qed.

Lemma openai_write_long sha256_hex part id signature :
  openai_write sha256_hex part = Some (id, signature) -> long_enough signature.
Proof.
  unfold openai_write.
  destruct (thought part), (functionCall part), (thoughtSignature part);
    try done.
  case_decide; [|done]. by intros [= _ <-].
Qed.

Lemma gemini_write_long part id signature :
  gemini_write part = Some (id, signature) -> long_enough signature.
Proof.
  unfold gemini_write.
  destruct (functionCall part) as [fc|], (thoughtSignature part); try done.
  destruct (fc_id fc) as [[|a i]|]; try done.
  case_decide; [|done]. by intros [= _ <-].
Qed.

(** Writes that all carry long signatures leave no short one behind. *)
Lemma store_all_long {A} now (write : A -> option (string * string)) ps cache id e :
  (forall p i s, write p = Some (i, s) -> long_enough s) ->
  store_all now (omap write ps) cache !! id = Some e ->
  cache !! id = Some e \/ long_enough (SignatureCache.signature e).
Proof.
  intros Hlong [H|[H _]]%store_all_lookup; [by left|]. right.
  apply list_elem_of_omap in H as (p & _ & Hp). eauto.
Qed.

Section OpenAI.
Variable sha256_hex : string -> string.
Variable now : Z.
Variables originalModel sessionId : string.

Let step := OpenAIResponse.convert_part sha256_hex now originalModel sessionId.

Lemma convert_part_signatures st part :
  signatureCache (OpenAIResponse.acc_caches (step st part)) =
  store_all now (option_list (openai_write sha256_hex part))
    (signatureCache (OpenAIResponse.acc_caches st)).
Proof.
  subst step. unfold OpenAIResponse.convert_part, openai_write.
  destruct (thought part); [done|].
  destruct (functionCall part) as [funcCall|].
  - destruct (OpenAIResponse.restore_name _ _ _ _ _) as [originalName names].
    destruct (thoughtSignature part) as [signature|]; [|done].
    rewrite cacheable_spec. simpl signatureCache.
    case_bool_decide as Hlong.
    + rewrite decide_True by done. simpl.
      apply cacheSignature_insert;
        [apply toolId_of_nonempty | by apply long_enough_nonempty].
    + by rewrite decide_False.
  - by destruct (text part).
Qed.

Lemma convert_parts_signatures ps st :
  signatureCache (OpenAIResponse.acc_caches (foldl step st ps)) =
  store_all now (omap (openai_write sha256_hex) ps)
    (signatureCache (OpenAIResponse.acc_caches st)).
Proof.
  revert st. induction ps as [|part ps IH]; intros st; [done|].
  simpl foldl. rewrite IH, convert_part_signatures.
  simpl omap. destruct (openai_write sha256_hex part); done.
Qed.

End OpenAI.

Section Gemini.
Variable now : Z.
Variables sessionId modelName : string.

Lemma process_part_signatures c part :
  signatureCache (snd (Gemini.process_part now sessionId modelName c part)) =
  store_all now (option_list (gemini_write part)) (signatureCache c).
Proof.
  unfold Gemini.process_part, gemini_write.
  destruct (functionCall part) as [funcCall|]; [|done].
  destruct (ToolNameCache.getOriginalToolName _ _ _ _ _) as [originalName names].
  simpl snd. simpl signatureCache.
  assert (Hid : forall n,
    fc_id (match n with
           | Some n' => {| fc_id := fc_id funcCall; fc_name := n';
                           fc_args := fc_args funcCall |}
           | None => funcCall
           end) = fc_id funcCall) by (by intros [?|]).
  rewrite !Hid. clear Hid.
  destruct (thoughtSignature part) as [signature|]; [|done].
  rewrite cacheable_spec.
  destruct (fc_id funcCall) as [[|a id]|]; simpl;
    rewrite ?andb_false_r, ?andb_true_r; try done.
  case_bool_decide as Hlong.
  - rewrite decide_True by done. simpl.
    pose proof (long_enough_nonempty _ Hlong). by destruct signature.
  - by rewrite decide_False.
Qed.

Lemma process_part_list_signatures ps c :
  signatureCache (snd (Gemini.process_part_list now sessionId modelName ps c)) =
  store_all now (omap gemini_write ps) (signatureCache c).
Proof.
  revert c. induction ps as [|part ps IH]; intros c; [done|].
  simpl. pose proof (process_part_signatures c part) as Hpart.
  destruct (Gemini.process_part now sessionId modelName c part) as [part' c'].
  specialize (IH c').
  destruct (Gemini.process_part_list now sessionId modelName ps c')
    as [ps' c''].
  simpl in *. rewrite IH, Hpart. by destruct (gemini_write part).
Qed.

Lemma process_candidate_signatures c candidate :
  signatureCache (snd (Gemini.process_candidate now sessionId modelName c candidate)) =
  store_all now (omap gemini_write (candidate_parts candidate)) (signatureCache c).
Proof.
  unfold Gemini.process_candidate, candidate_parts.
  destruct (content candidate) as [ct|]; [|done].
  destruct (parts ct) as [ps|]; [|done].
  unfold Gemini.processParts.
  pose proof (process_part_list_signatures ps c) as Hps.
  by destruct (Gemini.process_part_list now sessionId modelName ps c).
Qed.

Lemma omap_bind {A B} (f : A -> option B) (ls : list (list A)) :
  omap f (mjoin ls) = mjoin (omap f <$> ls).
Proof.
  induction ls as [|l ls IH]; [done|].
  simpl. by rewrite omap_app, IH.
Qed.

Lemma process_candidates_signatures cs c :
  signatureCache (snd (Gemini.process_candidates now sessionId modelName cs c)) =
  store_all now (omap gemini_write (cand ← cs; candidate_parts cand))
    (signatureCache c).
Proof.
  revert c. induction cs as [|candidate cs IH]; intros c; [done|].
  simpl. pose proof (process_candidate_signatures c candidate) as Hc.
  destruct (Gemini.process_candidate now sessionId modelName c candidate)
    as [candidate' c'].
  specialize (IH c').
  destruct (Gemini.process_candidates now sessionId modelName cs c')
    as [cs' c''].
  simpl in *. by rewrite IH, Hc, omap_app, store_all_app.
Qed.

End Gemini.

End SignatureFacts.

(** [C6], as amended.  Outbound translation caches exactly the
    signatures of at least 50 characters that sit on function-call parts.
    The OpenAI converter stores each under its tool-call id, the call's
    own id or, when it has none, the id derived from name and arguments.
    The Gemini converter stores each under the call's own id and stores
    nothing for a call that has no id.  No other part and no shorter
    signature changes the cache. *)
Theorem signatures_cached_from_50
    (sha256_hex : string -> string) (now : Z) (random_hex : string)
    (model sessionId : string) (r : Native.GoogleResponse) (c : caches) :
  signatureCache
    (snd (OpenAIResponse.convertGoogleToOpenAI sha256_hex now random_hex
            model sessionId r c)) =
  SignatureSpec.store_all now
    (omap (SignatureSpec.openai_write sha256_hex)
       (Native.candidate_parts (Native.first_candidate r)))
    (signatureCache c)
  /\
  signatureCache (snd (Gemini.convertGoogleToGemini now sessionId model r c)) =
  SignatureSpec.store_all now
    (omap SignatureSpec.gemini_write (SignatureSpec.all_parts r))
    (signatureCache c)
  /\
  (forall id e,
     signatureCache
       (snd (OpenAIResponse.convertGoogleToOpenAI sha256_hex now random_hex
               model sessionId r c)) !! id = Some e \/
     signatureCache
       (snd (Gemini.convertGoogleToGemini now sessionId model r c)) !! id
     = Some e ->
     signatureCache c !! id = Some e \/
     SignatureSpec.long_enough (SignatureCache.signature e)).
Proof.
  assert (Hopenai :
    signatureCache
      (snd (OpenAIResponse.convertGoogleToOpenAI sha256_hex now random_hex
              model sessionId r c)) =
    SignatureSpec.store_all now
      (omap (SignatureSpec.openai_write sha256_hex)
         (Native.candidate_parts (Native.first_candidate r)))
      (signatureCache c)).
  { unfold OpenAIResponse.convertGoogleToOpenAI, OpenAIResponse.convert_parts.
    simpl snd. by rewrite SignatureFacts.convert_parts_signatures. }
  assert (Hgemini :
    signatureCache (snd (Gemini.convertGoogleToGemini now sessionId model r c)) =
    SignatureSpec.store_all now
      (omap SignatureSpec.gemini_write (SignatureSpec.all_parts r))
      (signatureCache c)).
  { unfold Gemini.convertGoogleToGemini, SignatureSpec.all_parts.
    destruct (Native.candidates r) as [cs|]; [|done].
    pose proof (SignatureFacts.process_candidates_signatures
                  now sessionId model cs c) as Hcs.
    by destruct (Gemini.process_candidates now sessionId model cs c). }
  split; [done|]. split; [done|].
  intros id e [H|H].
  - rewrite Hopenai in H. revert H. apply SignatureFacts.store_all_long.
    apply SignatureFacts.openai_write_long.
  - rewrite Hgemini in H. revert H. apply SignatureFacts.store_all_long.
    intros p. apply SignatureFacts.gemini_write_long.
Qed.

(** [C6] as stated fails on the Gemini converter: a function-call part
    without an id of its own carries a signature of 50 characters, and
    nothing is cached. *)
Lemma signatures_cached_from_50_counterexample :
  let signature := "01234567890123456789012345678901234567890123456789" in
  let part :=
    {| Native.thought := false; Native.text := None;
       Native.thoughtSignature := Some signature;
       Native.functionCall :=
         Some {| Native.fc_id := None; Native.fc_name := "search";
                 Native.fc_args := None |};
       Native.functionResponse := None |} in
  let r :=
    {| Native.candidates :=
         Some [{| Native.content :=
                    Some {| Native.role := Some "model";
                            Native.parts := Some [part] |};
                  Native.finishReason := Some "STOP" |}];
       Native.usageMetadata := None; Native.modelVersion := None |} in
  String.length signature = 50%nat /\
  signatureCache
    (snd (Gemini.convertGoogleToGemini 0 "session" "gemini-3-pro" r
            {| toolNameMap := []; signatureCache := ∅ |})) = ∅.
Proof. split; reflexivity. Qed.

Lemma signatures_cached_from_50_witness :
  let signature := "01234567890123456789012345678901234567890123456789" in
  let part :=
    {| Native.thought := false; Native.text := None;
       Native.thoughtSignature := Some signature;
       Native.functionCall :=
         Some {| Native.fc_id := Some "call_1"; Native.fc_name := "search";
                 Native.fc_args := None |};
       Native.functionResponse := None |} in
  let r :=
    {| Native.candidates :=
         Some [{| Native.content :=
                    Some {| Native.role := Some "model";
                            Native.parts := Some [part] |};
                  Native.finishReason := Some "STOP" |}];
       Native.usageMetadata := None; Native.modelVersion := None |} in
  let e := {| SignatureCache.signature := signature;
              SignatureCache.timestamp := 7 |} in
  (∅ : gmap string SignatureCache.entry) !! "call_1" = Some e \/
  SignatureSpec.long_enough (SignatureCache.signature e).
Proof.
  intros signature part r e.
  apply (proj2 (proj2 (signatures_cached_from_50 (fun s => s) 7 "00"
                         "gemini-3-pro" "session" r
                         {| toolNameMap := []; signatureCache := ∅ |}))
           "call_1" e).
  left. vm_compute. reflexivity.
Defined.

(** ** The Gemini inbound converter and its tool configuration *)

Module ToolConfigFacts.
Import Gemini ToolConfigSpec.

Section Converter.
Variable sha256_hex : string -> string.
Variable now : Z.
Variables session_uuid request_uuid : string.
Variable generateFunctionCallId : nat -> string.
Variable sanitizeSchema : ToolConverter.Schema -> option ToolConverter.Schema.
Variable cleanSchemaForGemini : ToolConverter.Schema -> ToolConverter.Schema.

Let convert :=
  convertGeminiToGoogle sha256_hex now session_uuid request_uuid
    generateFunctionCallId sanitizeSchema cleanSchemaForGemini.

(** The tool configuration of the result, from that of the input and
    the converted tools. *)
Lemma convert_toolConfig geminiRequest modelName projectId c :
  r_toolConfig (request (fst (convert geminiRequest modelName projectId c))) =
  match r_tools (request (fst (convert geminiRequest modelName projectId c))),
        toolConfig geminiRequest with
  | Some (_ :: _), None => Some VALIDATED
  | _, given => given
  end.
Proof.
  subst convert. unfold convertGeminiToGoogle.
  destruct (match contents geminiRequest with
            | Some cs => _ | None => _ end) as [cs sigs].
  destruct (match tools geminiRequest with
            | Some ts => _ | None => _ end) as [ts names].
  reflexivity.
Qed.

End Converter.

End ToolConfigFacts.

(** [C7], as amended.  When the translated request has a non-empty tools
    array and the inbound Gemini request brings no [toolConfig] of its own,
    the native request has [toolConfig.functionCallingConfig.mode] equal to
    ["VALIDATED"]; a [toolConfig] the client supplies is passed through
    unchanged. *)
Theorem gemini_toolConfig_validated
    (sha256_hex : string -> string) (now : Z)
    (session_uuid request_uuid : string)
    (generateFunctionCallId : nat -> string)
    (sanitizeSchema : ToolConverter.Schema -> option ToolConverter.Schema)
    (cleanSchemaForGemini : ToolConverter.Schema -> ToolConverter.Schema)
    (geminiRequest : Gemini.GeminiRequest) (modelName projectId : string)
    (c : caches) :
  let body :=
    fst (Gemini.convertGeminiToGoogle sha256_hex now session_uuid request_uuid
           generateFunctionCallId sanitizeSchema cleanSchemaForGemini
           geminiRequest modelName projectId c) in
  (exists tool rest,
     Gemini.r_tools (Gemini.request body) = Some (tool :: rest)) ->
  (Gemini.toolConfig geminiRequest = None ->
   ToolConfigSpec.mode_of body = Some "VALIDATED") /\
  (forall given,
     Gemini.toolConfig geminiRequest = Some given ->
     Gemini.r_toolConfig (Gemini.request body) = Some given).
Proof.
  intros body (tool & rest & Htools). subst body.
  split.
  - intros Hnone. unfold ToolConfigSpec.mode_of.
    by rewrite ToolConfigFacts.convert_toolConfig, Htools, Hnone.
  - intros given Hgiven.
    by rewrite ToolConfigFacts.convert_toolConfig, Htools, Hgiven.
Qed.

Lemma gemini_toolConfig_validated_witness :
  ToolConfigSpec.mode_of
    (ToolConfigSpec.convert (ToolConfigSpec.request_with None))
  = Some "VALIDATED".
Proof.
  refine (proj1 (gemini_toolConfig_validated (fun s => s) 0 "uuid-1" "uuid-2"
                   (fun k => "call_x") (fun s => Some s) (fun s => s)
                   (ToolConfigSpec.request_with None)
                   "gemini-2.5-pro" "project"
                   {| toolNameMap := []; signatureCache := ∅ |} _) _).
  - eexists _, _. vm_compute. reflexivity.
  - reflexivity.
Defined.

(** [C7] as stated fails on the code: the request below has a tool, and
    so has its translation, but it arrives with a [toolConfig] in mode
    [AUTO], which the converter keeps. *)
Lemma gemini_toolConfig_validated_counterexample :
  let body :=
    ToolConfigSpec.convert
      (ToolConfigSpec.request_with (Some ToolConfigSpec.AUTO)) in
  (exists tool rest,
     Gemini.r_tools (Gemini.request body) = Some (tool :: rest)) /\
  ToolConfigSpec.mode_of body <> Some "VALIDATED".
Proof.
  split.
  - eexists _, _. vm_compute. reflexivity.
  - vm_compute. discriminate.
Qed.

(** ** Session ids *)

Module SessionFacts.
Import SessionSpec.










(** *** No 32 characters tell all texts apart *)











End SessionFacts.




(** ** The OpenAI stream converter *)

Module StreamFacts.
Import Native OpenAI OpenAIResponse StreamSpec.

Section Stream.
Variable sha256_hex : string -> string.
Variable now : Z.
Variable random_hex : string.
Variable JSON_parse : string -> option SSEData.
Variables originalModel sessionId : string.

Let part_step := stream_part sha256_hex now random_hex originalModel sessionId.
Let data_step := stream_data sha256_hex now random_hex originalModel sessionId.
Let line_step :=
  stream_line sha256_hex now random_hex JSON_parse originalModel sessionId.
Let read_step :=
  stream_read sha256_hex now random_hex JSON_parse originalModel sessionId.

Lemma yield_intermediate st delta :
  all_intermediate st ->
  Forall intermediate (yield now random_hex originalModel st delta).
Proof.
  intros H. unfold yield. apply Forall_app. split; [done|].
  by repeat constructor.
Qed.

Lemma stream_part_intermediate st part :
  all_intermediate st -> all_intermediate (part_step st part).
Proof.
  intros H. subst part_step. unfold stream_part, all_intermediate.
  destruct (thought part).
  - simpl. destruct (default "" (text part)); [done|].
    by apply yield_intermediate.
  - destruct (text part) as [[|a t]|], (functionCall part) as [fc|];
      try done; try (simpl; by apply yield_intermediate);
      by destruct (restore_name _ _ _ _ _).
Qed.

Lemma foldl_invariant {A B} (P : A -> Prop) (f : A -> B -> A) l a :
  (forall a b, P a -> P (f a b)) -> P a -> P (foldl f a l).
Proof.
  intros Hf. revert a. induction l as [|b l IH]; intros a Ha; [done|].
  simpl. by apply IH, Hf.
Qed.

Lemma stream_data_intermediate st data :
  all_intermediate st -> all_intermediate (data_step st data).
Proof.
  intros H. subst data_step. unfold stream_data.
  assert (Hend : forall st', all_intermediate st' ->
    all_intermediate
      (if JS.truthy (finishReason (first_candidate (innerResponse data)))
       then
         {| hasEmittedStart := hasEmittedStart st';
            currentBlockType := currentBlockType st';
            currentThinkingSignature := currentThinkingSignature st';
            st_finishReason :=
              FinishReason.mapFinishReason
                (finishReason (first_candidate (innerResponse data)));
            inputTokens := inputTokens st';
            outputTokens := outputTokens st';
            cacheReadTokens := cacheReadTokens st';
            pendingToolCalls := pendingToolCalls st';
            st_caches := st_caches st';
            yielded := yielded st' |}
       else st')).
  { intros st' H'. by destruct (JS.truthy _). }
  apply Hend. apply (foldl_invariant all_intermediate part_step).
  - apply stream_part_intermediate.
  - unfold all_intermediate. simpl.
    destruct (negb _ && negb _); [by apply yield_intermediate | done].
Qed.

Lemma stream_line_intermediate st line :
  all_intermediate st -> all_intermediate (line_step st line).
Proof.
  intros H. subst line_step. unfold stream_line.
  destruct (data_payload line) as [jsonText|]; [|done].
  destruct (JSON_parse jsonText) as [data|]; [|done].
  by apply stream_data_intermediate.
Qed.

Lemma stream_read_intermediate sb chunk :
  all_intermediate (fst sb) -> all_intermediate (fst (read_step sb chunk)).
Proof.
  intros H. subst read_step. unfold stream_read.
  destruct (read_lines (snd sb) chunk) as [lines buffer]. simpl.
  by apply foldl_invariant; [apply stream_line_intermediate|].
Qed.

Lemma stream_body_intermediate body c :
  all_intermediate (fst (foldl read_step (stream_init c, "") body)).
Proof.
  apply (foldl_invariant (fun sb => all_intermediate (fst sb))).
  - apply stream_read_intermediate.
  - constructor.
Qed.

End Stream.

End StreamFacts.

(** [C10] For every upstream body, a finite sequence of reads that may
    hold no parseable [data:] line at all, [streamGoogleToOpenAI] yields at
    least one chunk.  The last chunk carries a finish reason and a usage
    object whose [total_tokens] is [prompt_tokens] plus
    [completion_tokens]; no chunk before it carries a finish reason. *)
Theorem stream_ends_with_finish_and_usage
    (sha256_hex : string -> string) (now : Z) (random_hex : string)
    (JSON_parse : string -> option Native.SSEData)
    (originalModel sessionId : string) (body : list string) (c : caches) :
  let chunks :=
    fst (OpenAIResponse.streamGoogleToOpenAI sha256_hex now random_hex
           JSON_parse originalModel sessionId body c) in
  chunks <> [] /\
  exists before final,
    chunks = before ++ [final] /\
    Forall (fun chunk => StreamSpec.chunk_finish_reason chunk = None) before /\
    StreamSpec.chunk_finish_reason final <> None /\
    exists usage,
      OpenAI.sc_usage final = Some usage /\
      OpenAI.total_tokens usage =
      OpenAI.prompt_tokens usage + OpenAI.completion_tokens usage.
Proof.
  intros chunks. subst chunks. unfold OpenAIResponse.streamGoogleToOpenAI.
  simpl fst.
  set (st := fst (foldl _ _ body)).
  assert (Hst : StreamSpec.all_intermediate st).
  { apply StreamFacts.stream_body_intermediate. }
  split; [by destruct (match OpenAIResponse.pendingToolCalls st with
                       | [] => _ | _ => _ end)|].
  eexists _, _. split; [reflexivity|]. split; [|split].
  - destruct (OpenAIResponse.pendingToolCalls st); [done|].
    by apply StreamFacts.yield_intermediate.
  - done.
  - eexists. split; reflexivity.
Qed.

(** ** Reading an SSE body *)

Module ReadFacts.
Import Chars StringFacts Native OpenAIResponse SSESpec.

Lemma split_newline_lines_and_rest s :
  split_newline s = fst (lines_and_rest s) ++ [snd (lines_and_rest s)].
Proof.
  induction s as [|c s IH]; [done|].
  cbn [split_newline lines_and_rest]. rewrite IH.
  destruct (lines_and_rest s) as [[|l ls] rest]; simpl;
    by destruct (Ascii.eqb c newline).
Qed.

(** One turn of the reader loop hands over the terminated lines and
    keeps the rest. *)
Lemma read_lines_spec buffer chunk :
  read_lines buffer chunk = lines_and_rest (buffer +:+ chunk).
Proof.
  unfold read_lines. rewrite split_newline_lines_and_rest.
  destruct (lines_and_rest (buffer +:+ chunk)) as [lines rest]. simpl.
  by rewrite removelast_last, last_last.
Qed.

(** Cutting a text in two cuts no line: the rest of the first piece is
    carried into the second. *)
Lemma lines_and_rest_app x y :
  lines_and_rest (x +:+ y) =
  (fst (lines_and_rest x) ++ fst (lines_and_rest (snd (lines_and_rest x) +:+ y)),
   snd (lines_and_rest (snd (lines_and_rest x) +:+ y))).
Proof.
  induction x as [|c x IH].
  - rewrite app_nil_l. simpl. rewrite app_nil_l. by destruct (lines_and_rest y).
  - rewrite app_cons. cbn [lines_and_rest]. rewrite IH. clear IH.
    destruct (lines_and_rest x) as [[|l ls] rest]; simpl.
    + destruct (Ascii.eqb c newline) eqn:Hc; simpl; [done|].
      destruct (lines_and_rest (rest +:+ y)) as [[|l' ls'] rest']; simpl;
        by rewrite ?Hc.
    + by destruct (Ascii.eqb c newline).
Qed.

Section Reader.
Context {S : Type}.
Variable handle : S -> string -> S.

Let read := SSESpec.read handle.

(** Reading chunk by chunk handles the lines of the whole text, whatever
    the chunking. *)
Lemma read_body_from st consumed body :
  foldl read
    (foldl handle st (fst (lines_and_rest consumed)),
     snd (lines_and_rest consumed)) body =
  (foldl handle st (fst (lines_and_rest (consumed +:+ body_text body))),
   snd (lines_and_rest (consumed +:+ body_text body))).
Proof.
  revert consumed. induction body as [|chunk body IH]; intros consumed.
  - simpl. by rewrite app_nil_r.
  - cbn [foldl body_text foldr].
    replace (consumed +:+ String.append chunk (foldr String.append "" body))
      with ((consumed +:+ chunk) +:+ body_text body)
      by (by rewrite StringFacts.app_assoc).
    rewrite <- IH. f_equal. subst read. unfold SSESpec.read. cbn [fst snd].
    rewrite read_lines_spec, (lines_and_rest_app consumed chunk).
    destruct (lines_and_rest (snd (lines_and_rest consumed) +:+ chunk))
      as [lines rest].
    cbn [fst snd]. by rewrite foldl_app.
Qed.

Lemma read_body st body :
  fst (foldl read (st, "") body) = foldl handle st (body_lines body).
Proof.
  pose proof (read_body_from st "" body) as H. simpl in H.
  rewrite app_nil_l in H. by rewrite H.
Qed.

End Reader.

End ReadFacts.

(** ** The non-streaming route for thinking models *)

Module AccumulateFacts.
Import Chars StringFacts Native OpenAIResponse SSESpec AccumulateSpec.

Lemma with_meta_id st :
  with_meta (acc_usageMetadata st) (acc_finishReason st) st = st.
Proof. by destruct st. Qed.

Lemma with_meta_twice u f u' f' st :
  with_meta u f (with_meta u' f' st) = with_meta u f st.
Proof. done. Qed.

Lemma flushText_with_meta u f st :
  flushText (with_meta u f st) = with_meta u f (flushText st).
Proof. unfold flushText. simpl. by destruct (accumulatedText st). Qed.

Lemma flushThinking_with_meta u f st :
  flushThinking (with_meta u f st) = with_meta u f (flushThinking st).
Proof.
  unfold flushThinking. simpl. by destruct (accumulatedThinkingText st).
Qed.

Lemma accumulate_part_with_meta u f st part :
  accumulate_part (with_meta u f st) part =
  with_meta u f (accumulate_part st part).
Proof.
  unfold accumulate_part. destruct (thought part).
  - by rewrite flushText_with_meta.
  - destruct (functionCall part).
    + by rewrite flushThinking_with_meta, flushText_with_meta.
    + destruct (text part) as [[|a t]|]; try done.
      by rewrite flushThinking_with_meta.
Qed.

Lemma accumulate_parts_with_meta u f st ps :
  foldl accumulate_part (with_meta u f st) ps =
  with_meta u f (foldl accumulate_part st ps).
Proof.
  revert st. induction ps as [|part ps IH]; intros st; [done|].
  simpl. by rewrite accumulate_part_with_meta, IH.
Qed.

Lemma accumulate_data_spec st data :
  accumulate_data st data =
  with_meta (usage_after (acc_usageMetadata st) [innerResponse data])
    (reason_after (acc_finishReason st) [innerResponse data])
    (foldl accumulate_part st
       (candidate_parts (first_candidate (innerResponse data)))).
Proof.
  unfold accumulate_data.
  rewrite <- accumulate_parts_with_meta. f_equal.
  unfold with_meta, usage_after, reason_after. simpl. f_equal.
  - by destruct (usageMetadata (innerResponse data)).
  - by destruct (finishReason (first_candidate (innerResponse data)))
      as [[|a r]|].
Qed.

Lemma default_last_cons {A} (held x : A) l :
  default x (last l) = default held (last (x :: l)).
Proof.
  revert held x. induction l as [|y l IH]; intros held x; [done|].
  by rewrite last_cons_cons, <- (IH x y), <- (IH held y).
Qed.

Lemma default_last_omap_cons {A B} (f : A -> option B) held a l :
  default (default held (last (omap f [a]))) (last (omap f l)) =
  default held (last (omap f (a :: l))).
Proof.
  change (omap f (a :: l))
    with (match f a with Some y => y :: omap f l | None => omap f l end).
  change (omap f [a]) with (match f a with Some y => [y] | None => [] end).
  destruct (f a); simpl; [apply default_last_cons | done].
Qed.

Lemma reason_after_cons held r rs :
  reason_after (reason_after held [r]) rs = reason_after held (r :: rs).
Proof. apply default_last_omap_cons. Qed.

Lemma usage_after_cons held r rs :
  usage_after (usage_after held [r]) rs = usage_after held (r :: rs).
Proof. apply default_last_omap_cons. Qed.

(** The accumulators after a run of payloads: the parts are handled in
    order as one list, the other two variables hold the last value
    reported. *)
Lemma accumulate_payloads st ds :
  foldl accumulate_data st ds =
  with_meta (usage_after (acc_usageMetadata st) (innerResponse <$> ds))
    (reason_after (acc_finishReason st) (innerResponse <$> ds))
    (foldl accumulate_part st
       (r ← innerResponse <$> ds; candidate_parts (first_candidate r))).
Proof.
  revert st. induction ds as [|data ds IH]; intros st.
  - exact (eq_sym (with_meta_id st)).
  - cbn [foldl]. rewrite IH, accumulate_data_spec. clear IH.
    rewrite accumulate_parts_with_meta, with_meta_twice.
    rewrite fmap_cons, bind_cons, foldl_app.
    cbn [acc_usageMetadata acc_finishReason with_meta].
    by rewrite reason_after_cons, usage_after_cons.
Qed.

Section Lines.
Variable JSON_parse : string -> option SSEData.

Lemma accumulate_lines st lines :
  foldl (accumulate_line JSON_parse) st lines =
  foldl accumulate_data st
    (omap (fun line => data_payload line ≫= JSON_parse) lines).
Proof.
  revert st. induction lines as [|line lines IH]; intros st; [done|].
  cbn [foldl omap list_omap]. unfold accumulate_line at 2.
  destruct (data_payload line) as [jsonText|]; simpl; [|apply IH].
  destruct (JSON_parse jsonText) as [data|]; simpl; apply IH.
Qed.

(** The accumulators at the end of the body. *)
Lemma accumulate_body body :
  fst (foldl (accumulate_read JSON_parse) (accum_init, "") body) =
  with_meta (usage_after empty_usage (payloads JSON_parse body))
    (reason_after "STOP" (payloads JSON_parse body))
    (foldl accumulate_part accum_init (carried_parts JSON_parse body)).
Proof.
  change (accumulate_read JSON_parse)
    with (SSESpec.read (accumulate_line JSON_parse)).
  rewrite ReadFacts.read_body, accumulate_lines, accumulate_payloads.
  reflexivity.
Qed.

End Lines.

End AccumulateFacts.

Module ThinkingRoute.
Import Native OpenAIResponse SSESpec AccumulateSpec AccumulateFacts.

(** The two parts, accumulated and flushed: one thought part, one text
    part. *)
Lemma accumulate_thought_then_text u f p1 p2 :
  thought_part "ok " p1 -> plain_text_part "hello" p2 ->
  exists signature,
    finalParts
      (flushText (flushThinking
         (with_meta u f (foldl accumulate_part accum_init [p1; p2])))) =
    [{| thought := true; text := Some "ok ";
        thoughtSignature := Some signature;
        functionCall := None; functionResponse := None |};
     {| thought := false; text := Some "hello"; thoughtSignature := None;
        functionCall := None; functionResponse := None |}].
Proof.
  intros [Ht1 Hx1] (Ht2 & Hf2 & Hx2).
  exists (if JS.truthy (thoughtSignature p1)
          then default "" (thoughtSignature p1) else "").
  cbn [foldl]. unfold accumulate_part.
  rewrite Ht1, Hx1, Ht2, Hf2, Hx2. reflexivity.
Qed.

End ThinkingRoute.

(** [C1] Take any upstream SSE body, cut into reads in any way, whose
    [data:] lines carry, in order, one thought part with text ["ok "] and
    one plain text part with text ["hello"], and whose last reported
    finish reason, if there is one, is [STOP].  The non-streaming route for
    thinking models, [accumulateSSEResponse] followed by
    [convertGoogleToOpenAI], answers with [choices[0].message.content =
    "hello"], [choices[0].message.reasoning_content = "ok "],
    [choices[0].finish_reason = "stop"] and the model name of the request. *)
Theorem thinking_route_thought_then_text
    (sha256_hex : string -> string) (now : Z) (random_hex : string)
    (JSON_parse : string -> option Native.SSEData)
    (originalModel sessionId : string) (body : list string) (c : caches)
    (p1 p2 : Native.Part) :
  SSESpec.carried_parts JSON_parse body = [p1; p2] ->
  SSESpec.thought_part "ok " p1 ->
  SSESpec.plain_text_part "hello" p2 ->
  default "STOP" (last (SSESpec.reported_finish_reasons JSON_parse body))
  = "STOP" ->
  let response :=
    fst (OpenAIResponse.chat_completion_thinking sha256_hex now random_hex
           JSON_parse originalModel sessionId body c) in
  OpenAI.model response = originalModel /\
  exists choice,
    OpenAI.choices response = [choice] /\
    OpenAI.content (OpenAI.message choice) = Some "hello" /\
    OpenAI.reasoning_content (OpenAI.message choice) = Some "ok " /\
    OpenAI.finish_reason choice = "stop".
Proof.
  intros Hparts Hp1 Hp2 Hreason response. subst response.
  split; [reflexivity|].
  unfold OpenAIResponse.chat_completion_thinking,
    OpenAIResponse.accumulateSSEResponse.
  rewrite AccumulateFacts.accumulate_body, Hparts.
  set (u := AccumulateSpec.usage_after _ _).
  set (f := AccumulateSpec.reason_after _ _).
  assert (Hf : f = "STOP") by exact Hreason.
  destruct (ThinkingRoute.accumulate_thought_then_text u f p1 p2 Hp1 Hp2)
    as [signature Hfinal].
  unfold OpenAIResponse.convertGoogleToOpenAI.
  cbn [fst Native.first_candidate Native.candidates Native.candidate_parts
       Native.content Native.parts default from_option id].
  rewrite Hfinal.
  eexists. split; [reflexivity|].
  cbn [OpenAI.message OpenAI.content OpenAI.reasoning_content
       OpenAI.finish_reason Native.finishReason].
  split; [reflexivity|]. split; [reflexivity|].
  assert (Hkeep : forall st,
    OpenAIResponse.acc_finishReason
      (OpenAIResponse.flushText (OpenAIResponse.flushThinking st)) =
    OpenAIResponse.acc_finishReason st).
  { intros st. unfold OpenAIResponse.flushText, OpenAIResponse.flushThinking.
    destruct (OpenAIResponse.accumulatedThinkingText st); simpl;
      by destruct (OpenAIResponse.accumulatedText st). }
  rewrite Hkeep. cbn [OpenAIResponse.acc_finishReason AccumulateSpec.with_meta].
  rewrite Hf. reflexivity.
Qed.

Lemma thinking_route_thought_then_text_witness :
  OpenAI.model ThinkingExample.respond = "gemini-2.5-pro-thinking" /\
  exists choice,
    OpenAI.choices ThinkingExample.respond = [choice] /\
    OpenAI.content (OpenAI.message choice) = Some "hello" /\
    OpenAI.reasoning_content (OpenAI.message choice) = Some "ok " /\
    OpenAI.finish_reason choice = "stop".
Proof.
  apply (thinking_route_thought_then_text (fun s => s) 0 "00"
           ThinkingExample.parse "gemini-2.5-pro-thinking" "session"
           ThinkingExample.body {| toolNameMap := []; signatureCache := ∅ |}
           ThinkingExample.thought_ok ThinkingExample.text_hello).
  - vm_compute. reflexivity.
  - split; reflexivity.
  - repeat split; reflexivity.
  - vm_compute. reflexivity.
Defined.

(** * Further properties of the translator *)

(** ** The tool-name cache as a map with unique keys *)

Module ToolNameInvariant.
Import StringFacts ToolNameCache ToolNameFacts CacheSpec.

Lemma keys_cons k e m : keys ((k, e) :: m) = k :: keys m.
Proof. reflexivity. Qed.

Lemma map_get_None key m : map_get key m = None <-> key ∉ keys m.
Proof.
  induction m as [|[k e] m IH].
  - split; [intros _; apply not_elem_of_nil | done].
  - rewrite keys_cons, not_elem_of_cons. cbn [map_get].
    rewrite eq_decide. case_bool_decide as Hk.
    + split; [done|]. intros [Hne _]. by destruct Hne.
    + rewrite IH. naive_solver.
Qed.

Lemma map_get_Some_elem key e m : map_get key m = Some e -> (key, e) ∈ m.
Proof.
  induction m as [|[k e'] m IH]; simpl; [done|].
  rewrite eq_decide. case_bool_decide as Hk.
  - intros [= ->]. subst. left.
  - intros H. right. by apply IH.
Qed.

Lemma keys_map_set key v m :
  keys (map_set key v m) =
  match map_get key m with Some _ => keys m | None => keys m ++ [key] end.
Proof.
  induction m as [|[k e] m IH]; [done|]. cbn [map_set map_get].
  destruct (JS.eq k key); [done|].
  rewrite !keys_cons, IH. by destruct (map_get key m).
Qed.

Lemma NoDup_map_set key v m : NoDup (keys m) -> NoDup (keys (map_set key v m)).
Proof.
  intros H. rewrite keys_map_set.
  destruct (map_get key m) eqn:Hget; [done|].
  apply NoDup_app. split; [done|]. split; [|apply NoDup_singleton].
  intros x Hx ->%list_elem_of_singleton. by apply map_get_None in Hget.
Qed.

Lemma sublist_map_delete key m : sublist (map_delete key m) m.
Proof.
  induction m as [|[k e] m IH]; simpl; [done|].
  destruct (JS.eq k key); [by apply sublist_cons | by apply sublist_skip].
Qed.

Lemma sublist_List_filter {A} (f : A -> bool) l : sublist (List.filter f l) l.
Proof.
  induction l as [|x l IH]; simpl; [done|].
  destruct (f x); [by apply sublist_skip | by apply sublist_cons].
Qed.

Lemma NoDup_keys_sublist m' m :
  sublist m' m -> NoDup (keys m) -> NoDup (keys m').
Proof.
  intros Hsub Hm. eapply sublist_NoDup; [exact Hm|]. by apply fmap_sublist.
Qed.

Lemma NoDup_pruneSize target m :
  NoDup (keys m) -> NoDup (keys (pruneSize target m)).
Proof.
  unfold pruneSize. destruct (_ <=? _)%nat; [done|].
  apply NoDup_keys_sublist, sublist_drop.
Qed.

(** No key is held twice, in any state of the module. *)
Lemma reachable_NoDup m : reachable m -> NoDup (keys m).
Proof.
  induction 1 as [|now s mo safe orig m _ IH|now s mo safe m _ IH
                  |now m _ IH|m _ IH].
  - constructor.
  - unfold setToolNameMapping. destruct safe; [done|]. destruct orig; [done|].
    destruct (JS.eq _ _); [done|]. by apply NoDup_pruneSize, NoDup_map_set.
  - unfold getOriginalToolName. destruct safe; [done|].
    destruct (map_get _ m) as [e|]; [|done].
    destruct (expired now e); simpl; [|done].
    by apply (NoDup_keys_sublist _ m); [apply sublist_map_delete|].
  - by apply (NoDup_keys_sublist _ m); [apply sublist_List_filter|].
  - constructor.
Qed.

Lemma map_get_delete_eq key m :
  NoDup (keys m) -> map_get key (map_delete key m) = None.
Proof.
  induction m as [|[k e] m IH]; [done|].
  rewrite keys_cons, NoDup_cons. cbn [map_delete]. intros [Hk Hm].
  destruct (JS.eq k key) eqn:Hkey; cbn [map_get].
  - rewrite eq_decide in Hkey. apply bool_decide_eq_true_1 in Hkey. subst k.
    by apply map_get_None.
  - rewrite Hkey. by apply IH.
Qed.

Lemma map_get_delete_ne key key' m :
  key <> key' -> map_get key' (map_delete key m) = map_get key' m.
Proof.
  intros Hne. induction m as [|[k e] m IH]; simpl; [done|].
  destruct (JS.eq k key) eqn:Hkey; simpl.
  - rewrite eq_decide in Hkey. apply bool_decide_eq_true_1 in Hkey. subst k.
    by rewrite eq_false.
  - by rewrite IH.
Qed.

Lemma length_map_delete_present key m :
  is_Some (map_get key m) -> S (length (map_delete key m)) = length m.
Proof.
  induction m as [|[k e] m IH]; simpl.
  - by intros [? ?].
  - destruct (JS.eq k key); simpl; [done|]. intros H. by rewrite IH.
Qed.



End ToolNameInvariant.

(** [X1] In every state the tool-name cache can reach, the map holds at
    most 512 entries and holds no key twice. *)
Theorem tool_name_cache_bounded (m : ToolNameCache.store) :
  ToolNameCache.reachable m ->
  (ToolNameCache.getCacheSize m <= ToolNameCache.MAX_ENTRIES)%nat /\
  NoDup (CacheSpec.keys m).
Proof.
  intros H. split.
  - by apply ToolNameFacts.reachable_bounded.
  - by apply ToolNameInvariant.reachable_NoDup.
Qed.

Lemma tool_name_cache_bounded_witness :
  let m := ToolNameCache.setToolNameMapping 0 "s" "m" "my_tool" "my.tool!" [] in
  (ToolNameCache.getCacheSize m <= ToolNameCache.MAX_ENTRIES)%nat /\
  NoDup (CacheSpec.keys m).
Proof.
  apply (tool_name_cache_bounded
           (ToolNameCache.setToolNameMapping 0 "s" "m" "my_tool" "my.tool!" [])).
  apply ToolNameCache.reach_set, ToolNameCache.reach_empty.
Defined.

(** [X2] A mapping that is looked up more than 30 minutes after it was
    written is not returned, and the lookup deletes it: the map holds one
    entry fewer, the key is gone, and every other key is found as
    before. *)
Theorem tool_name_lookup_expires
    (m : ToolNameCache.store) (now : Z) (s mo safe : string)
    (e : ToolNameCache.entry) :
  ToolNameCache.reachable m ->
  safe <> "" ->
  ToolNameCache.map_get (ToolNameCache.makeKey s mo safe) m = Some e ->
  ToolNameCache.ENTRY_TTL_MS < now - ToolNameCache.ts e ->
  let after := ToolNameCache.getOriginalToolName now s mo safe m in
  fst after = None /\
  S (ToolNameCache.getCacheSize (snd after)) = ToolNameCache.getCacheSize m /\
  ToolNameCache.map_get (ToolNameCache.makeKey s mo safe) (snd after) = None /\
  forall key,
    key <> ToolNameCache.makeKey s mo safe ->
    ToolNameCache.map_get key (snd after) = ToolNameCache.map_get key m.
Proof.
  intros Hm Hsafe Hget Hold after. subst after.
  unfold ToolNameCache.getOriginalToolName.
  destruct safe as [|a safe]; [done|]. rewrite Hget.
  assert (Hexp : ToolNameCache.expired now e = true)
    by (by apply Z.ltb_lt).
  rewrite Hexp. cbn [fst snd]. split; [done|]. split; [|split].
  - apply ToolNameInvariant.length_map_delete_present. by rewrite Hget.
  - by apply ToolNameInvariant.map_get_delete_eq,
      ToolNameInvariant.reachable_NoDup.
  - intros key Hkey. by apply ToolNameInvariant.map_get_delete_ne.
Qed.

Lemma tool_name_lookup_expires_witness :
  let m := ToolNameCache.setToolNameMapping 0 "s" "m" "my_tool" "my.tool!" [] in
  let after := ToolNameCache.getOriginalToolName 1800001 "s" "m" "my_tool" m in
  fst after = None /\
  S (ToolNameCache.getCacheSize (snd after)) = ToolNameCache.getCacheSize m /\
  ToolNameCache.map_get (ToolNameCache.makeKey "s" "m" "my_tool") (snd after)
  = None /\
  forall key,
    key <> ToolNameCache.makeKey "s" "m" "my_tool" ->
    ToolNameCache.map_get key (snd after) = ToolNameCache.map_get key m.
Proof.
  apply (tool_name_lookup_expires
           (ToolNameCache.setToolNameMapping 0 "s" "m" "my_tool" "my.tool!" [])
           1800001 "s" "m" "my_tool"
           {| ToolNameCache.originalName := "my.tool!"; ToolNameCache.ts := 0 |}).
  - apply ToolNameCache.reach_set, ToolNameCache.reach_empty.
  - discriminate.
  - reflexivity.
  - reflexivity.
Defined.



(** [X4] What a write does to the map, for a mapping that passes the
    guard of [setToolNameMapping]: a key that is present keeps its place
    in the order; a new key goes to the end; and when the map is full,
    the entry that makes room is the oldest one. *)
Theorem tool_name_write_evicts_oldest
    (m : ToolNameCache.store) (now : Z) (s mo safe orig : string) :
  safe <> "" -> orig <> "" -> safe <> orig ->
  (length m <= ToolNameCache.MAX_ENTRIES)%nat ->
  let key := ToolNameCache.makeKey s mo safe in
  let after := ToolNameCache.setToolNameMapping now s mo safe orig m in
  (is_Some (ToolNameCache.map_get key m) ->
   CacheSpec.keys after = CacheSpec.keys m) /\
  (ToolNameCache.map_get key m = None ->
   (length m < ToolNameCache.MAX_ENTRIES)%nat ->
   after = m ++ [CacheSpec.written now s mo safe orig]) /\
  (ToolNameCache.map_get key m = None ->
   length m = ToolNameCache.MAX_ENTRIES ->
   after = drop 1 m ++ [CacheSpec.written now s mo safe orig]).
Proof.
  intros Hsafe Horig Hne Hlen key after. subst after.
  unfold ToolNameCache.setToolNameMapping.
  destruct safe as [|a safe]; [done|]. destruct orig as [|b orig]; [done|].
  rewrite StringFacts.eq_false by done. fold key.
  split; [|split].
  - intros Hsome. rewrite ToolNameFacts.pruneSize_fits.
    + rewrite ToolNameInvariant.keys_map_set. by destruct Hsome as [e ->].
    + by rewrite ToolNameFacts.length_map_set_present.
  - intros Hnone Hlt. rewrite ToolNameFacts.map_set_absent by done.
    rewrite ToolNameFacts.pruneSize_fits; [done|].
    rewrite length_app. simpl. lia.
  - intros Hnone Hfull. rewrite ToolNameFacts.map_set_absent by done.
    unfold ToolNameCache.pruneSize. rewrite length_app. simpl.
    destruct (_ <=? _)%nat eqn:Hfit.
    + apply Nat.leb_le in Hfit. lia.
    + replace (length m + 1 - ToolNameCache.MAX_ENTRIES)%nat with 1%nat by lia.
      rewrite drop_app_le; [done|]. rewrite Hfull.
      unfold ToolNameCache.MAX_ENTRIES. lia.
Qed.

Lemma tool_name_write_evicts_oldest_witness :
  ToolNameCache.setToolNameMapping 7 "new" "m" "my_tool" "my.tool!"
    ToolNameSpec.full_cache =
  drop 1 ToolNameSpec.full_cache ++
    [CacheSpec.written 7 "new" "m" "my_tool" "my.tool!"].
Proof.
  refine (proj2 (proj2 (tool_name_write_evicts_oldest ToolNameSpec.full_cache
                          7 "new" "m" "my_tool" "my.tool!" _ _ _ _)) _ _).
  - discriminate.
  - discriminate.
  - discriminate.
  - apply Nat.leb_le. vm_compute. reflexivity.
  - vm_compute. reflexivity.
  - vm_compute. reflexivity.
Defined.

(** ** The signature cache *)

Module SignatureCacheFacts.
Import SignatureCache.

Lemma signature_expired_mono now now' e :
  now <= now' -> expired now e = true -> expired now' e = true.
Proof.
  unfold expired. intros H H1. apply Z.ltb_lt in H1. apply Z.ltb_lt. lia.
Qed.

Lemma lookup_cleanupCache now cache id :
  cleanupCache now cache !! id =
  match cache !! id with
  | Some e => if expired now e then None else Some e
  | None => None
  end.
Proof.
  unfold cleanupCache. destruct (cache !! id) as [e|] eqn:Hid.
  - destruct (expired now e) eqn:He.
    + apply map_lookup_filter_None. right. intros e' He'. simpl.
      rewrite Hid in He'. injection He' as <-. by rewrite He.
    + apply map_lookup_filter_Some. by split.
  - apply map_lookup_filter_None. by left.
Qed.

End SignatureCacheFacts.

(** [X5] A signature stored under a tool-call id is returned by a lookup
    made no more than two hours later, and the lookup leaves the cache as
    it is; a lookup made later than that returns nothing and deletes the
    entry.  Lookups under any other id are not affected by the write. *)
Theorem signature_round_trip
    (cache : gmap string SignatureCache.entry) (now now' : Z)
    (id signature : string) :
  id <> "" -> signature <> "" ->
  let written := SignatureCache.cacheSignature now id signature cache in
  (now' - now <= Constants.GEMINI_SIGNATURE_CACHE_TTL_MS ->
   SignatureCache.getCachedSignature now' id written =
   (Some signature, written)) /\
  (Constants.GEMINI_SIGNATURE_CACHE_TTL_MS < now' - now ->
   SignatureCache.getCachedSignature now' id written =
   (None, delete id cache)) /\
  (forall id',
     id' <> id ->
     fst (SignatureCache.getCachedSignature now' id' written) =
     fst (SignatureCache.getCachedSignature now' id' cache)).
Proof.
  intros Hid Hsig written. subst written.
  rewrite SignatureFacts.cacheSignature_insert by done.
  unfold SignatureCache.getCachedSignature.
  split; [|split].
  - intros Hfresh. destruct id as [|a id]; [done|].
    rewrite lookup_insert_eq. unfold SignatureCache.expired. simpl.
    by rewrite (proj2 (Z.ltb_ge _ _) Hfresh).
  - intros Hold. destruct id as [|a id]; [done|].
    rewrite lookup_insert_eq. unfold SignatureCache.expired. simpl.
    rewrite (proj2 (Z.ltb_lt _ _) Hold). by rewrite delete_insert_eq.
  - intros id' Hne. destruct id' as [|a id']; [done|].
    rewrite lookup_insert_ne by done.
    destruct (cache !! String a id') as [e|]; [|done].
    by destruct (SignatureCache.expired now' e).
Qed.

Lemma signature_round_trip_witness :
  let written := SignatureCache.cacheSignature 0 "call_1" "signature" ∅ in
  (7200000 - 0 <= Constants.GEMINI_SIGNATURE_CACHE_TTL_MS ->
   SignatureCache.getCachedSignature 7200000 "call_1" written =
   (Some "signature", written)) /\
  (Constants.GEMINI_SIGNATURE_CACHE_TTL_MS < 7200000 - 0 ->
   SignatureCache.getCachedSignature 7200000 "call_1" written =
   (None, delete "call_1" ∅)) /\
  (forall id',
     id' <> "call_1" ->
     fst (SignatureCache.getCachedSignature 7200000 id' written) =
     fst (SignatureCache.getCachedSignature 7200000 id' ∅)).
Proof.
  apply (signature_round_trip ∅ 0 7200000 "call_1" "signature");
    discriminate.
Defined.

(** [X6] The periodic clean-up of the signature cache deletes exactly the
    entries older than two hours, and cannot be observed through lookups:
    a lookup made at the time of the clean-up or later returns the same
    signature whether the clean-up ran or not. *)
Theorem signature_cleanup_is_invisible
    (cache : gmap string SignatureCache.entry) (now now' : Z) (id : string) :
  now <= now' ->
  fst (SignatureCache.getCachedSignature now' id
         (SignatureCache.cleanupCache now cache)) =
  fst (SignatureCache.getCachedSignature now' id cache) /\
  (forall id' e,
     SignatureCache.cleanupCache now cache !! id' = Some e <->
     cache !! id' = Some e /\
     now - SignatureCache.timestamp e <= Constants.GEMINI_SIGNATURE_CACHE_TTL_MS) /\
  (SignatureCache.getCacheSize (SignatureCache.cleanupCache now cache)
   <= SignatureCache.getCacheSize cache)%nat.
Proof.
  intros Hle. split; [|split].
  - unfold SignatureCache.getCachedSignature. destruct id as [|a id]; [done|].
    rewrite SignatureCacheFacts.lookup_cleanupCache.
    destruct (cache !! String a id) as [e|]; [|done].
    destruct (SignatureCache.expired now e) eqn:Hnow.
    + by rewrite (SignatureCacheFacts.signature_expired_mono now now' e Hle Hnow).
    + by destruct (SignatureCache.expired now' e).
  - intros id' e. rewrite SignatureCacheFacts.lookup_cleanupCache.
    destruct (cache !! id') as [e'|]; [|naive_solver].
    unfold SignatureCache.expired.
    destruct (_ <? _) eqn:Hexp.
    + apply Z.ltb_lt in Hexp. split; [done|]. intros [[= ->] H]. lia.
    + apply Z.ltb_ge in Hexp. split; [intros [= ->]; done | by intros [? _]].
  - unfold SignatureCache.getCacheSize, SignatureCache.cleanupCache.
    apply map_size_filter.
Qed.

Lemma signature_cleanup_is_invisible_witness :
  let cache := SignatureCache.cacheSignature 0 "call_1" "signature" ∅ in
  fst (SignatureCache.getCachedSignature 7200002 "call_1"
         (SignatureCache.cleanupCache 7200001 cache)) =
  fst (SignatureCache.getCachedSignature 7200002 "call_1" cache) /\
  (forall id' e,
     SignatureCache.cleanupCache 7200001 cache !! id' = Some e <->
     cache !! id' = Some e /\
     7200001 - SignatureCache.timestamp e
     <= Constants.GEMINI_SIGNATURE_CACHE_TTL_MS) /\
  (SignatureCache.getCacheSize (SignatureCache.cleanupCache 7200001 cache)
   <= SignatureCache.getCacheSize cache)%nat.
Proof.
  apply (signature_cleanup_is_invisible
           (SignatureCache.cacheSignature 0 "call_1" "signature" ∅)
           7200001 7200002 "call_1").
  lia.
Defined.

(** ** Model names *)

Module ModelFamilyFacts.
Import StringFacts Substring Constants.

Lemma replace_date_suffix_prefix s :
  exists r, s = replace_date_suffix s +:+ r.
Proof.
  induction s as [|c s [r IH]].
  - by exists "".
  - cbn [replace_date_suffix]. destruct (date_suffix_here (String c s)).
    + exists (String c s). by rewrite app_nil_l.
    + exists r. rewrite app_cons. by f_equal.
Qed.

Lemma includes_app_l p u r :
  JS.includes p u = true -> JS.includes p (u +:+ r) = true.
Proof.
  rewrite !includes_spec. intros (l & r' & ->). exists l, (r' +:+ r).
  by rewrite !app_assoc.
Qed.

Lemma isThinkingModel_family modelName :
  isThinkingModel modelName = true -> getModelFamily modelName <> unknown.
Proof.
  unfold isThinkingModel, getModelFamily.
  destruct (JS.includes "claude" _); [done|].
  destruct (JS.includes "gemini" _); done.
Qed.

End ModelFamilyFacts.

(** [X7] No mapped model name mentions [haiku], in whatever letter case:
    such a name is never sent upstream. *)
Theorem mapModelName_never_haiku (modelName : string) :
  JS.includes "haiku" (JS.toLowerCase (Constants.mapModelName modelName))
  = false.
Proof.
  unfold Constants.mapModelName. destruct modelName as [|a name]; [done|].
  rewrite ModelNameFacts.find_redirect_haiku.
  destruct (JS.includes "haiku" (JS.toLowerCase (String a name))) eqn:Hin;
    [done|].
  destruct (Constants.test_date_suffix (String a name)); [|done].
  destruct (ModelFamilyFacts.replace_date_suffix_prefix (String a name))
    as [r Hr].
  destruct (JS.includes "haiku" (JS.toLowerCase
              (Constants.replace_date_suffix (String a name)))) eqn:Hstem;
    [|done].
  apply (ModelFamilyFacts.includes_app_l _ _ (JS.toLowerCase r)) in Hstem.
  rewrite <- Substring.toLowerCase_app, <- Hr in Hstem. congruence.
Qed.

(** ** The Gemini request converter *)

Module GeminiRequestFacts.
Import Gemini UpstreamSpec.

Lemma sanitizeToolName_safe_name v :
  safe_name (ToolConverter.sanitizeToolName v).
Proof.
  assert (Htool : safe_name "tool").
  { split; [done|]. split; [simpl; lia|].
    apply (SanitizeSafety.Forall_default_step []). constructor. }
  destruct v as [| |b|z|s|]; try exact Htool.
  pose proof (SanitizeSafety.pipeline_safe (String.list_ascii_of_string s))
    as (Hne & Hlen & Hall).
  rewrite <- SanitizeFacts.sanitizeToolName_chars in Hne, Hlen, Hall.
  split; [|split]; [| |done].
  - intros Heq. apply Hne. by rewrite Heq.
  - by rewrite <- StringFacts.chars_length.
Qed.

Section Converter.
Variable sha256_hex : string -> string.
Variable now : Z.
Variables session_uuid request_uuid : string.
Variable generateFunctionCallId : nat -> string.
Variable sanitizeSchema : ToolConverter.Schema -> option ToolConverter.Schema.
Variable cleanSchemaForGemini : ToolConverter.Schema -> ToolConverter.Schema.

Let convert :=
  convertGeminiToGoogle sha256_hex now session_uuid request_uuid
    generateFunctionCallId sanitizeSchema cleanSchemaForGemini.

Let convertSingleTool :=
  ToolConverter.convertSingleTool sanitizeSchema cleanSchemaForGemini now.

Lemma convertSingleTool_name n d p s mo m :
  ToolConverter.name (fst (convertSingleTool n d p s mo m)) =
  ToolConverter.sanitizeToolName (ToolConverter.value_of n).
Proof. reflexivity. Qed.

Lemma convert_declarations_safe fds s mo m :
  Forall safe_name
    (ToolConverter.name <$>
       fst (ToolConverter.convert_declarations sanitizeSchema
              cleanSchemaForGemini now fds s mo m)).
Proof.
  revert m. induction fds as [|fd fds IH]; intros m; [constructor|].
  cbn [ToolConverter.convert_declarations].
  pose proof (convertSingleTool_name (ToolConverter.d_name fd)
                (ToolConverter.d_description fd) (ToolConverter.d_parameters fd)
                s mo m) as Hname.
  subst convertSingleTool.
  destruct (ToolConverter.convertSingleTool _ _ _ _ _ _ _ _ m) as [d m'].
  specialize (IH m').
  destruct (ToolConverter.convert_declarations _ _ _ fds s mo m') as [ds m''].
  cbn [fst] in *. rewrite fmap_cons. constructor; [|done].
  rewrite Hname. apply sanitizeToolName_safe_name.
Qed.

Lemma convert_gemini_tools_safe tools s mo m :
  Forall safe_name
    (declared_names
       (fst (ToolConverter.convert_gemini_tools sanitizeSchema
               cleanSchemaForGemini now tools s mo m))).
Proof.
  revert m. induction tools as [|tool tools IH]; intros m; [constructor|].
  cbn [ToolConverter.convert_gemini_tools].
  assert (Htool : Forall safe_name
            (declared_names
               [fst (ToolConverter.convert_gemini_tool sanitizeSchema
                       cleanSchemaForGemini now tool s mo m)])).
  { unfold ToolConverter.convert_gemini_tool, declared_names.
    destruct (ToolConverter.functionDeclarations tool) as [fds|].
    - pose proof (convert_declarations_safe fds s mo m) as H.
      destruct (ToolConverter.convert_declarations _ _ _ fds s mo m).
      simpl. by rewrite app_nil_r.
    - destruct (JS.truthy (ToolConverter.t_name tool)); [|constructor].
      pose proof (convertSingleTool_name (ToolConverter.t_name tool)
                    (ToolConverter.t_description tool)
                    (match ToolConverter.t_parameters tool with
                     | Some p => Some p
                     | None => ToolConverter.t_input_schema tool
                     end) s mo m) as Hname.
      subst convertSingleTool.
      destruct (ToolConverter.convertSingleTool _ _ _ _ _ _ _ _ m) as [d m'].
      simpl in *. constructor; [|constructor].
      rewrite Hname. apply sanitizeToolName_safe_name. }
  destruct (ToolConverter.convert_gemini_tool _ _ _ tool s mo m) as [t m'].
  specialize (IH m').
  destruct (ToolConverter.convert_gemini_tools _ _ _ tools s mo m') as [ts m''].
  cbn [fst] in *. unfold declared_names in *. rewrite bind_cons.
  apply Forall_app. split; [|done].
  simpl in Htool. by rewrite app_nil_r in Htool.
Qed.

Lemma convert_model geminiRequest modelName projectId c :
  model (fst (convert geminiRequest modelName projectId c)) =
  Constants.mapModelName modelName.
Proof.
  subst convert. unfold convertGeminiToGoogle.
  destruct (match contents geminiRequest with
            | Some cs => _ | None => _ end) as [cs sigs].
  destruct (match tools geminiRequest with
            | Some ts => _ | None => _ end) as [ts names].
  reflexivity.
Qed.

Lemma convert_generationConfig geminiRequest modelName projectId c :
  r_generationConfig
    (request (fst (convert geminiRequest modelName projectId c))) =
  normalizeGenerationConfig
    (default empty_config (generationConfig geminiRequest))
    (Constants.isThinkingModel (Constants.mapModelName modelName))
    (Constants.mapModelName modelName).
Proof.
  subst convert. unfold convertGeminiToGoogle.
  destruct (match contents geminiRequest with
            | Some cs => _ | None => _ end) as [cs sigs].
  destruct (match tools geminiRequest with
            | Some ts => _ | None => _ end) as [ts names].
  reflexivity.
Qed.

Lemma convert_tools_safe geminiRequest modelName projectId c :
  Forall safe_name
    (declared_names
       (default []
          (r_tools (request (fst (convert geminiRequest modelName projectId c)))))).
Proof.
  subst convert. unfold convertGeminiToGoogle.
  destruct (match contents geminiRequest with
            | Some cs => _ | None => _ end) as [cs sigs].
  destruct (tools geminiRequest) as [ts|]; [|constructor].
  unfold ToolConverter.convertGeminiToolsToAntigravity.
  destruct ts as [|t ts]; [constructor|].
  pose proof (convert_gemini_tools_safe (t :: ts)
                (deriveSessionId sha256_hex session_uuid (default [] cs))
                (Constants.mapModelName modelName) (toolNameMap c)) as H.
  destruct (ToolConverter.convert_gemini_tools _ _ _ (t :: ts) _ _ _)
    as [ts' names].
  exact H.
Qed.

End Converter.

End GeminiRequestFacts.

(** [X8] Every function name that [convertGeminiToGoogle] declares
    upstream is safe: one to 128 characters of [[A-Za-z0-9_-]], whatever
    names the client gave its tools and in whichever of the two tool
    formats. *)
Theorem gemini_declared_names_are_safe
    (sha256_hex : string -> string) (now : Z)
    (session_uuid request_uuid : string)
    (generateFunctionCallId : nat -> string)
    (sanitizeSchema : ToolConverter.Schema -> option ToolConverter.Schema)
    (cleanSchemaForGemini : ToolConverter.Schema -> ToolConverter.Schema)
    (geminiRequest : Gemini.GeminiRequest) (modelName projectId : string)
    (c : caches) :
  let body :=
    fst (Gemini.convertGeminiToGoogle sha256_hex now session_uuid request_uuid
           generateFunctionCallId sanitizeSchema cleanSchemaForGemini
           geminiRequest modelName projectId c) in
  Forall UpstreamSpec.safe_name
    (UpstreamSpec.declared_names
       (default [] (Gemini.r_tools (Gemini.request body)))).
Proof. apply GeminiRequestFacts.convert_tools_safe. Qed.

(** [X9] The request that [convertGeminiToGoogle] builds names the mapped
    model, and carries a thinking configuration exactly when the mapped
    model is a thinking model: no thinking model falls outside the two
    families for which a configuration is written. *)
Theorem gemini_thinking_config_iff_thinking_model
    (sha256_hex : string -> string) (now : Z)
    (session_uuid request_uuid : string)
    (generateFunctionCallId : nat -> string)
    (sanitizeSchema : ToolConverter.Schema -> option ToolConverter.Schema)
    (cleanSchemaForGemini : ToolConverter.Schema -> ToolConverter.Schema)
    (geminiRequest : Gemini.GeminiRequest) (modelName projectId : string)
    (c : caches) :
  let body :=
    fst (Gemini.convertGeminiToGoogle sha256_hex now session_uuid request_uuid
           generateFunctionCallId sanitizeSchema cleanSchemaForGemini
           geminiRequest modelName projectId c) in
  Gemini.model body = Constants.mapModelName modelName /\
  (is_Some (Gemini.thinkingConfig
              (Gemini.r_generationConfig (Gemini.request body))) <->
   Constants.isThinkingModel (Gemini.model body) = true).
Proof.
  intros body. subst body.
  rewrite GeminiRequestFacts.convert_model,
    GeminiRequestFacts.convert_generationConfig.
  split; [done|].
  unfold Gemini.normalizeGenerationConfig. cbn [Gemini.thinkingConfig].
  destruct (Constants.isThinkingModel _) eqn:Hthinking.
  - apply ModelFamilyFacts.isThinkingModel_family in Hthinking.
    destruct (Constants.getModelFamily _); [| |done]; split; eauto.
  - split; [by intros [? ?] | done].
Qed.


(** ** Function-call ids *)

Module CallIdFacts.
Import Native Gemini CallIdSpec.

Lemma fill_app supply k g1 g2 :
  fill supply k (g1 ++ g2) =
  fill supply k g1 ++ fill supply (fill_next supply k g1) g2.
Proof.
  revert k. induction g1 as [|id g1 IH]; intros k; [done|].
  cbn [fill fill_next app]. destruct (JS.truthy id).
  - by rewrite IH.
  - destruct (supply k); by rewrite IH.
Qed.

Lemma fill_next_app supply k g1 g2 :
  fill_next supply k (g1 ++ g2) =
  fill_next supply (fill_next supply k g1) g2.
Proof.
  revert k. induction g1 as [|id g1 IH]; intros k; [done|].
  cbn [fill_next app]. destruct (JS.truthy id); [done|].
  by destruct (supply k).
Qed.

Lemma user_not_model c : has_role "user" c = true -> has_role "model" c = false.
Proof.
  unfold has_role. destruct (role c) as [r|]; [|done].
  rewrite !StringFacts.eq_decide. intros ->%bool_decide_eq_true_1. done.
Qed.

Lemma turn_parts_cons r c cs :
  turn_parts r (c :: cs) =
  (if has_role r c then default [] (parts c) else []) ++ turn_parts r cs.
Proof. reflexivity. Qed.

Section Collect.
Variable generateFunctionCallId : nat -> string.

Let supply := fun k => Some (generateFunctionCallId k).

(** The first pass over the parts of one model turn. *)
Lemma collect_parts_spec ps k ids :
  let given := fc_id <$> omap functionCall ps in
  let result := collect_call_ids_parts generateFunctionCallId (k, ids) ps in
  fc_id <$> omap functionCall (snd result) = fill supply k given /\
  fst (fst result) = fill_next supply k given /\
  snd (fst result) = ids ++ omap fc_id (omap functionCall (snd result)) /\
  part_without_ids <$> snd result = part_without_ids <$> ps /\
  omap functionResponse (snd result) = omap functionResponse ps.
Proof.
  revert k ids. induction ps as [|p ps IH]; intros k ids.
  - simpl. by rewrite app_nil_r.
  - cbn [collect_call_ids_parts]. unfold collect_call_id.
    destruct (functionCall p) as [fc|] eqn:Hfc.
    + destruct (fc_id fc) as [[|a id]|] eqn:Hid.
      * specialize (IH (S k) (ids ++ [generateFunctionCallId k])).
        destruct (collect_call_ids_parts _ _ ps) as [[k' ids'] ps'].
        cbn [fst snd] in *. destruct IH as (H1 & H2 & H3 & H4 & H5).
        unfold set_call_id. rewrite Hfc.
        cbn [omap list_omap functionCall functionResponse fmap list_fmap
             fc_id fill fill_next]. rewrite Hfc.
        cbn [omap list_omap functionCall functionResponse fmap list_fmap
             option_fmap option_map fc_id fill fill_next].
        rewrite Hid. cbn [JS.truthy]. subst supply. cbn beta.
        repeat split.
        -- by f_equal.
        -- done.
        -- rewrite H3, <- app_assoc. done.
        -- f_equal; [|done]. unfold part_without_ids. simpl. by rewrite Hfc.
        -- by rewrite H5.
      * specialize (IH k (ids ++ [String a id])).
        destruct (collect_call_ids_parts _ _ ps) as [[k' ids'] ps'].
        cbn [fst snd] in *. destruct IH as (H1 & H2 & H3 & H4 & H5).
        cbn [omap list_omap fmap list_fmap fill fill_next]. rewrite Hfc.
        cbn [fmap list_fmap fill fill_next]. rewrite Hid. cbn [JS.truthy].
        repeat split.
        -- by f_equal.
        -- done.
        -- cbn [omap list_omap]. rewrite Hid, H3, <- app_assoc. done.
        -- by f_equal.
        -- by rewrite H5.
      * specialize (IH (S k) (ids ++ [generateFunctionCallId k])).
        destruct (collect_call_ids_parts _ _ ps) as [[k' ids'] ps'].
        cbn [fst snd] in *. destruct IH as (H1 & H2 & H3 & H4 & H5).
        unfold set_call_id. rewrite Hfc.
        cbn [omap list_omap functionCall functionResponse fmap list_fmap
             fc_id fill fill_next]. rewrite Hfc.
        cbn [omap list_omap functionCall functionResponse fmap list_fmap
             option_fmap option_map fc_id fill fill_next].
        rewrite Hid. cbn [JS.truthy]. subst supply. cbn beta.
        repeat split.
        -- by f_equal.
        -- done.
        -- rewrite H3, <- app_assoc. done.
        -- f_equal; [|done]. unfold part_without_ids. simpl. by rewrite Hfc.
        -- by rewrite H5.
    + specialize (IH k ids).
      destruct (collect_call_ids_parts _ _ ps) as [[k' ids'] ps'].
      cbn [fst snd] in *. destruct IH as (H1 & H2 & H3 & H4 & H5).
      cbn [omap list_omap fmap list_fmap]. rewrite Hfc.
      repeat split; try done.
      * by f_equal.
      * by rewrite H5.
Qed.

(** The first pass over the conversation. *)
Lemma collect_spec cs k ids :
  let given := fc_id <$> calls cs in
  let result := collect_call_ids generateFunctionCallId (k, ids) cs in
  fc_id <$> calls (snd result) = fill supply k given /\
  fst (fst result) = fill_next supply k given /\
  snd (fst result) = ids ++ omap fc_id (calls (snd result)) /\
  without_ids (snd result) = without_ids cs /\
  responses (snd result) = responses cs.
Proof.
  revert k ids. induction cs as [|c cs IH]; intros k ids.
  - simpl. by rewrite app_nil_r.
  - cbn [collect_call_ids]. unfold calls, responses in *.
    destruct (has_role "model" c) eqn:Hmodel;
      [destruct (parts c) as [ps|] eqn:Hps|].
    + pose proof (collect_parts_spec ps k ids) as Hparts. cbn zeta in Hparts.
      destruct (collect_call_ids_parts _ _ ps) as [[k1 ids1] ps'].
      cbn [fst snd] in Hparts. destruct Hparts as (P1 & P2 & P3 & P4 & P5).
      specialize (IH k1 ids1). cbn zeta in IH.
      destruct (collect_call_ids _ _ cs) as [[k2 ids2] cs'].
      cbn [fst snd] in *. destruct IH as (H1 & H2 & H3 & H4 & H5).
      rewrite !turn_parts_cons. cbn [role parts]. unfold has_role in *.
      cbn [role]. rewrite Hmodel, Hps. cbn [default from_option id].
      rewrite !omap_app, !fmap_app, fill_app, fill_next_app.
      rewrite P1, <- P2, H1, H2, H3, P3, <- app_assoc.
      repeat split; try done.
      * unfold without_ids in *. rewrite !fmap_cons, H4. f_equal.
        unfold content_without_ids. cbn [role parts]. by rewrite Hps, P4.
      * f_equal; [|done]. destruct (match role c with
                                    | Some r' => JS.eq r' "user"
                                    | None => false end); [done|done].
    + specialize (IH k ids). cbn zeta in IH.
      destruct (collect_call_ids _ _ cs) as [[k2 ids2] cs'].
      cbn [fst snd] in *. destruct IH as (H1 & H2 & H3 & H4 & H5).
      rewrite !turn_parts_cons, Hmodel, Hps. cbn [default from_option id].
      cbn [app]. repeat split; try done.
      * unfold without_ids in *. by rewrite !fmap_cons, H4.
      * rewrite !omap_app. by f_equal.
    + specialize (IH k ids). cbn zeta in IH.
      destruct (collect_call_ids _ _ cs) as [[k2 ids2] cs'].
      cbn [fst snd] in *. destruct IH as (H1 & H2 & H3 & H4 & H5).
      rewrite !turn_parts_cons, Hmodel. cbn [app].
      repeat split; try done.
      * unfold without_ids in *. by rewrite !fmap_cons, H4.
      * rewrite !omap_app. by f_equal.
Qed.

End Collect.

Section Assign.
Variable ids : list string.

Let supply := fun j => ids !! j.

(** The second pass over the parts of one user turn. *)
Lemma assign_parts_spec ps i :
  let given := fr_id <$> omap functionResponse ps in
  let result := assign_response_ids_parts ids i ps in
  fr_id <$> omap functionResponse (snd result) = fill supply i given /\
  fst result = fill_next supply i given /\
  part_without_ids <$> snd result = part_without_ids <$> ps /\
  omap functionCall (snd result) = omap functionCall ps.
Proof.
  revert i. induction ps as [|p ps IH]; intros i; [done|].
  cbn [assign_response_ids_parts]. unfold assign_response_id.
  cbn [omap list_omap fmap list_fmap].
  destruct (functionResponse p) as [fr|] eqn:Hfr.
  - cbn [fmap list_fmap fill fill_next].
    destruct (JS.truthy (fr_id fr)) eqn:Hid.
    + specialize (IH i). cbn zeta in IH.
      destruct (assign_response_ids_parts ids i ps) as [i' ps'].
      cbn [fst snd omap list_omap fmap list_fmap] in *.
      destruct IH as (H1 & H2 & H3 & H4). rewrite Hfr.
      cbn [fmap list_fmap]. repeat split; try done; try (by f_equal); by rewrite H4.
    + subst supply. cbn beta. destruct (ids !! i) as [id|] eqn:Hi.
      * specialize (IH (S i)). cbn zeta in IH.
        destruct (assign_response_ids_parts ids (S i) ps) as [i' ps'].
        cbn [fst snd omap list_omap fmap list_fmap] in *.
        destruct IH as (H1 & H2 & H3 & H4).
        unfold set_response_id. rewrite Hfr.
        cbn [functionResponse functionCall fmap list_fmap fr_id].
        repeat split; try done.
        -- by f_equal.
        -- f_equal; [|done]. unfold part_without_ids. simpl. by rewrite Hfr.
        -- by rewrite H4.
      * specialize (IH i). cbn zeta in IH.
        destruct (assign_response_ids_parts ids i ps) as [i' ps'].
        cbn [fst snd omap list_omap fmap list_fmap] in *.
        destruct IH as (H1 & H2 & H3 & H4). rewrite Hfr.
        cbn [fmap list_fmap]. repeat split; try done; try (by f_equal); by rewrite H4.
  - specialize (IH i). cbn zeta in IH.
    destruct (assign_response_ids_parts ids i ps) as [i' ps'].
    cbn [fst snd omap list_omap fmap list_fmap] in *.
    destruct IH as (H1 & H2 & H3 & H4). rewrite Hfr.
    repeat split; try done; try (by f_equal); by rewrite H4.
Qed.

(** The second pass over the conversation. *)
Lemma assign_spec cs i :
  let given := fr_id <$> responses cs in
  let result := assign_response_ids ids i cs in
  fr_id <$> responses result = fill supply i given /\
  without_ids result = without_ids cs /\
  calls result = calls cs.
Proof.
  revert i. induction cs as [|c cs IH]; intros i; [done|].
  cbn [assign_response_ids]. unfold calls, responses in *.
  destruct (has_role "user" c) eqn:Huser;
    [destruct (parts c) as [ps|] eqn:Hps|].
  - pose proof (assign_parts_spec ps i) as Hparts. cbn zeta in Hparts.
    destruct (assign_response_ids_parts ids i ps) as [i1 ps'].
    cbn [fst snd] in Hparts. destruct Hparts as (P1 & P2 & P3 & P4).
    specialize (IH i1). cbn zeta in IH. destruct IH as (H1 & H2 & H3).
    rewrite !turn_parts_cons. cbn [role parts]. unfold has_role in *.
    cbn [role]. rewrite Huser, Hps. cbn [default from_option id].
    rewrite !omap_app, !fmap_app, fill_app.
    rewrite P1, <- P2, H1, H3.
    repeat split; try done.
    + unfold without_ids in *. rewrite !fmap_cons, H2. f_equal.
      unfold content_without_ids. cbn [role parts]. by rewrite Hps, P3.
    + f_equal. destruct (match role c with
                         | Some r' => JS.eq r' "model"
                         | None => false end); [done|done].
  - specialize (IH i). cbn zeta in IH. destruct IH as (H1 & H2 & H3).
    rewrite !turn_parts_cons, Huser, Hps. cbn [default from_option id app].
    repeat split; try done.
    + unfold without_ids in *. by rewrite !fmap_cons, H2.
    + rewrite !omap_app. by f_equal.
  - specialize (IH i). cbn zeta in IH. destruct IH as (H1 & H2 & H3).
    rewrite !turn_parts_cons, Huser. cbn [app].
    repeat split; try done.
    + unfold without_ids in *. by rewrite !fmap_cons, H2.
    + rewrite !omap_app. by f_equal.
Qed.

End Assign.

(** Both passes together. *)
Lemma processFunctionCallIds_spec generateFunctionCallId cs :
  let out := processFunctionCallIds generateFunctionCallId cs in
  fc_id <$> calls out =
    fill (fun k => Some (generateFunctionCallId k)) 0 (fc_id <$> calls cs) /\
  fr_id <$> responses out =
    fill (fun j => omap fc_id (calls out) !! j) 0 (fr_id <$> responses cs) /\
  without_ids out = without_ids cs.
Proof.
  unfold processFunctionCallIds.
  pose proof (collect_spec generateFunctionCallId cs 0 []) as Hc.
  cbn zeta in Hc.
  destruct (collect_call_ids _ _ cs) as [[k ids] cs1]. cbn [fst snd] in Hc.
  destruct Hc as (C1 & _ & C3 & C4 & C5). rewrite app_nil_l in C3.
  pose proof (assign_spec ids cs1 0) as Ha. cbn zeta in Ha.
  destruct Ha as (A1 & A2 & A3).
  cbn zeta. rewrite A3, A1, A2, C1, C4, C5, <- C3. done.
Qed.

Lemma fill_keeps supply k given :
  Forall2 (fun a b => JS.truthy a = true -> b = a) given (fill supply k given).
Proof.
  revert k. induction given as [|id given IH]; intros k; [constructor|].
  cbn [fill]. destruct (JS.truthy id) eqn:Hid.
  - by constructor.
  - destruct (supply k); constructor; try done; by rewrite Hid.
Qed.

Lemma fill_identified (generate : nat -> string) k given :
  (forall j, generate j <> "") ->
  Forall (fun id => JS.truthy id = true)
    (fill (fun j => Some (generate j)) k given).
Proof.
  intros Hgen. revert k. induction given as [|id given IH]; intros k;
    [constructor|].
  cbn [fill]. destruct (JS.truthy id) eqn:Hid; constructor; try done.
  specialize (Hgen k). by destruct (generate k).
Qed.

End CallIdFacts.

(** [X11] After [processFunctionCallIds] every function call of a model
    turn has an id, provided the generator never returns the empty string:
    a call that came with an id keeps it, and the calls that came without
    one take the generated ids in the order in which they appear. *)
Theorem function_calls_get_ids
    (generateFunctionCallId : nat -> string) (contents : list Native.Content) :
  (forall k, generateFunctionCallId k <> "") ->
  let out := Gemini.processFunctionCallIds generateFunctionCallId contents in
  Forall (fun fc => JS.truthy (Native.fc_id fc) = true) (CallIdSpec.calls out) /\
  Native.fc_id <$> CallIdSpec.calls out =
  CallIdSpec.fill (fun k => Some (generateFunctionCallId k)) 0
    (Native.fc_id <$> CallIdSpec.calls contents).
Proof.
  intros Hgen out.
  destruct (CallIdFacts.processFunctionCallIds_spec generateFunctionCallId
              contents) as (Hcalls & _ & _).
  fold out in Hcalls. split; [|done].
  apply (proj1 (Forall_fmap Native.fc_id (fun id => JS.truthy id = true) _)).
  rewrite Hcalls. by apply CallIdFacts.fill_identified.
Qed.

Lemma function_calls_get_ids_witness :
  let out :=
    Gemini.processFunctionCallIds ToolRoundExample.generate
      ToolRoundExample.conversation in
  Forall (fun fc => JS.truthy (Native.fc_id fc) = true) (CallIdSpec.calls out) /\
  Native.fc_id <$> CallIdSpec.calls out =
  CallIdSpec.fill (fun k => Some (ToolRoundExample.generate k)) 0
    (Native.fc_id <$> CallIdSpec.calls ToolRoundExample.conversation).
Proof.
  apply (function_calls_get_ids ToolRoundExample.generate
           ToolRoundExample.conversation).
  intros k. discriminate.
Defined.

(** [X12] [processFunctionCallIds] changes nothing but ids: with the ids
    left out, the conversation is the one that came in; and an id that a
    call or a response came with is never replaced. *)
Theorem function_call_ids_change_nothing_else
    (generateFunctionCallId : nat -> string) (contents : list Native.Content) :
  let out := Gemini.processFunctionCallIds generateFunctionCallId contents in
  CallIdSpec.without_ids out = CallIdSpec.without_ids contents /\
  Forall2 (fun given id => JS.truthy given = true -> id = given)
    (Native.fc_id <$> CallIdSpec.calls contents)
    (Native.fc_id <$> CallIdSpec.calls out) /\
  Forall2 (fun given id => JS.truthy given = true -> id = given)
    (Native.fr_id <$> CallIdSpec.responses contents)
    (Native.fr_id <$> CallIdSpec.responses out).
Proof.
  intros out.
  destruct (CallIdFacts.processFunctionCallIds_spec generateFunctionCallId
              contents) as (Hcalls & Hresponses & Hshape).
  fold out in Hcalls, Hresponses, Hshape.
  split; [done|]. rewrite Hcalls, Hresponses.
  split; apply CallIdFacts.fill_keeps.
Qed.

(** [X13] [processFunctionCallIds] pairs responses with calls by
    position: the function responses of the user turns that came without
    an id take the ids of the function calls of the model turns, the first
    such response the id of the first call, and so on until the calls run
    out; a response that came with an id is skipped and uses up no call. *)
Theorem function_responses_take_call_ids
    (generateFunctionCallId : nat -> string) (contents : list Native.Content) :
  let out := Gemini.processFunctionCallIds generateFunctionCallId contents in
  Native.fr_id <$> CallIdSpec.responses out =
  CallIdSpec.fill
    (fun j => omap Native.fc_id (CallIdSpec.calls out) !! j) 0
    (Native.fr_id <$> CallIdSpec.responses contents).
Proof.
  intros out.
  by destruct (CallIdFacts.processFunctionCallIds_spec generateFunctionCallId
                 contents) as (_ & Hresponses & _).
Qed.

Module CallIdExamples.

Example tool_round_ids :
  let out :=
    Gemini.processFunctionCallIds ToolRoundExample.generate
      ToolRoundExample.conversation in
  Native.fc_id <$> CallIdSpec.calls out = [Some "call_a"; Some "call_7"] /\
  Native.fr_id <$> CallIdSpec.responses out = [Some "call_a"; Some "call_7"].
Proof. split; reflexivity. Qed.

End CallIdExamples.

(** ** The non-streaming route, for any stream *)

Module MergeFacts.
Import StringFacts Native OpenAIResponse MergeSpec AccumulateSpec.

Lemma add_reasoning_nil a : add_reasoning "" a = a.
Proof. destruct a. unfold add_reasoning. simpl. by rewrite app_nil_r. Qed.

Lemma add_text_nil a : add_text "" a = a.
Proof. destruct a. unfold add_text. simpl. by rewrite app_nil_r. Qed.

Section Convert.
Variable sha256_hex : string -> string.
Variable now : Z.
Variables originalModel sessionId : string.
Variable init : acc.

Let step := convert_part sha256_hex now originalModel sessionId.
Let read (st : accum) : acc := foldl step init (finalParts st).

Lemma step_thought a p :
  thought p = true -> step a p = add_reasoning (default "" (text p)) a.
Proof. intros H. subst step. unfold convert_part. by rewrite H. Qed.

Lemma step_text a p :
  thought p = false -> functionCall p = None ->
  step a p = add_text (default "" (text p)) a.
Proof.
  intros H1 H2. subst step. unfold convert_part. rewrite H1, H2.
  destruct (text p); [done|]. simpl. by rewrite add_text_nil.
Qed.

Lemma read_flushThinking st :
  read (flushThinking st) = add_reasoning (accumulatedThinkingText st) (read st) /\
  accumulatedThinkingText (flushThinking st) = "" /\
  accumulatedText (flushThinking st) = accumulatedText st.
Proof.
  subst read. unfold flushThinking.
  destruct (accumulatedThinkingText st) as [|a t] eqn:Ht.
  - by rewrite add_reasoning_nil.
  - cbn [finalParts accumulatedThinkingText accumulatedText].
    by rewrite foldl_app.
Qed.

Lemma read_flushText st :
  read (flushText st) = add_text (accumulatedText st) (read st) /\
  accumulatedText (flushText st) = "" /\
  accumulatedThinkingText (flushText st) = accumulatedThinkingText st.
Proof.
  subst read. unfold flushText.
  destruct (accumulatedText st) as [|a t] eqn:Ht.
  - by rewrite add_text_nil.
  - cbn [finalParts accumulatedThinkingText accumulatedText].
    by rewrite foldl_app.
Qed.

(** Flushing at the end hands over exactly what is pending. *)
Lemma read_flush st :
  read (flushText (flushThinking st)) = pending step init st.
Proof.
  destruct (read_flushText (flushThinking st)) as (-> & _ & _).
  by destruct (read_flushThinking st) as (-> & _ & ->).
Qed.

(** One part more in the stream is one part more for the converter. *)
Lemma pending_accumulate_part st p :
  pending step init (accumulate_part st p) = step (pending step init st) p.
Proof.
  unfold accumulate_part.
  destruct (thought p) eqn:Hthought.
  - rewrite step_thought by done. unfold pending.
    cbn [finalParts accumulatedThinkingText accumulatedText].
    destruct (read_flushText st) as (Hread & -> & ->).
    fold (read (flushText st)). rewrite Hread. fold (read st).
    destruct (read st). unfold add_text, add_reasoning. simpl.
    by rewrite app_nil_r, app_assoc.
  - destruct (functionCall p) as [fc|] eqn:Hcall.
    + unfold pending at 1.
      cbn [finalParts accumulatedThinkingText accumulatedText].
      destruct (read_flushText (flushThinking st)) as (_ & -> & ->).
      destruct (read_flushThinking st) as (_ & -> & _).
      rewrite add_reasoning_nil, add_text_nil, foldl_app. cbn [foldl].
      fold (read (flushText (flushThinking st))). by rewrite read_flush.
    + rewrite step_text by done.
      destruct (text p) as [[|a t]|] eqn:Htext.
      * by rewrite add_text_nil.
      * unfold pending.
        cbn [finalParts accumulatedThinkingText accumulatedText default
             from_option id].
        destruct (read_flushThinking st) as (Hread & -> & ->).
        fold (read (flushThinking st)). rewrite Hread. fold (read st).
        destruct (read st). unfold add_text, add_reasoning. simpl.
        by rewrite app_nil_r, app_assoc.
      * by rewrite add_text_nil.
Qed.

Lemma pending_accumulate_parts st ps :
  pending step init (foldl accumulate_part st ps) =
  foldl step (pending step init st) ps.
Proof.
  revert st. induction ps as [|p ps IH]; intros st; [done|].
  cbn [foldl]. by rewrite IH, pending_accumulate_part.
Qed.

End Convert.

(** Converting what was accumulated is converting the parts. *)
Lemma convert_accumulated sha256_hex now originalModel sessionId c u f ps :
  convert_parts sha256_hex now originalModel sessionId c
    (finalParts
       (flushText (flushThinking
          (with_meta u f (foldl accumulate_part accum_init ps))))) =
  convert_parts sha256_hex now originalModel sessionId c ps.
Proof.
  rewrite AccumulateFacts.flushThinking_with_meta,
    AccumulateFacts.flushText_with_meta.
  cbn [with_meta finalParts]. unfold convert_parts.
  by rewrite read_flush, pending_accumulate_parts.
Qed.

Lemma flush_with_meta u f st :
  flushText (flushThinking (with_meta u f st)) =
  with_meta u f (flushText (flushThinking st)).
Proof.
  by rewrite AccumulateFacts.flushThinking_with_meta,
    AccumulateFacts.flushText_with_meta.
Qed.

End MergeFacts.

(** [X14] The non-streaming route for thinking models loses nothing that
    the converter reads: for every upstream body, cut into reads in any
    way, accumulating the stream and converting the result gives the very
    response, and leaves the very caches, that [convertGoogleToOpenAI]
    gives for one response carrying all the parts of the stream in order,
    with the last finish reason and the last usage reported. *)
Theorem accumulated_stream_converts_as_one_response
    (sha256_hex : string -> string) (now : Z) (random_hex : string)
    (JSON_parse : string -> option Native.SSEData)
    (originalModel sessionId : string) (body : list string) (c : caches) :
  OpenAIResponse.chat_completion_thinking sha256_hex now random_hex JSON_parse
    originalModel sessionId body c =
  OpenAIResponse.convertGoogleToOpenAI sha256_hex now random_hex
    originalModel sessionId (MergeSpec.merged JSON_parse body) c.
Proof.
  unfold OpenAIResponse.chat_completion_thinking,
    OpenAIResponse.accumulateSSEResponse.
  rewrite AccumulateFacts.accumulate_body, MergeFacts.flush_with_meta.
  set (u := AccumulateSpec.usage_after _ _).
  set (f := AccumulateSpec.reason_after _ _).
  set (st := foldl _ OpenAIResponse.accum_init _).
  unfold OpenAIResponse.convertGoogleToOpenAI, MergeSpec.merged.
  cbn [Native.first_candidate Native.candidates Native.candidate_parts
       Native.content Native.parts Native.usageMetadata Native.finishReason
       default from_option id AccumulateSpec.with_meta
       OpenAIResponse.finalParts OpenAIResponse.acc_usageMetadata
       OpenAIResponse.acc_finishReason].
  fold u f.
  assert (Hparts :
    OpenAIResponse.convert_parts sha256_hex now originalModel sessionId c
      (OpenAIResponse.finalParts
         (OpenAIResponse.flushText (OpenAIResponse.flushThinking st))) =
    OpenAIResponse.convert_parts sha256_hex now originalModel sessionId c
      (SSESpec.carried_parts JSON_parse body)).
  { unfold OpenAIResponse.convert_parts.
    rewrite MergeFacts.read_flush. subst st.
    rewrite MergeFacts.pending_accumulate_parts. reflexivity. }
  rewrite Hparts. reflexivity.
Qed.

(** [X15] Neither reader of the upstream body depends on how the body is
    cut into reads: two bodies that are the same text give the same
    chunks and caches from [streamGoogleToOpenAI] and the same response
    from [accumulateSSEResponse]. *)
Theorem sse_readers_ignore_read_boundaries
    (sha256_hex : string -> string) (now : Z) (random_hex : string)
    (JSON_parse : string -> option Native.SSEData)
    (originalModel sessionId : string) (body1 body2 : list string)
    (c : caches) :
  SSESpec.body_text body1 = SSESpec.body_text body2 ->
  OpenAIResponse.streamGoogleToOpenAI sha256_hex now random_hex JSON_parse
    originalModel sessionId body1 c =
  OpenAIResponse.streamGoogleToOpenAI sha256_hex now random_hex JSON_parse
    originalModel sessionId body2 c /\
  OpenAIResponse.accumulateSSEResponse JSON_parse body1 =
  OpenAIResponse.accumulateSSEResponse JSON_parse body2.
Proof.
  intros Htext.
  assert (Hlines : SSESpec.body_lines body1 = SSESpec.body_lines body2)
    by (unfold SSESpec.body_lines; by rewrite Htext).
  split.
  - unfold OpenAIResponse.streamGoogleToOpenAI.
    change (OpenAIResponse.stream_read sha256_hex now random_hex JSON_parse
              originalModel sessionId)
      with (SSESpec.read
              (OpenAIResponse.stream_line sha256_hex now random_hex JSON_parse
                 originalModel sessionId)).
    by rewrite !ReadFacts.read_body, Hlines.
  - unfold OpenAIResponse.accumulateSSEResponse.
    change (OpenAIResponse.accumulate_read JSON_parse)
      with (SSESpec.read (OpenAIResponse.accumulate_line JSON_parse)).
    by rewrite !ReadFacts.read_body, Hlines.
Qed.

Lemma sse_readers_ignore_read_boundaries_witness :
  let whole := [SSESpec.body_text ThinkingExample.body] in
  OpenAIResponse.streamGoogleToOpenAI (fun s => s) 0 "00" ThinkingExample.parse
    "gemini-2.5-pro-thinking" "session" ThinkingExample.body
    {| toolNameMap := []; signatureCache := ∅ |} =
  OpenAIResponse.streamGoogleToOpenAI (fun s => s) 0 "00" ThinkingExample.parse
    "gemini-2.5-pro-thinking" "session" whole
    {| toolNameMap := []; signatureCache := ∅ |} /\
  OpenAIResponse.accumulateSSEResponse ThinkingExample.parse ThinkingExample.body =
  OpenAIResponse.accumulateSSEResponse ThinkingExample.parse whole.
Proof.
  apply (sse_readers_ignore_read_boundaries (fun s => s) 0 "00"
           ThinkingExample.parse "gemini-2.5-pro-thinking" "session"
           ThinkingExample.body [SSESpec.body_text ThinkingExample.body]
           {| toolNameMap := []; signatureCache := ∅ |}).
  vm_compute. reflexivity.
Defined.

(** ** The OpenAI stream, part by part *)

Module StreamContentFacts.
Import StringFacts Native OpenAI OpenAIResponse StreamContentSpec.

Lemma with_index_snoc calls call :
  with_index (calls ++ [call]) =
  with_index calls ++ [set_index (length calls) call].
Proof. unfold with_index. rewrite imap_app. simpl. by rewrite Nat.add_0_r. Qed.

Lemma length_with_index calls : length (with_index calls) = length calls.
Proof. apply length_imap. Qed.

Section Stream.
Variable sha256_hex : string -> string.
Variable now : Z.
Variable random_hex : string.
Variable JSON_parse : string -> option SSEData.
Variables originalModel sessionId : string.

Let part_step := stream_part sha256_hex now random_hex originalModel sessionId.
Let data_step := stream_data sha256_hex now random_hex originalModel sessionId.
Let line_step :=
  stream_line sha256_hex now random_hex JSON_parse originalModel sessionId.
Let convert_step := convert_part sha256_hex now originalModel sessionId.
Let chunk_with (delta : Delta) : StreamChunk :=
  createStreamChunk now (completionId random_hex) originalModel delta None None.
Let deltas (ps : list Part) : list StreamChunk :=
  omap (fun part => chunk_with <$> part_delta part) ps.
Let held (a : acc) (ps : list Part) : acc :=
  foldl convert_step a (List.filter is_streamed_call ps).

(** What one part does to the chunks yielded, to the flag and to the
    calls held back. *)
Lemma stream_part_yielded st p :
  yielded (part_step st p) =
  yielded st ++ option_list (chunk_with <$> part_delta p).
Proof.
  subst part_step. unfold stream_part, part_delta.
  destruct (thought p).
  - cbn [yielded]. destruct (default "" (text p)); simpl.
    + by rewrite List.app_nil_r.
    + done.
  - destruct (text p) as [[|a t]|], (functionCall p) as [fc|];
      try (simpl; by rewrite ?List.app_nil_r).
    + destruct (restore_name _ _ _ _ _). simpl. by rewrite List.app_nil_r.
    + destruct (restore_name _ _ _ _ _). simpl. by rewrite List.app_nil_r.
Qed.

Lemma stream_part_started st p :
  hasEmittedStart (part_step st p) = hasEmittedStart st.
Proof.
  subst part_step. unfold stream_part.
  destruct (thought p); [done|].
  destruct (text p) as [[|a t]|], (functionCall p) as [fc|]; try done;
    by destruct (restore_name _ _ _ _ _).
Qed.

Lemma stream_part_calls st a p :
  same_calls st a ->
  same_calls (part_step st p)
    (if is_streamed_call p then convert_step a p else a).
Proof.
  intros [Hcalls Hcaches]. subst part_step convert_step.
  unfold stream_part, convert_part, is_streamed_call.
  destruct (thought p); [done|]. cbn [negb andb].
  destruct (text p) as [[|b t]|], (functionCall p) as [fc|]; try done;
    cbn [JS.truthy negb andb].
  - rewrite Hcaches. destruct (restore_name _ _ _ _ _) as [name names].
    split; cbn [pendingToolCalls st_caches toolCalls acc_caches]; [|done].
    rewrite with_index_snoc, Hcalls, length_with_index. done.
  - rewrite Hcaches. destruct (restore_name _ _ _ _ _) as [name names].
    split; cbn [pendingToolCalls st_caches toolCalls acc_caches]; [|done].
    rewrite with_index_snoc, Hcalls, length_with_index. done.
Qed.

Lemma stream_parts_yielded ps st :
  yielded (foldl part_step st ps) = yielded st ++ deltas ps.
Proof.
  revert st. induction ps as [|p ps IH]; intros st.
  - simpl. by rewrite List.app_nil_r.
  - cbn [foldl]. rewrite IH, stream_part_yielded, <- List.app_assoc. f_equal.
    subst deltas. cbn [omap list_omap].
    by destruct (chunk_with <$> part_delta p).
Qed.

Lemma stream_parts_started ps st :
  hasEmittedStart (foldl part_step st ps) = hasEmittedStart st.
Proof.
  revert st. induction ps as [|p ps IH]; intros st; [done|].
  cbn [foldl]. by rewrite IH, stream_part_started.
Qed.

Lemma stream_parts_calls ps st a :
  same_calls st a -> same_calls (foldl part_step st ps) (held a ps).
Proof.
  revert st a. induction ps as [|p ps IH]; intros st a H; [done|].
  cbn [foldl]. subst held. cbn [List.filter].
  apply (stream_part_calls st a p) in H.
  destruct (is_streamed_call p); by apply IH.
Qed.

(** What one payload does. *)
Lemma stream_data_yielded st data :
  yielded (data_step st data) =
  yielded st ++
  (if negb (hasEmittedStart st) && negb (length (data_parts data) =? 0)%nat
   then [chunk_with (DeltaRole "assistant" "")] else []) ++
  deltas (data_parts data).
Proof.
  subst data_step. unfold stream_data. fold (data_parts data).
  set (start := negb _ && negb _).
  match goal with
  | |- yielded (if _ then _ else ?st') = _ =>
      assert (Hst : yielded st' =
                yielded st ++ (if start then [chunk_with (DeltaRole "assistant" "")]
                               else []) ++ deltas (data_parts data))
  end.
  { fold part_step. rewrite stream_parts_yielded. cbn [yielded].
    destruct start; [|done]. unfold yield. by rewrite <- List.app_assoc. }
  by destruct (JS.truthy _).
Qed.

Lemma stream_data_started st data :
  hasEmittedStart (data_step st data) =
  hasEmittedStart st ||
  negb (hasEmittedStart st) && negb (length (data_parts data) =? 0)%nat.
Proof.
  subst data_step. unfold stream_data. fold (data_parts data).
  set (start := negb _ && negb _).
  match goal with
  | |- hasEmittedStart (if _ then _ else ?st') = _ =>
      assert (Hst : hasEmittedStart st' = hasEmittedStart st || start)
  end.
  { fold part_step. by rewrite stream_parts_started. }
  by destruct (JS.truthy _).
Qed.

Lemma stream_data_calls st a data :
  same_calls st a -> same_calls (data_step st data) (held a (data_parts data)).
Proof.
  intros H. subst data_step. unfold stream_data. fold (data_parts data).
  set (start := negb _ && negb _).
  match goal with
  | |- same_calls (if _ then _ else ?st') _ =>
      assert (Hst : same_calls st' (held a (data_parts data)))
  end.
  { fold part_step. by apply stream_parts_calls. }
  by destruct (JS.truthy _).
Qed.

Lemma deltas_app ps1 ps2 : deltas (ps1 ++ ps2) = deltas ps1 ++ deltas ps2.
Proof. subst deltas. cbn beta. by rewrite omap_app. Qed.

Lemma stream_data_follows c st data sofar :
  follows chunk_with convert_step c st sofar ->
  follows chunk_with convert_step c (data_step st data)
    (sofar ++ data_parts data).
Proof.
  intros (Hyielded & Hstarted & Hcalls).
  pose proof (stream_data_yielded st data) as Hy.
  pose proof (stream_data_started st data) as Hs.
  apply (stream_data_calls st _ data) in Hcalls.
  rewrite Hyielded, Hstarted in Hy. rewrite Hstarted in Hs.
  unfold follows. rewrite List.filter_app, foldl_app.
  split; [|split]; [| |exact Hcalls].
  - rewrite Hy. destruct (data_parts data) as [|p ps].
    + simpl. rewrite !List.app_nil_r. destruct sofar; simpl;
        by rewrite ?List.app_nil_r.
    + destruct sofar as [|q sofar]; [done|].
      unfold streamed. cbn [negb andb app].
      f_equal. change (q :: sofar ++ p :: ps) with ((q :: sofar) ++ p :: ps).
      by rewrite omap_app.
  - rewrite Hs. destruct sofar, (data_parts data); done.
Qed.

Lemma stream_datas_follows c ds st sofar :
  follows chunk_with convert_step c st sofar ->
  follows chunk_with convert_step c (foldl data_step st ds)
    (sofar ++ (data ← ds; data_parts data)).
Proof.
  revert st sofar. induction ds as [|data ds IH]; intros st sofar H.
  - simpl. by rewrite List.app_nil_r.
  - cbn [foldl]. rewrite bind_cons, List.app_assoc.
    by apply IH, stream_data_follows.
Qed.

Lemma stream_lines st lines :
  foldl line_step st lines =
  foldl data_step st
    (omap (fun line => data_payload line ≫= JSON_parse) lines).
Proof.
  revert st. induction lines as [|line lines IH]; intros st; [done|].
  cbn [foldl omap list_omap]. subst line_step. unfold stream_line at 2.
  destruct (data_payload line) as [jsonText|]; simpl; [|apply IH].
  destruct (JSON_parse jsonText) as [data|]; simpl; apply IH.
Qed.

(** The generator at the end of the body. *)
Lemma stream_body_follows c body :
  follows chunk_with convert_step c
    (fst (foldl (stream_read sha256_hex now random_hex JSON_parse
                   originalModel sessionId) (stream_init c, "") body))
    (SSESpec.carried_parts JSON_parse body).
Proof.
  change (stream_read sha256_hex now random_hex JSON_parse
            originalModel sessionId)
    with (SSESpec.read line_step).
  rewrite ReadFacts.read_body, stream_lines.
  unfold SSESpec.carried_parts, SSESpec.payloads.
  set (ds := omap _ _).
  replace (r ← innerResponse <$> ds; candidate_parts (first_candidate r))
    with (data ← ds; data_parts data).
  - apply (stream_datas_follows c ds (stream_init c) []). by repeat split.
  - induction ds as [|d ds IH]; [done|].
    by rewrite fmap_cons, !bind_cons, IH.
Qed.

(** The chunks and the caches at the end. *)
Lemma stream_result c body :
  let carried := SSESpec.carried_parts JSON_parse body in
  let result :=
    streamGoogleToOpenAI sha256_hex now random_hex JSON_parse originalModel
      sessionId body c in
  let calls := toolCalls (held (convert_init c) carried) in
  exists final,
    fst result =
      streamed chunk_with carried ++
      match calls with
      | [] => []
      | _ => [chunk_with (DeltaToolCalls (with_index calls))]
      end ++ [final] /\
    chunk_delta final = Some DeltaEmpty /\
    sc_id final = completionId random_hex /\
    sc_model final = originalModel /\
    snd result = acc_caches (held (convert_init c) carried).
Proof.
  intros carried result calls. subst result.
  unfold streamGoogleToOpenAI. cbn [fst snd].
  destruct (stream_body_follows c body) as (Hyielded & _ & Hcalls & Hcaches).
  fold carried in Hyielded, Hcalls, Hcaches.
  fold (held (convert_init c) carried) in Hcalls, Hcaches.
  fold calls in Hcalls.
  eexists. split.
  - rewrite List.app_assoc. f_equal. rewrite Hcalls.
    destruct calls as [|call calls'].
    + simpl. by rewrite Hyielded, List.app_nil_r.
    + unfold yield. by rewrite Hyielded.
  - repeat split; [reflexivity.. | exact Hcaches].
Qed.

(** The finish reason the generator holds. *)
Lemma stream_part_finish st p :
  st_finishReason (part_step st p) =
  if is_streamed_call p then "tool_calls" else st_finishReason st.
Proof.
  subst part_step. unfold stream_part, is_streamed_call.
  destruct (thought p); [done|].
  destruct (text p) as [[|a t]|], (functionCall p) as [fc|]; try done;
    by destruct (restore_name _ _ _ _ _).
Qed.

Lemma stream_parts_finish ps st :
  st_finishReason (foldl part_step st ps) =
  if existsb is_streamed_call ps then "tool_calls" else st_finishReason st.
Proof.
  revert st. induction ps as [|p ps IH]; intros st; [done|].
  cbn [foldl existsb]. rewrite IH, stream_part_finish.
  destruct (is_streamed_call p); simpl; [|done].
  by destruct (existsb is_streamed_call ps).
Qed.

Lemma stream_data_finish st data :
  st_finishReason (data_step st data) =
  finish_after (st_finishReason st) (innerResponse data).
Proof.
  subst data_step. unfold stream_data, finish_after.
  destruct (JS.truthy _); [done|].
  fold part_step. by rewrite stream_parts_finish.
Qed.

Lemma stream_datas_finish ds st :
  st_finishReason (foldl data_step st ds) =
  foldl finish_after (st_finishReason st) (innerResponse <$> ds).
Proof.
  revert st. induction ds as [|d ds IH]; intros st; [done|].
  cbn [foldl fmap list_fmap]. by rewrite IH, stream_data_finish.
Qed.

Lemma stream_final_finish c body :
  final_finish_reason
    (fst (streamGoogleToOpenAI sha256_hex now random_hex JSON_parse
            originalModel sessionId body c)) =
  Some (foldl finish_after "stop" (SSESpec.payloads JSON_parse body)).
Proof.
  unfold final_finish_reason, streamGoogleToOpenAI. cbn [fst].
  rewrite last_snoc. cbn [mbind option_bind].
  unfold StreamSpec.chunk_finish_reason. cbn.
  change (stream_read sha256_hex now random_hex JSON_parse
            originalModel sessionId)
    with (SSESpec.read line_step).
  by rewrite ReadFacts.read_body, stream_lines, stream_datas_finish.
Qed.

Lemma finish_after_no_reason rs prev :
  Forall (fun r => JS.truthy (finishReason (first_candidate r)) = false) rs ->
  foldl finish_after prev rs =
  if existsb is_streamed_call
       (r ← rs; candidate_parts (first_candidate r))
  then "tool_calls" else prev.
Proof.
  intros H. revert prev. induction H as [|r rs Hr _ IH]; intros prev; [done|].
  cbn [foldl]. rewrite IH, bind_cons, existsb_app.
  unfold finish_after. rewrite Hr.
  destruct (existsb is_streamed_call (candidate_parts _)); simpl; [|done].
  by destruct (existsb _ _).
Qed.

End Stream.

End StreamContentFacts.

(** [X16] What [streamGoogleToOpenAI] yields, for every upstream body:
    if the stream carries no part at all, nothing before the final chunk;
    otherwise the chunk that announces the role, then one delta for each
    part with text, in the order of the stream (reasoning for a thought,
    content for any other part), then, if function calls were held back,
    one chunk listing them all, numbered from 0, and then the final chunk
    with an empty delta.  The calls listed and the caches left behind are
    those [convertGoogleToOpenAI] computes for the function-call parts
    taken alone. *)
Theorem stream_delivers_the_carried_parts
    (sha256_hex : string -> string) (now : Z) (random_hex : string)
    (JSON_parse : string -> option Native.SSEData)
    (originalModel sessionId : string) (body : list string) (c : caches) :
  let carried := SSESpec.carried_parts JSON_parse body in
  let chunk_with := fun delta =>
    OpenAIResponse.createStreamChunk now ("chatcmpl-" +:+ random_hex)
      originalModel delta None None in
  let held :=
    OpenAIResponse.convert_parts sha256_hex now originalModel sessionId c
      (List.filter StreamContentSpec.is_streamed_call carried) in
  let result :=
    OpenAIResponse.streamGoogleToOpenAI sha256_hex now random_hex JSON_parse
      originalModel sessionId body c in
  exists final,
    fst result =
      StreamContentSpec.streamed chunk_with carried ++
      match OpenAIResponse.toolCalls held with
      | [] => []
      | calls =>
          [chunk_with
             (OpenAI.DeltaToolCalls (StreamContentSpec.with_index calls))]
      end ++ [final] /\
    StreamContentSpec.chunk_delta final = Some OpenAI.DeltaEmpty /\
    OpenAI.sc_id final = "chatcmpl-" +:+ random_hex /\
    OpenAI.sc_model final = originalModel /\
    snd result = OpenAIResponse.acc_caches held.
Proof.
  intros carried chunk_with held result.
  destruct (StreamContentFacts.stream_result sha256_hex now random_hex
              JSON_parse originalModel sessionId c body)
    as (final & Hchunks & Hfinal). cbn zeta in Hchunks, Hfinal.
  exists final. split; [|exact Hfinal].
  subst result. rewrite Hchunks. subst held carried chunk_with.
  unfold OpenAIResponse.convert_parts. f_equal.
  by destruct (OpenAIResponse.toolCalls _).
Qed.

(** [X17] The finish reason of the final chunk of the stream.  When the
    last payload of the body reports a finish reason, it is the mapping of
    that reason, whatever came before, function calls included.  When no
    payload reports one, it is [tool_calls] if a function call was held
    back and [stop] otherwise. *)
Theorem stream_finish_reason
    (sha256_hex : string -> string) (now : Z) (random_hex : string)
    (JSON_parse : string -> option Native.SSEData)
    (originalModel sessionId : string) (body : list string) (c : caches) :
  let reported := fun r =>
    Native.finishReason (Native.first_candidate r) in
  let final :=
    StreamContentSpec.final_finish_reason
      (fst (OpenAIResponse.streamGoogleToOpenAI sha256_hex now random_hex
              JSON_parse originalModel sessionId body c)) in
  (forall before last,
     SSESpec.payloads JSON_parse body = before ++ [last] ->
     JS.truthy (reported last) = true ->
     final = Some (FinishReason.mapFinishReason (reported last))) /\
  (Forall (fun r => JS.truthy (reported r) = false)
     (SSESpec.payloads JSON_parse body) ->
   final =
   Some (if existsb StreamContentSpec.is_streamed_call
              (SSESpec.carried_parts JSON_parse body)
         then "tool_calls" else "stop")).
Proof.
  intros reported final. subst final.
  rewrite StreamContentFacts.stream_final_finish. split.
  - intros before last -> Hlast. rewrite foldl_app. cbn [foldl].
    unfold StreamContentSpec.finish_after. fold (reported last).
    by rewrite Hlast.
  - intros Hnone. by rewrite StreamContentFacts.finish_after_no_reason.
Qed.

(** ** Streaming and not streaming *)

Module AgreementFacts.
Import StringFacts Native OpenAI OpenAIResponse StreamContentSpec.

Lemma content_of_app l1 l2 :
  content_of (l1 ++ l2) = content_of l1 +:+ content_of l2.
Proof.
  unfold content_of. rewrite omap_app.
  induction (omap _ l1) as [|t ts IH]; simpl.
  - by rewrite app_nil_l.
  - change (String.append t ?x) with (t +:+ x). by rewrite IH, app_assoc.
Qed.

Lemma reasoning_of_app l1 l2 :
  reasoning_of (l1 ++ l2) = reasoning_of l1 +:+ reasoning_of l2.
Proof.
  unfold reasoning_of. rewrite omap_app.
  induction (omap _ l1) as [|t ts IH]; simpl.
  - by rewrite app_nil_l.
  - change (String.append t ?x) with (t +:+ x). by rewrite IH, app_assoc.
Qed.

Lemma calls_of_app l1 l2 : calls_of (l1 ++ l2) = calls_of l1 ++ calls_of l2.
Proof. unfold calls_of. by rewrite bind_app. Qed.

Section Agreement.
Variable sha256_hex : string -> string.
Variable now : Z.
Variable random_hex : string.
Variables originalModel sessionId : string.

Let step := convert_part sha256_hex now originalModel sessionId.
Let chunk_with (delta : Delta) : StreamChunk :=
  createStreamChunk now (completionId random_hex) originalModel delta None None.

(** The texts and the calls of the chunks streamed for some parts. *)
Lemma content_of_streamed ps :
  content_of (streamed chunk_with ps) =
  foldr String.append "" (omap part_content ps).
Proof.
  unfold streamed. destruct ps as [|q ps]; [done|].
  change (chunk_with (DeltaRole "assistant" "") :: ?l)
    with ([chunk_with (DeltaRole "assistant" "")] ++ l).
  rewrite content_of_app.
  change (content_of [chunk_with (DeltaRole "assistant" "")]) with "".
  rewrite app_nil_l. unfold content_of.
  induction (q :: ps) as [|p l IH]; [done|].
  cbn [omap list_omap]. unfold part_content in *.
  destruct (part_delta p) as [[]|]; cbn [fmap option_fmap option_map];
    cbn [omap list_omap foldr chunk_with chunk_delta createStreamChunk
         sc_choices head fmap option_fmap option_map cc_delta];
    by rewrite ?IH.
Qed.

Lemma reasoning_of_streamed ps :
  reasoning_of (streamed chunk_with ps) =
  foldr String.append "" (omap part_reasoning ps).
Proof.
  unfold streamed. destruct ps as [|q ps]; [done|].
  change (chunk_with (DeltaRole "assistant" "") :: ?l)
    with ([chunk_with (DeltaRole "assistant" "")] ++ l).
  rewrite reasoning_of_app.
  change (reasoning_of [chunk_with (DeltaRole "assistant" "")]) with "".
  rewrite app_nil_l. unfold reasoning_of.
  induction (q :: ps) as [|p l IH]; [done|].
  cbn [omap list_omap]. unfold part_reasoning in *.
  destruct (part_delta p) as [[]|]; cbn [fmap option_fmap option_map];
    cbn [omap list_omap foldr chunk_with chunk_delta createStreamChunk
         sc_choices head fmap option_fmap option_map cc_delta];
    by rewrite ?IH.
Qed.

Lemma part_delta_no_calls p :
  match part_delta p with
  | Some (DeltaToolCalls _) | Some (DeltaRole _ _) | Some DeltaEmpty => False
  | _ => True
  end.
Proof.
  unfold part_delta. destruct (thought p).
  - by destruct (default "" (text p)).
  - by destruct (text p) as [[|a t]|].
Qed.

Lemma calls_of_streamed ps : calls_of (streamed chunk_with ps) = [].
Proof.
  unfold streamed. destruct ps as [|q ps]; [done|].
  unfold calls_of. rewrite bind_cons. cbn [app].
  change (chunk_delta (chunk_with (DeltaRole "assistant" "")))
    with (Some (DeltaRole "assistant" "")). cbn [app].
  induction (q :: ps) as [|p l IH]; [done|].
  cbn [omap list_omap]. pose proof (part_delta_no_calls p) as Hp.
  destruct (part_delta p) as [[]|]; try done;
    cbn [fmap option_fmap option_map]; by rewrite bind_cons, IH.
Qed.

(** What [convertGoogleToOpenAI] reads from the same parts. *)
Lemma convert_content ps a :
  Forall call_without_text ps ->
  messageContent (foldl step a ps) =
  messageContent a +:+ foldr String.append "" (omap part_content ps).
Proof.
  intros H. revert a. induction H as [|p ps Hp _ IH]; intros a.
  - simpl. by rewrite app_nil_r.
  - cbn [foldl omap list_omap]. rewrite IH. clear IH.
    unfold call_without_text, is_call in Hp.
    subst step. unfold convert_part, part_content, part_delta.
    destruct (thought p).
    + cbn [messageContent]. by destruct (default "" (text p)).
    + cbn [negb andb] in Hp. destruct (functionCall p) as [fc|].
      * specialize (Hp eq_refl).
        destruct (restore_name _ _ _ _ _) as [name names].
        cbn [messageContent]. by destruct (text p) as [[|b t]|].
      * destruct (text p) as [[|b t]|]; cbn [messageContent foldr];
          by rewrite ?app_nil_r, ?app_assoc.
Qed.

Lemma convert_reasoning ps a :
  reasoningContent (foldl step a ps) =
  reasoningContent a +:+ foldr String.append "" (omap part_reasoning ps).
Proof.
  revert a. induction ps as [|p ps IH]; intros a.
  - simpl. by rewrite app_nil_r.
  - cbn [foldl omap list_omap]. rewrite IH. clear IH.
    subst step. unfold convert_part, part_reasoning, part_delta.
    destruct (thought p).
    + cbn [reasoningContent].
      destruct (default "" (text p)); cbn [foldr];
        by rewrite ?app_nil_r, ?app_assoc.
    + destruct (functionCall p) as [fc|].
      * destruct (restore_name _ _ _ _ _) as [name names].
        cbn [reasoningContent]. by destruct (text p) as [[|b t]|].
      * by destruct (text p) as [[|b t]|].
Qed.

Lemma convert_part_same_tools a b p :
  same_tools a b -> same_tools (step a p) (step b p).
Proof.
  intros [Hcalls Hcaches]. subst step. unfold convert_part.
  destruct (thought p); [done|].
  destruct (functionCall p) as [fc|].
  - rewrite Hcaches. destruct (restore_name _ _ _ _ _) as [name names].
    split; cbn [toolCalls acc_caches]; by rewrite ?Hcalls.
  - by destruct (text p).
Qed.

Lemma convert_part_not_call a p :
  is_call p = false -> same_tools (step a p) a.
Proof.
  unfold is_call. subst step. unfold convert_part.
  destruct (thought p); [done|]. cbn [negb andb].
  destruct (functionCall p); [done|]. by destruct (text p).
Qed.

Lemma convert_tools ps a b :
  Forall call_without_text ps -> same_tools a b ->
  same_tools (foldl step a ps)
    (foldl step b (List.filter is_streamed_call ps)).
Proof.
  intros H. revert a b. induction H as [|p ps Hp _ IH]; intros a b Hab;
    [done|].
  cbn [foldl List.filter]. destruct (is_streamed_call p) eqn:Hstreamed.
  - cbn [foldl]. by apply IH, convert_part_same_tools.
  - apply IH. assert (Hcall : is_call p = false).
    { unfold call_without_text in Hp. unfold is_streamed_call in Hstreamed.
      unfold is_call in *. destruct (thought p); [done|].
      cbn [negb andb] in *. destruct (functionCall p); [|done].
      specialize (Hp eq_refl). by rewrite Hp in Hstreamed. }
    destruct (convert_part_not_call a p Hcall) as [H1 H2].
    destruct Hab as [H3 H4]. split; congruence.
Qed.

End Agreement.

End AgreementFacts.

(** [X18] Streaming or not, the client is given the same message: the
    same content, the same reasoning and the same tool calls.  Take any
    upstream body in which no function-call part carries text as well.
    Then the texts of the content deltas of [streamGoogleToOpenAI],
    joined, are the message content of the non-streaming answer for a
    thinking model, the texts of its reasoning deltas, joined, are the
    reasoning content, the tool calls it lists are the tool calls of the
    answer, numbered, and both routes leave the same caches.  The finish
    reason and the usage data are not part of this: there the routes can
    differ. *)
Theorem stream_and_accumulated_answers_agree
    (sha256_hex : string -> string) (now : Z) (random_hex : string)
    (JSON_parse : string -> option Native.SSEData)
    (originalModel sessionId : string) (body : list string) (c : caches) :
  Forall StreamContentSpec.call_without_text
    (SSESpec.carried_parts JSON_parse body) ->
  let answer :=
    OpenAIResponse.chat_completion_thinking sha256_hex now random_hex
      JSON_parse originalModel sessionId body c in
  let stream :=
    OpenAIResponse.streamGoogleToOpenAI sha256_hex now random_hex JSON_parse
      originalModel sessionId body c in
  exists choice,
    OpenAI.choices (fst answer) = [choice] /\
    OpenAI.content (OpenAI.message choice) =
      OpenAIResponse.nonempty (StreamContentSpec.content_of (fst stream)) /\
    OpenAI.reasoning_content (OpenAI.message choice) =
      OpenAIResponse.nonempty (StreamContentSpec.reasoning_of (fst stream)) /\
    StreamContentSpec.with_index
      (default [] (OpenAI.tool_calls (OpenAI.message choice))) =
      StreamContentSpec.calls_of (fst stream) /\
    snd answer = snd stream.
Proof.
  intros Hparts answer stream.
  destruct (StreamContentFacts.stream_result sha256_hex now random_hex
              JSON_parse originalModel sessionId c body)
    as (final & Hchunks & Hdelta & _ & _ & Hcaches).
  cbn zeta in Hchunks, Hcaches. fold stream in Hchunks, Hcaches.
  set (carried := SSESpec.carried_parts JSON_parse body) in *.
  set (step := OpenAIResponse.convert_part sha256_hex now originalModel
                 sessionId) in *.
  set (held := foldl step (StreamContentSpec.convert_init c)
                 (List.filter StreamContentSpec.is_streamed_call carried)) in *.
  pose proof (AgreementFacts.convert_content sha256_hex now originalModel
                sessionId carried (StreamContentSpec.convert_init c) Hparts)
    as Hcontent.
  pose proof (AgreementFacts.convert_reasoning sha256_hex now originalModel
                sessionId carried (StreamContentSpec.convert_init c))
    as Hreasoning.
  destruct (AgreementFacts.convert_tools sha256_hex now originalModel
              sessionId carried (StreamContentSpec.convert_init c)
              (StreamContentSpec.convert_init c) Hparts)
    as [Htools Hsame]; [done|].
  fold step in Hcontent, Hreasoning, Htools, Hsame. fold held in Htools, Hsame.
  cbn [OpenAIResponse.messageContent OpenAIResponse.reasoningContent
       StreamContentSpec.convert_init] in Hcontent, Hreasoning.
  rewrite StringFacts.app_nil_l in Hcontent, Hreasoning.
  subst answer. unfold OpenAIResponse.chat_completion_thinking,
    OpenAIResponse.accumulateSSEResponse.
  rewrite AccumulateFacts.accumulate_body.
  unfold OpenAIResponse.convertGoogleToOpenAI.
  cbn [Native.first_candidate Native.candidates Native.candidate_parts
       Native.content Native.parts default from_option id fst snd].
  rewrite MergeFacts.convert_accumulated. fold carried.
  unfold OpenAIResponse.convert_parts. fold step.
  change {| OpenAIResponse.messageContent := "";
            OpenAIResponse.reasoningContent := "";
            OpenAIResponse.toolCalls := [];
            OpenAIResponse.toolCallIndex := 0;
            OpenAIResponse.acc_caches := c |}
    with (StreamContentSpec.convert_init c).
  set (A := foldl step (StreamContentSpec.convert_init c) carried) in *.
  eexists. split; [reflexivity|].
  cbn [OpenAI.message OpenAI.content OpenAI.reasoning_content
       OpenAI.tool_calls].
  rewrite Hchunks, !AgreementFacts.content_of_app,
    !AgreementFacts.reasoning_of_app, !AgreementFacts.calls_of_app,
    (AgreementFacts.content_of_streamed now random_hex originalModel),
    (AgreementFacts.reasoning_of_streamed now random_hex originalModel),
    (AgreementFacts.calls_of_streamed now random_hex originalModel).
  assert (Hfinal :
    StreamContentSpec.content_of [final] = "" /\
    StreamContentSpec.reasoning_of [final] = "" /\
    StreamContentSpec.calls_of [final] = []).
  { unfold StreamContentSpec.content_of, StreamContentSpec.reasoning_of,
      StreamContentSpec.calls_of. cbn [omap list_omap mbind list_bind].
    by rewrite Hdelta. }
  destruct Hfinal as (-> & -> & ->).
  rewrite Hcontent, Hreasoning, Hcaches, Hsame, Htools.
  destruct (OpenAIResponse.toolCalls held) as [|call calls];
    cbn [app StreamContentSpec.content_of StreamContentSpec.reasoning_of
         StreamContentSpec.calls_of omap list_omap foldr mbind list_bind];
    rewrite ?StringFacts.app_nil_r, ?List.app_nil_r; done.
Qed.

Lemma stream_and_accumulated_answers_agree_witness :
  let answer :=
    OpenAIResponse.chat_completion_thinking (fun s => s) 0 "00"
      ToolStreamExample.parse "gemini-3-pro" "session" ToolStreamExample.body
      ToolStreamExample.registered in
  let stream :=
    OpenAIResponse.streamGoogleToOpenAI (fun s => s) 0 "00"
      ToolStreamExample.parse "gemini-3-pro" "session" ToolStreamExample.body
      ToolStreamExample.registered in
  exists choice,
    OpenAI.choices (fst answer) = [choice] /\
    OpenAI.content (OpenAI.message choice) =
      OpenAIResponse.nonempty (StreamContentSpec.content_of (fst stream)) /\
    OpenAI.reasoning_content (OpenAI.message choice) =
      OpenAIResponse.nonempty (StreamContentSpec.reasoning_of (fst stream)) /\
    StreamContentSpec.with_index
      (default [] (OpenAI.tool_calls (OpenAI.message choice))) =
      StreamContentSpec.calls_of (fst stream) /\
    snd answer = snd stream.
Proof.
  apply (stream_and_accumulated_answers_agree (fun s => s) 0 "00"
           ToolStreamExample.parse "gemini-3-pro" "session"
           ToolStreamExample.body ToolStreamExample.registered).
  vm_compute. repeat constructor; discriminate.
Defined.

(** The finish reason and the usage data are another matter: the two
    routes work them out differently, also within the condition above.  On a body whose second payload
    carries a function call, a part of the usage data and no finish
    reason, the answer has the finish reason [stop] and counts 0, 7 and 7
    tokens, and the last chunk of the stream has [tool_calls] and counts
    10, 7 and 17. *)
Module AgreementExamples.

Example routes_differ_in_finish_reason :
  OpenAI.finish_reason <$> OpenAI.choices UsageExample.answered = ["stop"] /\
  StreamContentSpec.final_finish_reason UsageExample.streamed
  = Some "tool_calls".
Proof. split; vm_compute; reflexivity. Qed.

Example routes_differ_in_usage :
  OpenAI.usage UsageExample.answered =
    {| OpenAI.prompt_tokens := 0; OpenAI.completion_tokens := 7;
       OpenAI.total_tokens := 7; OpenAI.prompt_tokens_details := None |} /\
  last UsageExample.streamed ≫= OpenAI.sc_usage =
    Some {| OpenAI.prompt_tokens := 10; OpenAI.completion_tokens := 7;
            OpenAI.total_tokens := 17;
            OpenAI.prompt_tokens_details := None |}.
Proof. split; vm_compute; reflexivity. Qed.

Example usage_example_within_hypothesis :
  Forall StreamContentSpec.call_without_text
    (SSESpec.carried_parts UsageExample.parse ToolStreamExample.body).
Proof. vm_compute. repeat constructor; intros [=]. Qed.

End AgreementExamples.

Module StreamExamples.

(** A streamed tool call: the name is restored, the call is numbered,
    and the finish reason is the one the upstream reported last. *)
Example stream_of_tool_call :
  let chunks :=
    fst (OpenAIResponse.streamGoogleToOpenAI (fun s => s) 0 "00"
           ToolStreamExample.parse "gemini-3-pro" "session"
           ToolStreamExample.body ToolStreamExample.registered) in
  StreamContentSpec.content_of chunks = "Looking it up." /\
  (fun call => (OpenAI.tc_index call, OpenAI.tc_name call)) <$>
    StreamContentSpec.calls_of chunks = [(Some 0%nat, "my.tool!")] /\
  StreamContentSpec.final_finish_reason chunks = Some "stop".
Proof. repeat split; vm_compute; reflexivity. Qed.

End StreamExamples.

(** ** Tool calls *)

Module ToolCallFacts.
Import Native OpenAI OpenAIResponse StreamContentSpec.

Lemma with_index_answerable calls :
  Forall answerable calls -> Forall answerable (with_index calls).
Proof.
  unfold with_index.
  assert (H : forall f : nat -> ToolCall -> ToolCall,
    (forall i call, answerable call -> answerable (f i call)) ->
    Forall answerable calls -> Forall answerable (imap f calls)).
  { intros f Hf H. revert f Hf.
    induction H as [|call calls Hcall _ IH]; intros f Hf; [constructor|].
    rewrite imap_cons. constructor; [by apply Hf|].
    apply IH. intros i x. apply Hf. }
  apply H. by intros i call [? ?].
Qed.

Lemma with_index_numbers calls :
  tc_index <$> with_index calls = Some <$> seq 0 (length calls).
Proof.
  unfold with_index.
  assert (H : forall k,
    tc_index <$> imap (fun i => set_index (k + i)) calls =
    Some <$> seq k (length calls)).
  { induction calls as [|call calls IH]; intros k; [done|].
    rewrite imap_cons. cbn [fmap list_fmap length seq set_index tc_index].
    rewrite Nat.add_0_r. f_equal. rewrite <- (IH (S k)). f_equal.
    apply imap_ext. intros i x _. simpl. f_equal. lia. }
  apply (H 0%nat).
Qed.

Lemma with_index_ids calls : tc_id <$> with_index calls = tc_id <$> calls.
Proof.
  unfold with_index.
  assert (H : forall f : nat -> ToolCall -> ToolCall,
    (forall i call, tc_id (f i call) = tc_id call) ->
    tc_id <$> imap f calls = tc_id <$> calls).
  { induction calls as [|call calls IH]; intros f Hf; [done|].
    rewrite imap_cons, !fmap_cons, Hf. f_equal. apply IH.
    intros i x. apply Hf. }
  by apply H.
Qed.

Lemma filter_streamed_calls parts :
  List.filter is_call (List.filter is_streamed_call parts) =
  List.filter is_streamed_call parts.
Proof.
  induction parts as [|p parts IH]; [done|]. cbn [List.filter].
  destruct (is_streamed_call p) eqn:Hp; [|done].
  cbn [List.filter]. rewrite IH.
  unfold is_streamed_call, is_call in *.
  destruct (thought p); [done|]. cbn [negb andb] in *.
  apply andb_true_iff in Hp as [_ ->]. done.
Qed.

Section Convert.
Variable sha256_hex : string -> string.
Variable now : Z.
Variables originalModel sessionId : string.

Let step := convert_part sha256_hex now originalModel sessionId.

Lemma convert_part_calls a p :
  Forall answerable (toolCalls a) ->
  Forall answerable (toolCalls (step a p)) /\
  length (toolCalls (step a p)) =
  (length (toolCalls a) + if is_call p then 1 else 0)%nat.
Proof.
  intros H. subst step. unfold convert_part, is_call.
  destruct (thought p); cbn [negb andb]; [by rewrite Nat.add_0_r|].
  destruct (functionCall p) as [fc|].
  - destruct (restore_name _ _ _ _ _) as [name names]. cbn [toolCalls].
    split; [|by rewrite length_app].
    apply Forall_app. split; [done|]. constructor; [|constructor].
    split; [apply SignatureFacts.toolId_of_nonempty | done].
  - rewrite Nat.add_0_r. by destruct (text p).
Qed.

Lemma toolId_call_id fc : toolId_of sha256_hex fc = call_id sha256_hex fc.
Proof.
  unfold toolId_of, call_id, JSON_stringify_args.
  destruct (fc_id fc) as [[|a i]|]; try done;
    by rewrite StringFacts.slice0_substring.
Qed.

Lemma convert_part_ids a p :
  tc_id <$> toolCalls (step a p) =
  (tc_id <$> toolCalls a) ++ call_ids sha256_hex (List.filter is_call [p]).
Proof.
  subst step. unfold convert_part, is_call, call_ids. cbn [List.filter].
  destruct (thought p); cbn [negb andb]; [by rewrite List.app_nil_r|].
  destruct (functionCall p) as [fc|] eqn:Hfc.
  - destruct (restore_name _ _ _ _ _) as [name names]. cbn [toolCalls].
    rewrite fmap_app. cbn [omap list_omap]. rewrite Hfc.
    cbn [fmap list_fmap tc_id]. by rewrite toolId_call_id.
  - rewrite List.app_nil_r. by destruct (text p).
Qed.

Lemma convert_parts_ids ps a :
  tc_id <$> toolCalls (foldl step a ps) =
  (tc_id <$> toolCalls a) ++ call_ids sha256_hex (List.filter is_call ps).
Proof.
  revert a. induction ps as [|p ps IH]; intros a.
  - by rewrite List.app_nil_r.
  - cbn [foldl]. rewrite IH, convert_part_ids, <- List.app_assoc.
    f_equal. unfold call_ids. cbn [List.filter].
    destruct (is_call p); [|done].
    cbn [omap list_omap]. by destruct (functionCall p).
Qed.

Lemma convert_parts_calls ps a :
  Forall answerable (toolCalls a) ->
  Forall answerable (toolCalls (foldl step a ps)) /\
  length (toolCalls (foldl step a ps)) =
  (length (toolCalls a) + length (List.filter is_call ps))%nat.
Proof.
  revert a. induction ps as [|p ps IH]; intros a H.
  - simpl. by rewrite Nat.add_0_r.
  - cbn [foldl List.filter].
    destruct (convert_part_calls a p H) as [H1 H2].
    destruct (IH _ H1) as [H3 H4]. split; [done|].
    rewrite H4, H2. destruct (is_call p); simpl; lia.
Qed.

End Convert.

End ToolCallFacts.

(** [X19] Every tool call that the OpenAI converters hand to the client
    can be answered: it has the type [function] and an id that is not
    empty, namely the id of the function call where it has one and
    otherwise [call_] followed by the first 24 characters of the digest of
    its name, a colon and its arguments.  The answer of
    [convertGoogleToOpenAI] lists one tool call for each function-call
    part of the first candidate, in order, and has no [tool_calls] at all
    rather than an empty list; the stream lists one for each function-call
    part without text that the body carries, and numbers them
    0, 1, 2, ... *)
Theorem tool_calls_can_be_answered
    (sha256_hex : string -> string) (now : Z) (random_hex : string)
    (JSON_parse : string -> option Native.SSEData)
    (originalModel sessionId : string) (r : Native.GoogleResponse)
    (body : list string) (c : caches) :
  let answer :=
    fst (OpenAIResponse.convertGoogleToOpenAI sha256_hex now random_hex
           originalModel sessionId r c) in
  let chunks :=
    fst (OpenAIResponse.streamGoogleToOpenAI sha256_hex now random_hex
           JSON_parse originalModel sessionId body c) in
  (exists choice,
     OpenAI.choices answer = [choice] /\
     OpenAI.tool_calls (OpenAI.message choice) <> Some [] /\
     let calls := default [] (OpenAI.tool_calls (OpenAI.message choice)) in
     Forall StreamContentSpec.answerable calls /\
     OpenAI.tc_id <$> calls =
     StreamContentSpec.call_ids sha256_hex
       (List.filter StreamContentSpec.is_call
          (Native.candidate_parts (Native.first_candidate r))) /\
     length calls =
     length (List.filter StreamContentSpec.is_call
               (Native.candidate_parts (Native.first_candidate r)))) /\
  Forall StreamContentSpec.answerable (StreamContentSpec.calls_of chunks) /\
  OpenAI.tc_id <$> StreamContentSpec.calls_of chunks =
  StreamContentSpec.call_ids sha256_hex
    (List.filter StreamContentSpec.is_streamed_call
       (SSESpec.carried_parts JSON_parse body)) /\
  OpenAI.tc_index <$> StreamContentSpec.calls_of chunks =
  Some <$> seq 0 (length (StreamContentSpec.calls_of chunks)).
Proof.
  intros answer chunks. split.
  - subst answer. unfold OpenAIResponse.convertGoogleToOpenAI. cbn [fst].
    eexists. split; [reflexivity|].
    cbn [OpenAI.message OpenAI.tool_calls].
    destruct (ToolCallFacts.convert_parts_calls sha256_hex now originalModel
                sessionId
                (Native.candidate_parts (Native.first_candidate r))
                (StreamContentSpec.convert_init c)) as [Hall Hlen];
      [constructor|].
    pose proof (ToolCallFacts.convert_parts_ids sha256_hex now originalModel
                  sessionId
                  (Native.candidate_parts (Native.first_candidate r))
                  (StreamContentSpec.convert_init c)) as Hids.
    unfold OpenAIResponse.convert_parts.
    change {| OpenAIResponse.messageContent := "";
              OpenAIResponse.reasoningContent := "";
              OpenAIResponse.toolCalls := [];
              OpenAIResponse.toolCallIndex := 0;
              OpenAIResponse.acc_caches := c |}
      with (StreamContentSpec.convert_init c).
    destruct (OpenAIResponse.toolCalls _) as [|call calls]; by repeat split.
  - subst chunks.
    destruct (StreamContentFacts.stream_result sha256_hex now random_hex
                JSON_parse originalModel sessionId c body)
      as (final & Hchunks & Hdelta & _). cbn zeta in Hchunks.
    rewrite Hchunks, !AgreementFacts.calls_of_app,
      (AgreementFacts.calls_of_streamed now random_hex originalModel).
    set (held := foldl _ _ _).
    destruct (ToolCallFacts.convert_parts_calls sha256_hex now originalModel
                sessionId
                (List.filter StreamContentSpec.is_streamed_call
                   (SSESpec.carried_parts JSON_parse body))
                (StreamContentSpec.convert_init c)) as [Hall _];
      [constructor|].
    pose proof (ToolCallFacts.convert_parts_ids sha256_hex now originalModel
                  sessionId
                  (List.filter StreamContentSpec.is_streamed_call
                     (SSESpec.carried_parts JSON_parse body))
                  (StreamContentSpec.convert_init c)) as Hids.
    rewrite ToolCallFacts.filter_streamed_calls in Hids.
    fold held in Hall, Hids.
    assert (Hcalls :
      StreamContentSpec.calls_of
        (match OpenAIResponse.toolCalls held with
         | [] => []
         | _ => [OpenAIResponse.createStreamChunk now
                   (OpenAIResponse.completionId random_hex) originalModel
                   (OpenAI.DeltaToolCalls
                      (StreamContentSpec.with_index
                         (OpenAIResponse.toolCalls held))) None None]
         end) ++ StreamContentSpec.calls_of [final] =
      StreamContentSpec.with_index (OpenAIResponse.toolCalls held)).
    { assert (StreamContentSpec.calls_of [final] = []) as ->.
      { unfold StreamContentSpec.calls_of. cbn [mbind list_bind].
        by rewrite Hdelta. }
      rewrite List.app_nil_r.
      destruct (OpenAIResponse.toolCalls held); [done|].
      unfold StreamContentSpec.calls_of. cbn. by rewrite List.app_nil_r. }
    cbn [app]. rewrite Hcalls. split; [|split].
    + by apply ToolCallFacts.with_index_answerable.
    + by rewrite ToolCallFacts.with_index_ids.
    + rewrite StreamContentFacts.length_with_index.
      apply ToolCallFacts.with_index_numbers.
Qed.

(** ** The Gemini response converters *)

Module GeminiResponseFacts.
Import Native Gemini GeminiResponseSpec.

Lemma lookup_in_empty now s mo safe :
  ToolNameCache.getOriginalToolName now s mo safe [] = (None, []).
Proof. unfold ToolNameCache.getOriginalToolName. by destruct safe. Qed.

Section Response.
Variable now : Z.
Variables sessionId modelName : string.

Let part_step := process_part now sessionId modelName.

Lemma process_part_without_name c p :
  part_without_name (fst (part_step c p)) = part_without_name p.
Proof.
  subst part_step. unfold process_part.
  destruct (functionCall p) as [fc|] eqn:Hfc; [|done].
  destruct (ToolNameCache.getOriginalToolName _ _ _ _ _) as [[n|] names];
    unfold part_without_name; simpl; by rewrite Hfc.
Qed.

Lemma process_part_empty c p :
  toolNameMap c = [] ->
  fst (part_step c p) = p /\ toolNameMap (snd (part_step c p)) = [].
Proof.
  intros Hc. subst part_step. unfold process_part.
  destruct (functionCall p) as [fc|] eqn:Hfc; [|done].
  rewrite Hc, lookup_in_empty. cbn [fst snd toolNameMap].
  split; [|done]. destruct p. simpl in Hfc. by subst.
Qed.

Lemma process_part_list_without_names ps c :
  part_without_name <$> fst (process_part_list now sessionId modelName ps c) =
  part_without_name <$> ps.
Proof.
  revert c. induction ps as [|p ps IH]; intros c; [done|].
  cbn [process_part_list].
  pose proof (process_part_without_name c p) as Hp. subst part_step.
  destruct (process_part now sessionId modelName c p) as [p' c'].
  specialize (IH c').
  destruct (process_part_list now sessionId modelName ps c') as [ps' c''].
  cbn [fst] in *. by rewrite !fmap_cons, Hp, IH.
Qed.

Lemma process_part_list_empty ps c :
  toolNameMap c = [] ->
  fst (process_part_list now sessionId modelName ps c) = ps /\
  toolNameMap (snd (process_part_list now sessionId modelName ps c)) = [].
Proof.
  revert c. induction ps as [|p ps IH]; intros c Hc; [done|].
  cbn [process_part_list].
  destruct (process_part_empty c p Hc) as [Hp Hc']. subst part_step.
  destruct (process_part now sessionId modelName c p) as [p' c'].
  cbn [fst snd] in *. destruct (IH c' Hc') as [Hps Hc''].
  destruct (process_part_list now sessionId modelName ps c') as [ps' c''].
  cbn [fst snd] in *. by subst.
Qed.

Lemma process_candidate_without_names c cand :
  candidate_without_names
    (fst (process_candidate now sessionId modelName c cand)) =
  candidate_without_names cand.
Proof.
  unfold process_candidate.
  destruct (content cand) as [ct|] eqn:Hct; [|done].
  destruct (parts ct) as [ps|] eqn:Hps; [|done].
  unfold processParts.
  pose proof (process_part_list_without_names ps c) as H.
  destruct (process_part_list now sessionId modelName ps c) as [ps' c'].
  cbn [fst] in *. unfold candidate_without_names, content_without_names.
  cbn [content finishReason fmap option_fmap option_map role parts].
  by rewrite Hct, H; cbn; rewrite Hps.
Qed.

Lemma process_candidate_empty c cand :
  toolNameMap c = [] ->
  fst (process_candidate now sessionId modelName c cand) = cand /\
  toolNameMap (snd (process_candidate now sessionId modelName c cand)) = [].
Proof.
  intros Hc. unfold process_candidate.
  destruct (content cand) as [ct|] eqn:Hct; [|done].
  destruct (parts ct) as [ps|] eqn:Hps; [|done].
  unfold processParts.
  destruct (process_part_list_empty ps c Hc) as [H1 H2].
  destruct (process_part_list now sessionId modelName ps c) as [ps' c'].
  cbn [fst snd] in *. split; [|done]. subst ps'.
  destruct cand as [ct0 fr]. simpl in Hct. subst ct0.
  destruct ct as [r ps0]. simpl in Hps. by subst ps0.
Qed.

Lemma process_candidates_without_names cs c :
  candidate_without_names <$>
    fst (process_candidates now sessionId modelName cs c) =
  candidate_without_names <$> cs.
Proof.
  revert c. induction cs as [|cand cs IH]; intros c; [done|].
  cbn [process_candidates].
  pose proof (process_candidate_without_names c cand) as Hp.
  destruct (process_candidate now sessionId modelName c cand) as [p' c'].
  specialize (IH c').
  destruct (process_candidates now sessionId modelName cs c') as [cs' c''].
  cbn [fst] in *. by rewrite !fmap_cons, Hp, IH.
Qed.

Lemma process_candidates_empty cs c :
  toolNameMap c = [] ->
  fst (process_candidates now sessionId modelName cs c) = cs /\
  toolNameMap (snd (process_candidates now sessionId modelName cs c)) = [].
Proof.
  revert c. induction cs as [|cand cs IH]; intros c Hc; [done|].
  cbn [process_candidates].
  destruct (process_candidate_empty c cand Hc) as [Hp Hc'].
  destruct (process_candidate now sessionId modelName c cand) as [p' c'].
  cbn [fst snd] in *. destruct (IH c' Hc') as [Hps Hc''].
  destruct (process_candidates now sessionId modelName cs c') as [cs' c''].
  cbn [fst snd] in *. by subst.
Qed.

End Response.

End GeminiResponseFacts.

(** [X20] [convertGoogleToGemini] changes nothing in a response but the
    names of function calls and a missing model version: with those names
    left out, the candidates are the ones that came in; the usage data are
    passed on untouched; a model version that is there and not empty is
    kept, and one that is missing or empty is replaced by the model name.
    When the tool-name cache is empty, the candidates are returned exactly
    as they came. *)
Theorem gemini_response_only_renames
    (now : Z) (sessionId modelName : string) (r : Native.GoogleResponse)
    (c : caches) :
  let out := Gemini.convertGoogleToGemini now sessionId modelName r c in
  Native.candidates (GeminiResponseSpec.without_names (fst out)) =
  Native.candidates (GeminiResponseSpec.without_names r) /\
  Native.usageMetadata (fst out) = Native.usageMetadata r /\
  (forall version,
     Native.modelVersion r = Some version -> version <> "" ->
     Native.modelVersion (fst out) = Some version) /\
  (Native.modelVersion r = None \/ Native.modelVersion r = Some "" ->
   Native.modelVersion (fst out) = Some modelName) /\
  (toolNameMap c = [] ->
   Native.candidates (fst out) = Native.candidates r /\
   toolNameMap (snd out) = []).
Proof.
  intros out. subst out. unfold Gemini.convertGoogleToGemini.
  destruct (Native.candidates r) as [cs|] eqn:Hcs.
  - pose proof (GeminiResponseFacts.process_candidates_without_names now
                  sessionId modelName cs c) as Hnames.
    pose proof (GeminiResponseFacts.process_candidates_empty now
                  sessionId modelName cs c) as Hempty.
    destruct (Gemini.process_candidates now sessionId modelName cs c)
      as [cs' c'].
    cbn [fst snd] in *. unfold GeminiResponseSpec.without_names.
    cbn [Native.candidates Native.usageMetadata Native.modelVersion].
    rewrite Hcs, Hnames. split; [done|]. split; [done|].
    split; [|split].
    + intros version Hversion Hthere. rewrite Hversion.
      by destruct version.
    + by intros [-> | ->].
    + intros Hc. destruct (Hempty Hc) as [-> ->]. done.
  - unfold GeminiResponseSpec.without_names.
    cbn [fst snd Native.candidates Native.usageMetadata Native.modelVersion].
    rewrite Hcs. split; [done|]. split; [done|].
    split; [|split; [|done]].
    + intros version Hversion Hthere. rewrite Hversion.
      by destruct version.
    + by intros [-> | ->].
Qed.

(** ** Tool names from the declaration to the answer *)

Module RestoreFacts.
Import ToolNameCache CacheSpec ToolNameInvariant.

(** After [convertSingleTool] has declared the tool [n] for a session
    and a model, a lookup for the same session and model gives [n]
    back. *)
Lemma restored_under_declared_name
    (sanitizeSchema : ToolConverter.Schema -> option ToolConverter.Schema)
    (cleanSchemaForGemini : ToolConverter.Schema -> ToolConverter.Schema)
    (now now' : Z) (n : string) (description : option string)
    (parameters : option ToolConverter.Schema)
    (sessionId modelName : string) (m : ToolNameCache.store)
    (sigs : gmap string SignatureCache.entry) (part : Native.Part)
    (call : Native.FunctionCall) :
  let declared :=
    ToolConverter.convertSingleTool sanitizeSchema cleanSchemaForGemini now
      (Some n) description parameters sessionId modelName m in
  let safe := ToolConverter.name (fst declared) in
  ToolNameCache.reachable m ->
  sessionId <> "" -> modelName <> "" -> n <> "" ->
  now' - now <= ToolNameCache.ENTRY_TTL_MS ->
  safe <> n \/
  ToolNameCache.map_get (ToolNameCache.makeKey sessionId modelName safe) m
  = None ->
  Native.functionCall part = Some call ->
  Native.fc_name call = safe ->
  Native.fc_name <$>
    Native.functionCall
      (fst (Gemini.process_part now' sessionId modelName
              {| toolNameMap := snd declared; signatureCache := sigs |} part))
  = Some n /\
  fst (OpenAIResponse.restore_name now' modelName sessionId safe (snd declared))
  = n.
Proof.
  intros declared safe Hm Hs Hmo Hn Httl Hcase Hcall Hname.
  assert (Hlookup :
    fst (ToolNameCache.getOriginalToolName now' sessionId modelName safe
           (snd declared)) = if JS.eq safe n then None else Some n).
  { assert (Hsafe : safe = ToolConverter.sanitizeToolName (JS.Str n))
      by reflexivity.
    assert (Hstore : snd declared =
      match sessionId, modelName with
      | String _ _, String _ _ =>
          if JS.eq safe n then m
          else ToolNameCache.setToolNameMapping now sessionId modelName
                 safe n m
      | _, _ => m
      end) by reflexivity.
    rewrite Hstore. clearbody declared safe. clear Hstore.
    destruct sessionId as [|a s]; [done|].
    destruct modelName as [|b mo]; [done|].
    destruct (JS.eq safe n) eqn:Heq.
    - rewrite StringFacts.eq_decide in Heq.
      apply bool_decide_eq_true_1 in Heq.
      destruct Hcase as [Hne | Habsent]; [done|].
      unfold ToolNameCache.getOriginalToolName.
      destruct safe; [done|]. by rewrite Habsent.
    - rewrite StringFacts.eq_decide in Heq.
      apply bool_decide_eq_false_1 in Heq.
      apply ToolNameRoundTrip.lookup_after_set; try done.
      + by apply ToolNameFacts.reachable_bounded.
      + rewrite Hsafe. apply SanitizeSafety.sanitizeToolName_nonempty. }
  split.
  - unfold Gemini.process_part. rewrite Hcall, Hname. cbn [toolNameMap].
    destruct (ToolNameCache.getOriginalToolName _ _ _ _ _) as [found names].
    cbn [fst] in Hlookup. subst found.
    destruct (JS.eq safe n) eqn:Heq; cbn; [|done].
    rewrite StringFacts.eq_decide in Heq. apply bool_decide_eq_true_1 in Heq.
    by rewrite Hname, Heq.
  - unfold OpenAIResponse.restore_name.
    destruct (ToolNameCache.getOriginalToolName _ _ _ _ _) as [found names].
    cbn [fst] in *. subst found.
    destruct (JS.eq safe n) eqn:Heq; cbn; [|done].
    rewrite StringFacts.eq_decide in Heq. by apply bool_decide_eq_true_1 in Heq.
Qed.


Lemma string_app_inv_head (s x y : string) : s +:+ x = s +:+ y -> x = y.
Proof.
  induction s as [|a s IH]; [done|].
  rewrite !StringFacts.app_cons. intros [= H]. by apply IH.
Qed.

Lemma makeKey_model_ne s mo mo' safe :
  mo <> mo' -> makeKey s mo safe <> makeKey s mo' safe.
Proof.
  intros Hne Heq. unfold makeKey in Heq.
  apply string_app_inv_head in Heq. apply string_app_inv_head in Heq.
  by apply ToolNameFacts.app_inv_tail in Heq.
Qed.

(** A write under one key does not make another key known. *)
Lemma lookup_absent_after_set now now' s mo safe orig s' mo' safe' m :
  makeKey s mo safe <> makeKey s' mo' safe' ->
  map_get (makeKey s' mo' safe') m = None ->
  getOriginalToolName now' s' mo' safe'
    (setToolNameMapping now s mo safe orig m) =
  (None, setToolNameMapping now s mo safe orig m).
Proof.
  intros Hkey Habsent.
  assert (Hstill :
    map_get (makeKey s' mo' safe') (setToolNameMapping now s mo safe orig m)
    = None).
  { unfold setToolNameMapping.
    destruct safe as [|a safe]; [done|]. destruct orig as [|b orig]; [done|].
    destruct (JS.eq _ _); [done|]. cbv zeta.
    apply map_get_None. apply map_get_None in Habsent.
    intros Hin. apply Habsent.
    assert (Hset : makeKey s' mo' safe' ∈
                   keys (map_set (makeKey s mo (String a safe))
                           {| originalName := String b orig; ts := now |} m)).
    { unfold pruneSize in Hin. destruct (_ <=? _)%nat; [done|].
      eapply elem_of_sublist; [exact Hin|]. apply fmap_sublist, sublist_drop. }
    rewrite keys_map_set in Hset.
    destruct (map_get (makeKey s mo (String a safe)) m); [done|].
    apply elem_of_app in Hset as [Hold|Hnew%list_elem_of_singleton]; [done|].
    by destruct Hkey. }
  unfold getOriginalToolName. destruct safe' as [|a' safe']; [done|].
  by rewrite Hstill.
Qed.

End RestoreFacts.

(** The two non-streaming routes, run as their handlers run them:
    the tool [my.tool!] comes back under its own name for a model name
    that the mapping leaves alone, and under the sanitised name for a
    model name with a date suffix or one that is redirected. *)
Module RouteExamples.

Example openai_route_restores :
  RouteExample.openai_route "claude-sonnet-4-5" = Some ["my.tool!"].
Proof. vm_compute. reflexivity. Qed.

Example openai_route_with_date_suffix :
  RouteExample.openai_route "claude-sonnet-4-5-20250929" = Some ["my_tool"].
Proof. vm_compute. reflexivity. Qed.

Example openai_route_redirected :
  RouteExample.openai_route "claude-3-haiku" = Some ["my_tool"].
Proof. vm_compute. reflexivity. Qed.

Example gemini_route_restores :
  RouteExample.gemini_route "gemini-3-pro" = ["my.tool!"].
Proof. vm_compute. reflexivity. Qed.

Example gemini_route_with_date_suffix :
  RouteExample.gemini_route "gemini-3-pro-20250929" = ["my_tool"].
Proof. vm_compute. reflexivity. Qed.

End RouteExamples.

(** [X21] Whether a tool gets its own name back depends on the model
    name of the request.  Both routes declare a tool through
    [convertSingleTool] under the mapped model name, and look the name of
    a function call up under the model name as the client gave it.  When
    the two are the same, a function call that names the declared
    function is given the name [n] of the tool again, for as long as 30
    minutes, by [processParts] on the Gemini side and by the lookup of the
    OpenAI converters; this holds when [n] had to be changed to be
    declared, and also when it had not, unless the cache still maps that
    very name to another tool.  When the mapping changes the model name (a
    date suffix, a redirected model) and the cache has no entry under the
    name as given, the call keeps the sanitised name: the client is
    answered under a name it did not declare. *)
Theorem declared_tool_name_is_restored
    (sanitizeSchema : ToolConverter.Schema -> option ToolConverter.Schema)
    (cleanSchemaForGemini : ToolConverter.Schema -> ToolConverter.Schema)
    (now now' : Z) (n : string) (description : option string)
    (parameters : option ToolConverter.Schema)
    (sessionId model : string) (m : ToolNameCache.store)
    (sigs : gmap string SignatureCache.entry) (part : Native.Part)
    (call : Native.FunctionCall) :
  let actual := Constants.mapModelName model in
  let declared :=
    ToolConverter.convertSingleTool sanitizeSchema cleanSchemaForGemini now
      (Some n) description parameters sessionId actual m in
  let safe := ToolConverter.name (fst declared) in
  let answered :=
    Native.fc_name <$>
      Native.functionCall
        (fst (Gemini.process_part now' sessionId model
                {| toolNameMap := snd declared; signatureCache := sigs |}
                part)) in
  let restored :=
    fst (OpenAIResponse.restore_name now' model sessionId safe
           (snd declared)) in
  ToolNameCache.reachable m ->
  sessionId <> "" -> model <> "" -> n <> "" ->
  now' - now <= ToolNameCache.ENTRY_TTL_MS ->
  Native.functionCall part = Some call ->
  Native.fc_name call = safe ->
  (actual = model ->
   safe <> n \/
   ToolNameCache.map_get (ToolNameCache.makeKey sessionId model safe) m
   = None ->
   answered = Some n /\ restored = n) /\
  (actual <> model ->
   ToolNameCache.map_get (ToolNameCache.makeKey sessionId model safe) m
   = None ->
   answered = Some safe /\ restored = safe).
Proof.
  intros actual declared safe answered restored Hm Hs Hmo Hn Httl Hcall Hname.
  split.
  - intros Hsame Hcase. subst answered restored safe declared.
    rewrite Hsame in *.
    by apply (RestoreFacts.restored_under_declared_name sanitizeSchema
                cleanSchemaForGemini now now' n description parameters
                sessionId model m sigs part call).
  - intros Hother Habsent.
    assert (Hsafe : safe = ToolConverter.sanitizeToolName (JS.Str n))
      by reflexivity.
    assert (Hlookup :
      ToolNameCache.getOriginalToolName now' sessionId model safe
        (snd declared) = (None, snd declared)).
    { assert (Hstore : snd declared = m \/
                snd declared =
                ToolNameCache.setToolNameMapping now sessionId actual safe n m).
      { assert (Hmatch : snd declared =
          match sessionId, actual with
          | String _ _, String _ _ =>
              if JS.eq safe n then m
              else ToolNameCache.setToolNameMapping now sessionId actual
                     safe n m
          | _, _ => m
          end) by reflexivity.
        rewrite Hmatch. clear. clearbody safe actual.
        destruct sessionId; [by left|]. destruct actual; [by left|].
        destruct (JS.eq safe n); [by left|by right]. }
      destruct Hstore as [-> | ->].
      - unfold ToolNameCache.getOriginalToolName.
        destruct safe; [done|]. by rewrite Habsent.
      - apply RestoreFacts.lookup_absent_after_set; [|done].
        by apply RestoreFacts.makeKey_model_ne. }
    subst answered restored. split.
    + unfold Gemini.process_part. rewrite Hcall, Hname. cbn [toolNameMap].
      rewrite Hlookup.
      cbn [fst Native.functionCall fmap option_fmap option_map].
      by rewrite Hname.
    + unfold OpenAIResponse.restore_name. by rewrite Hlookup.
Qed.

Lemma declared_tool_name_is_restored_witness :
  let declared model :=
    ToolConverter.convertSingleTool (fun s => Some s) (fun s => s) 0
      (Some "my.tool!") None None "session" (Constants.mapModelName model) [] in
  let answered model :=
    Native.fc_name <$>
      Native.functionCall
        (fst (Gemini.process_part 5 "session" model
                {| toolNameMap := snd (declared model); signatureCache := ∅ |}
                ToolStreamExample.call_part)) in
  let restored model :=
    fst (OpenAIResponse.restore_name 5 model "session" "my_tool"
           (snd (declared model))) in
  (answered "gemini-3-pro" = Some "my.tool!" /\
   restored "gemini-3-pro" = "my.tool!") /\
  (answered "gemini-3-pro-20250929" = Some "my_tool" /\
   restored "gemini-3-pro-20250929" = "my_tool").
Proof.
  intros declared answered restored. split.
  - apply (declared_tool_name_is_restored (fun s => Some s) (fun s => s) 0 5
             "my.tool!" None None "session" "gemini-3-pro" [] ∅
             ToolStreamExample.call_part
             {| Native.fc_id := None; Native.fc_name := "my_tool";
                Native.fc_args := Some "{}" |});
      try discriminate; try reflexivity.
    + apply ToolNameCache.reach_empty.
    + left. vm_compute. discriminate.
  - apply (declared_tool_name_is_restored (fun s => Some s) (fun s => s) 0 5
             "my.tool!" None None "session" "gemini-3-pro-20250929" [] ∅
             ToolStreamExample.call_part
             {| Native.fc_id := None; Native.fc_name := "my_tool";
                Native.fc_args := Some "{}" |});
      try discriminate; try reflexivity.
    apply ToolNameCache.reach_empty.
Defined.

(** ** The Gemini stream *)

Module GeminiStreamFacts.
Import Native GeminiResponseSpec GeminiStream.

Section Stream.
Variable now : Z.
Variable JSON_parse : string -> option SSEData.
Variables modelName sessionId : string.

Let data_step := stream_data now modelName sessionId.
Let line_step := stream_line now JSON_parse modelName sessionId.

Lemma stream_data_without_names st data :
  without_names <$> fst (data_step st data) =
  (without_names <$> fst st) ++ [without_names (innerResponse data)].
Proof.
  subst data_step. unfold stream_data.
  destruct (candidates (innerResponse data)) as [cs|] eqn:Hcs.
  - pose proof (GeminiResponseFacts.process_candidates_without_names now
                  sessionId modelName cs (snd st)) as Hnames.
    destruct (Gemini.process_candidates now sessionId modelName cs (snd st))
      as [cs' c'].
    cbn [fst] in *. rewrite fmap_app. f_equal. unfold without_names.
    cbn [fmap list_fmap candidates usageMetadata modelVersion].
    by rewrite Hcs, Hnames.
  - cbn [fst]. rewrite fmap_app. f_equal. unfold without_names.
    cbn [fmap list_fmap candidates usageMetadata modelVersion].
    by rewrite Hcs.
Qed.

Lemma stream_data_empty st data :
  toolNameMap (snd st) = [] ->
  fst (data_step st data) = fst st ++ [innerResponse data] /\
  toolNameMap (snd (data_step st data)) = [].
Proof.
  intros Hc. subst data_step. unfold stream_data.
  destruct (candidates (innerResponse data)) as [cs|] eqn:Hcs.
  - destruct (GeminiResponseFacts.process_candidates_empty now
                sessionId modelName cs (snd st) Hc) as [H1 H2].
    destruct (Gemini.process_candidates now sessionId modelName cs (snd st))
      as [cs' c'].
    cbn [fst snd] in *. split; [|done]. subst cs'. f_equal.
    destruct (innerResponse data). simpl in Hcs. by subst.
  - cbn [fst snd]. split; [|done]. f_equal.
    destruct (innerResponse data). simpl in Hcs. by subst.
Qed.

Lemma stream_datas_without_names ds st :
  without_names <$> fst (foldl data_step st ds) =
  (without_names <$> fst st) ++ (without_names <$> (innerResponse <$> ds)).
Proof.
  revert st. induction ds as [|d ds IH]; intros st.
  - simpl. by rewrite List.app_nil_r.
  - cbn [foldl]. rewrite IH, stream_data_without_names, <- List.app_assoc.
    done.
Qed.

Lemma stream_datas_empty ds st :
  toolNameMap (snd st) = [] ->
  fst (foldl data_step st ds) = fst st ++ (innerResponse <$> ds).
Proof.
  revert st. induction ds as [|d ds IH]; intros st Hc.
  - simpl. by rewrite List.app_nil_r.
  - cbn [foldl]. destruct (stream_data_empty st d Hc) as [H1 H2].
    rewrite IH, H1, <- List.app_assoc; done.
Qed.

Lemma gemini_stream_lines st lines :
  foldl line_step st lines =
  foldl data_step st
    (omap (fun line => OpenAIResponse.data_payload line ≫= JSON_parse) lines).
Proof.
  revert st. induction lines as [|line lines IH]; intros st; [done|].
  cbn [foldl omap list_omap]. subst line_step. unfold stream_line at 2.
  destruct (OpenAIResponse.data_payload line) as [jsonText|]; simpl;
    [|apply IH].
  destruct (JSON_parse jsonText) as [data|]; simpl; apply IH.
Qed.

Lemma stream_body body c :
  streamGoogleToGemini now JSON_parse modelName sessionId body c =
  foldl data_step ([], c)
    (omap (fun line => OpenAIResponse.data_payload line ≫= JSON_parse)
       (SSESpec.body_lines body)).
Proof.
  unfold streamGoogleToGemini.
  change (stream_read now JSON_parse modelName sessionId)
    with (SSESpec.read line_step).
  by rewrite ReadFacts.read_body, gemini_stream_lines.
Qed.

End Stream.

End GeminiStreamFacts.

(** [X22] [streamGoogleToGemini] yields one response for each payload
    of the body that parses, in the order of the body, and each is the
    payload itself but for the names of its function calls.  When the
    tool-name cache is empty the payloads are passed on exactly as they
    came.  How the body is cut into reads makes no difference. *)
Theorem gemini_stream_passes_payloads_on
    (now : Z) (JSON_parse : string -> option Native.SSEData)
    (modelName sessionId : string) (body : list string) (c : caches) :
  let result :=
    GeminiStream.streamGoogleToGemini now JSON_parse modelName sessionId
      body c in
  GeminiResponseSpec.without_names <$> fst result =
  GeminiResponseSpec.without_names <$> SSESpec.payloads JSON_parse body /\
  length (fst result) = length (SSESpec.payloads JSON_parse body) /\
  (toolNameMap c = [] -> fst result = SSESpec.payloads JSON_parse body) /\
  (forall body',
     SSESpec.body_text body' = SSESpec.body_text body ->
     GeminiStream.streamGoogleToGemini now JSON_parse modelName sessionId
       body' c = result).
Proof.
  intros result. subst result.
  rewrite GeminiStreamFacts.stream_body.
  assert (Hnames :
    GeminiResponseSpec.without_names <$>
      fst (foldl (GeminiStream.stream_data now modelName sessionId) ([], c)
             (omap (fun line => OpenAIResponse.data_payload line ≫= JSON_parse)
                (SSESpec.body_lines body))) =
    GeminiResponseSpec.without_names <$> SSESpec.payloads JSON_parse body).
  { by rewrite GeminiStreamFacts.stream_datas_without_names. }
  split; [exact Hnames|]. split; [|split].
  - apply (f_equal length) in Hnames. by rewrite !length_fmap in Hnames.
  - intros Hc. by rewrite GeminiStreamFacts.stream_datas_empty.
  - intros body' Htext. rewrite GeminiStreamFacts.stream_body.
    unfold SSESpec.body_lines. by rewrite Htext.
Qed.

(** ** Events written and read *)

Module EventFacts.
Import StringFacts OpenAIResponse SSESpec GeminiResponseSpec GeminiStream.

Lemma includes_newline_cons c s :
  JS.includes (String newline "") (String c s) =
  Ascii.eqb newline c || JS.includes (String newline "") s.
Proof. cbn [JS.includes JS.startsWith]. by rewrite andb_true_r. Qed.

(** A text without line feed, followed by a line feed, is one line. *)
Lemma lines_and_rest_line s t :
  JS.includes (String newline "") s = false ->
  lines_and_rest (s +:+ String newline t) =
  (s :: fst (lines_and_rest t), snd (lines_and_rest t)).
Proof.
  induction s as [|c s IH]; intros Hs.
  - rewrite app_nil_l. cbn [lines_and_rest].
    destruct (lines_and_rest t). by rewrite Ascii.eqb_refl.
  - rewrite includes_newline_cons in Hs. apply orb_false_elim in Hs.
    destruct Hs as [Hc Hs]. rewrite app_cons. cbn [lines_and_rest].
    rewrite (IH Hs). rewrite Ascii.eqb_sym in Hc. by rewrite Hc.
Qed.

Lemma data_payload_event jsonText :
  event_text jsonText -> data_payload ("data: " +:+ jsonText) = Some jsonText.
Proof.
  intros (Hne & _ & Htrim). unfold data_payload.
  rewrite !app_cons, app_nil_l. cbn [JS.startsWith JS.slice_from Ascii.eqb
    Bool.eqb andb].
  assert (JS.trim (String " " jsonText) = jsonText) as ->.
  { unfold JS.trim in *. cbn [JS.trimStart]. done. }
  by destruct jsonText.
Qed.

Lemma event_line_no_newline jsonText :
  event_text jsonText ->
  JS.includes (String newline "") ("data: " +:+ jsonText) = false.
Proof.
  intros (_ & Hnl & _). rewrite !app_cons, app_nil_l.
  rewrite !includes_newline_cons. by rewrite Hnl.
Qed.

(** The lines of a run of events: for each event its [data:] line and
    an empty line. *)
Lemma events_lines js :
  Forall event_text js ->
  lines_and_rest (body_text (formatSSEEvent <$> js)) =
  (js ≫= (fun jsonText => ["data: " +:+ jsonText; ""]), "").
Proof.
  induction 1 as [|j js Hj _ IH]; [done|].
  rewrite fmap_cons. unfold body_text in *. cbn [foldr].
  set (rest := foldr String.append "" (formatSSEEvent <$> js)) in *.
  change (String.append (formatSSEEvent j) rest)
    with (formatSSEEvent j +:+ rest).
  replace (formatSSEEvent j +:+ rest)
    with (("data: " +:+ j) +:+ String newline (String newline rest)).
  - rewrite lines_and_rest_line by by apply event_line_no_newline.
    cbn [lines_and_rest]. rewrite IH. by rewrite Ascii.eqb_refl.
  - unfold formatSSEEvent. by rewrite !app_assoc.
Qed.

End EventFacts.

(** [X23] What the Gemini route writes, the readers of this gateway
    read back: a run of events written by [formatSSEEvent], cut into
    reads in any way, is read as exactly the JSON texts that were written,
    in order, one payload for each event. *)
Theorem sse_events_are_read_back
    (jsonTexts : list string) (body : list string) :
  Forall GeminiResponseSpec.event_text jsonTexts ->
  SSESpec.body_text body =
  SSESpec.body_text (GeminiStream.formatSSEEvent <$> jsonTexts) ->
  omap OpenAIResponse.data_payload (SSESpec.body_lines body) = jsonTexts.
Proof.
  intros Htexts Hbody. unfold SSESpec.body_lines.
  rewrite Hbody, EventFacts.events_lines by done. cbn [fst]. clear Hbody.
  induction Htexts as [|j js Hj _ IH]; [done|].
  rewrite bind_cons. cbn [app omap list_omap].
  rewrite EventFacts.data_payload_event by done.
  change (OpenAIResponse.data_payload "") with (@None string).
  cbn. by rewrite IH.
Qed.

Lemma sse_events_are_read_back_witness :
  omap OpenAIResponse.data_payload
    (SSESpec.body_lines
       ["data: {a}" +:+ ThinkingExample.nl;
        ThinkingExample.nl +:+ "data: {b";
        "}" +:+ ThinkingExample.nl +:+ ThinkingExample.nl]) =
  ["{a}"; "{b}"].
Proof.
  apply (sse_events_are_read_back ["{a}"; "{b}"]).
  - repeat constructor; try discriminate; vm_compute; reflexivity.
  - vm_compute. reflexivity.
Defined.

(** ** The OpenAI request converter *)

Module ChatFacts.
Import OpenAIConvert ChatSpec.

Lemma eq_role (r : string) (known : string) :
  JS.eq r known = true -> r = known.
Proof. apply String.eqb_eq. Qed.

Lemma push_to_last_snoc more turns turn :
  push_to_last more (turns ++ [turn]) =
  turns ++ [{| t_role := t_role turn; t_parts := t_parts turn ++ more |}].
Proof.
  unfold push_to_last. rewrite length_app, Nat.add_1_r, Nat.pred_succ.
  rewrite <- (Nat.add_0_r (length turns)) at 1.
  by rewrite alter_app_r.
Qed.

Lemma find_app_first {A} (f : A -> bool) (l1 l2 : list A) :
  List.find f (l1 ++ l2) =
  match List.find f l1 with
  | Some x => Some x
  | None => List.find f l2
  end.
Proof.
  induction l1 as [|x l1 IH]; [done|]. cbn [app List.find].
  by destruct (f x).
Qed.

Lemma calls_snoc turns turn :
  calls (turns ++ [turn]) = calls turns ++ omap call_of (t_parts turn).
Proof.
  unfold calls. rewrite bind_app, omap_app. cbn [mbind list_bind].
  by rewrite List.app_nil_r.
Qed.

Lemma responses_snoc turns turn :
  responses (turns ++ [turn]) =
  responses turns ++ omap response_of (t_parts turn).
Proof.
  unfold responses. rewrite bind_app, omap_app. cbn [mbind list_bind].
  by rewrite List.app_nil_r.
Qed.

Section Converter.

Variable sha256_hex : string -> string.
Variable now : Z.
Variables session_uuid request_uuid : string.
Variable JSON_parse_args : string -> option string.
Variable match_data_url : string -> option (string * string).
Variable sanitizeSchema : ToolConverter.Schema -> option ToolConverter.Schema.
Variable cleanSchemaForGemini : ToolConverter.Schema -> ToolConverter.Schema.

Let sent (toolCall : ToolCall) : option string * string * option string :=
  (tc_id toolCall, upstream_name toolCall,
   tc_arguments toolCall ≫= JSON_parse_args).

Lemma convert_tool_call_sent thinking modelName sessionId toolCall c part c' :
  convert_tool_call now JSON_parse_args thinking modelName sessionId toolCall c
    = (Some part, c') ->
  call_of part = Some (sent toolCall) /\ response_of part = None /\
  is_thought part = false.
Proof.
  unfold convert_tool_call, createFunctionCallPart, sent.
  destruct (SignatureCache.getCachedSignature _ _ _) as [cachedSig sigs].
  destruct (tc_arguments toolCall) as [text|]; cbn [mbind option_bind].
  - destruct (JSON_parse_args text) as [parsed|]; [|done].
    intros [= <- <-]. done.
  - intros [= <- <-]. done.
Qed.

Lemma convert_tool_calls_sent thinking modelName sessionId toolCalls c parts c' :
  convert_tool_calls now JSON_parse_args thinking modelName sessionId
    toolCalls c = (Some parts, c') ->
  omap call_of parts = sent <$> toolCalls /\ omap response_of parts = [] /\
  forallb (fun part => negb (is_thought part)) parts = true.
Proof.
  revert c parts. induction toolCalls as [|toolCall rest IH]; intros c parts.
  - intros [= <- <-]. done.
  - cbn [convert_tool_calls].
    destruct (convert_tool_call _ _ _ _ _ _ _) as [[part|] c1] eqn:Hone; [|done].
    destruct (convert_tool_calls _ _ _ _ _ _ _) as [[more|] c2] eqn:Hrest;
      [|done].
    intros [= <- <-].
    destruct (convert_tool_call_sent _ _ _ _ _ _ _ Hone) as (Hc & Hr & Ht).
    destruct (IH _ _ Hrest) as (Hcs & Hrs & Hts).
    cbn [omap list_omap forallb fmap list_fmap].
    rewrite Hc, Hr, Ht. cbn [negb andb]. by rewrite <- Hcs, Hrs.
Qed.

Lemma extract_item_images result item :
  forallb (fun part => match part with InlineDataPart _ _ => true | _ => false end)
    (snd result) = true ->
  forallb (fun part => match part with InlineDataPart _ _ => true | _ => false end)
    (snd (extract_item match_data_url result item)) = true.
Proof.
  intros Hres. unfold extract_item.
  destruct (JS.eq (i_type item) "text"); [done|].
  destruct (JS.eq (i_type item) "image_url"); [|done].
  destruct (match_data_url _) as [[subtype data]|]; [|done].
  cbn [snd]. by rewrite forallb_app, Hres.
Qed.

Lemma extract_images content :
  forallb (fun part => match part with InlineDataPart _ _ => true | _ => false end)
    (snd (extractImagesFromContent match_data_url content)) = true.
Proof.
  destruct content as [s|items|]; [done| |done].
  cbn [extractImagesFromContent].
  assert (Hgen : forall result,
    forallb (fun part => match part with InlineDataPart _ _ => true | _ => false end)
      (snd result) = true ->
    forallb (fun part => match part with InlineDataPart _ _ => true | _ => false end)
      (snd (foldl (extract_item match_data_url) result items)) = true).
  { induction items as [|item items IH]; intros result Hres; [done|].
    cbn [foldl]. apply IH. by apply extract_item_images. }
  by apply Hgen.
Qed.

Lemma images_plain images :
  forallb (fun part => match part with InlineDataPart _ _ => true | _ => false end)
    images = true ->
  omap call_of images = [] /\ omap response_of images = [] /\
  forallb (fun part => negb (is_thought part)) images = true.
Proof.
  induction images as [|part images IH]; [done|].
  cbn [forallb]. intros [Hpart Hrest]%andb_true_iff.
  destruct (IH Hrest) as (Hc & Hr & Ht). by destruct part.
Qed.

(** The calls of one message. *)
Let asked (message : Message) : list ToolCall :=
  if JS.eq (role message) "assistant" then default [] (tool_calls message)
  else [].

(** The response to one message, given the turns before it. *)
Let answered (turns : list Turn) (message : Message)
  : list (option string * string * Content) :=
  if JS.eq (role message) "tool" then
    [(tool_call_id message,
      findFunctionNameById (tool_call_id message) turns, content message)]
  else [].

Lemma message_step thinking modelName sessionId turns c message turns' c' :
  convert_message now JSON_parse_args match_data_url thinking modelName
    sessionId (Some turns, c) message = (Some turns', c') ->
  (turns' = turns /\ asked message = [] /\ answered turns message = []) \/
  exists r parts,
    (r = "model" \/ r = "user" /\ omap call_of parts = []) /\
    omap call_of parts = sent <$> asked message /\
    omap response_of parts = answered turns message /\
    (thinking = false ->
     forallb (fun part => negb (is_thought part)) parts = true) /\
    ((turns' = turns ++ [{| t_role := r; t_parts := parts |}] /\
      (thinking = true -> r = "model" ->
       exists text rest, text <> "" /\ parts = ThoughtPart text :: rest)) \/
     exists init final,
       turns = init ++ [final] /\ t_role final = r /\
       turns' =
         init ++ [{| t_role := r; t_parts := t_parts final ++ parts |}]).
Proof.
  unfold convert_message, asked, answered.
  destruct (JS.eq (role message) "user" || JS.eq (role message) "system")
    eqn:Huser.
  { intros [= <- <-]. right.
    assert (Hrole : JS.eq (role message) "assistant" = false /\
                    JS.eq (role message) "tool" = false).
    { apply orb_true_iff in Huser as [->%eq_role| ->%eq_role]; done. }
    destruct Hrole as [-> ->].
    destruct (images_plain _ (extract_images (content message)))
      as (Hc & Hr & Ht).
    exists "user", (TextPart (fst (extractImagesFromContent match_data_url
                                     (content message)))
                    :: snd (extractImagesFromContent match_data_url
                              (content message))).
    cbn [omap list_omap call_of response_of forallb is_thought negb andb].
    rewrite Hc, Hr, Ht.
    split; [by right|]. split; [done|]. split; [done|]. split; [done|].
    left. split; [done|]. by intros _ [=]. }
  destruct (JS.eq (role message) "assistant") eqn:Hassistant.
  { assert (Htool : JS.eq (role message) "tool" = false).
    { by apply eq_role in Hassistant as ->. }
    rewrite Htool. unfold handleAssistantMessage.
    intros Hdone. right.
    destruct (content message) as [s|items|] eqn:Hcontent; [| done |].
    all: destruct (if match tool_calls message with
                      | Some (_ :: _) => true | _ => false end
                   then convert_tool_calls now JSON_parse_args thinking
                          modelName sessionId (default [] (tool_calls message)) c
                   else (Some [], c)) as [[toolCalls|] c1] eqn:Hcalls;
      [|done].
    all: assert (Hsent : omap call_of toolCalls =
                           sent <$> default [] (tool_calls message) /\
                         omap response_of toolCalls = [] /\
                         forallb (fun part => negb (is_thought part)) toolCalls
                           = true).
    1, 3: destruct (tool_calls message) as [[|toolCall more]|];
          [by injection Hcalls as <- _
          |by apply convert_tool_calls_sent in Hcalls
          |by injection Hcalls as <- _].
    all: destruct Hsent as (Hc & Hr & Ht).
    all: injection Hdone as Hturns _; subst turns'.
    all: unfold pushModelMessage.
    all: destruct (last turns) as [final|] eqn:Hlast.
    all: try (apply last_Some in Hlast as [init ->]).
    all: try (apply last_None in Hlast as ->).
    all: try destruct (JS.eq (t_role final) "model" &&
                  negb (length toolCalls =? 0)%nat && _) eqn:Hmerge.
    all: try (apply andb_true_iff in Hmerge as [[Hmodel _]%andb_true_iff _];
              apply eq_role in Hmodel;
              exists "model", toolCalls; rewrite Hc, Hr, Ht;
              split; [by left|]; split; [done|]; split; [done|];
              split; [done|]; right; exists init, final;
              by rewrite push_to_last_snoc, Hmodel).
    all: match goal with
         | |- context [ {| t_role := "model"; t_parts := ?ps |} ] =>
             exists "model", ps
         end; (split; [by left|]).
    all: rewrite !omap_app, Hc, Hr, forallb_app, Ht.
    all: (split; [|split; [|split; [|left; split; [reflexivity|]]]]).
    all: try (by destruct thinking; [destruct (JS.trim s)|destruct (JS.trim s)]).
    all: try (by destruct thinking).
    all: try (intros -> _; unfold createThoughtPart;
              eexists _, _; split; [|reflexivity];
              by destruct (reasoning_content message) as [[|? ?]|]). }
  destruct (JS.eq (role message) "tool") eqn:Htool.
  { intros [= <- <-]. right. unfold handleToolCall, pushFunctionResponse.
    exists "user", [FunctionResponsePart (tool_call_id message)
                      (findFunctionNameById (tool_call_id message) turns)
                      (content message)].
    split; [by right|]. split; [done|]. split; [done|]. split; [done|].
    destruct (last turns) as [final|] eqn:Hlast.
    - apply last_Some in Hlast as [init ->].
      destruct (JS.eq (t_role final) "user" && _) eqn:Hmerge.
      + apply andb_true_iff in Hmerge as [Hrole%eq_role _].
        right. exists init, final. by rewrite push_to_last_snoc, Hrole.
      + left. split; [done|]. by intros _ [=].
    - apply last_None in Hlast as ->. left. split; [done|]. by intros _ [=]. }
  intros [= <- <-]. by left.
Qed.

Lemma run_failed thinking modelName sessionId c messages :
  foldl (convert_message now JSON_parse_args match_data_url thinking modelName
           sessionId) (None, c) messages = (None, c).
Proof. induction messages as [|message messages IH]; [done|]. exact IH. Qed.

(** No turn but a model turn holds a function call. *)
Let tidy (turn : Turn) : Prop :=
  JS.eq (t_role turn) "model" = false -> omap call_of (t_parts turn) = [].

Let grown (turns : list Turn) (r : string) (parts : list Part)
    (turns' : list Turn) : Prop :=
  turns' = turns ++ [{| t_role := r; t_parts := parts |}] \/
  exists init final,
    turns = init ++ [final] /\ t_role final = r /\
    turns' = init ++ [{| t_role := r; t_parts := t_parts final ++ parts |}].

Lemma grown_calls turns r parts turns' :
  grown turns r parts turns' ->
  calls turns' = calls turns ++ omap call_of parts.
Proof.
  intros [->|(init & final & -> & _ & ->)]; rewrite !calls_snoc; [done|].
  cbn [t_parts]. by rewrite omap_app, List.app_assoc.
Qed.

Lemma grown_responses turns r parts turns' :
  grown turns r parts turns' ->
  responses turns' = responses turns ++ omap response_of parts.
Proof.
  intros [->|(init & final & -> & _ & ->)]; rewrite !responses_snoc; [done|].
  cbn [t_parts]. by rewrite omap_app, List.app_assoc.
Qed.

Lemma grown_tidy turns r parts turns' :
  grown turns r parts turns' ->
  r = "model" \/ omap call_of parts = [] ->
  Forall tidy turns -> Forall tidy turns'.
Proof.
  intros [->|(init & final & -> & Hrole & ->)] Hparts Hturns.
  - apply Forall_app. split; [done|]. constructor; [|done].
    unfold tidy. cbn [t_role t_parts]. by destruct Hparts as [->| ->].
  - apply Forall_app in Hturns as [Hinit Hfinal].
    apply Forall_app. split; [done|]. constructor; [|done].
    apply Forall_inv in Hfinal. unfold tidy in *. cbn [t_role t_parts].
    rewrite <- Hrole. intros Hother. rewrite omap_app, (Hfinal Hother).
    destruct Hparts as [->| ->]; [|done]. by rewrite Hrole in Hother.
Qed.

Lemma id_eq_eq a b : id_eq a b = true -> a = b.
Proof.
  destruct a as [x|], b as [y|]; cbn [id_eq]; try done.
  by intros ->%String.eqb_eq.
Qed.

Lemma find_call_name_spec id parts made :
  omap call_of parts = sent <$> made ->
  find_call_name id parts =
  upstream_name <$> List.find (fun toolCall => id_eq (tc_id toolCall) id) made.
Proof.
  revert made. induction parts as [|part parts IH]; intros made.
  - intros Hmade. symmetry in Hmade. by apply fmap_nil_inv in Hmade as ->.
  - destruct part as [text|text|callId name args signature|? ? ?|? ?];
      cbn [omap list_omap call_of find_call_name]; try apply IH.
    destruct made as [|toolCall made]; [done|].
    cbn [fmap list_fmap List.find]. intros [= -> -> _ Hrest].
    destruct (id_eq (tc_id toolCall) id); [done|]. by apply IH.
Qed.

Lemma find_name_spec id turns made :
  Forall tidy turns -> calls turns = sent <$> made ->
  NoDup (tc_id <$> made) ->
  findFunctionNameById id turns = name_of_call id made.
Proof.
  unfold findFunctionNameById, name_of_call.
  revert made. induction turns as [|turn turns IH] using rev_ind; intros made.
  - intros _ Hmade _. symmetry in Hmade. by apply fmap_nil_inv in Hmade as ->.
  - intros [Hturns Hturn%Forall_inv]%Forall_app Hmade Hids.
    rewrite calls_snoc in Hmade. symmetry in Hmade.
    apply fmap_app_inv in Hmade as (made1 & made2 & Hmade1 & Hmade2 & ->).
    rewrite fmap_app in Hids. apply NoDup_app in Hids as (Hids1 & Hfresh & _).
    rewrite reverse_snoc. cbn [find_name_from_last].
    rewrite find_app_first.
    destruct (JS.eq (t_role turn) "model") eqn:Hrole.
    + rewrite (find_call_name_spec id _ made2) by done.
      destruct (List.find _ made2) as [toolCall|] eqn:Hfound2.
      * destruct (List.find _ made1) as [earlier|] eqn:Hfound1; [|done].
        exfalso. apply find_some in Hfound1 as [Hin1 Heq1%id_eq_eq].
        apply find_some in Hfound2 as [Hin2 Heq2%id_eq_eq].
        apply (Hfresh (tc_id earlier)).
        -- apply list_elem_of_fmap. exists earlier. split; [done|].
           by apply list_elem_of_In.
        -- rewrite Heq1, <- Heq2. apply list_elem_of_fmap. exists toolCall.
           split; [done|]. by apply list_elem_of_In.
      * cbn [fmap option_fmap option_map]. rewrite (IH made1) by done.
        by destruct (List.find _ made1).
    + rewrite (Hturn Hrole) in Hmade2. symmetry in Hmade2.
      apply fmap_nil_inv in Hmade2 as ->. cbn [List.find].
      rewrite (IH made1) by done. by destruct (List.find _ made1).
Qed.

Lemma conversation_steps thinking modelName sessionId messages :
  forall turns c turns' c',
  foldl (convert_message now JSON_parse_args match_data_url thinking modelName
           sessionId) (Some turns, c) messages = (Some turns', c') ->
  Forall tidy turns ->
  Forall tidy turns' /\
  calls turns' = calls turns ++ (sent <$> requested_calls messages) /\
  forall made,
    calls turns = sent <$> made ->
    NoDup (tc_id <$> (made ++ requested_calls messages)) ->
    responses turns' = responses turns ++ answers made messages.
Proof.
  induction messages as [|message messages IH]; intros turns c turns' c'.
  { intros [= <- <-] Htidy. rewrite !List.app_nil_r.
    split; [done|]. split; [done|]. intros made _ _.
    cbn [answers]. by rewrite List.app_nil_r. }
  cbn [foldl].
  destruct (convert_message _ _ _ _ _ _ (Some turns, c) message)
    as [[turns1|] c1] eqn:Hstep; [|by rewrite run_failed].
  intros Hrest Htidy.
  assert (Hone : Forall tidy turns1 /\
                 calls turns1 = calls turns ++ (sent <$> asked message) /\
                 responses turns1 = responses turns ++ answered turns message).
  { apply message_step in Hstep
      as [(-> & -> & ->)|(r & parts & Hr & Hc & Hp & _ & Hshape)].
    - by rewrite !List.app_nil_r.
    - assert (Hgrown : grown turns r parts turns1).
      { destruct Hshape as [[-> _]|Hmerged]; [by left|by right]. }
      rewrite <- Hc, <- Hp. split; [|split].
      + apply (grown_tidy _ _ _ _ Hgrown); [|done].
        destruct Hr as [->|[_ ->]]; [by left|by right].
      + by apply grown_calls in Hgrown.
      + by apply grown_responses in Hgrown. }
  destruct Hone as (Htidy1 & Hcalls1 & Hresponses1).
  destruct (IH _ _ _ _ Hrest Htidy1) as (Htidy' & Hcalls' & Hresponses').
  assert (Hasked : requested_calls (message :: messages) =
                   asked message ++ requested_calls messages) by done.
  rewrite Hasked. split; [done|]. split.
  { by rewrite Hcalls', Hcalls1, fmap_app, List.app_assoc. }
  intros made Hmade Hids.
  rewrite (Hresponses' (made ++ asked message)); cycle 1.
  { by rewrite Hcalls1, Hmade, fmap_app. }
  { by rewrite <- List.app_assoc. }
  rewrite Hresponses1, <- List.app_assoc. f_equal.
  unfold answered, asked. cbn [answers].
  destruct (JS.eq (role message) "tool") eqn:Htool.
  - apply eq_role in Htool as Hrole. rewrite Hrole.
    change (JS.eq "tool" "assistant") with false. rewrite List.app_nil_r.
    rewrite (find_name_spec _ _ made Htidy Hmade); [done|].
    rewrite fmap_app in Hids. by apply NoDup_app in Hids as [Hids _].
  - destruct (JS.eq (role message) "assistant"); [done|].
    by rewrite List.app_nil_r.
Qed.

Lemma conversation_turns thinking modelName sessionId messages :
  forall turns c turns' c',
  foldl (convert_message now JSON_parse_args match_data_url thinking modelName
           sessionId) (Some turns, c) messages = (Some turns', c') ->
  Forall (well_formed_turn thinking) turns ->
  Forall (well_formed_turn thinking) turns'.
Proof.
  induction messages as [|message messages IH]; intros turns c turns' c'.
  { by intros [= <- <-]. }
  cbn [foldl].
  destruct (convert_message _ _ _ _ _ _ (Some turns, c) message)
    as [[turns1|] c1] eqn:Hstep; [|by rewrite run_failed].
  intros Hrest Hturns. apply (IH _ _ _ _ Hrest). clear IH Hrest.
  apply message_step in Hstep
    as [(-> & _)|(r & parts & Hr & _ & _ & Hplain & Hshape)]; [done|].
  assert (Hrole : r = "user" \/ r = "model").
  { destruct Hr as [->|[-> _]]; [by right|by left]. }
  destruct Hshape as [[-> Hopens]|(init & final & -> & Hfinal & ->)].
  - apply Forall_app. split; [done|]. constructor; [|done].
    split; [done|]. cbn [t_role t_parts].
    destruct thinking; [|by apply Hplain].
    intros Hmodel. destruct (Hopens eq_refl Hmodel) as (text & rest & ? & ->).
    by exists text, rest.
  - apply Forall_app in Hturns as [Hinit [_ Hwas]%Forall_inv].
    apply Forall_app. split; [done|]. constructor; [|done].
    split; [done|]. cbn [t_role t_parts]. rewrite <- Hfinal.
    destruct thinking.
    + intros Hmodel. destruct (Hwas Hmodel) as (text & rest & ? & Hparts).
      exists text, (rest ++ parts). cbn [t_parts]. by rewrite Hparts.
    + by rewrite forallb_app, Hwas, Hplain.
Qed.

Lemma after_system_asked messages rest :
  after_system messages = Some rest ->
  requested_calls rest = requested_calls messages /\
  forall made, answers made rest = answers made messages.
Proof.
  induction messages as [|message messages IH]; [done|].
  cbn [after_system].
  destruct (JS.eq (role message) "system") eqn:Hrole; [|by intros [= <-]].
  intros [Hcalls Hanswers]%IH. apply eq_role in Hrole.
  unfold requested_calls in *. cbn [mbind list_bind answers].
  rewrite Hrole. by split.
Qed.

Lemma filtered_asked messages :
  requested_calls (filteredMessages messages) = requested_calls messages /\
  forall made,
    answers made (filteredMessages messages) = answers made messages.
Proof.
  unfold filteredMessages.
  destruct (after_system messages) as [rest|] eqn:Hrest; [|done].
  by apply after_system_asked.
Qed.

(** The parts of the body that [convertOpenAIToGoogle] returns. *)
Lemma convert_body openaiRequest projectId c body c' :
  convertOpenAIToGoogle sha256_hex now session_uuid request_uuid
    JSON_parse_args match_data_url sanitizeSchema cleanSchemaForGemini
    openaiRequest projectId c = (Some body, c') ->
  let actual := Constants.mapModelName (default "" (r_model openaiRequest)) in
  let session :=
    OpenAIRequest.deriveSessionId sha256_hex session_uuid
      (session_message <$> r_messages openaiRequest) in
  exists c1,
    openaiMessagesToAntigravity now JSON_parse_args match_data_url
      (filteredMessages (r_messages openaiRequest))
      (Constants.isThinkingModel actual) actual session c
      = (Some (contents (request body)), c1) /\
    generationConfig (request body) =
      generateGenerationConfig
        {| max_tokens := r_max_tokens openaiRequest;
           temperature := r_temperature openaiRequest;
           top_p := r_top_p openaiRequest;
           top_k := None;
           stop := r_stop openaiRequest;
           thinking_budget := None;
           reasoning_effort := r_reasoning_effort openaiRequest |}
        (Constants.isThinkingModel actual) actual /\
    let converted :=
      fst (convertOpenAIToolsToAntigravity now sanitizeSchema
             cleanSchemaForGemini (r_tools openaiRequest) session actual
             (toolNameMap c1)) in
    tools (request body) =
      (if (length converted =? 0)%nat then None else Some converted) /\
    toolConfig (request body) =
      (if (length converted =? 0)%nat then None else Some Gemini.VALIDATED).
Proof.
  intros Hbody actual session. unfold convertOpenAIToGoogle in Hbody.
  fold actual session in Hbody.
  destruct (openaiMessagesToAntigravity _ _ _ _ _ _ _ _)
    as [[turns|] c1] eqn:Hturns; [|done].
  exists c1.
  destruct (convertOpenAIToolsToAntigravity _ _ _ _ _ _ _)
    as [converted names] eqn:Htools.
  injection Hbody as <- _. cbn [request contents generationConfig tools
                                toolConfig fst].
  by destruct (length converted =? 0)%nat.
Qed.

Lemma get_set_same key v o : Json.get key (Json.set key v o) = Some v.
Proof.
  induction o as [|[k w] o IH]; cbn [Json.set Json.get].
  - by rewrite StringFacts.eq_refl_true.
  - destruct (JS.eq k key) eqn:Hk; cbn [Json.get]; by rewrite Hk.
Qed.

Lemma get_set_other key other v o :
  JS.eq key other = false ->
  Json.get other (Json.set key v o) = Json.get other o.
Proof.
  intros Hother. induction o as [|[k w] o IH]; cbn [Json.set Json.get].
  - by rewrite Hother.
  - destruct (JS.eq k key) eqn:Hk; cbn [Json.get].
    + apply String.eqb_eq in Hk as ->. by rewrite Hother.
    + by rewrite IH.
Qed.

Lemma match_object {A} (t : Json.json) (x y : A) :
  match t with
  | Json.JStr "object" => x
  | _ => y
  end =
  if match t with Json.JStr s => JS.eq s "object" | _ => false end
  then x else y.
Proof.
  destruct t as [|b|q|s|items|fields]; try reflexivity.
  do 6 (destruct s as [|[[] [] [] [] [] [] [] []] s]; try reflexivity).
  by destruct s.
Qed.

Lemma convertSingleTool_typed n d p s mo m :
  typed_schema
    (ToolConverter.parameters
       (fst (ToolConverter.convertSingleTool sanitizeSchema
               cleanSchemaForGemini now n d p s mo m))).
Proof.
  unfold ToolConverter.convertSingleTool. cbn [fst ToolConverter.parameters].
  set (cleaned := match Constants.getModelFamily mo with
                  | Constants.gemini => _
                  | _ => _
                  end).
  set (typed := match Json.get "type" cleaned with
                | None => _
                | Some _ => _
                end).
  assert (Htyped : is_Some (Json.get "type" typed)).
  { subst typed. destruct (Json.get "type" cleaned) eqn:Hget.
    - by rewrite Hget.
    - by rewrite get_set_same. }
  destruct Htyped as [t Ht]. rewrite Ht, match_object. unfold typed_schema.
  destruct t as [|b|q|ty|items|fields];
    try (split; [by rewrite Ht; eexists|by rewrite Ht]).
  destruct (JS.eq ty "object") eqn:Hty.
  - apply String.eqb_eq in Hty as ->.
    destruct (Json.get "properties" typed) eqn:Hprops.
    + split; [by exists (Json.JStr "object")|]. by rewrite Hprops.
    + split.
      * rewrite get_set_other by done. by exists (Json.JStr "object").
      * intros _. by rewrite get_set_same.
  - split; [by exists (Json.JStr ty)|]. rewrite Ht. intros [= ->].
    by rewrite StringFacts.eq_refl_true in Hty.
Qed.


Lemma convert_openai_tools_declares openaiTools s mo m :
  Forall2 declares openaiTools
    (fst (convert_openai_tools now sanitizeSchema cleanSchemaForGemini
            openaiTools s mo m)).
Proof.
  revert m. induction openaiTools as [|tool rest IH]; intros m; [constructor|].
  cbn [convert_openai_tools].
  destruct (ToolConverter.convertSingleTool _ _ _ _ _ _ _ _ _)
    as [declaration m1] eqn:Hone.
  specialize (IH m1).
  destruct (convert_openai_tools _ _ _ _ _ _ _) as [converted m2].
  cbn [fst] in *. constructor; [|done].
  exists declaration. split; [done|].
  assert (Hname : ToolConverter.name declaration =
                  ToolConverter.sanitizeToolName
                    (ToolConverter.value_of
                       (function tool ≫= ToolConverter.d_name))).
  { apply (f_equal fst) in Hone. cbn [fst] in Hone. subst declaration.
    by destruct (function tool). }
  split; [done|]. split.
  - rewrite Hname. apply GeminiRequestFacts.sanitizeToolName_safe_name.
  - apply (f_equal fst) in Hone. cbn [fst] in Hone. subst declaration.
    apply convertSingleTool_typed.
Qed.

Lemma effort_budget_spec effort :
  (if JS.truthy effort
   then default (BudgetNumber DEFAULTS.thinking_budget)
          (REASONING_EFFORT_MAP (default "" effort))
   else BudgetNumber DEFAULTS.thinking_budget) = effort_budget effort.
Proof.
  destruct effort as [name|]; [|done]. unfold effort_budget.
  destruct name as [|a name]; [done|].
  cbn [JS.truthy].
  change (default "" (Some (String a name))) with (String a name).
  unfold REASONING_EFFORT_MAP.
  destruct (JS.eq (String a name) "low"); [done|].
  destruct (JS.eq (String a name) "medium") eqn:Hmedium.
  - apply String.eqb_eq in Hmedium. rewrite Hmedium. reflexivity.
  - destruct (JS.eq (String a name) "high"); [done|].
    by destruct (existsb _ _).
Qed.

End Converter.

End ChatFacts.

(** [X24] The generation configuration of the request that
    [convertOpenAIToGoogle] builds.  For a model of the Gemini family the
    output-token limit never exceeds 16384, and for any other model it is
    the limit the request asks for.  A thinking configuration is written
    exactly when the mapped model is a thinking model, and its budget is
    the one that belongs to the reasoning effort of the request. *)
Theorem openai_generation_config
    (sha256_hex : string -> string) (now : Z)
    (session_uuid request_uuid : string)
    (JSON_parse_args : string -> option string)
    (match_data_url : string -> option (string * string))
    (sanitizeSchema : ToolConverter.Schema -> option ToolConverter.Schema)
    (cleanSchemaForGemini : ToolConverter.Schema -> ToolConverter.Schema)
    (openaiRequest : OpenAIConvert.ChatRequest) (projectId : string)
    (c : caches) (body : OpenAIConvert.RequestBody) (c' : caches) :
  OpenAIConvert.convertOpenAIToGoogle sha256_hex now session_uuid request_uuid
    JSON_parse_args match_data_url sanitizeSchema cleanSchemaForGemini
    openaiRequest projectId c = (Some body, c') ->
  let actual :=
    Constants.mapModelName (default "" (OpenAIConvert.r_model openaiRequest)) in
  let config := OpenAIConvert.generationConfig (OpenAIConvert.request body) in
  let sent := OpenAIConvert.maxOutputTokens config in
  let requested := ChatSpec.requested_max_tokens openaiRequest in
  (Constants.getModelFamily actual = Constants.gemini ->
   (sent <= inject_Z Constants.GEMINI_MAX_OUTPUT_TOKENS)%Q /\
   ((requested <= inject_Z Constants.GEMINI_MAX_OUTPUT_TOKENS)%Q ->
    sent = requested)) /\
  (Constants.getModelFamily actual <> Constants.gemini -> sent = requested) /\
  (is_Some (OpenAIConvert.thinkingConfig config) <->
   Constants.isThinkingModel actual = true) /\
  (forall thinking,
     OpenAIConvert.thinkingConfig config = Some thinking ->
     ChatSpec.budget_of thinking =
     ChatSpec.effort_budget (OpenAIConvert.r_reasoning_effort openaiRequest)).
Proof.
  intros Hbody actual config sent requested.
  destruct (ChatFacts.convert_body _ _ _ _ _ _ _ _ _ _ _ _ _ Hbody)
    as (c1 & _ & Hconfig & _).
  fold actual config in Hconfig. subst sent. rewrite Hconfig.
  unfold OpenAIConvert.generateGenerationConfig.
  cbn [OpenAIConvert.maxOutputTokens OpenAIConvert.thinkingConfig
       OpenAIConvert.max_tokens OpenAIConvert.thinking_budget
       OpenAIConvert.reasoning_effort].
  change (Gemini.or_number _ _) with requested.
  rewrite ChatFacts.effort_budget_spec.
  pose proof (ModelFamilyFacts.isThinkingModel_family actual) as Hfamily.
  split; [|split; [|split]].
  - intros ->.
    destruct (Qle_bool requested _) eqn:Hle; cbn [negb andb].
    + split; [by apply Qle_bool_iff | done].
    + split; [apply Qle_refl|]. intros H. apply Qle_bool_iff in H. congruence.
  - intros Hother. by destruct (Constants.getModelFamily actual).
  - destruct (Constants.isThinkingModel actual).
    + specialize (Hfamily eq_refl).
      destruct (Constants.getModelFamily actual); try done;
        by split; [|eexists].
    + split; [by intros [? [=]]|done].
  - intros thinking.
    destruct (Constants.isThinkingModel actual); [|done].
    destruct (Constants.getModelFamily actual); [| |done];
      by intros [= <-].
Qed.

Lemma openai_generation_config_witness :
  exists body,
    fst (ChatExample.converted "gemini-3-pro") = Some body /\
    let config := OpenAIConvert.generationConfig (OpenAIConvert.request body) in
    OpenAIConvert.maxOutputTokens config = inject_Z 16384 /\
    is_Some (OpenAIConvert.thinkingConfig config).
Proof.
  eexists. split; [vm_compute; reflexivity|].
  pose proof (openai_generation_config (fun text => text) 0 "session"
                "request" Some (fun _ => None) Some (fun schema => schema)
                (ChatExample.chat "gemini-3-pro") "project" ChatExample.fresh
                _ _ eq_refl) as (Hcap & _ & Hthinking & _).
  split.
  - vm_compute. reflexivity.
  - apply Hthinking. vm_compute. reflexivity.
Defined.

(** [X25] The tools of the request that [convertOpenAIToGoogle] builds.
    Each tool of the client is declared as one function, in the order
    given, under its sanitised name, which the upstream accepts, and with
    a schema that names its type and, for an object, its properties.  The
    request asks for validated function calling exactly when it declares
    a tool, and has no tools entry otherwise. *)
Theorem openai_tools_are_declared
    (sha256_hex : string -> string) (now : Z)
    (session_uuid request_uuid : string)
    (JSON_parse_args : string -> option string)
    (match_data_url : string -> option (string * string))
    (sanitizeSchema : ToolConverter.Schema -> option ToolConverter.Schema)
    (cleanSchemaForGemini : ToolConverter.Schema -> ToolConverter.Schema)
    (openaiRequest : OpenAIConvert.ChatRequest) (projectId : string)
    (c : caches) (body : OpenAIConvert.RequestBody) (c' : caches) :
  OpenAIConvert.convertOpenAIToGoogle sha256_hex now session_uuid request_uuid
    JSON_parse_args match_data_url sanitizeSchema cleanSchemaForGemini
    openaiRequest projectId c = (Some body, c') ->
  let given := default [] (OpenAIConvert.r_tools openaiRequest) in
  let request := OpenAIConvert.request body in
  Forall2 ChatSpec.declares given (default [] (OpenAIConvert.tools request)) /\
  (OpenAIConvert.tools request = None <-> given = []) /\
  OpenAIConvert.toolConfig request =
    match given with
    | [] => None
    | _ :: _ => Some Gemini.VALIDATED
    end.
Proof.
  intros Hbody given request.
  destruct (ChatFacts.convert_body _ _ _ _ _ _ _ _ _ _ _ _ _ Hbody)
    as (c1 & _ & _ & Htools & Hconfig).
  fold request in Htools, Hconfig. rewrite Htools, Hconfig.
  unfold OpenAIConvert.convertOpenAIToolsToAntigravity. fold given.
  pose proof (ChatFacts.convert_openai_tools_declares now sanitizeSchema
                cleanSchemaForGemini given
                (OpenAIRequest.deriveSessionId sha256_hex session_uuid
                   (OpenAIConvert.session_message <$>
                      OpenAIConvert.r_messages openaiRequest))
                (Constants.mapModelName
                   (default "" (OpenAIConvert.r_model openaiRequest)))
                (toolNameMap c1)) as Hdeclared.
  destruct (fst (OpenAIConvert.convert_openai_tools _ _ _ _ _ _ _))
    as [|declared more].
  - apply Forall2_nil_inv_r in Hdeclared as ->. by split; [constructor|].
  - destruct given as [|tool rest]; [by apply Forall2_nil_inv_l in Hdeclared|].
    by split.
Qed.

Lemma openai_tools_are_declared_witness :
  exists body,
    fst (ChatExample.converted "gemini-3-pro") = Some body /\
    Forall2 ChatSpec.declares [ChatExample.weather_tool]
      (default [] (OpenAIConvert.tools (OpenAIConvert.request body))) /\
    OpenAIConvert.toolConfig (OpenAIConvert.request body)
      = Some Gemini.VALIDATED.
Proof.
  eexists. split; [vm_compute; reflexivity|].
  pose proof (openai_tools_are_declared (fun text => text) 0 "session"
                "request" Some (fun _ => None) Some (fun schema => schema)
                (ChatExample.chat "gemini-3-pro") "project" ChatExample.fresh
                _ _ eq_refl) as (Hdeclared & _ & Hconfig).
  split; [exact Hdeclared|exact Hconfig].
Defined.

(** [X26] Every tool call of the conversation reaches the upstream: the
    function calls in the turns that [convertOpenAIToGoogle] builds are
    the tool calls of the assistant messages, in their order, each with
    its id, its sanitised name and its parsed arguments.  Where the calls
    of an assistant message are added to the model turn before it, none
    is lost. *)
Theorem openai_tool_calls_reach_upstream
    (sha256_hex : string -> string) (now : Z)
    (session_uuid request_uuid : string)
    (JSON_parse_args : string -> option string)
    (match_data_url : string -> option (string * string))
    (sanitizeSchema : ToolConverter.Schema -> option ToolConverter.Schema)
    (cleanSchemaForGemini : ToolConverter.Schema -> ToolConverter.Schema)
    (openaiRequest : OpenAIConvert.ChatRequest) (projectId : string)
    (c : caches) (body : OpenAIConvert.RequestBody) (c' : caches) :
  OpenAIConvert.convertOpenAIToGoogle sha256_hex now session_uuid request_uuid
    JSON_parse_args match_data_url sanitizeSchema cleanSchemaForGemini
    openaiRequest projectId c = (Some body, c') ->
  ChatSpec.calls (OpenAIConvert.contents (OpenAIConvert.request body)) =
  (fun toolCall =>
     (OpenAIConvert.tc_id toolCall, ChatSpec.upstream_name toolCall,
      OpenAIConvert.tc_arguments toolCall ≫= JSON_parse_args)) <$>
    ChatSpec.requested_calls (OpenAIConvert.r_messages openaiRequest).
Proof.
  intros Hbody.
  destruct (ChatFacts.convert_body _ _ _ _ _ _ _ _ _ _ _ _ _ Hbody)
    as (c1 & Hturns & _).
  apply ChatFacts.conversation_steps in Hturns as (_ & Hcalls & _);
    [|constructor].
  rewrite Hcalls.
  by rewrite (proj1 (ChatFacts.filtered_asked _)).
Qed.

Lemma openai_tool_calls_reach_upstream_witness :
  exists body,
    fst (ChatExample.converted "claude-sonnet-4-5-thinking") = Some body /\
    ChatSpec.calls (OpenAIConvert.contents (OpenAIConvert.request body)) =
    [(Some "call_1", "get_weather", Some "{}")].
Proof.
  eexists. split; [vm_compute; reflexivity|].
  exact (openai_tool_calls_reach_upstream (fun text => text) 0 "session"
           "request" Some (fun _ => None) Some (fun schema => schema)
           (ChatExample.chat "claude-sonnet-4-5-thinking") "project"
           ChatExample.fresh _ _ eq_refl).
Defined.

(** [X27] In a conversation whose tool calls have distinct ids, every
    tool message becomes one function response, in the order of the
    messages, with the id and the content of the message and under the
    sanitised name of the call that it answers; the name is empty when no
    earlier call has the id. *)
Theorem openai_tool_results_are_labelled
    (sha256_hex : string -> string) (now : Z)
    (session_uuid request_uuid : string)
    (JSON_parse_args : string -> option string)
    (match_data_url : string -> option (string * string))
    (sanitizeSchema : ToolConverter.Schema -> option ToolConverter.Schema)
    (cleanSchemaForGemini : ToolConverter.Schema -> ToolConverter.Schema)
    (openaiRequest : OpenAIConvert.ChatRequest) (projectId : string)
    (c : caches) (body : OpenAIConvert.RequestBody) (c' : caches) :
  OpenAIConvert.convertOpenAIToGoogle sha256_hex now session_uuid request_uuid
    JSON_parse_args match_data_url sanitizeSchema cleanSchemaForGemini
    openaiRequest projectId c = (Some body, c') ->
  NoDup (OpenAIConvert.tc_id <$>
           ChatSpec.requested_calls (OpenAIConvert.r_messages openaiRequest)) ->
  ChatSpec.responses (OpenAIConvert.contents (OpenAIConvert.request body)) =
  ChatSpec.answers [] (OpenAIConvert.r_messages openaiRequest).
Proof.
  intros Hbody Hids.
  destruct (ChatFacts.convert_body _ _ _ _ _ _ _ _ _ _ _ _ _ Hbody)
    as (c1 & Hturns & _).
  apply ChatFacts.conversation_steps in Hturns as (_ & _ & Hresponses);
    [|constructor].
  destruct (ChatFacts.filtered_asked
              (OpenAIConvert.r_messages openaiRequest)) as [Hasked Hanswers].
  rewrite (Hresponses []); [by rewrite Hanswers|done|].
  by rewrite Hasked.
Qed.

Lemma openai_tool_results_are_labelled_witness :
  exists body,
    fst (ChatExample.converted "claude-sonnet-4-5-thinking") = Some body /\
    ChatSpec.responses (OpenAIConvert.contents (OpenAIConvert.request body)) =
    [(Some "call_1", "get_weather", OpenAIConvert.ContentString "sunny")].
Proof.
  eexists. split; [vm_compute; reflexivity|].
  apply (openai_tool_results_are_labelled (fun text => text) 0 "session"
           "request" Some (fun _ => None) Some (fun schema => schema)
           (ChatExample.chat "claude-sonnet-4-5-thinking") "project"
           ChatExample.fresh _ _ eq_refl).
  vm_compute. apply NoDup_singleton.
Defined.

(** [X28] Every turn that [convertOpenAIToGoogle] builds is a user turn
    or a model turn.  For a thinking model every model turn opens with a
    thought whose text is not empty, also where the assistant message
    came without reasoning; for any other model no turn holds a thought,
    and reasoning that the client sent back is left out. *)
Theorem openai_model_turns_open_with_thought
    (sha256_hex : string -> string) (now : Z)
    (session_uuid request_uuid : string)
    (JSON_parse_args : string -> option string)
    (match_data_url : string -> option (string * string))
    (sanitizeSchema : ToolConverter.Schema -> option ToolConverter.Schema)
    (cleanSchemaForGemini : ToolConverter.Schema -> ToolConverter.Schema)
    (openaiRequest : OpenAIConvert.ChatRequest) (projectId : string)
    (c : caches) (body : OpenAIConvert.RequestBody) (c' : caches) :
  OpenAIConvert.convertOpenAIToGoogle sha256_hex now session_uuid request_uuid
    JSON_parse_args match_data_url sanitizeSchema cleanSchemaForGemini
    openaiRequest projectId c = (Some body, c') ->
  Forall
    (ChatSpec.well_formed_turn
       (Constants.isThinkingModel
          (Constants.mapModelName
             (default "" (OpenAIConvert.r_model openaiRequest)))))
    (OpenAIConvert.contents (OpenAIConvert.request body)).
Proof.
  intros Hbody.
  destruct (ChatFacts.convert_body _ _ _ _ _ _ _ _ _ _ _ _ _ Hbody)
    as (c1 & Hturns & _).
  by apply ChatFacts.conversation_turns in Hturns.
Qed.

Lemma openai_model_turns_open_with_thought_witness :
  exists body,
    fst (ChatExample.converted "claude-sonnet-4-5-thinking") = Some body /\
    Forall (ChatSpec.well_formed_turn true)
      (OpenAIConvert.contents (OpenAIConvert.request body)).
Proof.
  eexists. split; [vm_compute; reflexivity|].
  exact (openai_model_turns_open_with_thought (fun text => text) 0 "session"
           "request" Some (fun _ => None) Some (fun schema => schema)
           (ChatExample.chat "claude-sonnet-4-5-thinking") "project"
           ChatExample.fresh _ _ eq_refl).
Defined.

Module SystemFacts.
Import OpenAIConvert ChatSpec.

Lemma system_texts_prefix systems rest :
  Forall (fun message => role message = "system") systems ->
  system_texts (systems ++ rest) =
  List.filter (fun text => negb (JS.eq text ""))
    ((fun message => JS.trim (message_text message)) <$> systems)
  ++ system_texts rest.
Proof.
  induction systems as [|message systems IH]; [done|].
  intros [Hrole Hrest]%Forall_cons. specialize (IH Hrest).
  cbn [app system_texts fmap list_fmap List.filter]. rewrite Hrole.
  change (JS.eq "system" "system") with true. cbv iota.
  fold (message_text message). rewrite IH.
  by destruct (JS.trim (message_text message)).
Qed.

Lemma system_texts_other first rest :
  role first <> "system" -> system_texts (first :: rest) = [].
Proof.
  intros Hrole. cbn [system_texts].
  destruct (JS.eq (role first) "system") eqn:Heq; [|done].
  by apply String.eqb_eq in Heq.
Qed.

Lemma after_system_prefix systems first rest :
  Forall (fun message => role message = "system") systems ->
  role first <> "system" ->
  after_system (systems ++ first :: rest) = Some (first :: rest).
Proof.
  intros Hsystems Hfirst.
  induction systems as [|message systems IH].
  - cbn [app after_system].
    destruct (JS.eq (role first) "system") eqn:Heq; [|done].
    by apply String.eqb_eq in Heq.
  - apply Forall_cons in Hsystems as [Hrole Hrest].
    cbn [app after_system]. rewrite Hrole. by apply IH.
Qed.

Lemma after_system_all systems :
  Forall (fun message => role message = "system") systems ->
  after_system systems = None.
Proof.
  induction 1 as [|message systems Hrole _ IH]; [done|].
  cbn [after_system]. by rewrite Hrole.
Qed.

Lemma session_prefix sha256_hex uuid systems rest :
  Forall (fun message => role message = "system") systems ->
  OpenAIRequest.deriveSessionId sha256_hex uuid
    (session_message <$> (systems ++ rest)) =
  OpenAIRequest.deriveSessionId sha256_hex uuid (session_message <$> rest).
Proof.
  induction 1 as [|message systems Hrole _ IH]; [done|].
  cbn [app fmap list_fmap OpenAIRequest.deriveSessionId].
  cbn [session_message OpenAIRequest.role]. by rewrite Hrole.
Qed.

Lemma system_turns now JSON_parse_args match_data_url thinking modelName
    sessionId systems :
  Forall (fun message => role message = "system") systems ->
  forall turns c,
  foldl (convert_message now JSON_parse_args match_data_url thinking modelName
           sessionId) (Some turns, c) systems =
  (Some (turns ++ (user_turn match_data_url <$> systems)), c).
Proof.
  induction 1 as [|message systems Hrole _ IH]; intros turns c.
  - by rewrite List.app_nil_r.
  - cbn [foldl convert_message]. rewrite Hrole.
    change (JS.eq "system" "user" || JS.eq "system" "system") with true.
    cbv iota. rewrite IH. unfold pushUserMessage.
    by rewrite <- List.app_assoc.
Qed.

End SystemFacts.

(** [X29] The system messages that a conversation starts with are sent
    as the system instruction and as nothing else: the request that
    [convertOpenAIToGoogle] builds is the one it builds without them, but
    for the instruction, which is made of their texts.  A conversation of
    system messages only is different: it has no message to stop at, and
    each of its messages is sent as a user turn as well. *)
Theorem openai_system_messages
    (sha256_hex : string -> string) (now : Z)
    (session_uuid request_uuid : string)
    (JSON_parse_args : string -> option string)
    (match_data_url : string -> option (string * string))
    (sanitizeSchema : ToolConverter.Schema -> option ToolConverter.Schema)
    (cleanSchemaForGemini : ToolConverter.Schema -> ToolConverter.Schema)
    (openaiRequest : OpenAIConvert.ChatRequest) (projectId : string)
    (c : caches) (systems : list OpenAIConvert.Message)
    (first : OpenAIConvert.Message) (rest : list OpenAIConvert.Message) :
  let convert messages :=
    OpenAIConvert.convertOpenAIToGoogle sha256_hex now session_uuid
      request_uuid JSON_parse_args match_data_url sanitizeSchema
      cleanSchemaForGemini (ChatSpec.with_messages openaiRequest messages)
      projectId c in
  Forall (fun message => OpenAIConvert.role message = "system") systems ->
  (OpenAIConvert.role first <> "system" ->
   convert (systems ++ first :: rest) =
   (ChatSpec.with_system (ChatSpec.instruction systems) <$>
      fst (convert (first :: rest)),
    snd (convert (first :: rest)))) /\
  exists body c',
    convert systems = (Some body, c') /\
    OpenAIConvert.contents (OpenAIConvert.request body) =
      (ChatSpec.user_turn match_data_url <$> systems) /\
    ChatSpec.with_system (ChatSpec.instruction systems) body = body.
Proof.
  intros convert Hsystems. subst convert. cbv beta. split.
  - intros Hfirst. unfold OpenAIConvert.convertOpenAIToGoogle.
    cbn [ChatSpec.with_messages OpenAIConvert.r_messages
         OpenAIConvert.r_model OpenAIConvert.r_tools
         OpenAIConvert.r_max_tokens OpenAIConvert.r_temperature
         OpenAIConvert.r_top_p OpenAIConvert.r_stop
         OpenAIConvert.r_reasoning_effort].
    rewrite SystemFacts.session_prefix by done.
    unfold OpenAIConvert.filteredMessages.
    rewrite (SystemFacts.after_system_prefix systems first rest) by done.
    pose proof (SystemFacts.after_system_prefix [] first rest
                  (List.Forall_nil _) Hfirst) as Hnone.
    cbn [app] in Hnone. rewrite Hnone. clear Hnone.
    unfold OpenAIConvert.extractSystemInstruction.
    rewrite SystemFacts.system_texts_prefix by done.
    rewrite !SystemFacts.system_texts_other by done.
    rewrite List.app_nil_r. fold (ChatSpec.instruction systems).
    cbn [default].
    destruct (OpenAIConvert.openaiMessagesToAntigravity _ _ _ _ _ _ _ _)
      as [[turns|] c1]; [|done].
    by destruct (OpenAIConvert.convertOpenAIToolsToAntigravity _ _ _ _ _ _ _).
  - unfold OpenAIConvert.convertOpenAIToGoogle.
    cbn [ChatSpec.with_messages OpenAIConvert.r_messages
         OpenAIConvert.r_model OpenAIConvert.r_tools
         OpenAIConvert.r_max_tokens OpenAIConvert.r_temperature
         OpenAIConvert.r_top_p OpenAIConvert.r_stop
         OpenAIConvert.r_reasoning_effort].
    unfold OpenAIConvert.filteredMessages.
    rewrite SystemFacts.after_system_all by done. cbn [default].
    unfold OpenAIConvert.openaiMessagesToAntigravity.
    rewrite SystemFacts.system_turns by done.
    destruct (OpenAIConvert.convertOpenAIToolsToAntigravity _ _ _ _ _ _ _)
      as [converted names].
    assert (Hinstruction :
      OpenAIConvert.extractSystemInstruction systems =
      ChatSpec.instruction systems).
    { unfold OpenAIConvert.extractSystemInstruction.
      rewrite <- (List.app_nil_r systems) at 1.
      rewrite SystemFacts.system_texts_prefix by done.
      cbn [OpenAIConvert.system_texts]. by rewrite List.app_nil_r. }
    rewrite Hinstruction.
    eexists _, _. split; [reflexivity|]. split; reflexivity.
Qed.

Lemma openai_system_messages_witness :
  let convert messages :=
    OpenAIConvert.convertOpenAIToGoogle (fun text => text) 0 "session"
      "request" Some (fun _ => None) Some (fun schema => schema)
      (ChatSpec.with_messages (ChatExample.chat "gemini-3-pro") messages)
      "project" ChatExample.fresh in
  OpenAIConvert.systemInstruction
    <$> (OpenAIConvert.request <$> fst (convert ChatExample.messages))
  = Some (Some "Be brief.") /\
  (OpenAIConvert.contents <$>
     (OpenAIConvert.request <$> fst (convert ChatExample.messages))) =
  (OpenAIConvert.contents <$>
     (OpenAIConvert.request <$> fst (convert (tail ChatExample.messages)))).
Proof.
  intros convert.
  destruct (openai_system_messages (fun text => text) 0 "session"
              "request" Some (fun _ => None) Some (fun schema => schema)
              (ChatExample.chat "gemini-3-pro") "project" ChatExample.fresh
              [ChatExample.plain "system" "Be brief."]
              (ChatExample.plain "user" "Weather in Paris?")
              (tail (tail ChatExample.messages))) as [Hprefix _].
  { by repeat constructor. }
  specialize (Hprefix ltac:(discriminate)).
  change (convert ChatExample.messages =
          (ChatSpec.with_system
             (ChatSpec.instruction [ChatExample.plain "system" "Be brief."])
             <$> fst (convert (tail ChatExample.messages)),
           snd (convert (tail ChatExample.messages)))) in Hprefix.
  rewrite Hprefix. cbn [fst].
  destruct (fst (convert (tail ChatExample.messages))) as [body|] eqn:Hbody.
  - split; reflexivity.
  - vm_compute in Hbody. discriminate.
Defined.

(** ** Logins to the admin panel *)

Module LoginFacts.
Import Admin LoginSpec.

Section Login.

Variable generateToken : string -> string.
Variable credentials : Credentials.

Lemma login_checked now later req attempts attempts1 passed :
  checkLoginRateLimit now (getClientIP req) attempts = (Allowed, attempts1) ->
  checked credentials req = Some passed ->
  login generateToken credentials now later req attempts =
  if passed
  then (LoggedIn (generateToken (default "" (username req))),
        recordLoginAttempt later (getClientIP req) true attempts1)
  else (InvalidCredentials "Invalid username or password",
        recordLoginAttempt later (getClientIP req) false attempts1).
Proof.
  unfold login, checked. intros ->.
  destruct (username req) as [[|a name]|]; [done| |done].
  destruct (password req) as [[|b word]|]; [done| |done].
  rewrite !(Nat.ltb_antisym _ 100), <- negb_andb.
  destruct (_ && _); [|done]. cbn [negb]. intros [= <-].
  by destruct (validateCredentials _ _ _).
Qed.

Lemma login_refused now later req attempts seconds :
  checkLoginRateLimit now (getClientIP req) attempts
    = (Refused seconds, attempts) ->
  login generateToken credentials now later req attempts =
  (TooManyAttempts seconds, attempts).
Proof. unfold login. by intros ->. Qed.

(** A failure of a client that is known and not blocked. *)
Lemma failure_counted client try attempts attempt :
  failure credentials client try ->
  attempts !! client = Some attempt ->
  blockedUntil attempt = None ->
  at_check try - lastAttempt attempt <= ATTEMPT_WINDOW ->
  snd (login generateToken credentials (at_check try) (at_record try)
         (sent try) attempts) =
  <[client :=
      {| count := count attempt + 1;
         lastAttempt := at_record try;
         blockedUntil :=
           if MAX_LOGIN_ATTEMPTS <=? count attempt + 1
           then Some (at_record try + BLOCK_DURATION) else None |}]> attempts.
Proof.
  intros (Hclient & Hchecked & _) Hattempt Hfree Hwindow.
  destruct attempt as [c last till]. cbn [blockedUntil lastAttempt count] in *.
  subst till.
  rewrite (login_checked _ _ _ _ attempts false); [| |done].
  - cbn [snd]. unfold recordLoginAttempt. rewrite Hclient, Hattempt.
    reflexivity.
  - unfold checkLoginRateLimit. rewrite Hclient, Hattempt.
    cbn [blockedUntil lastAttempt].
    by rewrite (proj2 (Z.ltb_ge _ _) Hwindow).
Qed.

Lemma failure_first client try attempts :
  failure credentials client try ->
  attempts !! client = None ->
  snd (login generateToken credentials (at_check try) (at_record try)
         (sent try) attempts) =
  <[client := {| count := 1; lastAttempt := at_record try;
                 blockedUntil := None |}]> attempts.
Proof.
  intros (Hclient & Hchecked & _) Hattempt.
  rewrite (login_checked _ _ _ _ attempts false); [| |done].
  - cbn [snd]. unfold recordLoginAttempt. by rewrite Hclient, Hattempt.
  - unfold checkLoginRateLimit. by rewrite Hclient, Hattempt.
Qed.

Lemma after_cons try rest attempts :
  after generateToken credentials (try :: rest) attempts =
  after generateToken credentials rest
    (snd (login generateToken credentials (at_check try) (at_record try)
            (sent try) attempts)).
Proof. reflexivity. Qed.

(** The entry of a client after failures that bring its count to five
    at most. *)
Lemma failures_counted client tries :
  forall attempts c before,
  attempts !! client =
    Some {| count := c; lastAttempt := before; blockedUntil := None |} ->
  Forall (failure credentials client) tries ->
  spaced (Some before) tries ->
  c < 5 -> c + Z.of_nat (length tries) <= 5 ->
  let recorded := default before (at_record <$> last tries) in
  after generateToken credentials tries attempts !! client =
  Some {| count := c + Z.of_nat (length tries);
          lastAttempt := recorded;
          blockedUntil :=
            if c + Z.of_nat (length tries) <? 5 then None
            else Some (recorded + BLOCK_DURATION) |}.
Proof.
  induction tries as [|try rest IH]; intros attempts c before Hentry Hfail
    Hspaced Hc Hfive recorded.
  { subst recorded. cbn [length last fmap option_fmap option_map default after
                         foldl].
    rewrite Hentry, Z.add_0_r. by rewrite (proj2 (Z.ltb_lt _ _) Hc). }
  apply Forall_cons in Hfail as [Htry Hrest].
  destruct Hspaced as [Hwindow Hspaced].
  rewrite after_cons.
  rewrite (failure_counted client try attempts _ Htry Hentry eq_refl Hwindow).
  cbn [count]. unfold MAX_LOGIN_ATTEMPTS.
  assert (Hlen : Z.of_nat (length (try :: rest)) =
                 1 + Z.of_nat (length rest)) by (cbn [length]; lia).
  rewrite Hlen in *.
  assert (Hrecorded : recorded =
                      default (at_record try) (at_record <$> last rest)).
  { subst recorded. rewrite last_cons. by destruct (last rest). }
  destruct (5 <=? c + 1) eqn:Hlast.
  - apply Z.leb_le in Hlast. destruct rest as [|next rest]; [|cbn in Hfive; lia].
    unfold after. cbn [foldl]. rewrite lookup_insert_eq. rewrite Hrecorded.
    cbn [length last fmap option_fmap option_map default].
    replace (c + (1 + Z.of_nat 0)) with 5 by (cbn; lia).
    replace (c + 1) with 5 by lia. done.
  - apply Z.leb_gt in Hlast.
    rewrite (IH _ (c + 1) (at_record try)); try done; try lia.
    + rewrite <- Hrecorded. by rewrite Z.add_assoc.
    + by rewrite lookup_insert_eq.
Qed.

(** The entry of a client that was not known, after failures. *)
Lemma failures_from_none client tries attempts :
  attempts !! client = None ->
  Forall (failure credentials client) tries ->
  spaced None tries ->
  (length tries <= 5)%nat ->
  after generateToken credentials tries attempts !! client =
  match last tries with
  | None => None
  | Some final =>
      Some {| count := Z.of_nat (length tries);
              lastAttempt := at_record final;
              blockedUntil :=
                if Z.of_nat (length tries) <? 5 then None
                else Some (at_record final + BLOCK_DURATION) |}
  end.
Proof.
  intros Hnone Hfail Hspaced Hfive.
  destruct tries as [|try rest]; [done|].
  apply Forall_cons in Hfail as [Htry Hrest]. destruct Hspaced as [_ Hspaced].
  rewrite after_cons, (failure_first client try attempts Htry Hnone).
  cbn [length] in Hfive.
  rewrite (failures_counted client rest _ 1 (at_record try)); try done;
    try lia; [|by rewrite lookup_insert_eq].
  rewrite last_cons.
  replace (Z.of_nat (length (try :: rest)))
    with (1 + Z.of_nat (length rest)) by (cbn [length]; lia).
  by destruct (last rest).
Qed.

Lemma ceil_seconds_bounds milliseconds :
  0 < milliseconds <= BLOCK_DURATION ->
  1 <= ceil_seconds milliseconds <= 300.
Proof.
  unfold ceil_seconds, BLOCK_DURATION. intros Hms.
  assert (-300 <= - milliseconds / 1000).
  { apply Z.div_le_lower_bound; lia. }
  assert (- milliseconds / 1000 < 0).
  { apply Z.div_lt_upper_bound; lia. }
  lia.
Qed.

End Login.

End LoginFacts.

(** [X30] The rate limit of the admin login.  When a client that has no
    entry fails to log in, each time no more than fifteen minutes after
    the time before, then after fewer than five failures a login with the
    right credentials succeeds at any time and clears the entry; after
    five failures every login of that client is refused for five minutes
    from the fifth, whatever credentials it sends, and leaves the entries
    as they are, and the time to wait that it is told is between one
    second and three hundred. *)
Theorem login_blocked_after_five_failures
    (generateToken : string -> string) (credentials : Admin.Credentials)
    (client : string) (loginAttempts : gmap string Admin.Attempt)
    (tries : list LoginSpec.Try) :
  loginAttempts !! client = None ->
  Forall (LoginSpec.failure credentials client) tries ->
  LoginSpec.spaced None tries ->
  let attempts := LoginSpec.after generateToken credentials tries loginAttempts in
  let blocked := default 0 (LoginSpec.at_record <$> last tries) in
  (forall now later req,
     (length tries < 5)%nat ->
     Admin.getClientIP req = client ->
     LoginSpec.checked credentials req = Some true ->
     Admin.login generateToken credentials now later req attempts =
     (Admin.LoggedIn (generateToken (default "" (Admin.username req))),
      delete client attempts)) /\
  (forall now later req,
     length tries = 5%nat ->
     Admin.getClientIP req = client ->
     now < blocked + Admin.BLOCK_DURATION ->
     exists retryAfter,
       Admin.login generateToken credentials now later req attempts =
       (Admin.TooManyAttempts retryAfter, attempts) /\
       (blocked <= now -> 1 <= retryAfter <= 300)).
Proof.
  intros Hnone Hfail Hspaced attempts blocked. split.
  - intros now later req Hfew Hclient Hright.
    pose proof (LoginFacts.failures_from_none generateToken credentials client
                  tries loginAttempts Hnone Hfail Hspaced ltac:(lia))
      as Hentry.
    fold attempts in Hentry.
    assert (Hcheck : exists attempts1,
      Admin.checkLoginRateLimit now (Admin.getClientIP req) attempts =
        (Admin.Allowed, attempts1) /\
      delete client attempts1 = delete client attempts).
    { unfold Admin.checkLoginRateLimit. rewrite Hclient, Hentry.
      destruct (last tries) as [final|]; [|by eexists].
      cbn [Admin.blockedUntil Admin.lastAttempt].
      rewrite (proj2 (Z.ltb_lt (Z.of_nat (length tries)) 5)) by lia.
      destruct (Admin.ATTEMPT_WINDOW <? _); eexists; (split; [reflexivity|]);
        [by rewrite delete_delete_eq|done]. }
    destruct Hcheck as (attempts1 & Hcheck & Hdelete).
    rewrite (LoginFacts.login_checked _ _ _ _ _ _ _ true Hcheck Hright).
    unfold Admin.recordLoginAttempt. by rewrite Hclient, Hdelete.
  - intros now later req Hfive Hclient Hnow.
    pose proof (LoginFacts.failures_from_none generateToken credentials client
                  tries loginAttempts Hnone Hfail Hspaced ltac:(lia))
      as Hentry.
    fold attempts in Hentry. subst blocked.
    destruct (last tries) as [final|] eqn:Hfinal;
      [|apply last_None in Hfinal; by subst tries].
    cbn [fmap option_fmap option_map default from_option id] in *.
    assert (Hrecorded : 0 <= LoginSpec.at_record final).
    { apply last_Some in Hfinal as [before ->].
      apply Forall_app in Hfail as [_ Hlast%Forall_inv]. apply Hlast. }
    rewrite Hfive in Hentry. change (Z.of_nat 5 <? 5) with false in Hentry.
    cbv iota in Hentry.
    exists (Admin.ceil_seconds
              (LoginSpec.at_record final + Admin.BLOCK_DURATION - now)).
    split.
    + apply LoginFacts.login_refused. unfold Admin.checkLoginRateLimit.
      rewrite Hclient, Hentry. cbn [Admin.blockedUntil default from_option id].
      rewrite (proj2 (Z.ltb_lt _ _) Hnow).
      destruct (_ =? 0) eqn:Hzero; [|done].
      apply Z.eqb_eq in Hzero. unfold Admin.BLOCK_DURATION in Hzero. lia.
    + intros Hlater. apply LoginFacts.ceil_seconds_bounds.
      unfold Admin.BLOCK_DURATION in *. lia.
Qed.

Lemma login_blocked_after_five_failures_witness :
  let attempts :=
    LoginSpec.after (fun name => name) LoginExample.credentials
      LoginExample.guesses ∅ in
  Admin.login (fun name => name) LoginExample.credentials 6000 6001
    (LoginExample.guess "secret") attempts =
  (Admin.TooManyAttempts 300, attempts).
Proof.
  intros attempts.
  destruct (login_blocked_after_five_failures (fun name => name)
              LoginExample.credentials "10.0.0.7" ∅ LoginExample.guesses)
    as [_ Hblocked].
  - reflexivity.
  - repeat constructor; vm_compute; congruence.
  - vm_compute. intuition congruence.
  - destruct (Hblocked 6000 6001 (LoginExample.guess "secret"))
      as (retryAfter & Hlogin & _); [reflexivity|reflexivity|reflexivity|].
    fold attempts in Hlogin. rewrite Hlogin. f_equal.
    vm_compute in Hlogin. by injection Hlogin as <-.
Defined.
